(* ===== verification/_CoqProject ===== *)
-Q . S2P
Prelude.v
Monad.v
Trace.v
TraceProofs.v
TraceAlloc.v
P2m.v
P2mProofs.v
HapPool.v
HapPoolProofs.v
Ept.v
EptRep.v
EptOps.v
EptProofs.v
EptSet.v
EptClaims.v
Altp2m.v
Altp2mProofs.v
Altp2mSwitch.v
Altp2mInv.v
Altp2mTables.v
Altp2mSystem.v
Altp2mHap.v
Altp2mClaims.v
Altp2mFrame.v
P2mInit.v
P2mInitProofs.v
VmEvent.v
VmEventProofs.v
VmEventSystem.v
VmEventFrame.v
VmEventClaims.v
MemAccess.v
MemAccessProofs.v
MemEvents.v
NestedFault.v
FaultEvents.v
Monitor.v
MonitorProofs.v
MemEventClaims.v
Frames.v
FramesProofs.v
Physmap.v
Paging.v
PagingProofs.v
PagingOps.v
PagingSystem.v
PagingClaims.v
PagingExamples.v
EptPaging.v
PhysmapProofs.v
Balloon.v
FrameTypes.v
MemoryExamples.v
Perception.v
PerceptionProofs.v
Xentrace.v
XentraceArgs.v
XentraceProofs.v
XentraceArgsProofs.v
XentraceClaims.v
