(* ===== verification/Prelude.v ===== *)
(** * VMI as a service: alternate views, VMFUNC perception and tracing

    The program is Xen 4.6.0 with additions that turn a guest's VMFUNC
    instruction into a request for memory introspection.  A guest switches its
    own EPT view without leaving to the hypervisor; the hypervisor notices the
    switch at the guest's next RDTSC, writes a trace record with the domain and
    the view, and xentrace, in dom0, starts the scanner on that domain and view.
    This library models the code along that path, from the page tables of the
    views to the option parser of xentrace.

    ** The parts and how they interact (paths under src/)

    - hvm_altp2m_prepare_for_vmfunc_test/altp2m_create_altp2ms.c runs in the
      guest and asks the hypervisor for views with HVMOP_altp2m.
    - xen-4.6.0/xen/arch/x86/hvm/hvm.c do_altp2m_op() serves it with the
      routines of mm/p2m.c, mm/altp2m.c, hvm/vmx/vmx.c; mm/hap/hap.c
      hap_enable() prepares the tables of the views when the domain is made.
    - mm/p2m.c p2m_init() makes the structures of the tables; a table itself is
      a tree of page frames kept by mm/p2m-ept.c, whose frames come from the
      pool of mm/hap/hap.c.
    - A helper in another domain restricts the access to guest frames
      (common/mem_access.c, mm/p2m.c) and subscribes to events (monitor.c).  A
      guest access against the rights ends in hvm.c
      hvm_hap_nested_page_fault(), other events in hvm/event.c; both put a
      request on a ring shared with the helper (common/vm_event.c), pause the
      vCPU, and sleep when the ring is full (common/wait.c).  The helper's
      response says whether to emulate, to switch the view, to single-step.
    - Another helper, the pager, takes guest memory away and brings it back
      (mm/p2m.c p2m_mem_paging_*(), mm/mem_paging.c) with requests on a ring of
      the same kind; guests give memory back (common/memory.c).  Both change
      the physical map of the domain (mm/p2m.c guest_physmap_*()) and the
      machine frames behind it (arch/x86/mm.c, common/page_alloc.c).
    - switch_on/switch_on_off.c issues the two hypercalls that turn RDTSC exits
      on and off for every HVM domain; hvm.c hvm_rdtsc_intercept() compares the
      current view with the last one reported and traces a difference.
    - xen/common/trace.c keeps one ring of records per CPU in shared pages.
    - tools/xentrace/xentrace.c, through tools/libxc/xc_tbuf.c and xc_misc.c,
      drains the rings into a file or a memory buffer and runs the scanner.

    ** Where each part is modelled

    - Monad.v: the state monad with a fatal outcome ([None]: BUG_ON, ASSERT, a
      NULL dereference, exit()), its total weakest precondition [wp], and
      [Keeps], that an operation leaves a part of the state alone.
    - Trace.v: trace.c.  [tstate] has the globals, the per-CPU variables and the
      shared pages as words of memory; [__trace_var], [__insert_record],
      [insert_wrap_record], [insert_lost_records], [alloc_trace_bufs],
      [tb_control], ... carry the names of the functions they translate.
      TraceProofs.v: the ring is a FIFO of records.  TraceAlloc.v: starting,
      sizing and failing to start.
    - P2m.v: the generic layer of mm/p2m.c over the class [P2MTable], which is
      the pair of function pointers get_entry/set_entry, with its contract
      [P2MTableLaws].  P2mProofs.v: what holds over any lawful table.
    - HapPool.v, HapPoolProofs.v: the pool of page-table pages of hap.c.
    - Ept.v: p2m-ept.c on frames of 512 entries.  EptRep.v: when frames form a
      tree, and what a tree translates.  EptOps.v, EptProofs.v, EptSet.v:
      specifications of the steps, of lookups and of ept_set_entry().
      EptClaims.v: the contract, and the instance [ept_laws] of [P2MTableLaws]
      which it discharges.
    - Altp2m.v: one domain with its vCPUs, views and EPTP list, and every
      operation on views.  Altp2mProofs.v: the invariant [altp2m_inv].
      Altp2mSwitch.v, Altp2mInv.v, Altp2mTables.v: each operation keeps it.
      Altp2mSystem.v: hypercalls, handlers and the guest as a step relation.
      Altp2mHap.v: hap_enable() establishes the invariant.  Altp2mFrame.v: what
      no operation changes.  Altp2mClaims.v: functional behaviour.
    - P2mInit.v, P2mInitProofs.v: making and destroying the p2m structures of a
      domain, on every failure path.
    - VmEvent.v: one event ring with its slots, wait queue and pauses
      (vm_event.c, wait.c, public/io/ring.h); [vst] is the domain of Altp2m.v
      with the ring and the vCPUs' event state.  VmEventProofs.v: its steps.
      VmEventSystem.v: vCPUs, other domains and a helper as a step relation
      with the invariant [inv].  VmEventFrame.v: what the ring leaves alone, and
      the account of the pauses.  VmEventClaims.v: what a ring promises.
    - MemAccess.v: access rights, the check of a violation, the handling of
      responses (p2m.c, mem_access.c, vm_event.c).  MemAccessProofs.v,
      MemEvents.v: their theorems.  NestedFault.v, FaultEvents.v: the EPT
      violation handler of hvm.c, and the way from a fault to an event.
    - Monitor.v, MonitorProofs.v: the three rings of a domain with
      vm_event_domctl(), the monitor options and the events of hvm/event.c.
      MemEventClaims.v: all of this on concrete domains.
    - Frames.v: machine frames with counts, types and owners, and the heap;
      [pgd] is the domain of VmEvent.v with the frame table.  Physmap.v: the
      physical map, where the host table is written by the loop of P2m.v and
      changes are propagated to the views as in MemAccess.v.  Paging.v: the
      pager's calls, requests for paged-out memory, and guest_remove_page().
      FramesProofs.v, PagingProofs.v, PagingOps.v: rules for each, the laws
      [P2MPagingLaws] of a table that holds entries without a frame, and the
      invariant [paging_inv].  PagingSystem.v: the life of a guest frame, which
      is the specification, and the step relation.  PagingClaims.v,
      PhysmapProofs.v, Balloon.v, FrameTypes.v: what holds.  EptPaging.v: EPT
      keeps the laws.  PagingExamples.v, MemoryExamples.v: concrete domains.
    - Perception.v, PerceptionProofs.v: the RDTSC intercept, its switch and the
      two kernel modules.
    - Xentrace.v: draining, writing, the memory buffer, the scanner and the main
      loop.  XentraceArgs.v: the command line and main().  XentraceProofs.v,
      XentraceArgsProofs.v, XentraceClaims.v: their theorems, and the path from
      the guest's instruction to the scanner.

    ** What the theorems show

    - Views: from a prepared domain, under any interleaving of guest VMFUNC
      instructions, VM exits, hypercalls and handlers, no operation stops the
      hypervisor, every vCPU is counted in exactly the view it is in, and the
      EPTP in its VMCS belongs to a live view ([altp2m_reachable_safe]).  Each
      hypercall has a specification of its result and effect on all branches.
    - Tables: [p2m_set_entry] maps exactly the block it is asked for whatever
      superpages it uses; [ept_set_entry] refines a function from guest frames
      to entries, keeps the tree without sharing, and accounts for every frame;
      the generic layer holds over EPT through the interface.
    - Structures and pages: a domain gets all of its p2m structures or none, and
      its page-table pages return to the heap.
    - Events: whatever vCPUs, other domains and a helper that answers each
      request once do, the ring's assertions hold, its slots are never
      overcommitted and no wake-up is lost ([vm_event_ring_safe],
      [idle_ring_wakes_all]); an access a view forbids becomes the next request
      with the vCPU paused; handling the responses ends and keeps the
      invariants of ring and views whatever the responses say; rights set on a
      range, wherever the hypercall is preempted, are what a query reports.
    - Memory: every paging step of the code is a step of the life of one guest
      frame, resident, going, gone, coming, resident, and no call of the pager
      stops the hypervisor ([paging_refines_life]); no machine frame backs two guest
      frames or is free while it backs one, and the counter of paged-out frames
      is right ([paging_frames_safe]); contents come back
      ([page_out_and_back]); a vCPU that needs a frame asks and waits; a frame
      somebody holds a reference to is not taken.  Adding a frame to the
      physical map keeps the two tables inverse to each other.  Whatever calls
      are made, no frame is freed twice ([frames_stay_typed]).
    - Trace rings: a record is appended whole or counted as lost; starting tracing
      builds disjoint empty rings or gives every page back.
    - xentrace: a visit drains exactly what is unread while the hypervisor
      appends; after a signal the last passes write all of it and the program
      ends; a VMFUNC is followed by one run of the scanner with its domain and
      view; the parsers of masks mean what the notation says and stay in bounds.
    - Where the code departs from what it means to do, a theorem states what it
      does: views that keep old entries, views that are leaked, view changes
      that are missed or invented, arguments rejected but used, vCPUs left
      paused, emulation requests dropped, rings that break each other, frames
      that are lost when a guest gives them back at the wrong moment, reads
      and writes past the end of buffers.

    ** Conventions, bounds and fuel

    Machine integers are [Z] with the wrap-around of their width written out
    ([u8] ... [s64] below).  Definitions are executable; what other code or the
    hardware decides (allocations, time stamps, system calls, preemption) is an
    argument.  Loops that are not structural take fuel, and the theorems are
    total, so they show that the fuel is enough:
    - [p2m_set_entry_loop] has fuel [todo], as every piece maps a frame or more;
    - [get_descend] has one per level of the table and the number of times that
      populate-on-demand may retry, an argument of [ept_get_entry];
    - [set_allocation_loop] has one more than the distance from the size asked;
    - [change_range_loop] has three iterations per level: head, tail, next level;
    - [parse_ranges] has one more than the length of the string;
    - [free_windows] and [skip_to_lower_cpu] take the fuel of their caller, as
      the number of windows in the memory buffer bounds them;
    - [set_access_loop] counts the frames left, and [access_op_calls] has one
      call per frame and one more, as each call makes progress;
    - [resume_loop] has one more than the responses on the ring;
    - [wake_first] counts the waiters, [wake_blocked_loop] the vCPUs;
    - [host_set_loop] has the number of frames of the block, as
      [p2m_set_entry_loop]; the loops over a block of the physical map are
      structural in the list of its offsets;
    - [monitor_loop] takes one element of its input per wait, so a signal in the
      input ends it.
    Locks are not part of the states: a definition is the body of a critical
    section, and what runs between critical sections is explicit (pending VM
    exits in [vcpu_pause], records appended while xentrace drains, the steps of
    [Altp2mSystem.step], [VmEventSystem.step] and [PagingSystem.pstep]).
    The theorems on paging take as premise ([update_ok]) that a call which got
    as far as freeing or taking a frame could update the table: the code goes
    on after a failed update, and what it leaves then is among the findings.

    ** Not modelled

    The rest of Xen, which is the published release: scheduling, event channels,
    devices, shadow paging, the buddy allocator beneath the list of free frames
    and requests for more than one frame, the use of frames as page tables of
    PV guests (put_page_type() is an argument); in p2m.c, populating on demand,
    page sharing, ranges of log-dirty memory, foreign mappings and the nested
    tables in use; the instruction emulator; in trace.c the VIRQ to dom0 and the
    CPU-hotplug notifier; in p2m-ept.c the dumps and the page-modification log.  The functions of these
    that modelled code calls are arguments with stated hypotheses.  The test
    programs of exec_vmfunc/ are one instruction, [cpu_vmfunc] of Altp2m.v.  The
    vendored trees (qemu, newlib, firmware) are other programs. *)

From stdpp Require Export base tactics numbers list gmap fin_maps sorting.
From Stdlib Require Export ZArith Lia.

#[global] Set Default Goal Selector "1".
Open Scope Z_scope.

(** ** Record updates: [r <| field := v |>] and [r <| field ::= f |>] *)

Class Eta (R : Type) := eta : R -> R.
Class Setter {R T : Type} (proj : R -> T) := set : (T -> T) -> R -> R.
Arguments set {R T} proj {_} f r.

Ltac solve_setter :=
  match goal with
  | |- @Setter ?R ?T ?proj =>
      let e := constr:(_ : Eta R) in
      let e := eval hnf in e in
      match eval pattern proj in e with
      | ?body _ =>
          let s := eval cbv beta in
            (fun (f : T -> T) (r : R) => body (fun x => f (proj x)) r) in
          exact s
      end
  end.
#[export] Hint Extern 1 (Setter _) => solve_setter : typeclass_instances.

Declare Scope record_scope.
Open Scope record_scope.
Notation "r <| proj ::= f |>" := (set proj f r)
  (at level 1, f at level 99, left associativity,
   format "r <| proj  ::=  f |>") : record_scope.
Notation "r <| proj := v |>" := (set proj (fun _ => v) r)
  (at level 1, v at level 99, left associativity,
   format "r <| proj  :=  v |>") : record_scope.

(** ** Machine integers *)

Definition u8  (z : Z) : Z := z mod 2 ^ 8.
Definition u16 (z : Z) : Z := z mod 2 ^ 16.
Definition u32 (z : Z) : Z := z mod 2 ^ 32.
Definition u64 (z : Z) : Z := z mod 2 ^ 64.
Definition s32 (z : Z) : Z := (z + 2 ^ 31) mod 2 ^ 32 - 2 ^ 31.
Definition s64 (z : Z) : Z := (z + 2 ^ 63) mod 2 ^ 64 - 2 ^ 63.

#[global] Arguments u8 : simpl never.
#[global] Arguments u16 : simpl never.
#[global] Arguments u32 : simpl never.
#[global] Arguments u64 : simpl never.
#[global] Arguments s32 : simpl never.
#[global] Arguments s64 : simpl never.
#[global] Arguments Z.testbit : simpl never.

Definition PAGE_SHIFT : Z := 12.
Definition PAGE_SIZE : Z := 4096.

Lemma u32_small z : 0 <= z < 2 ^ 32 -> u32 z = z.
Proof. intros. unfold u32. by apply Z.mod_small. Qed.

Lemma u64_small z : 0 <= z < 2 ^ 64 -> u64 z = z.
Proof. intros. unfold u64. by apply Z.mod_small. Qed.

Lemma u32_range z : 0 <= u32 z < 2 ^ 32.
Proof. unfold u32. apply Z.mod_pos_bound. lia. Qed.

Lemma s32_small z : - 2 ^ 31 <= z < 2 ^ 31 -> s32 z = z.
Proof. intros. unfold s32. rewrite Z.mod_small; lia. Qed.

Lemma s32_u32 z : - 2 ^ 31 <= z < 2 ^ 31 -> s32 (u32 z) = z.
Proof.
  intros. unfold s32, u32.
  rewrite Zplus_mod_idemp_l. rewrite Z.mod_small; lia.
Qed.

(** ** Error numbers (xen/include/asm-x86/errno.h); a handler returns 0 or
    the negated number. *)
Definition EPERM : Z := 1.
Definition ENOENT : Z := 2.
Definition ESRCH : Z := 3.
Definition ENOMEM : Z := 12.
Definition EFAULT : Z := 14.
Definition EBUSY : Z := 16.
Definition EEXIST : Z := 17.
Definition ENODEV : Z := 19.
Definition EINVAL : Z := 22.
Definition ENOSPC : Z := 28.
Definition ENOSYS : Z := 38.
Definition EOPNOTSUPP : Z := 95.

(** ** Fatal checks: [None] is the hypervisor stopping in [BUG()]. *)
Definition BUG_ON (c : bool) : option unit := if c then None else Some tt.

Lemma BUG_ON_false c : c = false -> BUG_ON c = Some tt.
Proof. by intros ->. Qed.

(** ** Word-addressed memory *)
Definition rd (m : gmap Z Z) (a : Z) : Z := default 0 (m !! a).

Fixpoint mem_write (a : Z) (ws : list Z) (m : gmap Z Z) : gmap Z Z :=
  match ws with
  | [] => m
  | w :: ws' => mem_write (a + 1) ws' (<[a := w]> m)
  end.

Lemma rd_insert_eq (m : gmap Z Z) a w : rd (<[a := w]> m) a = w.
Proof. unfold rd. by rewrite lookup_insert_eq. Qed.

Lemma rd_insert_ne (m : gmap Z Z) a b w : a <> b -> rd (<[a := w]> m) b = rd m b.
Proof. intros. unfold rd. by rewrite lookup_insert_ne. Qed.

Lemma rd_mem_write_out ws : forall a m b,
  b < a \/ a + Z.of_nat (length ws) <= b -> rd (mem_write a ws m) b = rd m b.
Proof.
  induction ws as [|w ws IH]; intros a m b Hb; simpl in *; [done|].
  rewrite IH by lia. apply rd_insert_ne. lia.
Qed.

Lemma rd_mem_write_in ws : forall a m b,
  a <= b < a + Z.of_nat (length ws) ->
  rd (mem_write a ws m) b = nth (Z.to_nat (b - a)) ws 0.
Proof.
  induction ws as [|w ws IH]; intros a m b Hb; simpl in *; [lia|].
  destruct (decide (a = b)) as [->|Hne].
  - rewrite rd_mem_write_out by lia. rewrite rd_insert_eq.
    by replace (b - b) with 0 by lia.
  - rewrite IH by lia.
    by replace (Z.to_nat (b - a)) with (S (Z.to_nat (b - (a + 1)))) by lia.
Qed.

Lemma mem_write_app ws1 : forall a ws2 m,
  mem_write a (ws1 ++ ws2) m =
  mem_write (a + Z.of_nat (length ws1)) ws2 (mem_write a ws1 m).
Proof.
  induction ws1 as [|w ws1 IH]; intros a ws2 m; simpl.
  - f_equal; lia.
  - rewrite IH. f_equal; lia.
Qed.

(** ** Case analysis on the comparisons the code branches on *)
Ltac zbool :=
  repeat match goal with
  | H : (_ <? _) = true |- _ => apply Z.ltb_lt in H
  | H : (_ <? _) = false |- _ => apply Z.ltb_ge in H
  | H : (_ <=? _) = true |- _ => apply Z.leb_le in H
  | H : (_ <=? _) = false |- _ => apply Z.leb_gt in H
  | H : (_ =? _) = true |- _ => apply Z.eqb_eq in H
  | H : (_ =? _) = false |- _ => apply Z.eqb_neq in H
  | H : (_ && _) = true |- _ => apply andb_true_iff in H as [? ?]
  | H : (_ || _) = false |- _ => apply orb_false_iff in H as [? ?]
  | H : negb _ = true |- _ => apply negb_true_iff in H
  | H : negb _ = false |- _ => apply negb_false_iff in H
  end.

Ltac case_if E :=
  match goal with
  | |- context [if ?b then _ else _] => destruct b eqn:E
  end.

(** [lia] with quotients and remainders by constants. *)
Ltac dlia := Z.to_euclidean_division_equations; lia.

(** Split on every comparison of the goal. *)
Ltac zcases :=
  repeat (match goal with
  | |- context [?a <=? ?b] => destruct (Z.leb_spec a b)
  | |- context [?a <? ?b] => destruct (Z.ltb_spec a b)
  | |- context [?a =? ?b] => destruct (Z.eqb_spec a b)
  end; cbv iota); simpl.

(** ** Flags: testing, setting and clearing one bit of a control word *)
Lemma land_flag c n : 0 <= n -> (Z.land c (2 ^ n) =? 0) = negb (Z.testbit c n).
Proof.
  intros Hn. destruct (Z.eqb_spec (Z.land c (2 ^ n)) 0) as [E|E].
  - assert (H : Z.testbit (Z.land c (2 ^ n)) n = false) by (rewrite E; apply Z.bits_0).
    rewrite Z.land_spec, Z.pow2_bits_true, andb_true_r in H by done. by rewrite H.
  - destruct (Z.testbit c n) eqn:B; [done|]. exfalso. apply E.
    apply Z.bits_inj'. intros m Hm. rewrite Z.land_spec, Z.bits_0.
    destruct (decide (m = n)) as [->|]; [by rewrite B|].
    rewrite Z.pow2_bits_false by done. by rewrite andb_false_r.
Qed.

(** ** Pointwise change of one element of a list *)
Lemma lookup_alter_case {A} (f : A -> A) (l : list A) i j :
  alter f i l !! j = if decide (i = j) then f <$> l !! j else l !! j.
Proof.
  destruct (decide (i = j)) as [->|]; [apply list_lookup_alter_eq|].
  by apply list_lookup_alter_ne.
Qed.
