(* ===== verification/Monad.v ===== *)
(** * A state monad with a fatal outcome

    Hypervisor code updates a shared structure and either returns or brings
    the machine down ([BUG_ON], a NULL dereference).  [M S A] is a function
    from the structure to [Some (result, structure')] or to [None] for the
    fatal outcome.  [wp] is total: it excludes [None], so a proved triple also
    says that the code does not crash the hypervisor. *)

From S2P Require Import Prelude.

Definition M (S A : Type) : Type := S -> option (A * S).

Section Monad.
Context {S : Type}.

Definition ret {A} (a : A) : M S A := fun s => Some (a, s).
Definition bind {A B} (m : M S A) (k : A -> M S B) : M S B :=
  fun s => match m s with Some (a, s') => k a s' | None => None end.
Definition gets {A} (f : S -> A) : M S A := fun s => Some (f s, s).
Definition modify (f : S -> S) : M S unit := fun s => Some (tt, f s).
(** A dereference: fatal when the pointer is NULL or the index out of range. *)
Definition deref {A} (f : S -> option A) : M S A :=
  fun s => match f s with Some a => Some (a, s) | None => None end.
(** BUG_ON(c) *)
Definition bug_on (c : bool) : M S unit := fun s => if c then None else Some (tt, s).

(** for_each over the elements of a list. *)
Fixpoint for_each {A} (l : list A) (body : A -> M S unit) : M S unit :=
  match l with
  | [] => ret tt
  | a :: l' => bind (body a) (fun _ => for_each l' body)
  end.

Definition when (c : bool) (m : M S unit) : M S unit := if c then m else ret tt.

Definition wp {A} (m : M S A) (Q : A -> S -> Prop) (s : S) : Prop :=
  match m s with Some (a, s') => Q a s' | None => False end.

Lemma wp_ret {A} (a : A) Q s : Q a s -> wp (ret a) Q s.
Proof. done. Qed.

Lemma wp_bind {A B} (m : M S A) (k : A -> M S B) Q s :
  wp m (fun a s' => wp (k a) Q s') s -> wp (bind m k) Q s.
Proof. unfold wp, bind. by destruct (m s) as [[a s']|]. Qed.

Lemma wp_seq2 {A} (m1 m2 : M S unit) (k : M S A) Q s :
  wp (bind m1 (fun _ => m2)) (fun _ s' => wp k Q s') s ->
  wp (bind m1 (fun _ => bind m2 (fun _ => k))) Q s.
Proof.
  unfold wp, bind. destruct (m1 s) as [[[] s1]|]; [|done].
  by destruct (m2 s1) as [[[] s2]|].
Qed.

Lemma wp_gets {A} (f : S -> A) Q s : Q (f s) s -> wp (gets f) Q s.
Proof. done. Qed.

Lemma wp_modify f Q s : Q tt (f s) -> wp (modify f) Q s.
Proof. done. Qed.

Lemma wp_deref {A} (f : S -> option A) a Q s :
  f s = Some a -> Q a s -> wp (deref f) Q s.
Proof. unfold wp, deref. by intros ->. Qed.

Lemma wp_bug_on c Q s : c = false -> Q tt s -> wp (bug_on c) Q s.
Proof. unfold wp, bug_on. by intros ->. Qed.

Lemma wp_mono {A} (m : M S A) (Q Q' : A -> S -> Prop) s :
  wp m Q s -> (forall a s', Q a s' -> Q' a s') -> wp m Q' s.
Proof. unfold wp. destruct (m s) as [[a s']|]; eauto. Qed.

Lemma wp_conj {A} (m : M S A) (Q1 Q2 : A -> S -> Prop) s :
  wp m Q1 s -> wp m Q2 s -> wp m (fun a s' => Q1 a s' /\ Q2 a s') s.
Proof. unfold wp. by destruct (m s) as [[a s']|]. Qed.

Lemma wp_when (c : bool) (m : M S unit) Q s :
  (c = true -> wp m Q s) -> (c = false -> Q tt s) -> wp (when c m) Q s.
Proof. destruct c; simpl; intros H1 H2; [by apply H1 | by apply H2]. Qed.

(** The rule for loops: [I n] holds after [n] iterations. *)
Lemma wp_for_each {A} (l : list A) (body : A -> M S unit)
    (I : nat -> S -> Prop) (Q : unit -> S -> Prop) s :
  I 0%nat s ->
  (forall n a s', l !! n = Some a -> I n s' ->
     wp (body a) (fun _ s'' => I (Datatypes.S n) s'') s') ->
  (forall s', I (length l) s' -> Q tt s') ->
  wp (for_each l body) Q s.
Proof.
  revert I s. induction l as [|a l IH]; intros I s H0 Hstep Hend; simpl.
  - apply wp_ret. by apply Hend.
  - apply wp_bind. eapply wp_mono.
    { apply (Hstep 0%nat a s); [done | exact H0]. }
    intros [] s' HI. apply (IH (fun n => I (Datatypes.S n))); [exact HI | |].
    + intros n b s'' Hl. apply Hstep. done.
    + intros s'' HI'. by apply Hend.
Qed.

Lemma wp_run {A} (m : M S A) Q s :
  wp m Q s -> exists a s', m s = Some (a, s') /\ Q a s'.
Proof. unfold wp. destruct (m s) as [[a s']|]; [eauto | done]. Qed.

Lemma run_wp {A} (m : M S A) (Q : A -> S -> Prop) s a s' :
  m s = Some (a, s') -> wp m Q s -> Q a s'.
Proof. unfold wp. by intros ->. Qed.
End Monad.

Declare Scope monad_scope.
Delimit Scope monad_scope with monad.
Notation "'let!' x := m 'in' k" := (bind m (fun x => k))
  (at level 10, x pattern, m at level 100, k at level 200,
   format "'[v' let!  x  :=  m  in '/' k ']'") : monad_scope.
Notation "m ;; k" := (bind m (fun _ => k))
  (at level 100, right associativity) : monad_scope.

(** ** What an operation does not change

    [Keeps f m]: whenever [m] returns, the part [f] of the state is the same. *)

Section Keeps.
Context {S X : Type} (f : S -> X).

Definition Keeps {A} (m : M S A) : Prop := forall s a s', m s = Some (a, s') -> f s' = f s.

Lemma keeps_ret {A} (a : A) : Keeps (ret a).
Proof. intros s b s' E. unfold ret in E. by simplify_eq. Qed.
Lemma keeps_gets {A} (g : S -> A) : Keeps (gets g).
Proof. intros s b s' E. unfold gets in E. by simplify_eq. Qed.
Lemma keeps_deref {A} (g : S -> option A) : Keeps (deref g).
Proof. intros s b s' E. unfold deref in E. destruct (g s); by simplify_eq. Qed.
Lemma keeps_bug_on b : Keeps (bug_on b).
Proof. intros s c s' E. unfold bug_on in E. destruct b; by simplify_eq. Qed.
Lemma keeps_modify g : (forall s, f (g s) = f s) -> Keeps (modify g).
Proof. intros Hg s b s' E. unfold modify in E. by simplify_eq. Qed.
Lemma keeps_bind {A B} (m : M S A) (k : A -> M S B) :
  Keeps m -> (forall a, Keeps (k a)) -> Keeps (bind m k).
Proof.
  intros Hm Hk s b s' E. unfold bind in E. destruct (m s) as [[a s1]|] eqn:E1; [|done].
  rewrite (Hk a _ _ _ E). by apply Hm in E1.
Qed.
Lemma keeps_when b (m : M S unit) : Keeps m -> Keeps (when b m).
Proof. intros Hm. destruct b; [done|apply keeps_ret]. Qed.
Lemma keeps_for_each {A} (l : list A) (body : A -> M S unit) :
  (forall a, Keeps (body a)) -> Keeps (for_each l body).
Proof. intros Hb. induction l as [|a l IH]; simpl; [apply keeps_ret|]. by apply keeps_bind. Qed.

Lemma wp_keeps {A} (m : M S A) Q s :
  Keeps m -> wp m Q s -> wp m (fun a s' => Q a s' /\ f s' = f s) s.
Proof.
  intros Hm W. unfold wp in *. destruct (m s) as [[a s']|] eqn:E; [|done]. by apply Hm in E.
Qed.
End Keeps.

Lemma bind_inv {S A B} (m : M S A) (k : A -> M S B) s b s' :
  bind m k s = Some (b, s') -> exists a s1, m s = Some (a, s1) /\ k a s1 = Some (b, s').
Proof. unfold bind. destruct (m s) as [[a s1]|]; [eauto|done]. Qed.

Lemma keeps_via {S X Y A} (f : S -> X) (h : X -> Y) (m : M S A) :
  Keeps f m -> Keeps (fun s => h (f s)) m.
Proof. intros Hm s a s' E. by rewrite (Hm _ _ _ E). Qed.

Create HintDb keeps discriminated.

Ltac frame_step :=
  match goal with
  | |- Keeps _ (ret _) => apply keeps_ret
  | |- Keeps _ (gets _) => apply keeps_gets
  | |- Keeps _ (deref _) => apply keeps_deref
  | |- Keeps _ (bug_on _) => apply keeps_bug_on
  | |- Keeps _ (bind _ _) => apply keeps_bind; [|intros ?]
  | |- Keeps _ (when _ _) => apply keeps_when
  | |- Keeps _ (for_each _ _) => apply keeps_for_each; intros ?
  | |- Keeps _ (modify _) => apply keeps_modify; intros ?; try done
  | |- Keeps _ (if ?b then _ else _) => destruct b
  | |- Keeps _ (match ?x with _ => _ end) => destruct x
  end.
Ltac frame_tac := repeat first [solve [auto with keeps] | frame_step].

(** Loop counters: [iota n] is 0, 1, ..., n - 1. *)
Definition iota (n : nat) : list Z := Z.of_nat <$> seq 0 n.

Lemma iota_lookup n i : (i < n)%nat -> iota n !! i = Some (Z.of_nat i).
Proof. intros. unfold iota. rewrite list_lookup_fmap, lookup_seq_lt; done. Qed.

Lemma iota_lookup_Some n i z : iota n !! i = Some z -> z = Z.of_nat i /\ (i < n)%nat.
Proof.
  unfold iota. rewrite list_lookup_fmap. intros H.
  destruct (seq 0 n !! i) as [j|] eqn:E; simplify_eq/=.
  by apply lookup_seq in E as [-> ?].
Qed.

Lemma iota_length n : length (iota n) = n.
Proof. unfold iota. by rewrite length_fmap, length_seq. Qed.
