(* ===== verification/Trace.v ===== *)
(** * The trace buffers (xen/common/trace.c)

    The parameter-recording module of the service: per-CPU rings of
    variable-length records that Xen fills and that xentrace drains.  The
    state record holds the file's globals and per-CPU variables; memory is a
    map of 32-bit words ([mem], addressed by word), so that the t_buf header
    (cons at word 0, prod at word 1 of the first trace page) and the records
    live where the code puts them and the page-crossing copies of
    [__insert_record] are visible.

    Outside the file: the outcomes of the xenheap allocator ([heap]), the
    time-stamp counter ([get_cycles]), and the bytes of an uninitialised
    stack record ([uninit]) are inputs.  Spinlocks make each operation atomic
    on its CPU's buffer and have no other effect; printk is left out.
    [None] is a BUG_ON, or an ASSERT in a debug build ([debug]). *)

From S2P Require Import Prelude.

(** ** Constants (xen/include/public/trace.h, sysctl.h, config.h) *)
Definition NR_CPUS : Z := 256.
Definition TRACE_EXTRA_MAX : Z := 7.
Definition TRC_CLS_SHIFT : Z := 16.
Definition TRC_SUBCLS_SHIFT : Z := 12.
Definition TRC_GEN : Z := 0x0001f000.
Definition TRC_HVM_HANDLER : Z := 0x00082000.
Definition TRC_ALL : Z := 0x0ffff000.
Definition TRC_LOST_RECORDS : Z := TRC_GEN + 1.
Definition TRC_TRACE_WRAP_BUFFER : Z := TRC_GEN + 2.
Definition TRC_HVM_RDTSC : Z := TRC_HVM_HANDLER + 0x1a.
Definition TRC_HVM_VMFUNC : Z := TRC_HVM_HANDLER + 0x30.
Definition T_BUF_SIZE : Z := 8.
Definition LOST_REC_SIZE : Z := 4 + 8 + 16.
Definition PAGE_WORDS : Z := 1024.

Definition XEN_SYSCTL_TBUFOP_get_info : Z := 0.
Definition XEN_SYSCTL_TBUFOP_set_cpu_mask : Z := 1.
Definition XEN_SYSCTL_TBUFOP_set_evt_mask : Z := 2.
Definition XEN_SYSCTL_TBUFOP_set_size : Z := 3.
Definition XEN_SYSCTL_TBUFOP_enable : Z := 4.
Definition XEN_SYSCTL_TBUFOP_disable : Z := 5.

(** ** State *)

(** struct t_info: the size of each buffer in pages and, per CPU, where its
    list of page frames starts in the structure read as an array of u32. *)
Record t_info_t := mkTInfo {
  tbuf_size : Z;
  mfn_offset : gmap Z Z;
  mfn_list : gmap Z Z;
  t_info_mfn : Z
}.
#[export] Instance eta_t_info : Eta t_info_t := fun x =>
  mkTInfo (tbuf_size x) (mfn_offset x) (mfn_list x) (t_info_mfn x).

Record tstate := mkT {
  opt_tbuf_size : Z;
  opt_tevt_mask : Z;
  t_info : option t_info_t;
  t_info_pages : Z;
  t_bufs : gmap Z Z;                  (* per CPU: word address of the t_buf *)
  data_size : Z;
  t_buf_highwater : Z;
  lost_records : gmap Z Z;
  lost_records_first_tsc : gmap Z Z;
  tb_init_done : bool;
  tb_cpu_mask : gset Z;
  tb_event_mask : Z;
  mem : gmap Z Z;
  tasklet_scheduled : bool;           (* trace_notify_dom0_tasklet *)
  cycles_read : nat;                  (* calls of get_cycles() so far *)
  heap : list (option Z);             (* outcomes of the next allocations *)
  freed : list Z;
  shared_rw : list Z;
  shared_ro : list Z
}.
#[export] Instance eta_tstate : Eta tstate := fun x =>
  mkT (opt_tbuf_size x) (opt_tevt_mask x) (t_info x) (t_info_pages x) (t_bufs x)
      (data_size x) (t_buf_highwater x) (lost_records x)
      (lost_records_first_tsc x) (tb_init_done x) (tb_cpu_mask x)
      (tb_event_mask x) (mem x) (tasklet_scheduled x) (cycles_read x) (heap x)
      (freed x) (shared_rw x) (shared_ro x).

(** xen_sysctl_tbuf_op_t; the CPU mask is what xenctl_bitmap_to_cpumask makes
    of the guest's bitmap: an error or a mask. *)
Record tbuf_op := mkTbc {
  tbc_cmd : Z;
  tbc_cpu_mask : Z + gset Z;
  tbc_evt_mask : Z;
  tbc_buffer_mfn : Z;
  tbc_size : Z
}.
#[export] Instance eta_tbuf_op : Eta tbuf_op := fun x =>
  mkTbc (tbc_cmd x) (tbc_cpu_mask x) (tbc_evt_mask x) (tbc_buffer_mfn x) (tbc_size x).

(** The CPU an operation runs on and the vCPU current on it. *)
Record cpu_env := mkEnv { smp_processor_id : Z; cur_domid : Z; cur_vcpu : Z }.

Definition fit_to_type (size x : Z) : Z := (x + size - 1) / size.
Definition PFN_UP (x : Z) : Z := (x + PAGE_SIZE - 1) / PAGE_SIZE.
Definition mfn_to_virt (mfn : Z) : Z := mfn * PAGE_WORDS.
Definition gget (m : gmap Z Z) (k : Z) : Z := default 0 (m !! k).

Section Trace.
Context (debug : bool) (get_cycles : nat -> Z) (uninit : nat -> Z).
Context (online : list Z).            (* cpu_online_map, ascending *)

Definition ASSERT (c : bool) : option unit :=
  if debug && negb c then None else Some tt.

Definition num_online_cpus : Z := Z.of_nat (length online).

(** ** Allocation *)

Definition calc_tinfo_first_offset : Z :=
  let offset_in_bytes := 2 + 2 * NR_CPUS in
  fit_to_type 4 offset_in_bytes.

(** Returns the number of pages and the value stored to [t_info_pages]. *)
Definition calculate_tbuf_size (pages t_info_first_offset : Z) : Z * Z :=
  let max_cpus := num_online_cpus in
  let max_size := u32 (-1) in
  let max_pages := u16 (-1) in
  let max_mfn_offset := u16 (-1) in
  let max_size := max_size / PAGE_SIZE in
  let max_pages := if max_size <? max_pages then u16 max_size else max_pages in
  let max_mfn_offset := u16 (max_mfn_offset - t_info_first_offset) in
  let max_cpus := u32 (max_cpus - 1) in
  let max_mfn_offset :=
    if negb (max_cpus =? 0) then u16 (max_mfn_offset / max_cpus)
    else max_mfn_offset in
  let max_pages :=
    if max_mfn_offset <? max_pages then max_mfn_offset else max_pages in
  let pages := if max_pages <? pages then max_pages else pages in
  let t_info_words := u32 (num_online_cpus * pages * 4) in
  (pages, PFN_UP (t_info_first_offset + t_info_words)).

(** One call of alloc_xenheap_pages(): a frame number, or NULL. *)
Definition alloc_xenheap_pages (st : tstate) : option Z * tstate :=
  match heap st with
  | [] => (None, st)
  | r :: h => (r, st <| heap := h |>)
  end.

Definition set_mfn_list (idx mfn : Z) (st : tstate) : tstate :=
  st <| t_info ::= fmap (fun ti => ti <| mfn_list ::= <[idx := mfn]> |>) |>.
Definition set_mfn_offset (cpu off : Z) (st : tstate) : tstate :=
  st <| t_info ::= fmap (fun ti => ti <| mfn_offset ::= <[cpu := off]> |>) |>.
Definition get_mfn_list (st : tstate) (idx : Z) : Z :=
  match t_info st with Some ti => gget (mfn_list ti) idx | None => 0 end.
Definition get_mfn_offset (st : tstate) (cpu : Z) : Z :=
  match t_info st with Some ti => gget (mfn_offset ti) cpu | None => 0 end.

(** The inner allocation loop: [n] pages left, the next one is number [i]. *)
Fixpoint alloc_cpu_pages (n : nat) (i offset : Z) (st : tstate) : bool * tstate :=
  match n with
  | O => (true, st)
  | S n' =>
      let '(p, st) := alloc_xenheap_pages st in
      match p with
      | None => (false, set_mfn_list (offset + i) 0 st)
      | Some mfn =>
          alloc_cpu_pages n' (i + 1) offset (set_mfn_list (offset + i) (u32 mfn) st)
      end
  end.

Fixpoint alloc_all_cpus (cpus : list Z) (first pages : Z) (st : tstate)
  : bool * tstate :=
  match cpus with
  | [] => (true, st)
  | cpu :: cpus' =>
      let offset := u16 (first + cpu * pages) in
      let st := set_mfn_offset cpu offset st in
      let '(ok, st) := alloc_cpu_pages (Z.to_nat pages) 0 offset st in
      if ok then alloc_all_cpus cpus' first pages st else (false, st)
  end.

Definition init_cpu_buf (pages : Z) (st : tstate) (cpu : Z) : tstate :=
  let offset := get_mfn_offset st cpu in
  let buf := mfn_to_virt (get_mfn_list st offset) in
  st <| t_bufs ::= <[cpu := buf]> |>
     <| mem ::= mem_write buf [0; 0] |>
     <| shared_rw ::= fun l =>
          l ++ map (fun i => get_mfn_list st (offset + i)) (seqZ 0 pages) |>.

Fixpoint free_cpu_pages (n : nat) (i offset : Z) (st : tstate) : tstate :=
  match n with
  | O => st
  | S n' =>
      let mfn := get_mfn_list st (offset + i) in
      if mfn =? 0 then st
      else free_cpu_pages n' (i + 1) offset (st <| freed ::= fun l => l ++ [mfn] |>)
  end.

Definition dealloc_cpu (pages : Z) (st : tstate) (cpu : Z) : tstate :=
  let offset := get_mfn_offset st cpu in
  if offset =? 0 then st else free_cpu_pages (Z.to_nat pages) 0 offset st.

Definition alloc_trace_bufs (pages : Z) (st : tstate) : Z * tstate :=
  if bool_decide (is_Some (t_info st)) then (- EBUSY, st)
  else if pages =? 0 then (- EINVAL, st)
  else
    let t_info_first_offset := u16 calc_tinfo_first_offset in
    let '(pages, tip) := calculate_tbuf_size pages t_info_first_offset in
    let st := st <| t_info_pages := tip |> in
    let '(p, st) := alloc_xenheap_pages st in
    match p with
    | None => (- ENOMEM, st)
    | Some ti_mfn =>
        let st := st <| t_info := Some (mkTInfo (u16 pages) ∅ ∅ ti_mfn) |> in
        let '(ok, st) := alloc_all_cpus online t_info_first_offset pages st in
        if ok then
          let st := fold_left (init_cpu_buf pages) online st in
          let st := st <| shared_ro ::= fun l => l ++ seqZ ti_mfn tip |> in
          let ds := u32 (pages * PAGE_SIZE - T_BUF_SIZE) in
          (0, st <| data_size := ds |>
                 <| t_buf_highwater := Z.shiftr ds 1 |>
                 <| opt_tbuf_size := pages |>
                 <| tb_init_done := true |>)
        else
          let st := fold_left (dealloc_cpu pages) online st in
          (- ENOMEM, st <| freed ::= fun l => l ++ [ti_mfn] |> <| t_info := None |>)
    end.

Definition tb_set_size (pages : Z) (st : tstate) : Z * tstate :=
  if negb (opt_tbuf_size st =? 0) && negb (pages =? opt_tbuf_size st)
  then (- EINVAL, st)
  else alloc_trace_bufs pages st.

(** ** Filtering *)

Definition event_selected (mask event : Z) : bool :=
  if Z.land mask event =? 0 then false
  else if Z.land (Z.shiftr mask TRC_CLS_SHIFT) (Z.shiftr event TRC_CLS_SHIFT) =? 0
  then false
  else if Z.land (Z.land (Z.shiftr mask TRC_SUBCLS_SHIFT) 0xf)
                 (Z.land (Z.shiftr event TRC_SUBCLS_SHIFT) 0xf) =? 0
  then false
  else if negb (Z.land mask 0xff =? Z.land event 0xff) then false
  else true.

Definition trace_will_trace_event (cpu event : Z) (st : tstate) : bool :=
  if negb (tb_init_done st) then false
  else if negb (event_selected (tb_event_mask st) event) then false
  else if negb (bool_decide (cpu ∈ tb_cpu_mask st)) then false
  else true.

Definition init_trace_bufs (allcpus : gset Z) (st : tstate) : tstate :=
  let st := st <| tb_cpu_mask := allcpus |> in
  if negb (opt_tbuf_size st =? 0) then
    let '(rc, st) := alloc_trace_bufs (opt_tbuf_size st) st in
    if negb (rc =? 0) then st <| opt_tbuf_size := 0 |>
    else if negb (opt_tevt_mask st =? 0) then
      st <| tb_event_mask := opt_tevt_mask st |> <| tb_init_done := true |>
    else st
  else st.

(** ** Control (the XEN_SYSCTL_tbuf_op operation) *)

Definition tb_control (tbc : tbuf_op) (st : tstate) : Z * tbuf_op * tstate :=
  let cmd := tbc_cmd tbc in
  if cmd =? XEN_SYSCTL_TBUFOP_get_info then
    (0, tbc <| tbc_evt_mask := tb_event_mask st |>
            <| tbc_buffer_mfn :=
                 match t_info st with Some ti => t_info_mfn ti | None => 0 end |>
            <| tbc_size := u32 (t_info_pages st * PAGE_SIZE) |>, st)
  else if cmd =? XEN_SYSCTL_TBUFOP_set_cpu_mask then
    match tbc_cpu_mask tbc with
    | inl rc => (rc, tbc, st)
    | inr mask => (0, tbc, st <| tb_cpu_mask := mask |>)
    end
  else if cmd =? XEN_SYSCTL_TBUFOP_set_evt_mask then
    (0, tbc, st <| tb_event_mask := tbc_evt_mask tbc |>)
  else if cmd =? XEN_SYSCTL_TBUFOP_set_size then
    let '(rc, st) := tb_set_size (tbc_size tbc) st in (rc, tbc, st)
  else if cmd =? XEN_SYSCTL_TBUFOP_enable then
    if opt_tbuf_size st =? 0 then (- EINVAL, tbc, st)
    else (0, tbc, st <| tb_init_done := true |>)
  else if cmd =? XEN_SYSCTL_TBUFOP_disable then
    let st := st <| tb_init_done := false |> in
    (0, tbc, fold_left (fun st i => st <| lost_records ::= <[i := 0]> |>) online st)
  else (- EINVAL, tbc, st).

(** ** Ring arithmetic *)

Definition calc_rec_size (cycles : bool) (extra : Z) : Z :=
  let rec_size := 4 in
  let rec_size := if cycles then u32 (rec_size + 8) else rec_size in
  u32 (rec_size + extra).

Definition buf_cons (st : tstate) (buf : Z) : Z := rd (mem st) buf.
Definition buf_prod (st : tstate) (buf : Z) : Z := rd (mem st) (buf + 1).

Definition bogus (prod cons : Z) (st : tstate) : bool * tstate :=
  let limit := u32 (2 * data_size st) in
  if negb (Z.land prod 3 =? 0) || (limit <=? prod) ||
     negb (Z.land cons 3 =? 0) || (limit <=? cons)
  then (true, st <| tb_init_done := false |>)
  else (false, st).

Definition calc_unconsumed_bytes (buf : Z) (st : tstate) : option (Z * tstate) :=
  let prod := buf_prod st buf in
  let cons := buf_cons st buf in
  let '(bad, st) := bogus prod cons st in
  if bad then Some (data_size st, st)
  else
    let x := s32 (u32 (prod - cons)) in
    let x := if x <? 0 then s32 (u32 (x + u32 (2 * data_size st))) else x in
    _ ← ASSERT (0 <=? x);
    _ ← ASSERT (u32 x <=? data_size st);
    Some (u32 x, st).

Definition calc_bytes_to_wrap (buf : Z) (st : tstate) : option (Z * tstate) :=
  let prod := buf_prod st buf in
  let cons := buf_cons st buf in
  let '(bad, st) := bogus prod cons st in
  if bad then Some (0, st)
  else
    let x := s32 (u32 (data_size st - prod)) in
    let x := if x <=? 0 then s32 (u32 (x + data_size st)) else x in
    _ ← ASSERT (0 <? x);
    _ ← ASSERT (u32 x <=? data_size st);
    Some (u32 x, st).

Definition calc_bytes_avail (buf : Z) (st : tstate) : option (Z * tstate) :=
  '(x, st) ← calc_unconsumed_bytes buf st;
  Some (u32 (data_size st - x), st).

(** The page of the next record, the page after it, the producer offset and
    the offset in the page; [None] for the C function's NULL. *)
Definition next_record (cpu buf : Z) (st : tstate)
  : option (option (Z * option Z * Z * Z) * tstate) :=
  let x := buf_prod st buf in
  let cons := buf_cons st buf in
  let next := x in
  if negb (tb_init_done st) then Some (None, st)
  else
    let '(bad, st) := bogus x cons st in
    if bad then Some (None, st)
    else
      let x := if data_size st <=? x then u32 (x - data_size st) else x in
      _ ← ASSERT (x <? data_size st);
      let x := u32 (x + T_BUF_SIZE) in
      let offset_in_page := Z.land x (PAGE_SIZE - 1) in
      let per_cpu_mfn_nr := Z.shiftr x PAGE_SHIFT in
      let per_cpu_mfn_offset := get_mfn_offset st cpu in
      let this_page :=
        mfn_to_virt (get_mfn_list st (per_cpu_mfn_offset + per_cpu_mfn_nr)) in
      let next_page :=
        if opt_tbuf_size st <=? per_cpu_mfn_nr + 1 then None
        else Some (mfn_to_virt
                     (get_mfn_list st (per_cpu_mfn_offset + per_cpu_mfn_nr + 1))) in
      Some (Some (this_page, next_page, next, offset_in_page), st).

(** The first word of struct t_rec: event:28, extra_u32:3, cycles_included:1. *)
Definition rec_header (event extra_word : Z) (cycles : bool) : Z :=
  Z.lor (event mod 2 ^ 28)
    (Z.lor (Z.shiftl (extra_word mod 8) 28) (if cycles then Z.shiftl 1 31 else 0)).

Definition read_cycles (st : tstate) : Z * tstate :=
  (u64 (get_cycles (cycles_read st)), st <| cycles_read ::= S |>).

(** The words of the record written through [rec]: header, time stamp if
    asked for, and the payload if the caller has one. *)
Definition rec_body (event extra_word extra : Z) (cycles : bool)
    (extra_data : option (list Z)) (st : tstate) : list Z * tstate :=
  let hdr := rec_header event extra_word cycles in
  let '(cyc, st) :=
    if cycles then
      let '(tsc, st) := read_cycles st in
      ([u32 tsc; u32 (Z.shiftr tsc 32)], st)
    else ([], st) in
  let data :=
    match extra_data with
    | Some d => if extra =? 0 then [] else take (Z.to_nat extra_word) d
    | None => []
    end in
  (hdr :: cyc ++ data, st).

(** The update of [buf->prod] that makes the record visible. *)
Definition publish (buf next rec_size : Z) (st : tstate) : option tstate :=
  let next := u32 (next + rec_size) in
  let limit := u32 (2 * data_size st) in
  let next := if limit <=? next then u32 (next - limit) else next in
  _ ← ASSERT (next <? limit);
  Some (st <| mem ::= <[buf + 1 := next]> |>).

Definition __insert_record (cpu buf event extra : Z) (cycles : bool) (rec_size : Z)
    (extra_data : option (list Z)) (st : tstate) : option tstate :=
  let extra_word := extra / 4 in
  let local_rec_size := calc_rec_size cycles extra in
  _ ← BUG_ON (negb (local_rec_size =? rec_size));
  _ ← BUG_ON (negb (Z.land extra 3 =? 0));
  '(r, st) ← next_record cpu buf st;
  match r with
  | None => Some st
  | Some (this_page, next_page, next, offset) =>
      let remaining := u32 (PAGE_SIZE - offset) in
      let at_word := this_page + offset / 4 in
      if remaining <? rec_size then
        match next_page with
        | None => Some st
        | Some np =>
            let '(ws, st) := rec_body event extra_word extra cycles extra_data st in
            let n := Z.to_nat (rec_size / 4) in
            let split_rec := ws ++ map uninit (seq (length ws) (n - length ws)) in
            let k := Z.to_nat (remaining / 4) in
            publish buf next rec_size (st <| mem ::= fun m =>
              mem_write np (take (n - k) (drop k split_rec))
                (mem_write at_word (take k split_rec) m) |>)
        end
      else
        let '(ws, st) := rec_body event extra_word extra cycles extra_data st in
        publish buf next rec_size (st <| mem ::= mem_write at_word ws |>)
  end.

Definition insert_wrap_record (cpu buf size : Z) (st : tstate) : option tstate :=
  '(space_left, st) ← calc_bytes_to_wrap buf st;
  let extra_space := u32 (space_left - 4) in
  _ ← BUG_ON (size <? space_left);
  let '(cycles, extra_space) :=
    if TRACE_EXTRA_MAX <? extra_space / 4 then (true, u32 (extra_space - 8))
    else (false, extra_space) in
  _ ← (if cycles : bool then ASSERT (extra_space / 4 <=? TRACE_EXTRA_MAX) else Some tt);
  __insert_record cpu buf TRC_TRACE_WRAP_BUFFER extra_space cycles space_left None st.

Definition insert_lost_records (env : cpu_env) (buf : Z) (st : tstate)
  : option tstate :=
  let cpu := smp_processor_id env in
  let first_tsc := gget (lost_records_first_tsc st) cpu in
  let ed := [u32 (gget (lost_records st) cpu);
             Z.lor (u16 (cur_domid env)) (Z.shiftl (u16 (cur_vcpu env)) 16);
             u32 first_tsc; u32 (Z.shiftr first_tsc 32)] in
  let st := st <| lost_records ::= <[cpu := 0]> |> in
  __insert_record cpu buf TRC_LOST_RECORDS 16 true LOST_REC_SIZE (Some ed) st.

(** The dry run of [__trace_var]: bytes needed for the record, preceded by a
    lost-record notice when [lost] and by padding up to the wrap point. *)
Definition dry_run (lost : bool) (rec_size bytes_to_wrap ds : Z) : Z :=
  let '(total_size, bytes_to_wrap) :=
    if lost then
      let '(total_size, bytes_to_wrap) :=
        if bytes_to_wrap <? LOST_REC_SIZE then (bytes_to_wrap, ds)
        else (0, bytes_to_wrap) in
      let total_size := u32 (total_size + LOST_REC_SIZE) in
      let bytes_to_wrap := u32 (bytes_to_wrap - LOST_REC_SIZE) in
      (total_size, if bytes_to_wrap =? 0 then ds else bytes_to_wrap)
    else (0, bytes_to_wrap) in
  let total_size :=
    if bytes_to_wrap <? rec_size then u32 (total_size + bytes_to_wrap)
    else total_size in
  u32 (total_size + rec_size).

(** Writing the lost-record notice; returns the bytes left to the wrap. *)
Definition flush_lost (env : cpu_env) (buf bytes_to_wrap : Z) (st : tstate)
  : option (Z * tstate) :=
  let cpu := smp_processor_id env in
  if gget (lost_records st) cpu =? 0 then Some (bytes_to_wrap, st)
  else
    '(bytes_to_wrap, st) ←
      (if bytes_to_wrap <? LOST_REC_SIZE then
         st ← insert_wrap_record cpu buf LOST_REC_SIZE st;
         Some (data_size st, st)
       else Some (bytes_to_wrap, st));
    st ← insert_lost_records env buf st;
    let bytes_to_wrap := u32 (bytes_to_wrap - LOST_REC_SIZE) in
    Some (if bytes_to_wrap =? 0 then data_size st else bytes_to_wrap, st).

Definition __trace_var (env : cpu_env) (event : Z) (cycles : bool) (extra : Z)
    (extra_data : option (list Z)) (st : tstate) : option tstate :=
  let cpu := smp_processor_id env in
  if negb (tb_init_done st) then Some st
  else
    let extra_word := extra / 4 in
    let extra_word := if negb (extra mod 4 =? 0) then u32 (extra_word + 1)
                      else extra_word in
    _ ← ASSERT (extra_word <=? TRACE_EXTRA_MAX);
    let extra_word := Z.min extra_word TRACE_EXTRA_MAX in
    let extra := u32 (extra_word * 4) in
    if negb (event_selected (tb_event_mask st) event) then Some st
    else if negb (bool_decide (cpu ∈ tb_cpu_mask st)) then Some st
    else
      match t_bufs st !! cpu with
      | None => Some st
      | Some buf =>
          '(u, st) ← calc_unconsumed_bytes buf st;
          let started_below_highwater := u <? t_buf_highwater st in
          let rec_size := calc_rec_size cycles extra in
          '(bytes_to_tail, st) ← calc_bytes_avail buf st;
          '(bytes_to_wrap, st) ← calc_bytes_to_wrap buf st;
          let lost := negb (gget (lost_records st) cpu =? 0) in
          let total_size := dry_run lost rec_size bytes_to_wrap (data_size st) in
          if bytes_to_tail <? total_size then
            let n := u64 (gget (lost_records st) cpu + 1) in
            let st := st <| lost_records ::= <[cpu := n]> |> in
            if n =? 1 then
              let '(tsc, st) := read_cycles st in
              Some (st <| lost_records_first_tsc ::= <[cpu := tsc]> |>)
            else Some st
          else
            '(bytes_to_wrap, st) ← calc_bytes_to_wrap buf st;
            '(bytes_to_wrap, st) ← flush_lost env buf bytes_to_wrap st;
            st ← (if bytes_to_wrap <? rec_size
                  then insert_wrap_record cpu buf rec_size st else Some st);
            st ← __insert_record cpu buf event extra cycles rec_size extra_data st;
            if started_below_highwater then
              '(u, st) ← calc_unconsumed_bytes buf st;
              Some (if t_buf_highwater st <=? u
                    then st <| tasklet_scheduled := true |> else st)
            else Some st
      end.

(** ** Hypercall records *)

Definition __HYPERVISOR_mmu_update : Z := 1.
Definition __HYPERVISOR_multicall : Z := 13.
Definition __HYPERVISOR_grant_table_op : Z := 20.
Definition __HYPERVISOR_vcpu_op : Z := 24.
Definition __HYPERVISOR_mmuext_op : Z := 26.
Definition __HYPERVISOR_sched_op : Z := 29.
Definition TRC_PV_HYPERCALL_V2_ARG_32 (i : Z) : Z := Z.shiftl 1 (20 + 2 * i).

Definition APPEND_ARG32 (args : list Z) (i : nat) (d : Z * list Z) : Z * list Z :=
  (Z.lor d.1 (TRC_PV_HYPERCALL_V2_ARG_32 (Z.of_nat i)),
   d.2 ++ [u32 (nth i args 0)]).

Definition __trace_hypercall (env : cpu_env) (event op : Z) (args : list Z)
    (st : tstate) : option tstate :=
  let d := (u32 op, []) in
  let d :=
    if op =? __HYPERVISOR_mmu_update then APPEND_ARG32 args 1 d
    else if op =? __HYPERVISOR_multicall then APPEND_ARG32 args 1 d
    else if op =? __HYPERVISOR_grant_table_op then
      APPEND_ARG32 args 2 (APPEND_ARG32 args 0 d)
    else if op =? __HYPERVISOR_vcpu_op then
      APPEND_ARG32 args 1 (APPEND_ARG32 args 0 d)
    else if op =? __HYPERVISOR_mmuext_op then APPEND_ARG32 args 1 d
    else if op =? __HYPERVISOR_sched_op then APPEND_ARG32 args 0 d
    else d in
  __trace_var env event true (4 * (1 + Z.of_nat (length d.2))) (Some (d.1 :: d.2)) st.

End Trace.
