(* ===== verification/TraceProofs.v ===== *)
(** * The trace ring is a FIFO (theorems about Trace.v)

    The words between the consumer and producer offsets, read in ring order
    across the page frames, are the queue a consumer sees ([unread]).  The
    theorems say what each operation does to that queue. *)

From S2P Require Import Prelude Trace.

Lemma page_addr_inj m1 o1 m2 o2 :
  0 <= o1 < 1024 -> 0 <= o2 < 1024 ->
  mfn_to_virt m1 + o1 = mfn_to_virt m2 + o2 -> m1 = m2 /\ o1 = o2.
Proof. unfold mfn_to_virt, PAGE_WORDS. lia. Qed.

(** ** Where ring word [i] lives: the trace pages seen as one array *)
Section Geometry.
Context (frame : Z -> Z).

Definition waddr (i : Z) : Z :=
  mfn_to_virt (frame ((i + 2) / 1024)) + (i + 2) mod 1024.

Lemma waddr_same_page s j :
  0 <= s -> 0 <= j -> (s + 2) mod 1024 + j < 1024 -> waddr (s + j) = waddr s + j.
Proof.
  intros. unfold waddr.
  pose proof (Z.div_mod (s + 2) 1024).
  pose proof (Z.mod_pos_bound (s + 2) 1024).
  rewrite <- (Z.mod_unique (s + j + 2) 1024 ((s + 2) / 1024) ((s + 2) mod 1024 + j)) by lia.
  rewrite <- (Z.div_unique (s + j + 2) 1024 ((s + 2) / 1024) ((s + 2) mod 1024 + j)) by lia.
  lia.
Qed.

Lemma waddr_next_page s k j :
  0 <= s -> k = 1024 - (s + 2) mod 1024 -> 0 <= j < 1024 ->
  waddr (s + k + j) = mfn_to_virt (frame ((s + 2) / 1024 + 1)) + j.
Proof.
  intros. unfold waddr. pose proof (Z.div_mod (s + 2) 1024).
  rewrite <- (Z.div_unique (s + k + j + 2) 1024 ((s + 2) / 1024 + 1) j) by lia.
  rewrite <- (Z.mod_unique (s + k + j + 2) 1024 ((s + 2) / 1024 + 1) j) by lia.
  done.
Qed.

Context (p : Z).
Hypothesis Hp : 1 <= p.
Hypothesis frame_inj :
  forall j k, 0 <= j < p -> 0 <= k < p -> frame j = frame k -> j = k.

Let N : Z := p * 1024 - 2.

Lemma waddr_inj i j : 0 <= i < N -> 0 <= j < N -> waddr i = waddr j -> i = j.
Proof.
  unfold N, waddr. intros Hi Hj H.
  apply page_addr_inj in H; [|apply Z.mod_pos_bound; lia..].
  destruct H as [Hf Hm].
  apply frame_inj in Hf; [|split; [apply Z.div_pos; lia|apply Z.div_lt_upper_bound; lia]..].
  pose proof (Z.div_mod (i + 2) 1024). pose proof (Z.div_mod (j + 2) 1024). lia.
Qed.

Lemma waddr_not_header i h :
  0 <= i < N -> 0 <= h < 2 -> waddr i <> mfn_to_virt (frame 0) + h.
Proof.
  unfold N, waddr. intros Hi Hh H.
  apply page_addr_inj in H; [|try lia; apply Z.mod_pos_bound; lia..].
  destruct H as [Hf Hm].
  apply frame_inj in Hf; [|split; [apply Z.div_pos; lia|apply Z.div_lt_upper_bound; lia]|lia].
  pose proof (Z.div_mod (i + 2) 1024). lia.
Qed.

(** A run of consecutive words written over ring words [s ..]. *)
Lemma mem_write_ring m a s ws i :
  0 <= s -> s + Z.of_nat (length ws) <= N ->
  (forall j, 0 <= j < Z.of_nat (length ws) -> waddr (s + j) = a + j) ->
  0 <= i < N ->
  rd (mem_write a ws m) (waddr i) =
    if (s <=? i) && (i <? s + Z.of_nat (length ws))
    then nth (Z.to_nat (i - s)) ws 0 else rd m (waddr i).
Proof.
  intros Hs Hlen Ha Hi. case_if E; zbool.
  - assert (waddr i = a + (i - s)) as ->
      by (rewrite <- Ha by lia; f_equal; lia).
    rewrite rd_mem_write_in by lia. do 2 f_equal. lia.
  - rewrite rd_mem_write_out; [done|].
    destruct (decide (a <= waddr i < a + Z.of_nat (length ws))) as [Hin|]; [|lia].
    assert (waddr i = waddr (s + (waddr i - a))) as Heq by (rewrite Ha; lia).
    apply waddr_inj in Heq; [|lia..].
    apply andb_false_iff in E as [E|E]; zbool; lia.
Qed.

Lemma mem_write_ring_header m a s ws h :
  0 <= s -> s + Z.of_nat (length ws) <= N ->
  (forall j, 0 <= j < Z.of_nat (length ws) -> waddr (s + j) = a + j) ->
  0 <= h < 2 ->
  rd (mem_write a ws m) (mfn_to_virt (frame 0) + h) = rd m (mfn_to_virt (frame 0) + h).
Proof.
  intros Hs Hlen Ha Hh. rewrite rd_mem_write_out; [done|].
  set (x := mfn_to_virt (frame 0) + h) in *.
  destruct (decide (a <= x < a + Z.of_nat (length ws))) as [Hin|]; [|lia].
  exfalso. apply (waddr_not_header (s + (x - a)) h); [lia..|].
  rewrite Ha by lia. unfold x. lia.
Qed.
End Geometry.

(** ** Well-formed buffers and the queue they hold *)

Definition frame (st : tstate) (cpu k : Z) : Z :=
  get_mfn_list st (get_mfn_offset st cpu + k).

(** Bytes produced and not yet consumed; the offsets count modulo twice the
    size of the data area. *)
Definition used (st : tstate) (buf : Z) : Z :=
  (buf_prod st buf - buf_cons st buf) mod (2 * data_size st).

Record tb_wf (st : tstate) (cpu buf : Z) : Prop := {
  wf_buf : t_bufs st !! cpu = Some buf;
  wf_pages : 1 <= opt_tbuf_size st <= 65535;
  wf_ds : data_size st = opt_tbuf_size st * 4096 - 8;
  wf_frames : forall j k,
    0 <= j < opt_tbuf_size st -> 0 <= k < opt_tbuf_size st ->
    frame st cpu j = frame st cpu k -> j = k;
  wf_addr : buf = mfn_to_virt (frame st cpu 0);
  wf_prod4 : buf_prod st buf mod 4 = 0;
  wf_prod : 0 <= buf_prod st buf < 2 * data_size st;
  wf_cons4 : buf_cons st buf mod 4 = 0;
  wf_cons : 0 <= buf_cons st buf < 2 * data_size st;
  wf_used : used st buf <= data_size st
}.

Definition ring_word (st : tstate) (cpu i : Z) : Z := rd (mem st) (waddr (frame st cpu) i).

(** The queue: [used / 4] words from the consumer offset on, in ring order. *)
Definition unread (st : tstate) (cpu buf : Z) : list Z :=
  map (fun k => ring_word st cpu ((buf_cons st buf / 4 + k) mod (data_size st / 4)))
      (seqZ 0 (used st buf / 4)).

Lemma land_3 x : Z.land x 3 = x mod 4.
Proof. change 3 with (Z.ones 2). by rewrite Z.land_ones by lia. Qed.

Lemma land_page x : Z.land x (PAGE_SIZE - 1) = x mod 4096.
Proof. change (PAGE_SIZE - 1) with (Z.ones 12). by rewrite Z.land_ones by lia. Qed.

Section Wf.
Context (debug : bool) (get_cycles : nat -> Z) (uninit : nat -> Z).
Context (st : tstate) (cpu buf : Z) (Hwf : tb_wf st cpu buf).

Lemma wf_ds_bounds : 4088 <= data_size st < 2 ^ 28 /\ data_size st mod 4 = 0.
Proof. destruct Hwf as [_ ? -> _ _ _ _ _ _ _]. split; dlia. Qed.

Lemma wf_used_range : 0 <= used st buf <= data_size st /\ used st buf mod 4 = 0.
Proof.
  pose proof wf_ds_bounds. destruct Hwf. unfold used in *.
  split; [split; [apply Z.mod_pos_bound; lia|done]|].
  pose proof (Z.div_mod (buf_prod st buf - buf_cons st buf) (2 * data_size st)).
  set (q := _ / (2 * data_size st)) in *. set (r := _ mod (2 * data_size st)) in *.
  assert (Hd : exists k, data_size st = 4 * k) by (exists (data_size st / 4); dlia).
  destruct Hd as [k Hk]. rewrite Hk in *. clearbody q r.
  replace (2 * (4 * k) * q) with (4 * (2 * k * q)) in * by lia.
  set (t := 2 * k * q) in *. clearbody t. dlia.
Qed.

Lemma used_cases :
  used st buf = buf_prod st buf - buf_cons st buf /\ buf_cons st buf <= buf_prod st buf \/
  used st buf = buf_prod st buf - buf_cons st buf + 2 * data_size st /\
    buf_prod st buf < buf_cons st buf.
Proof.
  pose proof wf_ds_bounds. destruct Hwf. unfold used.
  destruct (decide (buf_cons st buf <= buf_prod st buf)); [left|right].
  - rewrite Z.mod_small by lia. lia.
  - rewrite <- (Z.mod_unique _ (2 * data_size st) (-1)
      (buf_prod st buf - buf_cons st buf + 2 * data_size st)) by lia. lia.
Qed.

Lemma bogus_wf : bogus (buf_prod st buf) (buf_cons st buf) st = (false, st).
Proof.
  pose proof wf_ds_bounds. destruct Hwf. unfold bogus.
  rewrite !land_3, wf_prod5, wf_cons5, u32_small by lia.
  rewrite !(proj2 (Z.leb_gt _ _)) by lia. done.
Qed.

Lemma ASSERT_true c : c = true -> ASSERT debug c = Some tt.
Proof. intros ->. unfold ASSERT. by rewrite andb_false_r. Qed.

Lemma calc_unconsumed_bytes_wf :
  calc_unconsumed_bytes debug buf st = Some (used st buf, st).
Proof.
  pose proof wf_ds_bounds as [? _]. pose proof wf_used_range as [? _].
  unfold calc_unconsumed_bytes. rewrite bogus_wf.
  assert ((if s32 (u32 (buf_prod st buf - buf_cons st buf)) <? 0
           then s32 (u32 (s32 (u32 (buf_prod st buf - buf_cons st buf)) +
                          u32 (2 * data_size st)))
           else s32 (u32 (buf_prod st buf - buf_cons st buf))) = used st buf) as Hx.
  { destruct Hwf. rewrite s32_u32, (u32_small (2 * data_size st)) by lia.
    destruct used_cases as [[-> ?]|[-> ?]]; case_if E; zbool; try lia.
    rewrite s32_u32; lia. }
  cbn zeta. rewrite Hx, !ASSERT_true; simpl.
  - by rewrite u32_small by lia.
  - apply Z.leb_le. lia.
  - apply Z.leb_le. rewrite u32_small; lia.
Qed.

Lemma calc_bytes_avail_wf :
  calc_bytes_avail debug buf st = Some (data_size st - used st buf, st).
Proof.
  pose proof wf_ds_bounds as [? _]. pose proof wf_used_range as [? _].
  unfold calc_bytes_avail. rewrite calc_unconsumed_bytes_wf. simpl.
  by rewrite u32_small by lia.
Qed.

(** Bytes from the producer offset to the end of the data area. *)
Definition to_wrap : Z := data_size st - buf_prod st buf mod data_size st.

Lemma prod_mod_cases :
  buf_prod st buf mod data_size st =
    if data_size st <=? buf_prod st buf then buf_prod st buf - data_size st
    else buf_prod st buf.
Proof.
  destruct Hwf. case_if E; zbool.
  - symmetry. apply (Z.mod_unique _ _ 1); lia.
  - rewrite Z.mod_small; lia.
Qed.

Lemma to_wrap_range : 0 < to_wrap <= data_size st /\ to_wrap mod 4 = 0.
Proof.
  pose proof wf_ds_bounds as [? ?]. unfold to_wrap. rewrite prod_mod_cases.
  destruct Hwf. case_if E; zbool; dlia.
Qed.

Lemma calc_bytes_to_wrap_wf : calc_bytes_to_wrap debug buf st = Some (to_wrap, st).
Proof.
  pose proof wf_ds_bounds as [? _]. pose proof to_wrap_range as [? _].
  unfold calc_bytes_to_wrap. rewrite bogus_wf.
  assert ((if s32 (u32 (data_size st - buf_prod st buf)) <=? 0
           then s32 (u32 (s32 (u32 (data_size st - buf_prod st buf)) + data_size st))
           else s32 (u32 (data_size st - buf_prod st buf))) = to_wrap) as Hx.
  { unfold to_wrap. rewrite prod_mod_cases. destruct Hwf.
    rewrite s32_u32 by lia. case_if E; zbool; rewrite ?s32_u32 by lia;
    case_if E'; zbool; lia. }
  cbn zeta. rewrite Hx, !ASSERT_true; simpl.
  - by rewrite u32_small by lia.
  - apply Z.ltb_lt. lia.
  - apply Z.leb_le. rewrite u32_small; lia.
Qed.

(** Ring position (in words) of the next record. *)
Definition head : Z := buf_prod st buf mod data_size st / 4.

Lemma head_range : 0 <= head < data_size st / 4 /\ buf_prod st buf mod data_size st = 4 * head.
Proof.
  pose proof wf_ds_bounds as [? ?]. unfold head.
  pose proof (Z.mod_pos_bound (buf_prod st buf) (data_size st)).
  assert (buf_prod st buf mod data_size st mod 4 = 0).
  { rewrite prod_mod_cases. destruct Hwf. case_if E; dlia. }
  dlia.
Qed.

Definition head_page : Z := (head + 2) / 1024.

Lemma next_record_wf :
  tb_init_done st = true ->
  next_record debug cpu buf st = Some (Some
    (mfn_to_virt (frame st cpu head_page),
     if opt_tbuf_size st <=? head_page + 1 then None
     else Some (mfn_to_virt (frame st cpu (head_page + 1))),
     buf_prod st buf, 4 * ((head + 2) mod 1024)), st).
Proof.
  intros Hinit. pose proof wf_ds_bounds as [? _]. pose proof head_range as [? Hh].
  assert (4 * head < data_size st) by dlia.
  unfold next_record. rewrite Hinit, bogus_wf. simpl negb. cbv iota.
  replace (if data_size st <=? buf_prod st buf then u32 (buf_prod st buf - data_size st)
           else buf_prod st buf) with (4 * head).
  2: { rewrite <- Hh, prod_mod_cases. destruct Hwf. case_if E; zbool; [|done].
       rewrite u32_small; lia. }
  rewrite ASSERT_true by (apply Z.ltb_lt; lia). simpl.
  rewrite (u32_small (_ + _)) by (unfold T_BUF_SIZE; lia).
  rewrite land_page, Z.shiftr_div_pow2 by (unfold PAGE_SHIFT; lia).
  change (2 ^ PAGE_SHIFT) with 4096. unfold T_BUF_SIZE.
  replace ((4 * head + 8) mod 4096) with (4 * ((head + 2) mod 1024)) by dlia.
  replace ((4 * head + 8) / 4096) with head_page by (unfold head_page; dlia).
  unfold frame. rewrite Z.add_assoc. done.
Qed.
End Wf.

(** ** Writing one record *)

Definition cycle_words (tsc : Z) : list Z := [u32 (u64 tsc); u32 (Z.shiftr (u64 tsc) 32)].

(** [ws] is the image of a record: header, time stamp and payload; the
    payload is [data] where the caller gives one and left as found otherwise. *)
Definition rec_image (tsc event e : Z) (cycles : bool) (data : option (list Z))
    (ws : list Z) : Prop :=
  exists body, length body = Z.to_nat e /\ (forall d, data = Some d -> body = d) /\
    ws = rec_header event e cycles :: (if cycles then cycle_words tsc else []) ++ body.

Definition rec_words (cycles : bool) (e : Z) : Z := 1 + (if cycles then 2 else 0) + e.

(** The part of the state that tracing may change while tracing stays on. *)
Definition ring_step (st st' : tstate) : Prop :=
  exists m c l, st' = st <| mem := m |> <| cycles_read := c |> <| lost_records := l |>.

Lemma ring_step_refl st : ring_step st st.
Proof. exists (mem st), (cycles_read st), (lost_records st). by destruct st. Qed.

Lemma ring_step_trans a b c : ring_step a b -> ring_step b c -> ring_step a c.
Proof. intros (m & k & l & ->) (m' & k' & l' & ->). by exists m', k', l'. Qed.

Lemma rec_image_length tsc event e cycles data ws :
  0 <= e -> rec_image tsc event e cycles data ws ->
  Z.of_nat (length ws) = rec_words cycles e.
Proof.
  intros He (body & Hl & _ & ->). unfold rec_words.
  destruct cycles; simpl; lia.
Qed.

Lemma calc_rec_size_words cycles e :
  0 <= e <= 7 -> calc_rec_size cycles (4 * e) = 4 * rec_words cycles e.
Proof.
  intros. unfold calc_rec_size, rec_words.
  destruct cycles; [change (u32 (4 + 8)) with 12|]; rewrite u32_small; lia.
Qed.

Lemma nth_to_nat_ext (ws : list Z) a b : a = b -> nth (Z.to_nat a) ws 0 = nth (Z.to_nat b) ws 0.
Proof. by intros ->. Qed.

Section Insert.
Context (debug : bool) (get_cycles : nat -> Z) (uninit : nat -> Z).

(** The memory after a split write: two runs that are one run in the ring. *)
Lemma split_write_ring fr p s ws m i :
  1 <= p ->
  (forall j k, 0 <= j < p -> 0 <= k < p -> fr j = fr k -> j = k) ->
  let k := 1024 - (s + 2) mod 1024 in
  0 <= s -> s + Z.of_nat (length ws) <= p * 1024 - 2 ->
  k <= Z.of_nat (length ws) <= 1024 ->
  let m' := mem_write (mfn_to_virt (fr ((s + 2) / 1024 + 1))) (drop (Z.to_nat k) ws)
              (mem_write (waddr fr s) (take (Z.to_nat k) ws) m) in
  (0 <= i < p * 1024 - 2 ->
   rd m' (waddr fr i) =
     if (s <=? i) && (i <? s + Z.of_nat (length ws))
     then nth (Z.to_nat (i - s)) ws 0 else rd m (waddr fr i)) /\
  (forall h, 0 <= h < 2 ->
   rd m' (mfn_to_virt (fr 0) + h) = rd m (mfn_to_virt (fr 0) + h)).
Proof.
  intros Hp Hinj k Hs Hlen Hk m'.
  assert (Hkd : k = 1024 - (s + 2) mod 1024) by done.
  assert (0 < k <= 1024) by (unfold k; dlia). clearbody k.
  assert (Hl1 : Z.of_nat (length (take (Z.to_nat k) ws)) = k) by (rewrite length_take; lia).
  assert (Hl2 : Z.of_nat (length (drop (Z.to_nat k) ws)) = Z.of_nat (length ws) - k)
    by (rewrite length_drop; lia).
  assert (Ha1 : forall j, 0 <= j < Z.of_nat (length (take (Z.to_nat k) ws)) ->
    waddr fr (s + j) = waddr fr s + j)
    by (intros; apply waddr_same_page; lia).
  assert (Ha2 : forall j, 0 <= j < Z.of_nat (length (drop (Z.to_nat k) ws)) ->
    waddr fr (s + k + j) = mfn_to_virt (fr ((s + 2) / 1024 + 1)) + j)
    by (intros; apply waddr_next_page; lia).
  split.
  - intros Hi. unfold m'.
    rewrite (mem_write_ring fr p Hinj) with (s := s + k) by (auto; lia).
    rewrite (mem_write_ring fr p Hinj) with (s := s) by (auto; lia).
    rewrite Hl1, Hl2.
    destruct (decide (s <= i < s + Z.of_nat (length ws))) as [Hin|Hout].
    + destruct (decide (i < s + k)).
      * zcases; try lia. rewrite !nth_lookup, lookup_take_lt by lia. done.
      * zcases; try lia. rewrite !nth_lookup, lookup_drop. do 2 f_equal. lia.
    + zcases; try lia; done.
  - intros h Hh. unfold m'.
    rewrite (mem_write_ring_header fr p Hp Hinj) with (s := s + k) by (auto; lia).
    rewrite (mem_write_ring_header fr p Hp Hinj) with (s := s) by (auto; lia). done.
Qed.
Definition payload (data : option (list Z)) : list Z := default [] data.

Definition rec_prefix (tsc event e : Z) (cycles : bool) : list Z :=
  rec_header event e cycles :: (if cycles then cycle_words tsc else []).

Lemma rec_prefix_length tsc event e cycles :
  Z.of_nat (length (rec_prefix tsc event e cycles)) = rec_words cycles 0.
Proof. by destruct cycles. Qed.

Lemma rec_body_eq st event e cycles data :
  0 <= e -> (forall d, data = Some d -> length d = Z.to_nat e) ->
  rec_body get_cycles event e (4 * e) cycles data st =
    (rec_prefix (get_cycles (cycles_read st)) event e cycles ++ payload data,
     st <| cycles_read := if cycles then S (cycles_read st) else cycles_read st |>).
Proof.
  intros He Hd. unfold rec_body, rec_prefix, payload.
  assert ((match data with
           | Some d => if 4 * e =? 0 then [] else take (Z.to_nat e) d
           | None => [] end) = default [] data) as ->.
  { destruct data as [d|]; [|done]. specialize (Hd d eq_refl). simpl.
    case_if E; zbool.
    - destruct d; simpl in *; [done|lia].
    - rewrite <- Hd. by rewrite take_ge. }
  destruct cycles; [by destruct st|]. by destruct st.
Qed.

Lemma publish_wf st st1 cpu buf n :
  tb_wf st cpu buf -> data_size st1 = data_size st -> 0 <= n <= data_size st ->
  publish debug buf (buf_prod st buf) n st1 =
    Some (st1 <| mem ::= <[buf + 1 := (buf_prod st buf + n) mod (2 * data_size st)]> |>).
Proof.
  intros Hwf Hd Hn. pose proof (wf_ds_bounds _ _ _ Hwf) as [Hds _].
  pose proof (wf_prod _ _ _ Hwf). unfold publish. rewrite Hd.
  rewrite (u32_small (_ + _)), (u32_small (2 * _)) by lia. cbn zeta.
  assert ((if 2 * data_size st <=? buf_prod st buf + n
           then u32 (buf_prod st buf + n - 2 * data_size st)
           else buf_prod st buf + n) = (buf_prod st buf + n) mod (2 * data_size st)) as ->.
  { case_if E; zbool.
    - rewrite u32_small by lia. apply (Z.mod_unique _ _ 1); lia.
    - rewrite Z.mod_small; lia. }
  rewrite ASSERT_true; [done|]. apply Z.ltb_lt, Z.mod_pos_bound. lia.
Qed.

(** A write that fits in the current page. *)
Lemma page_write_ring fr p s ws m i :
  1 <= p ->
  (forall j k, 0 <= j < p -> 0 <= k < p -> fr j = fr k -> j = k) ->
  0 <= s -> s + Z.of_nat (length ws) <= p * 1024 - 2 ->
  (s + 2) mod 1024 + Z.of_nat (length ws) <= 1024 ->
  let m' := mem_write (waddr fr s) ws m in
  (0 <= i < p * 1024 - 2 ->
   rd m' (waddr fr i) =
     if (s <=? i) && (i <? s + Z.of_nat (length ws))
     then nth (Z.to_nat (i - s)) ws 0 else rd m (waddr fr i)) /\
  (forall h, 0 <= h < 2 ->
   rd m' (mfn_to_virt (fr 0) + h) = rd m (mfn_to_virt (fr 0) + h)).
Proof.
  intros Hp Hinj Hs Hlen Hpage m'.
  assert (Ha : forall j, 0 <= j < Z.of_nat (length ws) -> waddr fr (s + j) = waddr fr s + j)
    by (intros; apply waddr_same_page; lia).
  split; intros; unfold m'.
  - by rewrite (mem_write_ring fr p Hinj) with (s := s).
  - by rewrite (mem_write_ring_header fr p Hp Hinj) with (s := s).
Qed.

(** The memory a record write leaves: the image [ws] over ring words
    [head ..], everything else as before, [prod] moved on. *)
Definition mem_after (st : tstate) (cpu buf n : Z) (ws : list Z) (m : gmap Z Z) : Prop :=
  (forall i, 0 <= i < data_size st / 4 ->
     rd m (waddr (frame st cpu) i) =
       if (head st buf <=? i) && (i <? head st buf + n)
       then nth (Z.to_nat (i - head st buf)) ws 0 else ring_word st cpu i) /\
  rd m buf = buf_cons st buf /\
  rd m (buf + 1) = (buf_prod st buf + 4 * n) mod (2 * data_size st).

Lemma mem_after_intro st cpu buf n ws m v :
  tb_wf st cpu buf -> v = (buf_prod st buf + 4 * n) mod (2 * data_size st) ->
  (forall i, 0 <= i < data_size st / 4 ->
     rd m (waddr (frame st cpu) i) =
       if (head st buf <=? i) && (i <? head st buf + n)
       then nth (Z.to_nat (i - head st buf)) ws 0 else ring_word st cpu i) ->
  rd m (mfn_to_virt (frame st cpu 0)) = buf_cons st buf ->
  mem_after st cpu buf n ws (<[buf + 1 := v]> m).
Proof.
  intros Hwf -> Hr Hc. pose proof (wf_addr _ _ _ Hwf) as Hb.
  assert (HN : data_size st / 4 = opt_tbuf_size st * 1024 - 2)
    by (rewrite (wf_ds _ _ _ Hwf); dlia).
  split; [|split].
  - intros i Hi. rewrite rd_insert_ne; [by apply Hr|].
    rewrite Hb. intros Heq. symmetry in Heq. revert Heq.
    pose proof (wf_pages _ _ _ Hwf).
    apply (waddr_not_header (frame st cpu) (opt_tbuf_size st)); try lia.
    apply (wf_frames _ _ _ Hwf).
  - rewrite rd_insert_ne by lia. by rewrite <- Hb in Hc.
  - by rewrite rd_insert_eq.
Qed.

Lemma rec_image_intro tsc event e cycles data tail :
  length tail = Z.to_nat e -> (forall d, data = Some d -> tail = d) ->
  rec_image tsc event e cycles data (rec_prefix tsc event e cycles ++ tail).
Proof. intros. exists tail. split; [done|]. split; [done|]. by destruct cycles. Qed.

(** Both ways of writing the record put its image at the head of the ring. *)
Lemma write_in_page st cpu buf event e cycles data v :
  let h := head st buf in
  let r := rec_words cycles e in
  let tsc := get_cycles (cycles_read st) in
  tb_wf st cpu buf -> 0 <= e ->
  (forall d, data = Some d -> length d = Z.to_nat e) ->
  h + r <= data_size st / 4 -> (h + 2) mod 1024 + r <= 1024 ->
  v = (buf_prod st buf + 4 * r) mod (2 * data_size st) ->
  exists ws, rec_image tsc event e cycles data ws /\
    mem_after st cpu buf r ws
      (<[buf + 1 := v]> (mem_write (waddr (frame st cpu) h)
         (rec_prefix tsc event e cycles ++ payload data) (mem st))).
Proof.
  intros h r tsc Hwf He Hdata Hfit Hpage Hv.
  pose proof (head_range _ _ _ Hwf) as [Hhead _]. fold h in Hhead.
  assert (HN : data_size st / 4 = opt_tbuf_size st * 1024 - 2)
    by (rewrite (wf_ds _ _ _ Hwf); dlia).
  assert (Hr0 : rec_words cycles 0 + e = r) by (unfold r, rec_words; lia).
  pose proof (rec_prefix_length tsc event e cycles) as Hpl.
  set (pre := rec_prefix tsc event e cycles) in *.
  set (old := map (fun j => ring_word st cpu (h + rec_words cycles 0 + j)) (seqZ 0 e)).
  assert (Hold : length old = Z.to_nat e) by (unfold old; by rewrite length_map, length_seqZ).
  exists (pre ++ match data with Some d => d | None => old end).
  split; [apply rec_image_intro; [destruct data; auto|intros ? ->; done]|].
  clearbody pre.
  pose proof (wf_pages _ _ _ Hwf) as [Hp _].
  assert (Hlw : Z.of_nat (length (pre ++ payload data)) <= r).
  { rewrite length_app. destruct data as [d|]; simpl; [rewrite (Hdata d eq_refl)|]; lia. }
  apply mem_after_intro; [done|done| |].
  - intros i Hi.
    destruct (page_write_ring (frame st cpu) (opt_tbuf_size st) h (pre ++ payload data)
      (mem st) i Hp (wf_frames _ _ _ Hwf)) as [-> _]; try lia.
    fold h. rewrite length_app, Nat2Z.inj_add, Hpl. unfold ring_word.
    destruct data as [d|]; simpl.
    + rewrite (Hdata d eq_refl). rewrite Z2Nat.id by lia.
      by replace (h + (rec_words cycles 0 + e)) with (h + r) by lia.
    + rewrite app_nil_r, Z.add_0_r.
      zcases; try lia; try done.
      * rewrite app_nth1 by lia. done.
      * rewrite app_nth2 by lia. unfold old.
        rewrite nth_lookup, list_lookup_fmap, lookup_seqZ_lt by lia. simpl.
        unfold ring_word. do 2 f_equal. lia.
  - destruct (page_write_ring (frame st cpu) (opt_tbuf_size st) h (pre ++ payload data)
      (mem st) 0 Hp (wf_frames _ _ _ Hwf)) as [_ Hh]; try lia.
    specialize (Hh 0). rewrite Z.add_0_r in Hh. rewrite Hh by lia.
    unfold buf_cons. by rewrite <- (wf_addr _ _ _ Hwf).
Qed.

Lemma write_split st cpu buf event e cycles data v :
  let h := head st buf in
  let r := rec_words cycles e in
  let k := Z.to_nat (1024 - (h + 2) mod 1024) in
  let tsc := get_cycles (cycles_read st) in
  let ws0 := rec_prefix tsc event e cycles ++ payload data in
  let ws := ws0 ++ map uninit (seq (length ws0) (Z.to_nat r - length ws0)) in
  tb_wf st cpu buf -> 0 <= e <= 7 ->
  (forall d, data = Some d -> length d = Z.to_nat e) ->
  h + r <= data_size st / 4 -> 1024 < (h + 2) mod 1024 + r ->
  v = (buf_prod st buf + 4 * r) mod (2 * data_size st) ->
  rec_image tsc event e cycles data ws /\
    mem_after st cpu buf r ws
      (<[buf + 1 := v]>
        (mem_write (mfn_to_virt (frame st cpu ((h + 2) / 1024 + 1)))
           (take (Z.to_nat r - k) (drop k ws))
           (mem_write (waddr (frame st cpu) h) (take k ws) (mem st)))).
Proof.
  intros h r k tsc ws0 ws Hwf He Hdata Hfit Hpage Hv.
  pose proof (head_range _ _ _ Hwf) as [Hhead _]. fold h in Hhead.
  assert (HN : data_size st / 4 = opt_tbuf_size st * 1024 - 2)
    by (rewrite (wf_ds _ _ _ Hwf); dlia).
  assert (Hr0 : rec_words cycles 0 + e = r) by (unfold r, rec_words; lia).
  assert (Hr : r <= 10) by (unfold r, rec_words; destruct cycles; lia).
  pose proof (rec_prefix_length tsc event e cycles) as Hpl.
  assert (Hl0 : Z.of_nat (length ws0) = rec_words cycles 0 + Z.of_nat (length (payload data)))
    by (unfold ws0; rewrite length_app; lia).
  assert (Hpay : Z.of_nat (length (payload data)) <= e)
    by (destruct data as [d|]; simpl; [rewrite (Hdata d eq_refl)|]; lia).
  assert (Hlen : Z.of_nat (length ws) = r)
    by (unfold ws; rewrite length_app, length_map, length_seq; lia).
  rewrite (take_ge (drop k ws)) by (rewrite length_drop; lia).
  split.
  - unfold ws, ws0. rewrite <- app_assoc. apply rec_image_intro.
    + rewrite length_app, length_map, length_seq. fold ws0. lia.
    + intros d Hd. fold ws0. specialize (Hdata d Hd).
      assert (length (payload data) = Z.to_nat e) by (by rewrite Hd).
      replace (Z.to_nat r - length ws0)%nat with 0%nat by lia.
      rewrite Hd. apply app_nil_r.
  - pose proof (wf_pages _ _ _ Hwf) as [Hp _].
    destruct (split_write_ring (frame st cpu) (opt_tbuf_size st) h ws (mem st) 0 Hp
      (wf_frames _ _ _ Hwf)) as [_ Hh]; try lia.
    apply mem_after_intro; [done|done| |].
    + intros i Hi. unfold k.
      destruct (split_write_ring (frame st cpu) (opt_tbuf_size st) h ws (mem st) i Hp
        (wf_frames _ _ _ Hwf)) as [-> _]; try lia. by rewrite Hlen.
    + specialize (Hh 0). rewrite Z.add_0_r in Hh. unfold k. rewrite Hh by lia.
      unfold buf_cons. by rewrite <- (wf_addr _ _ _ Hwf).
Qed.

(** [__insert_record] on a well-formed buffer, when the record reaches no
    further than the end of the data area. *)
Lemma insert_record_mem st cpu buf event e cycles data :
  tb_wf st cpu buf -> tb_init_done st = true -> 0 <= e <= 7 ->
  (forall d, data = Some d -> length d = Z.to_nat e) ->
  4 * rec_words cycles e <= to_wrap st buf ->
  exists ws m,
    rec_image (get_cycles (cycles_read st)) event e cycles data ws /\
    __insert_record debug get_cycles uninit cpu buf event (4 * e) cycles
        (4 * rec_words cycles e) data st =
      Some (st <| mem := m |>
               <| cycles_read := if cycles then S (cycles_read st) else cycles_read st |>) /\
    mem_after st cpu buf (rec_words cycles e) ws m.
Proof.
  intros Hwf Hinit He Hdata Hfit.
  pose proof (wf_ds_bounds _ _ _ Hwf) as [Hds Hds4].
  pose proof (head_range _ _ _ Hwf) as [Hhead Hheadeq].
  set (h := head st buf) in *. set (r := rec_words cycles e) in *.
  assert (Hfit' : h + r <= data_size st / 4) by (unfold to_wrap in Hfit; dlia).
  assert (HN : data_size st / 4 = opt_tbuf_size st * 1024 - 2)
    by (rewrite (wf_ds _ _ _ Hwf); dlia).
  assert (Hr : 1 <= r <= 10) by (unfold r, rec_words; destruct cycles; lia).
  assert (Hr0 : rec_words cycles 0 + e = r) by (unfold r, rec_words; lia).
  unfold __insert_record. cbn zeta. rewrite calc_rec_size_words by done. fold r.
  rewrite Z.eqb_refl, land_3. replace ((4 * e) mod 4) with 0 by dlia. simpl.
  rewrite (next_record_wf debug _ _ _ Hwf Hinit). simpl. fold h.
  replace (4 * e / 4) with e by dlia. replace (4 * r / 4) with r by dlia.
  rewrite rec_body_eq by (done || lia).
  replace (4 * ((h + 2) mod 1024) / 4) with ((h + 2) mod 1024) by dlia.
  rewrite (u32_small (PAGE_SIZE - _)) by (unfold PAGE_SIZE; dlia).
  replace ((PAGE_SIZE - 4 * ((h + 2) mod 1024)) / 4) with (1024 - (h + 2) mod 1024)
    by (unfold PAGE_SIZE; dlia).
  change (head_page st buf) with ((h + 2) / 1024).
  case_if Esplit; zbool; unfold PAGE_SIZE in Esplit.
  - assert ((opt_tbuf_size st <=? (h + 2) / 1024 + 1) = false) as ->
      by (apply Z.leb_gt; dlia).
    destruct (write_split st cpu buf event e cycles data _ Hwf He Hdata Hfit'
      ltac:(fold h r; lia) eq_refl) as [Hi Hm].
    rewrite (publish_wf st) with (cpu := cpu) by (done || (fold r; dlia)).
    eexists _, _. split; [exact Hi|]. split; [reflexivity|exact Hm].
  - destruct (write_in_page st cpu buf event e cycles data _ Hwf (proj1 He) Hdata Hfit'
      ltac:(fold h r; lia) eq_refl) as (ws & Hi & Hm).
    rewrite (publish_wf st) with (cpu := cpu) by (done || (fold r; dlia)).
    eexists ws, _. split; [exact Hi|]. split; [reflexivity|exact Hm].
Qed.
End Insert.

(** ** The queue after a write *)

Lemma mod_window N x y : 0 < N -> x mod N = y mod N -> x <= y < x + N -> x = y.
Proof.
  intros HN Hm Hw. pose proof (Z.div_mod x N). pose proof (Z.div_mod y N).
  assert (N * (y / N - x / N) = y - x) by lia.
  assert (y / N - x / N = 0) as Hq by nia. rewrite Hq in *. lia.
Qed.

Lemma head_eq st cpu buf :
  tb_wf st cpu buf ->
  head st buf = (buf_cons st buf / 4 + used st buf / 4) mod (data_size st / 4).
Proof.
  intros Hwf. pose proof (wf_ds_bounds _ _ _ Hwf) as [Hds Hds4].
  pose proof (head_range _ _ _ Hwf) as [_ Hh].
  pose proof (wf_used_range _ _ _ Hwf) as [_ Hu4].
  pose proof (wf_cons4 _ _ _ Hwf) as Hc4.
  assert (4 * head st buf =
          4 * ((buf_cons st buf / 4 + used st buf / 4) mod (data_size st / 4))); [|lia].
  rewrite <- Hh, <- Zmult_mod_distr_l.
  replace (4 * (buf_cons st buf / 4 + used st buf / 4))
    with (buf_cons st buf + used st buf) by dlia.
  replace (4 * (data_size st / 4)) with (data_size st) by dlia.
  destruct (used_cases _ _ _ Hwf) as [[-> _]|[-> _]].
  - f_equal. lia.
  - replace (buf_cons st buf + (buf_prod st buf - buf_cons st buf + 2 * data_size st))
      with (buf_prod st buf + 2 * data_size st) by lia.
    by rewrite Z.mod_add by lia.
Qed.

Lemma map_nth_seqZ (ws : list Z) a n :
  Z.of_nat (length ws) = n -> map (fun k => nth (Z.to_nat (k - a)) ws 0) (seqZ a n) = ws.
Proof.
  intros <-. apply list_eq. intros i.
  rewrite list_lookup_fmap.
  destruct (decide (Z.of_nat i < Z.of_nat (length ws))).
  - rewrite lookup_seqZ_lt by lia. simpl. rewrite nth_lookup.
    replace (Z.to_nat (a + Z.of_nat i - a)) with i by lia.
    destruct (lookup_lt_is_Some_2 ws i) as [x ->]; [lia|done].
  - rewrite lookup_seqZ_ge by lia. simpl. symmetry. apply lookup_ge_None. lia.
Qed.

Section Queue.
Context (st : tstate) (cpu buf n : Z) (ws : list Z) (m : gmap Z Z) (c : nat).
Context (Hwf : tb_wf st cpu buf) (Hm : mem_after st cpu buf n ws m).
Context (Hn : 0 <= n) (Hlen : Z.of_nat (length ws) = n).
Context (Hroom : used st buf + 4 * n <= data_size st).
Context (Hwrap : 4 * n <= to_wrap st buf).

Let st' : tstate := st <| mem := m |> <| cycles_read := c |>.

Lemma cons_after : buf_cons st' buf = buf_cons st buf.
Proof. apply Hm. Qed.

Lemma prod_after : buf_prod st' buf = (buf_prod st buf + 4 * n) mod (2 * data_size st).
Proof. apply Hm. Qed.

Lemma used_after : used st' buf = used st buf + 4 * n.
Proof.
  pose proof (wf_ds_bounds _ _ _ Hwf) as [Hds _].
  pose proof (wf_used_range _ _ _ Hwf) as [Hu _].
  unfold used. rewrite cons_after, prod_after. change (data_size st') with (data_size st).
  rewrite Zminus_mod_idemp_l.
  replace (buf_prod st buf + 4 * n - buf_cons st buf)
    with (buf_prod st buf - buf_cons st buf + 4 * n) by lia.
  rewrite <- Zplus_mod_idemp_l. fold (used st buf). apply Z.mod_small. lia.
Qed.

Lemma wf_after : tb_wf st' cpu buf.
Proof.
  pose proof (wf_ds_bounds _ _ _ Hwf) as [Hds Hds4]. pose proof used_after as Hu.
  pose proof prod_after as Hp.
  assert (Hp' : exists q, buf_prod st' buf = buf_prod st buf + 4 * n - 2 * data_size st * q).
  { exists ((buf_prod st buf + 4 * n) / (2 * data_size st)). rewrite Hp.
    rewrite Z.mod_eq by lia. lia. }
  destruct Hwf. split; try done.
  - destruct Hp' as [q ->].
    replace (2 * data_size st * q) with (4 * (2 * (data_size st / 4) * q)) by dlia.
    set (t := 2 * (data_size st / 4) * q). clearbody t. clear -wf_prod5. dlia.
  - rewrite Hp. change (data_size st') with (data_size st). apply Z.mod_pos_bound. lia.
  - by rewrite cons_after.
  - rewrite cons_after. done.
  - rewrite Hu. change (data_size st') with (data_size st). lia.
Qed.

Lemma ring_after i :
  0 <= i < data_size st / 4 ->
  ring_word st' cpu i =
    if (head st buf <=? i) && (i <? head st buf + n)
    then nth (Z.to_nat (i - head st buf)) ws 0 else ring_word st cpu i.
Proof. destruct Hm as [H _]. exact (H i). Qed.

Lemma unread_after : unread st' cpu buf = unread st cpu buf ++ ws.
Proof.
  pose proof (wf_ds_bounds _ _ _ Hwf) as [Hds Hds4].
  pose proof (wf_used_range _ _ _ Hwf) as [Hu Hu4].
  pose proof (head_range _ _ _ Hwf) as [Hhr Hh4].
  pose proof (head_eq _ _ _ Hwf) as Hh.
  unfold unread. rewrite used_after, cons_after.
  change (data_size st') with (data_size st).
  replace ((used st buf + 4 * n) / 4) with (used st buf / 4 + n) by dlia.
  set (C := buf_cons st buf / 4) in *. set (U := used st buf / 4) in *.
  set (N := data_size st / 4) in *.
  assert (HN : 0 < N) by (unfold N; dlia).
  assert (HUN : U + n <= N) by (unfold U, N; dlia).
  assert (HhN : head st buf + n <= N) by (unfold N, to_wrap in *; dlia).
  rewrite seqZ_app by (unfold U; dlia). rewrite map_app. f_equal.
  - apply map_ext_in. intros k Hk.
    apply list_elem_of_In, elem_of_seqZ in Hk.
    rewrite ring_after by (apply Z.mod_pos_bound; lia).
    case_if E; [|done]. zbool. exfalso.
    assert (C + k = C + U + ((C + k) mod N - head st buf)); [|lia].
    apply (mod_window N); [done| |lia].
    rewrite <- (Zplus_mod_idemp_l (C + U)), <- Hh.
    replace (head st buf + ((C + k) mod N - head st buf)) with ((C + k) mod N) by lia.
    by rewrite Zmod_mod.
  - rewrite <- (map_nth_seqZ ws (0 + U) n Hlen). apply map_ext_in. intros k Hk.
    apply list_elem_of_In, elem_of_seqZ in Hk.
    assert ((C + k) mod N = head st buf + (k - U)) as ->.
    { replace (C + k) with (C + U + (k - U)) by lia.
      rewrite <- (Zplus_mod_idemp_l (C + U)), <- Hh. apply Z.mod_small. lia. }
    rewrite ring_after by lia. zcases; try lia. do 2 f_equal. lia.
Qed.
End Queue.

(** ** What an insertion does to the queue *)

(** The consumer's offset and the size of the ring are left alone. *)
Definition consumer_kept (st st' : tstate) (buf : Z) : Prop :=
  buf_cons st' buf = buf_cons st buf /\ data_size st' = data_size st.

Record inserted (st st' : tstate) (cpu buf : Z) (ws : list Z) : Prop := {
  ins_wf : tb_wf st' cpu buf;
  ins_step : ring_step st st';
  ins_lost : lost_records st' = lost_records st;
  ins_cons : consumer_kept st st' buf;
  ins_unread : unread st' cpu buf = unread st cpu buf ++ ws;
  ins_used : used st' buf = used st buf + 4 * Z.of_nat (length ws);
  ins_wrap : to_wrap st' buf =
    if to_wrap st buf =? 4 * Z.of_nat (length ws) then data_size st
    else to_wrap st buf - 4 * Z.of_nat (length ws)
}.

Lemma ring_step_globals st st' :
  ring_step st st' ->
  data_size st' = data_size st /\ tb_init_done st' = tb_init_done st /\
  t_buf_highwater st' = t_buf_highwater st.
Proof. by intros (m & c & l & ->). Qed.

Section Insert2.
Context (debug : bool) (get_cycles : nat -> Z) (uninit : nat -> Z).

Lemma to_wrap_after st st' buf n :
  4088 <= data_size st -> data_size st' = data_size st ->
  0 <= n <= to_wrap st buf ->
  buf_prod st' buf = (buf_prod st buf + n) mod (2 * data_size st) ->
  to_wrap st' buf = if to_wrap st buf =? n then data_size st else to_wrap st buf - n.
Proof.
  intros Hds Hd Hn Hp. unfold to_wrap in *. rewrite Hd, Hp.
  assert ((buf_prod st buf + n) mod (2 * data_size st) mod data_size st =
          (buf_prod st buf mod data_size st + n) mod data_size st) as ->.
  { rewrite Z.mod_mod_divide by (by exists 2).
    by rewrite Zplus_mod_idemp_l. }
  pose proof (Z.mod_pos_bound (buf_prod st buf) (data_size st)).
  case_if E; zbool.
  - rewrite <- E, Zplus_minus, Z.mod_same; lia.
  - rewrite Z.mod_small; lia.
Qed.

Lemma insert_record_spec st cpu buf event e cycles data :
  tb_wf st cpu buf -> tb_init_done st = true -> 0 <= e <= 7 ->
  (forall d, data = Some d -> length d = Z.to_nat e) ->
  4 * rec_words cycles e <= to_wrap st buf ->
  used st buf + 4 * rec_words cycles e <= data_size st ->
  exists st' ws,
    __insert_record debug get_cycles uninit cpu buf event (4 * e) cycles
      (4 * rec_words cycles e) data st = Some st' /\
    rec_image (get_cycles (cycles_read st)) event e cycles data ws /\
    inserted st st' cpu buf ws.
Proof.
  intros Hwf Hinit He Hdata Hwrap Hroom.
  destruct (insert_record_mem debug get_cycles uninit st cpu buf event e cycles data)
    as (ws & m & Himg & Heq & Hm); try done.
  assert (Hr : 0 <= rec_words cycles e) by (unfold rec_words; destruct cycles; lia).
  pose proof (rec_image_length _ _ _ _ _ _ (proj1 He) Himg) as Hlen.
  pose proof (wf_ds_bounds _ _ _ Hwf) as [Hds _].
  eexists _, ws. split; [exact Heq|]. split; [done|].
  set (c := if cycles then _ else _).
  split.
  - by eapply (wf_after st cpu buf (rec_words cycles e) ws m c).
  - exists m, c, (lost_records st). by destruct st.
  - done.
  - split; [|done]. by eapply (cons_after st cpu buf (rec_words cycles e) ws m c).
  - by eapply (unread_after st cpu buf (rec_words cycles e) ws m c).
  - rewrite Hlen. by eapply (used_after st cpu buf (rec_words cycles e) ws m c).
  - rewrite Hlen. apply to_wrap_after; try done; [lia|lia|].
    by eapply (prod_after st cpu buf (rec_words cycles e) ws m c).
Qed.

(** Padding up to the end of the data area: nothing, or a wrap record. *)
Definition is_wrap (ws : list Z) : Prop :=
  exists tsc e cycles, 0 <= e <= 7 /\
    rec_image tsc TRC_TRACE_WRAP_BUFFER e cycles None ws.

Lemma insert_wrap_record_spec st cpu buf size :
  tb_wf st cpu buf -> tb_init_done st = true ->
  to_wrap st buf < size <= 40 -> used st buf + to_wrap st buf <= data_size st ->
  exists st' ws,
    insert_wrap_record debug get_cycles uninit cpu buf size st = Some st' /\
    is_wrap ws /\ 4 * Z.of_nat (length ws) = to_wrap st buf /\
    inserted st st' cpu buf ws.
Proof.
  intros Hwf Hinit Hsz Hroom.
  pose proof (to_wrap_range _ _ _ Hwf) as [Hw Hw4].
  unfold insert_wrap_record. rewrite (calc_bytes_to_wrap_wf debug _ _ _ Hwf). simpl.
  rewrite (proj2 (Z.ltb_ge size _)) by lia. simpl.
  set (w := to_wrap st buf) in *. assert (4 <= w) by dlia.
  assert (Hd : exists e cycles, 0 <= e <= 7 /\ 4 * rec_words cycles e = w /\
    (if TRACE_EXTRA_MAX <? u32 (w - 4) / 4 then (true, u32 (u32 (w - 4) - 8))
     else (false, u32 (w - 4))) = (cycles, 4 * e)).
  { rewrite (u32_small (w - 4)) by lia. unfold rec_words, TRACE_EXTRA_MAX.
    case_if E; zbool.
    - rewrite u32_small by dlia. exists ((w - 12) / 4), true. split; [dlia|]. split; [dlia|]. f_equal. dlia.
    - exists ((w - 4) / 4), false. split; [dlia|]. split; [dlia|]. f_equal. dlia. }
  destruct Hd as (e & cycles & He & Hwe & ->).
  assert ((if cycles then ASSERT debug (4 * e / 4 <=? TRACE_EXTRA_MAX) else Some tt)
          = Some tt) as ->.
  { destruct cycles; [|done]. apply ASSERT_true, Z.leb_le. unfold TRACE_EXTRA_MAX. dlia. }
  simpl. rewrite <- Hwe.
  destruct (insert_record_spec st cpu buf TRC_TRACE_WRAP_BUFFER e cycles None)
    as (st' & ws & Heq & Himg & Hins); try done; try lia.
  exists st', ws. split; [done|]. split; [by eexists _, e, cycles|]. split; [|done].
  pose proof (rec_image_length _ _ _ _ _ _ (proj1 He) Himg). lia.
Qed.
End Insert2.

(** ** One call of __trace_var *)

(** The queue grew by [ws] and the buffer is still well formed. *)
Record appended (st st' : tstate) (cpu buf : Z) (ws : list Z) : Prop := {
  ap_wf : tb_wf st' cpu buf;
  ap_step : ring_step st st';
  ap_cons : consumer_kept st st' buf;
  ap_unread : unread st' cpu buf = unread st cpu buf ++ ws;
  ap_used : used st' buf = used st buf + 4 * Z.of_nat (length ws)
}.

Lemma inserted_appended st st' cpu buf ws :
  inserted st st' cpu buf ws -> appended st st' cpu buf ws.
Proof. intros []. by split. Qed.

Lemma appended_refl st cpu buf : tb_wf st cpu buf -> appended st st cpu buf [].
Proof.
  split; [done|apply ring_step_refl|done|by rewrite app_nil_r|simpl; lia].
Qed.

Lemma appended_trans a b c cpu buf ws1 ws2 :
  appended a b cpu buf ws1 -> appended b c cpu buf ws2 ->
  appended a c cpu buf (ws1 ++ ws2).
Proof.
  intros [? S1 [C1 D1] U1 N1] [? S2 [C2 D2] U2 N2].
  split; [done|by eapply ring_step_trans|split; congruence| |].
  - by rewrite U2, U1, app_assoc.
  - rewrite N2, N1, length_app. lia.
Qed.

(** Padding emitted before a record of [n] bytes when [w] bytes are left. *)
Definition padding (w n : Z) (pad : list Z) : Prop :=
  if w <? n then is_wrap pad /\ 4 * Z.of_nat (length pad) = w else pad = [].

Definition lost_notice (get_cycles : nat -> Z) (env : cpu_env) (st : tstate)
    (ws : list Z) : Prop :=
  let cpu := smp_processor_id env in
  let first_tsc := gget (lost_records_first_tsc st) cpu in
  exists k, rec_image (get_cycles k) TRC_LOST_RECORDS 4 true
    (Some [u32 (gget (lost_records st) cpu);
           Z.lor (u16 (cur_domid env)) (Z.shiftl (u16 (cur_vcpu env)) 16);
           u32 first_tsc; u32 (Z.shiftr first_tsc 32)]) ws.

Section TraceVar.
Context (debug : bool) (get_cycles : nat -> Z) (uninit : nat -> Z).

Lemma insert_padded st cpu buf n :
  tb_wf st cpu buf -> tb_init_done st = true -> 0 < n <= 40 ->
  used st buf + (if to_wrap st buf <? n then to_wrap st buf else 0) <= data_size st ->
  exists st' pad,
    (if to_wrap st buf <? n then insert_wrap_record debug get_cycles uninit cpu buf n st
     else Some st) = Some st' /\
    padding (to_wrap st buf) n pad /\ appended st st' cpu buf pad /\
    lost_records st' = lost_records st /\ n <= to_wrap st' buf /\
    to_wrap st' buf = (if to_wrap st buf <? n then data_size st else to_wrap st buf).
Proof.
  intros Hwf Hinit Hn Hroom. unfold padding.
  pose proof (wf_ds_bounds _ _ _ Hwf) as [Hds _].
  case_if E; zbool.
  - destruct (insert_wrap_record_spec debug get_cycles uninit st cpu buf n)
      as (st' & ws & Heq & Hw & Hl & Hins); try done; try lia.
    pose proof (ins_wrap _ _ _ _ _ Hins) as Htw. rewrite Hl, Z.eqb_refl in Htw.
    exists st', ws. split_and!; auto using inserted_appended; try lia.
    by apply (ins_lost _ _ _ _ _ Hins).
  - exists st, []. split_and!; auto using appended_refl.
Qed.

Lemma wf_lost_irrelevant st l cpu buf :
  tb_wf st cpu buf -> tb_wf (st <| lost_records := l |>) cpu buf.
Proof. intros []. by split. Qed.

Lemma insert_lost_records_spec env st buf :
  let cpu := smp_processor_id env in
  tb_wf st cpu buf -> tb_init_done st = true ->
  LOST_REC_SIZE <= to_wrap st buf -> used st buf + LOST_REC_SIZE <= data_size st ->
  exists st' ws,
    insert_lost_records debug get_cycles uninit env buf st = Some st' /\
    lost_notice get_cycles env st ws /\ length ws = 7%nat /\
    appended st st' cpu buf ws /\ gget (lost_records st') cpu = 0 /\
    to_wrap st' buf = if to_wrap st buf =? LOST_REC_SIZE then data_size st
                      else to_wrap st buf - LOST_REC_SIZE.
Proof.
  intros cpu Hwf Hinit Hw Hroom. unfold insert_lost_records. fold cpu.
  set (st0 := st <| lost_records ::= <[cpu := 0]> |>).
  set (ed := [_; _; _; _]).
  destruct (insert_record_spec debug get_cycles uninit st0 cpu buf TRC_LOST_RECORDS 4 true
    (Some ed)) as (st' & ws & Heq & Himg & Hins); try done.
  - by apply wf_lost_irrelevant.
  - by intros ? [= <-].
  - exists st', ws. assert (Hl : Z.of_nat (length ws) = 7)
      by (apply (rec_image_length _ _ 4 true) in Himg; [exact Himg|lia]).
    pose proof (ins_wrap _ _ _ _ _ Hins) as Htw. rewrite Hl in Htw.
    destruct Hins as [H1 (m & c & l & ->) H2 Hk H3 H4 _].
    split_and!; [exact Heq|by eexists|lia| |unfold gget; simpl in H2 |- *; by rewrite H2, lookup_insert_eq|exact Htw].
    split; [done|by exists m, c, l|done|done|done].
Qed.

(** Bytes the lost-record notice takes, padding included. *)
Definition lost_cost (lost : bool) (w : Z) : Z :=
  if lost then (if w <? LOST_REC_SIZE then w else 0) + LOST_REC_SIZE else 0.

(** Bytes to the wrap point once the notice is written. *)
Definition wrap_after_lost (lost : bool) (w ds : Z) : Z :=
  if lost then
    let w := (if w <? LOST_REC_SIZE then ds else w) - LOST_REC_SIZE in
    if w =? 0 then ds else w
  else w.

Lemma flush_lost_spec env st buf :
  let cpu := smp_processor_id env in
  let lost := negb (gget (lost_records st) cpu =? 0) in
  let w := to_wrap st buf in
  tb_wf st cpu buf -> tb_init_done st = true ->
  used st buf + lost_cost lost w <= data_size st ->
  exists st' pad notice,
    flush_lost debug get_cycles uninit env buf w st =
      Some (wrap_after_lost lost w (data_size st), st') /\
    appended st st' cpu buf (pad ++ notice) /\
    to_wrap st' buf = wrap_after_lost lost w (data_size st) /\
    4 * Z.of_nat (length (pad ++ notice)) = lost_cost lost w /\
    gget (lost_records st') cpu = 0 /\
    (if lost then padding w LOST_REC_SIZE pad /\ lost_notice get_cycles env st notice
     else pad = [] /\ notice = []).
Proof.
  intros cpu lost w Hwf Hinit Hroom. unfold flush_lost. fold cpu.
  pose proof (wf_ds_bounds _ _ _ Hwf) as [Hds _].
  pose proof (to_wrap_range _ _ _ Hwf) as [Hw _]. fold w in Hw.
  unfold lost in *. destruct (gget (lost_records st) cpu =? 0) eqn:El; simpl in *; zbool.
  { exists st, [], []. split_and!; try done. by apply appended_refl. }
  unfold lost_cost, wrap_after_lost in *.
  destruct (insert_padded st cpu buf LOST_REC_SIZE) as (st1 & pad & Heq & Hpad & Hap & Hl & Hge & Hw1);
    try done; fold w; try (unfold LOST_REC_SIZE in *; destruct (w <? 4 + 8 + 16); lia).
  destruct (ring_step_globals _ _ (ap_step _ _ _ _ _ Hap)) as (Hd1 & Hi1 & _).
  destruct (insert_lost_records_spec env st1 buf) as (st2 & ws & Heq2 & Hn & Hlen & Hap2 & Hz & Hw2);
    try done.
  { apply (ap_wf _ _ _ _ _ Hap). }
  { by rewrite Hi1. }
  { rewrite (ap_used _ _ _ _ _ Hap), Hd1. unfold padding in Hpad. fold w in Hpad.
    destruct (w <? LOST_REC_SIZE); [destruct Hpad as [_ ->]|subst pad; simpl]; lia. }
  exists st2, pad, ws. fold w in Heq, Hpad, Hw1.
  destruct (ring_step_globals _ _ (ap_step _ _ _ _ _ Hap2)) as (Hd2 & _ & _).
  assert (Hpl : 4 * Z.of_nat (length pad) = if w <? LOST_REC_SIZE then w else 0).
  { unfold padding in Hpad. destruct (w <? LOST_REC_SIZE); [by destruct Hpad|by subst]. }
  assert (Hflow : (if w <? LOST_REC_SIZE
       then insert_wrap_record debug get_cycles uninit cpu buf LOST_REC_SIZE st ≫=
              (fun st => Some (data_size st, st))
       else Some (w, st)) = Some ((if w <? LOST_REC_SIZE then data_size st else w), st1)).
  { destruct (w <? LOST_REC_SIZE); [rewrite Heq; simpl; by rewrite Hd1|].
    by injection Heq as ->. }
  rewrite Hflow. simpl. rewrite Heq2. simpl.
  rewrite Hw1 in Hw2. rewrite Hd1 in Hw2. rewrite Hd2, Hd1.
  rewrite u32_small by (unfold LOST_REC_SIZE in *; destruct (w <? 4 + 8 + 16) eqn:?; zbool; lia).
  split_and!; try done.
  - by eapply appended_trans.
  - rewrite Hw2. zcases; unfold LOST_REC_SIZE in *; lia.
  - rewrite length_app. unfold LOST_REC_SIZE in *. lia.
  - destruct Hn as [k Hn]. exists k. rewrite <- Hl.
    destruct (ap_step _ _ _ _ _ Hap) as (? & ? & ? & ->). exact Hn.
Qed.

Lemma wrap_after_lost_pos lost w ds :
  0 < w <= ds -> 4088 <= ds -> 0 < wrap_after_lost lost w ds.
Proof. unfold wrap_after_lost, LOST_REC_SIZE. destruct lost; zcases; lia. Qed.

Lemma dry_run_eq lost n w ds :
  4088 <= ds < 2 ^ 28 -> 0 < w <= ds -> 0 < n <= 40 ->
  dry_run lost n w ds =
    lost_cost lost w +
    (let w' := wrap_after_lost lost w ds in if w' <? n then w' else 0) + n.
Proof.
  intros Hds Hw Hn. unfold dry_run, lost_cost, wrap_after_lost, LOST_REC_SIZE.
  destruct lost; [destruct (w <? 4 + 8 + 16) eqn:E; zbool|];
    rewrite ?(u32_small (_ + (4 + 8 + 16))), ?(u32_small (_ - (4 + 8 + 16))) by lia; cbn zeta;
    zcases; rewrite !u32_small; try lia; rewrite ?u32_small; lia.
Qed.

(** An event that passes the masks on an enabled system. *)
Definition traced (env : cpu_env) (st : tstate) (event : Z) : Prop :=
  tb_init_done st = true /\ event_selected (tb_event_mask st) event = true /\
  smp_processor_id env ∈ tb_cpu_mask st.

(** Bytes that tracing a record of [n] bytes needs in the present state. *)
Definition needed (env : cpu_env) (st : tstate) (buf n : Z) : Z :=
  dry_run (negb (gget (lost_records st) (smp_processor_id env) =? 0)) n
    (to_wrap st buf) (data_size st).

(** The body of [__trace_var] once the filters and the space check passed. *)
Lemma trace_var_unfold env st buf event e cycles data :
  let cpu := smp_processor_id env in
  let n := 4 * rec_words cycles e in
  tb_wf st cpu buf -> traced env st event -> 0 <= e <= 7 ->
  __trace_var debug get_cycles uninit env event cycles (4 * e) data st =
    if data_size st - used st buf <? needed env st buf n then
      let k := u64 (gget (lost_records st) cpu + 1) in
      let st := st <| lost_records ::= <[cpu := k]> |> in
      if k =? 1 then
        let '(tsc, st) := read_cycles get_cycles st in
        Some (st <| lost_records_first_tsc ::= <[cpu := tsc]> |>)
      else Some st
    else
      '(w, st1) ← flush_lost debug get_cycles uninit env buf (to_wrap st buf) st;
      st2 ← (if w <? n then insert_wrap_record debug get_cycles uninit cpu buf n st1
             else Some st1);
      st3 ← __insert_record debug get_cycles uninit cpu buf event (4 * e) cycles n data st2;
      if used st buf <? t_buf_highwater st then
        '(u, st4) ← calc_unconsumed_bytes debug buf st3;
        Some (if t_buf_highwater st4 <=? u then st4 <| tasklet_scheduled := true |> else st4)
      else Some st3.
Proof.
  intros cpu n Hwf (Hinit & Hsel & Hcpu) He. unfold __trace_var, needed. fold cpu in Hcpu |- *.
  rewrite Hinit. simpl negb. cbv iota.
  replace ((4 * e) mod 4) with 0 by dlia. rewrite Z.eqb_refl. simpl negb. cbv iota.
  replace (4 * e / 4) with e by dlia. cbn zeta.
  rewrite ASSERT_true by (apply Z.leb_le; unfold TRACE_EXTRA_MAX; lia). simpl.
  rewrite Z.min_l by (unfold TRACE_EXTRA_MAX; lia).
  rewrite (u32_small (e * 4)) by lia. rewrite (Z.mul_comm e 4), Hsel. simpl.
  rewrite bool_decide_true by done. simpl.
  rewrite (wf_buf _ _ _ Hwf), (calc_unconsumed_bytes_wf debug _ _ _ Hwf). simpl.
  rewrite (calc_bytes_avail_wf debug _ _ _ Hwf). simpl.
  rewrite (calc_bytes_to_wrap_wf debug _ _ _ Hwf). simpl.
  rewrite calc_rec_size_words by done. fold n.
  case_if E; [done|]. by rewrite (calc_bytes_to_wrap_wf debug _ _ _ Hwf).
Qed.

(** Padding and record, in a state where they fit. *)
Lemma insert_padded_record st cpu buf event e cycles d :
  let n := 4 * rec_words cycles e in
  let w := to_wrap st buf in
  tb_wf st cpu buf -> tb_init_done st = true -> 0 <= e <= 7 -> length d = Z.to_nat e ->
  used st buf + (if w <? n then w else 0) + n <= data_size st ->
  exists st1 st' pad ws k,
    (if w <? n then insert_wrap_record debug get_cycles uninit cpu buf n st
     else Some st) = Some st1 /\
    __insert_record debug get_cycles uninit cpu buf event (4 * e) cycles n (Some d) st1
      = Some st' /\
    appended st st' cpu buf (pad ++ ws) /\ lost_records st' = lost_records st /\
    padding w n pad /\ rec_image (get_cycles k) event e cycles (Some d) ws /\
    4 * Z.of_nat (length (pad ++ ws)) = (if w <? n then w else 0) + n.
Proof.
  intros n w Hwf Hinit He Hd Hroom.
  assert (Hn : 0 < n <= 40) by (unfold n, rec_words; destruct cycles; lia).
  destruct (insert_padded st cpu buf n)
    as (st1 & pad & Heq1 & Hpad & Hap1 & Hl1 & Hge1 & _); try done; [fold w; lia|].
  destruct (ring_step_globals _ _ (ap_step _ _ _ _ _ Hap1)) as (Hd1 & Hi1 & _).
  pose proof (ap_used _ _ _ _ _ Hap1) as Hu1. fold w in Heq1, Hpad.
  assert (Hpl : 4 * Z.of_nat (length pad) = if w <? n then w else 0)
    by (unfold padding in Hpad; destruct (w <? n); [by destruct Hpad|by subst]).
  destruct (insert_record_spec debug get_cycles uninit st1 cpu buf event e cycles (Some d))
    as (st' & ws & Heq2 & Himg & Hins); try done.
  { apply (ap_wf _ _ _ _ _ Hap1). }
  { by rewrite Hi1. }
  { by intros ? [= <-]. }
  { fold n. lia. }
  exists st1, st', pad, ws, (cycles_read st1).
  pose proof (rec_image_length _ _ _ _ _ _ (proj1 He) Himg) as Hlen.
  split_and!; try done.
  - eapply appended_trans; [done|by apply inserted_appended].
  - by rewrite (ins_lost _ _ _ _ _ Hins).
  - rewrite length_app. unfold n in *. lia.
Qed.
End TraceVar.

(** The notification check after the record is in place. *)
Lemma notify_after debug env st st3 buf ws :
  let cpu := smp_processor_id env in
  appended st st3 cpu buf ws ->
  exists st',
    (if used st buf <? t_buf_highwater st then
       '(u, st4) ← calc_unconsumed_bytes debug buf st3;
       Some (if t_buf_highwater st4 <=? u then st4 <| tasklet_scheduled := true |> else st4)
     else Some st3) = Some st' /\
    tb_wf st' cpu buf /\ unread st' cpu buf = unread st cpu buf ++ ws /\
    lost_records st' = lost_records st3 /\ used st' buf = used st3 buf /\
    consumer_kept st st' buf /\
    tb_event_mask st' = tb_event_mask st /\
    tasklet_scheduled st' =
      tasklet_scheduled st || ((used st buf <? t_buf_highwater st) &&
                               (t_buf_highwater st <=? used st' buf)).
Proof.
  intros cpu Hap.
  pose proof (ap_wf _ _ _ _ _ Hap) as Hwf3.
  pose proof (ap_unread _ _ _ _ _ Hap) as Hun.
  pose proof (ap_cons _ _ _ _ _ Hap) as Hck.
  destruct (ring_step_globals _ _ (ap_step _ _ _ _ _ Hap)) as (_ & _ & Hh).
  assert (Ht : tasklet_scheduled st3 = tasklet_scheduled st)
    by (by destruct (ap_step _ _ _ _ _ Hap) as (? & ? & ? & ->)).
  assert (Hm : tb_event_mask st3 = tb_event_mask st)
    by (by destruct (ap_step _ _ _ _ _ Hap) as (? & ? & ? & ->)).
  destruct (used st buf <? t_buf_highwater st) eqn:E1.
  - rewrite (calc_unconsumed_bytes_wf debug _ _ _ Hwf3). simpl. rewrite Hh.
    destruct (t_buf_highwater st <=? used st3 buf) eqn:E2.
    + exists (st3 <| tasklet_scheduled := true |>). split_and!; try done.
      * destruct Hwf3. by split.
      * change (used (st3 <| tasklet_scheduled := true |>) buf) with (used st3 buf).
        rewrite E2. by rewrite orb_true_r.
    + exists st3. split_and!; try done. by rewrite E2, Ht, orb_false_r.
  - exists st3. split_and!; try done. by rewrite Ht, orb_false_r.
Qed.

Section Theorems.
Context (debug : bool) (get_cycles : nat -> Z) (uninit : nat -> Z).

Lemma trace_var_ok env st buf event e cycles d :
  let cpu := smp_processor_id env in
  let n := 4 * rec_words cycles e in
  let w := to_wrap st buf in
  let lost := negb (gget (lost_records st) cpu =? 0) in
  tb_wf st cpu buf -> traced env st event -> 0 <= e <= 7 -> length d = Z.to_nat e ->
  used st buf + needed env st buf n <= data_size st ->
  exists st' pad notice pad' ws,
    __trace_var debug get_cycles uninit env event cycles (4 * e) (Some d) st = Some st' /\
    tb_wf st' cpu buf /\
    unread st' cpu buf = unread st cpu buf ++ pad ++ notice ++ pad' ++ ws /\
    (if lost then padding w LOST_REC_SIZE pad /\ lost_notice get_cycles env st notice
     else pad = [] /\ notice = []) /\
    padding (wrap_after_lost lost w (data_size st)) n pad' /\
    (exists k, rec_image (get_cycles k) event e cycles (Some d) ws) /\
    gget (lost_records st') cpu = 0 /\
    used st' buf = used st buf + needed env st buf n /\
    consumer_kept st st' buf /\
    tb_event_mask st' = tb_event_mask st /\
    tasklet_scheduled st' =
      tasklet_scheduled st || ((used st buf <? t_buf_highwater st) &&
                               (t_buf_highwater st <=? used st' buf)).
Proof.
  intros cpu n w lost Hwf Htr He Hd Hroom.
  pose proof (wf_ds_bounds _ _ _ Hwf) as [Hds _].
  pose proof (to_wrap_range _ _ _ Hwf) as [Hw _].
  pose proof (wf_used_range _ _ _ Hwf) as [Hu _].
  assert (Hn : 0 < n <= 40) by (unfold n, rec_words; destruct cycles; lia).
  rewrite (trace_var_unfold debug get_cycles uninit env st buf) by done. fold cpu n.
  rewrite (proj2 (Z.ltb_ge _ _)) by lia.
  unfold needed in *. fold cpu lost in Hroom |- *. rewrite dry_run_eq in * by done.
  fold w in Hroom, Hw |- *. cbn zeta in *.
  destruct (flush_lost_spec debug get_cycles uninit env st buf)
    as (st1 & pad & notice & Heq1 & Hap1 & Hw1 & Hl1 & Hz1 & Hnote); try done.
  { apply Htr. }
  { fold cpu lost w. pose proof (wrap_after_lost_pos lost w (data_size st) Hw ltac:(lia)).
    destruct (_ <? n); lia. }
  fold cpu lost w in Heq1, Hap1, Hw1, Hl1, Hz1, Hnote. rewrite Heq1. simpl.
  destruct (ring_step_globals _ _ (ap_step _ _ _ _ _ Hap1)) as (Hd1 & Hi1 & Hh1).
  pose proof (ap_used _ _ _ _ _ Hap1) as Hu1. rewrite Hl1 in Hu1. rewrite <- Hw1 in *.
  destruct (insert_padded_record debug get_cycles uninit st1 cpu buf event e cycles d)
    as (st2 & st3 & pad' & ws & k & Heq2 & Heq3 & Hap2 & Hl2 & Hpad' & Himg & Hlen); try done.
  { apply (ap_wf _ _ _ _ _ Hap1). }
  { rewrite Hi1. apply Htr. }
  { fold n. lia. }
  fold n in Heq2, Heq3, Hlen, Hpad'. rewrite Heq2. simpl. rewrite Heq3. simpl.
  pose proof (appended_trans _ _ _ _ _ _ _ Hap1 Hap2) as Hap.
  destruct (notify_after debug env st st3 buf (pad ++ notice ++ pad' ++ ws)) as (st' & -> & Hst'); [by rewrite !app_assoc in *|].
  exists st', pad, notice, pad', ws.
  destruct Hst' as (Hwf' & Hun' & Hl' & Hu' & Hck' & Hm' & Ht').
  split_and!; try done.
  - by exists k.
  - by rewrite Hl', Hl2.
  - rewrite Hu', (ap_used _ _ _ _ _ Hap), length_app. lia.
Qed.

(** C4. Tracing with room: on a well-formed buffer, a call of [__trace_var]
    for a selected event whose record (with the notice about lost records and
    the padding to the wrap point that must precede it) fits never reaches a
    BUG_ON or ASSERT, keeps the buffer well formed, and appends to the queue
    exactly: padding and a lost-records notice if records were lost, padding
    if the record would cross the end of the data area, and the record's image
    with the caller's payload, across page boundaries too.  The loss counter is
    cleared and the consumer is notified exactly when the fill level crosses
    the high-water mark. *)
Theorem trace_var_appends env st buf event e cycles d :
  let cpu := smp_processor_id env in
  let n := 4 * rec_words cycles e in
  let w := to_wrap st buf in
  let lost := negb (gget (lost_records st) cpu =? 0) in
  tb_wf st cpu buf -> traced env st event -> 0 <= e <= 7 -> length d = Z.to_nat e ->
  used st buf + needed env st buf n <= data_size st ->
  exists st' pad notice pad' ws,
    __trace_var debug get_cycles uninit env event cycles (4 * e) (Some d) st = Some st' /\
    tb_wf st' cpu buf /\
    unread st' cpu buf = unread st cpu buf ++ pad ++ notice ++ pad' ++ ws /\
    (if lost then padding w LOST_REC_SIZE pad /\ lost_notice get_cycles env st notice
     else pad = [] /\ notice = []) /\
    padding (wrap_after_lost lost w (data_size st)) n pad' /\
    (exists k, rec_image (get_cycles k) event e cycles (Some d) ws) /\
    gget (lost_records st') cpu = 0 /\
    used st' buf = used st buf + needed env st buf n /\
    tasklet_scheduled st' =
      tasklet_scheduled st || ((used st buf <? t_buf_highwater st) &&
                               (t_buf_highwater st <=? used st' buf)).
Proof.
  intros cpu n w lost Hwf Htr He Hd Hroom.
  destruct (trace_var_ok env st buf event e cycles d Hwf Htr He Hd Hroom)
    as (st' & pad & notice & pad' & ws & H1 & H2 & H3 & H4 & H5 & H6 & H7 & H8 & _ & _ & H9).
  exists st', pad, notice, pad', ws. by split_and!.
Qed.

End Theorems.

(** ** Which events are recorded *)

Lemma land_pow2 k x : 0 <= k -> Z.land (2 ^ k) x = if Z.testbit x k then 2 ^ k else 0.
Proof.
  intros Hk. apply Z.bits_inj'. intros i Hi. rewrite Z.land_spec, Z.pow2_bits_eqb by lia.
  destruct (Z.eqb_spec k i) as [->|Hne]; simpl.
  - destruct (Z.testbit x i); [by rewrite Z.pow2_bits_true by lia|by rewrite Z.bits_0].
  - destruct (Z.testbit x k); [by rewrite Z.pow2_bits_false by lia|by rewrite Z.bits_0].
Qed.

(** The event mask of the service, 0x00082030, records exactly the events of
    the HVM class (bit 19) and handler subclass (bit 13) whose number ends in
    0x30, so the VMFUNC event and not the RDTSC event. *)
Theorem vmfunc_mask_selects event :
  event_selected 0x00082030 event = true <->
  Z.testbit event 19 = true /\ Z.testbit event 13 = true /\ event mod 256 = 0x30.
Proof.
  unfold event_selected, TRC_CLS_SHIFT, TRC_SUBCLS_SHIFT.
  change (Z.shiftr 0x82030 16) with (2 ^ 3).
  change (Z.land (Z.shiftr 0x82030 12) 0xf) with (2 ^ 1).
  change (Z.land 0x82030 0xff) with 0x30.
  change 0xff with (Z.ones 8). rewrite (Z.land_ones event 8) by lia.
  rewrite !land_pow2 by lia. rewrite Z.land_spec, !Z.shiftr_spec by lia.
  change (3 + 16) with 19. change (1 + 12) with 13.
  change (Z.testbit 0xf 1) with true. rewrite andb_true_r. change (2 ^ 8) with 256.
  assert (Hm : Z.testbit event 19 = true -> (Z.land 0x82030 event =? 0) = false).
  { intros H. apply Z.eqb_neq. intros H0.
    assert (Z.testbit (Z.land 0x82030 event) 19 = true) as Ht
      by (by rewrite Z.land_spec, H).
    rewrite H0, Z.bits_0 in Ht. done. }
  destruct (Z.testbit event 19).
  - rewrite Hm by done. change (2 ^ 3 =? 0) with false. cbv iota.
    destruct (Z.testbit event 13); [change (2 ^ 1 =? 0) with false|change (0 =? 0) with true];
      cbv iota; [|split; [done|by intros (_ & ? & _)]].
    destruct (Z.eqb_spec 48 (event mod 256)) as [He|He]; simpl.
    + split; [intros _; by split_and!|done].
    + split; [done|intros (_ & _ & H); by rewrite H in He].
  - simpl. destruct (Z.land _ event =? 0); (split; [done|by intros (? & _)]).
Qed.

(** The low byte of the event mask is compared for equality: only events
    that agree with the mask in their low byte are recorded, so a class mask
    such as the default TRC_ALL records no event whose number is not a
    multiple of 256. *)
Theorem selected_low_byte mask event :
  event_selected mask event = true -> event mod 256 = mask mod 256.
Proof.
  unfold event_selected. change 0xff with (Z.ones 8). rewrite !Z.land_ones by lia.
  do 3 (case_match; [done|]).
  change (2 ^ 8) with 256 in *.
  by destruct (Z.eqb_spec (mask mod 256) (event mod 256)).
Qed.

(** ** Witnesses *)

Definition demo_state (prod lost : Z) : tstate :=
  mkT 1 0 (Some (mkTInfo 1 {[0 := 129]} {[129 := 5]} 9)) 1 {[0 := 5 * 1024]} 4088 2044
    {[0 := lost]} ∅ true {[0]} 0x00082030 {[5 * 1024 + 1 := prod]} false 0 [] [] [] [].

Lemma demo_wf prod lost :
  0 <= prod <= 4088 -> prod mod 4 = 0 -> tb_wf (demo_state prod lost) 0 (5 * 1024).
Proof.
  intros Hp H4.
  assert (Hpr : buf_prod (demo_state prod lost) (5 * 1024) = prod) by done.
  assert (Hc : buf_cons (demo_state prod lost) (5 * 1024) = 0) by done.
  split; rewrite ?Hpr, ?Hc; try done; simpl; try lia.
  unfold used. rewrite Hpr, Hc. simpl data_size. rewrite Z.mod_small; lia.
Qed.

Lemma demo_traced prod lost : traced (mkEnv 0 1 0) (demo_state prod lost) TRC_HVM_VMFUNC.
Proof. split; [done|]. split; [done|]. simpl. by apply elem_of_singleton. Qed.

Lemma trace_var_appends_witness :
  exists st' pad notice pad' ws,
    __trace_var true (fun _ => 7) (fun _ => 0) (mkEnv 0 1 0) TRC_HVM_VMFUNC false (4 * 2)
      (Some [1; 3]) (demo_state 2040 0) = Some st' /\
    unread st' 0 (5 * 1024) =
      unread (demo_state 2040 0) 0 (5 * 1024) ++ pad ++ notice ++ pad' ++ ws.
Proof.
  destruct (trace_var_appends true (fun _ => 7) (fun _ => 0) (mkEnv 0 1 0)
    (demo_state 2040 0) (5 * 1024) TRC_HVM_VMFUNC 2 false [1; 3])
    as (st' & pad & notice & pad' & ws & H1 & _ & H3 & _);
    [apply demo_wf; [lia|reflexivity]|apply demo_traced|lia|reflexivity
    |vm_compute; discriminate|].
  exists st', pad, notice, pad', ws. split; [exact H1|exact H3].
Defined.


Lemma selected_low_byte_witness : TRC_HVM_VMFUNC mod 256 = 0x00082030 mod 256.
Proof. apply (selected_low_byte 0x00082030 TRC_HVM_VMFUNC). reflexivity. Defined.
