(* ===== verification/TraceAlloc.v ===== *)
(** * Setting up and controlling the trace buffers (theorems about Trace.v)

    [alloc_trace_bufs] lays the frames of all CPUs out in one list behind the
    per-CPU offsets; the theorems say that the layout never overlaps, that
    every buffer starts empty and well formed, and that a failed allocation
    gives back what it took. *)

From S2P Require Import Prelude Trace TraceProofs.

Section Alloc.
Context (online : list Z).

(** The inner loop: [fs] are the frames the allocator hands out. *)
Lemma alloc_cpu_pages_ok fs : forall i offset st rest ti,
  heap st = map Some fs ++ rest -> t_info st = Some ti ->
  alloc_cpu_pages (length fs) i offset st =
    (true, st <| heap := rest |>
              <| t_info := Some (ti <| mfn_list ::= mem_write (offset + i) (map u32 fs) |>) |>).
Proof.
  induction fs as [|f fs IH]; intros i offset st rest ti Hh Ht; simpl in *.
  - destruct st; simpl in *; subst. by destruct ti.
  - unfold alloc_xenheap_pages. rewrite Hh.
    erewrite IH; [|done|]; [|unfold set_mfn_list; simpl; by rewrite Ht].
    replace (offset + (i + 1)) with (offset + i + 1) by lia.
    destruct st; simpl in *. by rewrite Ht.
Qed.

(** The outer loop over CPUs [c, c + n) with [p] pages each. *)
Lemma alloc_all_cpus_ok n : forall c first p fs st rest ti,
  0 <= c -> 1 <= p -> 0 <= first ->
  first + (c + Z.of_nat n - 1) * p < 2 ^ 16 ->
  length fs = (n * Z.to_nat p)%nat ->
  heap st = map Some fs ++ rest -> t_info st = Some ti ->
  alloc_all_cpus (seqZ c (Z.of_nat n)) first p st =
    (true, st <| heap := rest |>
      <| t_info := Some (ti
           <| mfn_offset ::= fun m => fold_left (fun m cpu => <[cpu := first + cpu * p]> m)
                                       (seqZ c (Z.of_nat n)) m |>
           <| mfn_list ::= mem_write (first + c * p) (map u32 fs) |>) |>).
Proof.
  induction n as [|n IH]; intros c first p fs st rest ti Hc Hp Hf Hmax Hlen Hh Ht.
  - destruct fs; [|done]. simpl in *. destruct st; simpl in *; subst. by destruct ti.
  - rewrite (seqZ_cons c) by lia. simpl.
    replace (Z.succ c) with (c + 1) by lia.
    replace (Z.pred (Z.of_nat (S n))) with (Z.of_nat n) by lia.
    assert (u16 (first + c * p) = first + c * p) as -> by (apply Z.mod_small; nia).
    rewrite <- (take_drop (Z.to_nat p) fs) in Hh. rewrite map_app, <- app_assoc in Hh.
    assert (Hl1 : length (take (Z.to_nat p) fs) = Z.to_nat p) by (rewrite length_take; lia).
    rewrite <- Hl1 at 1.
    erewrite alloc_cpu_pages_ok; [|exact Hh|unfold set_mfn_offset; simpl; by rewrite Ht].
    assert (Hl2 : length (drop (Z.to_nat p) fs) = (n * Z.to_nat p)%nat)
      by (rewrite length_drop, Hlen; simpl; lia).
    erewrite (IH (c + 1)); [|lia|done|done|nia|exact Hl2|reflexivity|reflexivity].
    assert (Hfs : mem_write (first + c * p) (map u32 fs) (mfn_list ti) =
      mem_write (first + (c + 1) * p) (map u32 (drop (Z.to_nat p) fs))
        (mem_write (first + c * p + 0) (map u32 (take (Z.to_nat p) fs)) (mfn_list ti))).
    { rewrite <- (take_drop (Z.to_nat p) fs) at 1.
      rewrite map_app, mem_write_app, length_map, Hl1, Z2Nat.id, Z.add_0_r by lia.
      by replace (first + (c + 1) * p) with (first + c * p + p) by lia. }
    destruct st; simpl in *. unfold set; simpl. by rewrite Hfs.
Qed.

Lemma fold_offsets (f : Z -> Z) l : forall m cpu,
  gget (fold_left (fun m c => <[c := f c]> m) l m) cpu =
    if bool_decide (cpu ∈ l) then f cpu else gget m cpu.
Proof.
  induction l as [|c l IH]; intros m cpu; cbn [fold_left].
  - case_bool_decide; [set_solver|done].
  - rewrite IH. unfold gget.
    destruct (decide (c = cpu)) as [->|Hne].
    + rewrite lookup_insert_eq. repeat case_bool_decide; set_solver.
    + rewrite lookup_insert_ne by done.
      repeat case_bool_decide; try done; rewrite elem_of_cons in *; intuition congruence.
Qed.

(** Initialising the headers touches neither the layout nor other headers. *)
Definition header_of (st : tstate) (cpu : Z) : Z :=
  mfn_to_virt (get_mfn_list st (get_mfn_offset st cpu)).

Lemma init_cpu_buf_zero p st c a :
  rd (mem st) a = 0 -> rd (mem (init_cpu_buf p st c)) a = 0.
Proof.
  intros H. simpl. set (b := mfn_to_virt _).
  destruct (decide (b + 1 = a)) as [<-|]; [by rewrite rd_insert_eq|].
  rewrite rd_insert_ne by done.
  destruct (decide (b = a)) as [<-|]; [by rewrite rd_insert_eq|].
  by rewrite rd_insert_ne.
Qed.

Lemma init_cpu_buf_header p st c :
  rd (mem (init_cpu_buf p st c)) (header_of st c) = 0 /\
  rd (mem (init_cpu_buf p st c)) (header_of st c + 1) = 0.
Proof.
  simpl. fold (header_of st c). rewrite rd_insert_eq. rewrite rd_insert_ne by lia.
  by rewrite rd_insert_eq.
Qed.

Lemma init_bufs_spec p l : forall st,
  let st' := fold_left (init_cpu_buf p) l st in
  t_info st' = t_info st /\
  (forall cpu, cpu ∈ l -> t_bufs st' !! cpu = Some (header_of st cpu) /\
     rd (mem st') (header_of st cpu) = 0 /\ rd (mem st') (header_of st cpu + 1) = 0) /\
  (forall cpu, cpu ∉ l -> t_bufs st' !! cpu = t_bufs st !! cpu) /\
  (forall a, rd (mem st) a = 0 -> rd (mem st') a = 0) /\
  heap st' = heap st /\ lost_records st' = lost_records st.
Proof.
  induction l as [|c l IH]; intros st; simpl; [set_solver|].
  destruct (IH (init_cpu_buf p st c)) as (H1 & H2 & H3 & H4 & H5 & H6).
  split_and!; try done.
  - intros cpu Hc. destruct (decide (cpu ∈ l)); [by apply H2|].
    apply elem_of_cons in Hc as [->|]; [|done].
    destruct (init_cpu_buf_header p st c). split_and!; auto.
    rewrite H3 by done. simpl. by rewrite lookup_insert_eq.
  - intros cpu Hc. rewrite not_elem_of_cons in Hc. rewrite H3 by apply Hc. simpl.
    by rewrite lookup_insert_ne by (intros ->; by destruct Hc).
  - intros a Ha. apply H4. by apply init_cpu_buf_zero.
Qed.

(** The size calculation keeps the layout inside 16-bit offsets. *)
Lemma calculate_tbuf_size_bounds pages :
  let p := (calculate_tbuf_size online pages 129).1 in
  1 <= num_online_cpus online <= NR_CPUS -> 1 <= pages ->
  1 <= p <= 65535 /\ p <= pages /\ 129 + (num_online_cpus online - 1) * p <= 65535.
Proof.
  unfold calculate_tbuf_size, NR_CPUS, PAGE_SIZE. simpl.
  set (n := num_online_cpus online). intros Hn Hpg.
  change (u32 (-1) / 4096) with 1048575. change (u16 (-1)) with 65535.
  change (u16 (65535 - 129)) with 65406. simpl.
  rewrite (u32_small (n - 1)) by lia.
  destruct (Z.eqb_spec (n - 1) 0) as [H0|H0]; simpl.
  - rewrite H0. zcases; lia.
  - assert (u16 (65406 / (n - 1)) = 65406 / (n - 1)) as ->
      by (apply Z.mod_small; split; [apply Z.div_pos; lia|apply Z.div_lt_upper_bound; lia]).
    assert (1 <= 65406 / (n - 1)) by (apply Z.div_le_lower_bound; lia).
    assert ((n - 1) * (65406 / (n - 1)) <= 65406) by (apply Z.mul_div_le; lia).
    set (q := 65406 / (n - 1)) in *. clearbody q.
    assert (Hmul : forall x, x <= q -> (n - 1) * x <= 65406)
      by (intros; apply Z.le_trans with ((n - 1) * q); [apply Z.mul_le_mono_nonneg_l|]; lia).
    assert (q <= 65406) by nia. rewrite (proj2 (Z.ltb_lt q 65535)) by lia.
    pose proof (Hmul q ltac:(lia)).
    destruct (decide (pages <= q)) as [Hle|]; [pose proof (Hmul pages Hle)|]; zcases; lia.
Qed.

(** The layout read back: page [k] of [cpu] is the frame handed out for it. *)
Lemma layout_frame st ti0 n p frames cpu k :
  t_info st = Some (ti0
    <| mfn_offset := fold_left (fun m c => <[c := 129 + c * p]> m) (seqZ 0 n) ∅ |>
    <| mfn_list := mem_write 129 (map u32 frames) ∅ |>) ->
  (forall f, f ∈ frames -> 0 < f < 2 ^ 32) -> 1 <= p ->
  Z.of_nat (length frames) = n * p -> 0 <= cpu < n -> 0 <= k < p ->
  frame st cpu k = nth (Z.to_nat (cpu * p + k)) frames 0.
Proof.
  intros Ht Hfr Hp Hlen Hcpu Hk.
  unfold frame, get_mfn_list, get_mfn_offset. rewrite Ht. simpl.
  rewrite (fold_offsets (fun c => 129 + c * p)).
  rewrite bool_decide_true by (apply elem_of_seqZ; lia).
  assert (0 <= cpu * p + k < n * p) by nia.
  change (gget ?m ?i) with (rd m i).
  rewrite rd_mem_write_in by (rewrite length_map; lia).
  replace (129 + cpu * p + k - 129) with (cpu * p + k) by lia.
  rewrite !nth_lookup, list_lookup_fmap.
  destruct (lookup_lt_is_Some_2 frames (Z.to_nat (cpu * p + k))) as [f Hf]; [lia|].
  rewrite Hf. simpl. apply u32_small. apply list_elem_of_lookup_2 in Hf.
  pose proof (Hfr f Hf). lia.
Qed.

(** A buffer with distinct frames and a zeroed header is well formed and empty. *)
Lemma fresh_buf_wf st cpu p frames b :
  1 <= p <= 65535 -> opt_tbuf_size st = p -> data_size st = p * 4096 - 8 ->
  0 <= b -> b + p <= Z.of_nat (length frames) -> NoDup frames ->
  (forall k, 0 <= k < p -> frame st cpu k = nth (Z.to_nat (b + k)) frames 0) ->
  let buf := mfn_to_virt (frame st cpu 0) in
  t_bufs st !! cpu = Some buf -> buf_cons st buf = 0 -> buf_prod st buf = 0 ->
  tb_wf st cpu buf /\ unread st cpu buf = [].
Proof.
  intros Hp Ho Hd Hb Hlen Hnd Hfr buf Hbuf Hc Hpr.
  assert (Hu : used st buf = 0) by (unfold used; by rewrite Hc, Hpr, Z.mod_0_l by lia).
  split.
  - split; rewrite ?Ho, ?Hc, ?Hpr, ?Hu; try done; try lia.
    intros j k Hj Hk. rewrite !Hfr, !nth_lookup by done.
    destruct (lookup_lt_is_Some_2 frames (Z.to_nat (b + j))) as [x Hx]; [lia|].
    destruct (lookup_lt_is_Some_2 frames (Z.to_nat (b + k))) as [y Hy]; [lia|].
    rewrite Hx, Hy. simpl. intros ->.
    pose proof (NoDup_lookup _ _ _ _ Hnd Hx Hy). lia.
  - unfold unread. by rewrite Hu.
Qed.


(** ** Failure of the allocator *)

(** What the failing allocation leaves in the frame list: the frames taken,
    then a zero. *)
Lemma alloc_cpu_pages_fail fs : forall n i offset st rest ti,
  heap st = map Some fs ++ None :: rest -> t_info st = Some ti -> (length fs < n)%nat ->
  alloc_cpu_pages n i offset st =
    (false, st <| heap := rest |>
      <| t_info := Some (ti <| mfn_list ::= mem_write (offset + i) (map u32 fs ++ [0]) |>) |>).
Proof.
  induction fs as [|f fs IH]; intros [|n] i offset st rest ti Hh Ht Hn; simpl in *; try lia;
    unfold alloc_xenheap_pages; rewrite Hh.
  - destruct st; simpl in *. by rewrite Ht.
  - erewrite IH; [|done|unfold set_mfn_list; simpl; by rewrite Ht|lia].
    replace (offset + (i + 1)) with (offset + i + 1) by lia.
    destruct st; simpl in *. by rewrite Ht.
Qed.

Lemma alloc_all_cpus_fail n : forall c first p fs st rest ti,
  0 <= c -> 1 <= p -> 0 <= first ->
  first + (c + Z.of_nat n - 1) * p < 2 ^ 16 ->
  Z.of_nat (length fs) < Z.of_nat n * p ->
  heap st = map Some fs ++ None :: rest -> t_info st = Some ti ->
  exists k, 0 <= k <= Z.of_nat n /\ (k - 1) * p <= Z.of_nat (length fs) < k * p /\
  alloc_all_cpus (seqZ c (Z.of_nat n)) first p st =
    (false, st <| heap := rest |>
      <| t_info := Some (ti
           <| mfn_offset ::= fun m => fold_left (fun m cpu => <[cpu := first + cpu * p]> m)
                                       (seqZ c k) m |>
           <| mfn_list ::= mem_write (first + c * p) (map u32 fs ++ [0]) |>) |>).
Proof.
  induction n as [|n IH]; intros c first p fs st rest ti Hc Hp Hf Hmax Hlen Hh Ht; [lia|].
  rewrite (seqZ_cons c) by lia. simpl.
  replace (Z.succ c) with (c + 1) by lia.
  replace (Z.pred (Z.of_nat (S n))) with (Z.of_nat n) by lia.
  assert (u16 (first + c * p) = first + c * p) as -> by (apply Z.mod_small; nia).
  destruct (decide (Z.of_nat (length fs) < p)) as [Hsmall|Hbig].
  - exists 1. split; [lia|]. split; [lia|].
    erewrite (alloc_cpu_pages_fail fs); [|exact Hh|unfold set_mfn_offset; simpl; by rewrite Ht|lia].
    rewrite Z.add_0_r, seqZ_cons by lia. destruct st; reflexivity.
  - rewrite <- (take_drop (Z.to_nat p) fs) in Hh. rewrite map_app, <- app_assoc in Hh.
    assert (Hl1 : length (take (Z.to_nat p) fs) = Z.to_nat p) by (rewrite length_take; lia).
    pose proof (alloc_cpu_pages_ok (take (Z.to_nat p) fs) 0 (first + c * p)
      (set_mfn_offset c (first + c * p) st) (map Some (drop (Z.to_nat p) fs) ++ None :: rest)
      (ti <| mfn_offset ::= <[c := first + c * p]> |>) Hh
      ltac:(unfold set_mfn_offset; simpl; by rewrite Ht)) as Hok.
    rewrite Hl1 in Hok. rewrite Hok. clear Hok.
    destruct (IH (c + 1) first p (drop (Z.to_nat p) fs)
      ((set_mfn_offset c (first + c * p) st) <| heap := map Some (drop (Z.to_nat p) fs) ++ None :: rest |>
       <| t_info := Some (ti <| mfn_offset ::= <[c := first + c * p]> |>
          <| mfn_list ::= mem_write (first + c * p + 0) (map u32 (take (Z.to_nat p) fs)) |>) |>)
      rest _ ltac:(lia) Hp Hf ltac:(lia) ltac:(rewrite length_drop; lia) eq_refl eq_refl)
      as (k & Hk & Hkp & Heq).
    rewrite length_drop in Hkp.
    exists (k + 1). split; [lia|]. split; [lia|]. rewrite Heq.
    rewrite (seqZ_cons c (k + 1)) by lia. simpl.
    replace (Z.succ c) with (c + 1) by lia. replace (Z.pred (k + 1)) with k by lia.
    assert (Hfs : mem_write (first + c * p) (map u32 fs ++ [0]) (mfn_list ti) =
      mem_write (first + (c + 1) * p) (map u32 (drop (Z.to_nat p) fs) ++ [0])
        (mem_write (first + c * p + 0) (map u32 (take (Z.to_nat p) fs)) (mfn_list ti))).
    { rewrite <- (take_drop (Z.to_nat p) fs) at 1.
      rewrite map_app, <- app_assoc, mem_write_app, length_map, Hl1, Z2Nat.id, Z.add_0_r by lia.
      by replace (first + (c + 1) * p) with (first + c * p + p) by lia. }
    destruct st; simpl in *. unfold set; simpl. by rewrite Hfs.
Qed.

(** The clean-up loop frees a run of frames up to the first zero. *)
Lemma free_cpu_pages_run fs : forall n i offset st,
  (forall j, 0 <= j < Z.of_nat (length fs) ->
     get_mfn_list st (offset + i + j) = nth (Z.to_nat j) fs 0) ->
  (forall f, f ∈ fs -> f <> 0) ->
  (length fs = n \/ (length fs < n)%nat /\
     get_mfn_list st (offset + i + Z.of_nat (length fs)) = 0) ->
  free_cpu_pages n i offset st = st <| freed ::= fun l => l ++ fs |>.
Proof.
  induction fs as [|f fs IH]; intros n i offset st Hl Hnz Hn; simpl in *.
  - destruct Hn as [<-|[Hn H0]]; [destruct st; unfold set; simpl; by rewrite app_nil_r|].
    destruct n as [|n]; [lia|]. simpl. rewrite Z.add_0_r in H0. rewrite H0. simpl.
    destruct st; unfold set; simpl. by rewrite app_nil_r.
  - destruct n as [|n]; [lia|]. simpl.
    pose proof (Hl 0 ltac:(lia)) as H0. rewrite Z.add_0_r in H0. simpl in H0. rewrite H0.
    rewrite (proj2 (Z.eqb_neq f 0)) by (apply Hnz; by left).
    rewrite IH.
    + destruct st; unfold set; simpl. by rewrite <- app_assoc.
    + intros j Hj. specialize (Hl (j + 1) ltac:(lia)).
      change (get_mfn_list (st <| freed ::= fun l => l ++ [f] |>) (offset + (i + 1) + j))
        with (get_mfn_list st (offset + (i + 1) + j)).
      replace (offset + (i + 1) + j) with (offset + i + (j + 1)) by lia. rewrite Hl.
      by replace (Z.to_nat (j + 1)) with (S (Z.to_nat j)) by lia.
    + intros g Hg. apply Hnz. by apply elem_of_cons; right.
    + destruct Hn as [Hn|[Hn Hz]]; [left; lia|right; split; [lia|]].
      change (get_mfn_list (st <| freed ::= fun l => l ++ [f] |>)) with (get_mfn_list st).
      rewrite <- Hz. f_equal. lia.
Qed.

(** One CPU of the clean-up: its share of the frames [all], [len] of them taken. *)
Definition share (p cpu : Z) (all : list Z) : list Z :=
  take (Z.to_nat p) (drop (Z.to_nat (cpu * p)) all).

Lemma share_elem p cpu all f : f ∈ share p cpu all -> f ∈ all.
Proof.
  unfold share. intros [i Hi]%list_elem_of_lookup.
  apply lookup_take_Some in Hi as [Hi _]. rewrite lookup_drop in Hi.
  by eapply list_elem_of_lookup_2.
Qed.

Lemma dealloc_loop frames p k m : forall st c,
  t_info st <> None -> 0 <= c -> 1 <= p -> 0 <= k <= c + Z.of_nat m ->
  (k - 1) * p <= Z.of_nat (length frames) < k * p ->
  (forall f, f ∈ frames -> 0 < f < 2 ^ 32) ->
  (forall j, 0 <= j < Z.of_nat (length frames) ->
     get_mfn_list st (129 + j) = nth (Z.to_nat j) frames 0) ->
  get_mfn_list st (129 + Z.of_nat (length frames)) = 0 ->
  (forall cpu, get_mfn_offset st cpu = if (0 <=? cpu) && (cpu <? k) then 129 + cpu * p else 0) ->
  fold_left (dealloc_cpu p) (seqZ c (Z.of_nat m)) st =
    st <| freed ::= fun l => l ++ drop (Z.to_nat (c * p)) frames |>.
Proof.
  induction m as [|m IH]; intros st c Hti Hc Hp Hk Hkp Hfr Hl Hz Ho.
  - simpl. rewrite drop_ge by (simpl in *; nia).
    destruct st; unfold set; simpl. by rewrite app_nil_r.
  - rewrite (seqZ_cons c) by lia. simpl.
    replace (Z.succ c) with (c + 1) by lia.
    replace (Z.pred (Z.of_nat (S m))) with (Z.of_nat m) by lia.
    assert (Hstep : dealloc_cpu p st c = st <| freed ::= fun l => l ++ share p c frames |>).
    { unfold dealloc_cpu, share. rewrite Ho. destruct (Z.ltb_spec c k) as [Hck|Hck].
      - rewrite (proj2 (Z.leb_le 0 c)) by lia. simpl.
        rewrite (proj2 (Z.eqb_neq _ 0)) by nia.
        apply free_cpu_pages_run.
        + rewrite length_take, length_drop. intros j Hj. rewrite Z.add_0_r, <- Z.add_assoc.
          rewrite Hl by nia. rewrite !nth_lookup, lookup_take_lt, lookup_drop by lia.
          do 2 f_equal. nia.
        + intros f Hf%share_elem%Hfr. lia.
        + rewrite length_take, length_drop.
          destruct (decide ((c + 1) * p <= Z.of_nat (length frames))); [left; nia|right].
          split; [nia|]. rewrite <- Hz. f_equal. nia.
      - rewrite andb_false_r. simpl. rewrite drop_ge by nia.
        destruct st; unfold set; simpl. by rewrite take_nil, app_nil_r. }
    rewrite Hstep, IH; try done; try lia.
    destruct st; unfold set; simpl. rewrite <- app_assoc. unfold share.
    replace (drop (Z.to_nat ((c + 1) * p)) frames)
      with (drop (Z.to_nat p) (drop (Z.to_nat (c * p)) frames))
      by (rewrite drop_drop; f_equal; nia).
    by rewrite take_drop.
Qed.

(** C35. A failed start leaks nothing: when the allocator runs dry after handing
    out the [t_info] page and [frames] trace pages, [alloc_trace_bufs] returns
    -ENOMEM, gives back exactly those pages (each once, in order, then
    [t_info]), leaves [t_info] NULL and does not turn tracing on. *)
Theorem alloc_trace_bufs_fail pages st ti frames rest :
  let n := num_online_cpus online in
  let p := (calculate_tbuf_size online pages 129).1 in
  online = seqZ 0 n -> 1 <= n <= NR_CPUS -> 1 <= pages -> t_info st = None ->
  heap st = Some ti :: map Some frames ++ None :: rest ->
  Z.of_nat (length frames) < n * p ->
  (forall f, f ∈ frames -> 0 < f < 2 ^ 32) ->
  exists st',
    alloc_trace_bufs online pages st = (- ENOMEM, st') /\
    freed st' = freed st ++ frames ++ [ti] /\ t_info st' = None /\
    tb_init_done st' = tb_init_done st /\ heap st' = rest /\
    t_bufs st' = t_bufs st /\ mem st' = mem st.
Proof.
  intros n p Hon Hn Hpg Hti Hheap Hlen Hfr.
  destruct (calculate_tbuf_size_bounds pages Hn Hpg) as (Hp & _ & Hmax).
  fold n p in Hp, Hmax.
  unfold alloc_trace_bufs. rewrite bool_decide_false by (rewrite Hti; by intros [? ?]).
  rewrite (proj2 (Z.eqb_neq pages 0)) by lia.
  change (u16 calc_tinfo_first_offset) with 129.
  rewrite (surjective_pairing (calculate_tbuf_size online pages 129)). fold p.
  unfold alloc_xenheap_pages. simpl heap. rewrite Hheap.
  set (st1 := set t_info _ _).
  destruct (alloc_all_cpus_fail (Z.to_nat n) 0 129 p frames st1 rest
    (mkTInfo (u16 p) ∅ ∅ ti)) as (k & Hk & Hkp & Hall); try done; try lia.
  rewrite Z2Nat.id, <- Hon in Hall by lia. rewrite Hall. clear Hall. cbv iota zeta.
  set (st2 := set t_info (fun _ => Some _) _).
  assert (Hde := dealloc_loop frames p k (Z.to_nat n) st2 0).
  rewrite Z2Nat.id, <- Hon in Hde by lia. rewrite Hde; clear Hde; try done; try lia.
  - eexists. split; [reflexivity|]. split_and!; try done. simpl. by rewrite <- app_assoc.
  - intros j Hj. unfold get_mfn_list. simpl. change (gget ?m ?i) with (rd m i).
    rewrite rd_mem_write_in by (rewrite length_app, length_map; simpl; lia).
    replace (129 + j - (129 + 0 * p)) with j by lia. rewrite app_nth1 by (rewrite length_map; lia).
    rewrite !nth_lookup, list_lookup_fmap.
    destruct (lookup_lt_is_Some_2 frames (Z.to_nat j)) as [f Hf]; [lia|].
    rewrite Hf. simpl. apply u32_small. apply list_elem_of_lookup_2, Hfr in Hf. lia.
  - unfold get_mfn_list. simpl. change (gget ?m ?i) with (rd m i).
    rewrite rd_mem_write_in by (rewrite length_app, length_map; simpl; lia).
    rewrite app_nth2 by (rewrite length_map; lia). rewrite length_map.
    by replace (Z.to_nat _ - _)%nat with 0%nat by lia.
  - intros cpu. unfold get_mfn_offset. simpl. rewrite (fold_offsets (fun c => 129 + c * p)).
    case_bool_decide as Hin; rewrite elem_of_seqZ in Hin; zcases; try lia; done.
Qed.

(** ** The size of t_info *)

(** Index of the last u32 of t_info that [alloc_trace_bufs] writes. *)
Definition last_mfn_index (n p : Z) : Z := calc_tinfo_first_offset + n * p - 1.

(** The size computed for [t_info] adds an offset counted in words to a
    length counted in bytes, so it can be too small: with one CPU and any
    request of 896 to 991 pages it is one page, while the frame list runs past
    the 1024 words of that page. *)
Theorem t_info_size_too_small pages :
  num_online_cpus online = 1 -> 896 <= pages <= 991 ->
  let '(p, tip) := calculate_tbuf_size online pages (u16 calc_tinfo_first_offset) in
  p = pages /\ tip = 1 /\ tip * PAGE_WORDS <= last_mfn_index 1 p.
Proof.
  intros Hn Hpg. unfold calculate_tbuf_size. rewrite Hn.
  change (u16 calc_tinfo_first_offset) with 129. simpl.
  change (u32 (-1) / PAGE_SIZE) with 1048575. change (u16 (-1)) with 65535.
  change (u16 (65535 - 129)) with 65406. simpl.
  unfold last_mfn_index, PFN_UP, PAGE_SIZE, PAGE_WORDS.
  change calc_tinfo_first_offset with 129.
  rewrite (proj2 (Z.ltb_ge 65406 pages)) by lia.
  rewrite u32_small by lia. split_and!; [done|dlia|dlia].
Qed.
End Alloc.

(** ** Witnesses *)

Definition boot_state (h : list (option Z)) : tstate :=
  mkT 0 0 None 0 ∅ 0 0 ∅ ∅ false {[0; 1]} TRC_ALL ∅ false 0 h [] [] [].


Lemma alloc_trace_bufs_fail_witness :
  exists st', alloc_trace_bufs [0; 1] 2 (boot_state [Some 9; Some 3; Some 4; Some 5; None])
    = (- ENOMEM, st') /\ freed st' = [3; 4; 5; 9].
Proof.
  destruct (alloc_trace_bufs_fail [0; 1] 2 (boot_state [Some 9; Some 3; Some 4; Some 5; None])
    9 [3; 4; 5] []) as (st' & H1 & H2 & _);
    [reflexivity|vm_compute; split; discriminate|lia|reflexivity|reflexivity|vm_compute; reflexivity
    |intros f Hf; repeat (apply elem_of_cons in Hf as [->|Hf]; [vm_compute; split; reflexivity|]);
     by apply elem_of_nil in Hf|].
  exists st'. split; [exact H1|exact H2].
Defined.

Lemma t_info_size_too_small_witness :
  let '(p, tip) := calculate_tbuf_size [0] 900 (u16 calc_tinfo_first_offset) in
  p = 900 /\ tip = 1 /\ tip * PAGE_WORDS <= last_mfn_index 1 p.
Proof. apply (t_info_size_too_small [0] 900); [reflexivity|lia]. Defined.
