(* ===== verification/P2m.v ===== *)
(** * p2m tables: types, the table interface, and the generic operations
      (xen/include/asm-x86/p2m.h, xen/arch/x86/mm/p2m.c)

    A p2m maps guest frame numbers to machine frames with a type and an
    access right.  The code reaches a table through the function pointers
    [p2m->get_entry] and [p2m->set_entry]; here these are a type class,
    [P2MTable], with the contract callers rely on ([P2MTableLaws]).  On top of
    it: [__get_gfn_type_access], [p2m_set_entry], [p2m_remove_page],
    [p2m_flush_table], [p2m_alloc_table], and the creation of a table
    ([p2m_initialise], [p2m_init_one], [ept_p2m_init]).  Locks are not part of
    the state: each definition is the body of a critical section. *)

From S2P Require Import Prelude.

Definition INVALID_MFN : Z := 2 ^ 64 - 1.
Definition INVALID_GFN : Z := 2 ^ 64 - 1.
Definition P2M_BASE_EADDR : Z := 2 ^ 64 - 1.
Definition INVALID_M2P_ENTRY : Z := 2 ^ 64 - 1.
Definition PAGE_ORDER_4K : Z := 0.
Definition PAGE_ORDER_2M : Z := 9.
Definition PAGE_ORDER_1G : Z := 18.
Definition P2M_ALLOC : Z := 1.
Definition P2M_UNSHARE : Z := 2.

(** p2m_type_t *)
Inductive p2m_type :=
  | p2m_ram_rw | p2m_invalid | p2m_ram_logdirty | p2m_ram_ro | p2m_mmio_dm
  | p2m_mmio_direct | p2m_populate_on_demand | p2m_grant_map_rw
  | p2m_grant_map_ro | p2m_ram_paging_out | p2m_ram_paged | p2m_ram_paging_in
  | p2m_ram_shared | p2m_ram_broken | p2m_map_foreign | p2m_mmio_write_dm.
#[export] Instance p2m_type_eq_dec : EqDecision p2m_type.
Proof. solve_decision. Defined.

(** p2m_access_t *)
Inductive p2m_access :=
  | p2m_access_rwx | p2m_access_wx | p2m_access_rx | p2m_access_x
  | p2m_access_rw | p2m_access_w | p2m_access_r | p2m_access_n
  | p2m_access_rx2rw | p2m_access_n2rwx.
#[export] Instance p2m_access_eq_dec : EqDecision p2m_access.
Proof. solve_decision. Defined.

(** The type groups used by this code. *)
Definition p2m_is_grant (t : p2m_type) : bool :=
  match t with p2m_grant_map_rw | p2m_grant_map_ro => true | _ => false end.
Definition p2m_is_shared (t : p2m_type) : bool :=
  match t with p2m_ram_shared => true | _ => false end.
Definition p2m_is_broken (t : p2m_type) : bool :=
  match t with p2m_ram_broken => true | _ => false end.
Definition p2m_is_foreign (t : p2m_type) : bool :=
  match t with p2m_map_foreign => true | _ => false end.

(** What a lookup yields: frame, type, access right and page order. *)
Record p2m_ent := mkEnt {
  e_mfn : Z; e_type : p2m_type; e_access : p2m_access; e_order : Z
}.

(** The function pointers of struct p2m_domain. *)
Class P2MTable (T : Type) := {
  get_entry : T -> Z -> Z -> p2m_ent * T;                    (* table gfn query *)
  set_entry : T -> Z -> Z -> Z -> p2m_type -> p2m_access -> Z -> Z * T
                                     (* table gfn mfn order type access sve *)
}.

Definition order_size (o : Z) : Z := 2 ^ o.

(** What callers of the function pointers rely on: a plain query changes
    nothing, and INVALID_GFN, which no table can map, has no translation.  On
    a table in a proper state ([table_ok]) an update within the rules
    ([may_set], by frame, order, type and access right) leaves it in a proper
    state and returns 0 or a negative error; if it succeeds, later plain queries see it in the block, and
    whether or not it succeeds they see no change outside the block. *)
Class P2MTableLaws (T : Type) `{P2MTable T} := {
  table_ok : T -> Prop;
  may_set : Z -> Z -> p2m_type -> p2m_access -> Prop;
  get_entry_pure : forall t gfn, (get_entry t gfn 0).2 = t;
  get_entry_invalid_gfn : forall t, e_mfn (get_entry t INVALID_GFN 0).1 = INVALID_MFN;
  set_entry_ok : forall t t' gfn mfn o ty a sve rc,
    table_ok t -> may_set mfn o ty a -> 0 <= gfn ->
    set_entry t gfn mfn o ty a sve = (rc, t') -> table_ok t';
  set_entry_rc : forall t t' gfn mfn o ty a sve rc,
    table_ok t -> may_set mfn o ty a -> 0 <= gfn ->
    set_entry t gfn mfn o ty a sve = (rc, t') -> rc <= 0;
  set_entry_in : forall t t' gfn mfn o ty a sve g,
    table_ok t -> may_set mfn o ty a -> 0 <= gfn ->
    set_entry t gfn mfn o ty a sve = (0, t') ->
    gfn mod order_size o = 0 -> mfn mod order_size o = 0 ->
    mfn <> INVALID_MFN -> gfn <= g < gfn + order_size o ->
    let e := (get_entry t' g 0).1 in
    e_mfn e = mfn + (g - gfn) /\ e_type e = ty /\ e_access e = a;
  set_entry_invalid : forall t t' gfn ty a sve,
    table_ok t -> may_set INVALID_MFN 0 ty a -> 0 <= gfn ->
    set_entry t gfn INVALID_MFN 0 ty a sve = (0, t') ->
    e_mfn (get_entry t' gfn 0).1 = INVALID_MFN;
  set_entry_out : forall t t' gfn mfn o ty a sve rc g,
    table_ok t -> may_set mfn o ty a -> 0 <= gfn ->
    set_entry t gfn mfn o ty a sve = (rc, t') ->
    gfn mod order_size o = 0 -> 0 <= g ->
    g < gfn \/ gfn + order_size o <= g ->
    let e := (get_entry t g 0).1 in let e' := (get_entry t' g 0).1 in
    e_mfn e' = e_mfn e /\ e_type e' = e_type e /\ e_access e' = e_access e
}.

(** struct p2m_domain; the EPT pointer's bit-fields are kept as fields. *)
Inductive p2m_class_t := p2m_host | p2m_nested | p2m_alternate.

Record p2m_domain (T : Type) := mkP2m {
  table : T;
  p2m_class : p2m_class_t;
  default_access : p2m_access;
  np2m_base : Z;
  min_remapped_gfn : Z;
  max_remapped_gfn : Z;
  active_vcpus : Z;
  phys_table : Z;                          (* pfn of the root table *)
  ept_mt : Z; ept_wl : Z; ept_ad : Z; ept_asr : Z;
  ept_syncs : Z                            (* flushes run by ept_p2m_init *)
}.
Arguments mkP2m {T}.
Arguments table {T}. Arguments p2m_class {T}. Arguments default_access {T}.
Arguments np2m_base {T}. Arguments min_remapped_gfn {T}.
Arguments max_remapped_gfn {T}. Arguments active_vcpus {T}.
Arguments phys_table {T}. Arguments ept_mt {T}. Arguments ept_wl {T}.
Arguments ept_ad {T}. Arguments ept_asr {T}. Arguments ept_syncs {T}.
#[export] Instance p2m_class_eq_dec : EqDecision p2m_class_t.
Proof. solve_decision. Defined.
#[export] Instance eta_p2m_domain {T} : Eta (p2m_domain T) := fun x =>
  mkP2m (table x) (p2m_class x) (default_access x) (np2m_base x)
    (min_remapped_gfn x) (max_remapped_gfn x) (active_vcpus x) (phys_table x)
    (ept_mt x) (ept_wl x) (ept_ad x) (ept_asr x) (ept_syncs x).

(** ept_get_eptp(): ept_mt:3, ept_wl:3, ept_ad:1, rsvd:5, asr:52. *)
Definition ept_get_eptp {T} (p : p2m_domain T) : Z :=
  Z.lor (ept_mt p mod 8)
    (Z.lor (Z.shiftl (ept_wl p mod 8) 3)
       (Z.lor (Z.shiftl (ept_ad p mod 2) 6) (Z.shiftl (ept_asr p mod 2 ^ 52) 12))).

(** The facts about a domain the generic operations look at. *)
Record p2m_config := mkCfg {
  paging_translate : bool;                 (* paging_mode_translate(d) *)
  hap_enabled : bool;
  hap_has_1gb : bool;                      (* hvm_hap_has_1gb && opt_hap_1gb *)
  hap_has_2mb : bool;
  max_mfn : Z                              (* mfn_valid(x): x < max_mfn *)
}.

(** Boot-time facts about the processor and the hypervisor. *)
Record platform := mkPlatform {
  cpu_has_vmx : bool;
  cpu_has_vmx_pml : bool;
  cpu_has_vmx_vmfunc : bool;
  cpu_has_vmx_virt_exceptions : bool;
  altp2m_supported : bool;                 (* hvm_funcs.altp2m_supported *)
  altp2m_hooks : bool                      (* hvm_funcs.altp2m_vcpu_update_* set *)
}.

Definition mfn_valid (cfg : p2m_config) (mfn : Z) : bool := mfn <? max_mfn cfg.

Section P2m.
Context {T : Type} `{P2MTable T}.
Context (cfg : p2m_config).
(** mem_sharing_unshare_page(): breaks sharing of a page of the host table. *)
Context (mem_sharing_unshare_page : T -> Z -> T).

(** __get_gfn_type_access(): the entry, the table after the query and whether
    the domain is crashed; [None] for the p2m pointer is C's NULL. *)
Definition __get_gfn_type_access (p2m : option T) (gfn q : Z)
  : p2m_ent * option T * bool :=
  let q := if negb (Z.land q P2M_UNSHARE =? 0) then Z.lor q P2M_ALLOC else q in
  match p2m with
  | None => (mkEnt gfn p2m_ram_rw p2m_access_rwx 0, None, false)
  | Some t =>
      if negb (paging_translate cfg) then
        (mkEnt gfn p2m_ram_rw p2m_access_rwx 0, Some t, false)
      else
        let '(e, t) := get_entry t gfn q in
        let '(e, t) :=
          if negb (Z.land q P2M_UNSHARE =? 0) && p2m_is_shared (e_type e)
          then get_entry (mem_sharing_unshare_page t gfn) gfn q
          else (e, t) in
        if p2m_is_broken (e_type e) then
          (mkEnt INVALID_MFN (e_type e) (e_access e) (e_order e), Some t,
           negb (Z.land q P2M_ALLOC =? 0))
        else (e, Some t, false)
  end.

(** The order chosen for the next step of [p2m_set_entry]. *)
Definition set_order (gfn mfn todo : Z) : Z :=
  if hap_enabled cfg then
    if (Z.land (Z.lor gfn (Z.lor mfn todo)) (Z.shiftl 1 PAGE_ORDER_1G - 1) =? 0)
       && hap_has_1gb cfg then PAGE_ORDER_1G
    else if (Z.land (Z.lor gfn (Z.lor mfn todo)) (Z.shiftl 1 PAGE_ORDER_2M - 1) =? 0)
       && hap_has_2mb cfg then PAGE_ORDER_2M
    else PAGE_ORDER_4K
  else 0.

(** The loop of [p2m_set_entry]; [fuel] bounds the iterations, each of which
    takes at least one page off [todo]. *)
Fixpoint p2m_set_entry_loop (fuel : nat) (t : T) (gfn mfn todo : Z)
    (ty : p2m_type) (a : p2m_access) (rc : Z) : Z * T :=
  match fuel with
  | O => (rc, t)
  | S fuel' =>
      if todo =? 0 then (rc, t)
      else
        let order := set_order gfn mfn todo in
        let '(set_rc, t) := set_entry t gfn mfn order ty a (-1) in
        let rc := if negb (set_rc =? 0) then set_rc else rc in
        let gfn := u64 (gfn + Z.shiftl 1 order) in
        let mfn :=
          if negb (mfn =? INVALID_MFN) then u64 (mfn + Z.shiftl 1 order) else mfn in
        let todo := u64 (todo - Z.shiftl 1 order) in
        p2m_set_entry_loop fuel' t gfn mfn todo ty a rc
  end.

Definition p2m_set_entry (t : T) (gfn mfn page_order : Z) (ty : p2m_type)
    (a : p2m_access) : Z * T :=
  let todo := Z.shiftl 1 page_order in
  p2m_set_entry_loop (Z.to_nat todo) t gfn mfn todo ty a 0.

(** The loop of [p2m_remove_page] over the machine-to-physical table. *)
Fixpoint clear_m2p (n : nat) (i : Z) (t : T) (gfn mfn : Z) (m2p : gmap Z Z)
  : gmap Z Z :=
  match n with
  | O => m2p
  | S n' =>
      let ty := e_type (get_entry t (gfn + i) 0).1 in
      let m2p :=
        if negb (p2m_is_grant ty) && negb (p2m_is_shared ty) && negb (p2m_is_foreign ty)
        then <[mfn + i := INVALID_M2P_ENTRY]> m2p else m2p in
      clear_m2p n' (i + 1) t gfn mfn m2p
  end.

(** p2m_remove_page() for a translated guest. *)
Definition p2m_remove_page (p : p2m_domain T) (gfn mfn page_order : Z)
    (m2p : gmap Z Z) : Z * p2m_domain T * gmap Z Z :=
  if negb (paging_translate cfg) then (0, p, m2p)
  else
    let m2p :=
      if mfn_valid cfg mfn
      then clear_m2p (Z.to_nat (Z.shiftl 1 page_order)) 0 (table p) gfn mfn m2p
      else m2p in
    let '(rc, t) := p2m_set_entry (table p) gfn INVALID_MFN page_order p2m_invalid
                      (default_access p) in
    (rc, p <| table := t |>, m2p).

(** p2m_flush_table(); [cleared] is the table with its top level zapped. *)
Definition p2m_flush_table (cleared : T) (p : p2m_domain T) : p2m_domain T :=
  if np2m_base p =? P2M_BASE_EADDR then p
  else p <| np2m_base := P2M_BASE_EADDR |> <| table := cleared |>.

(** EPT_DEFAULT_MT is MTRR_TYPE_WRBACK. *)
Definition EPT_DEFAULT_MT : Z := 6.

Context (plat : platform).

(** ept_p2m_init(); [mask_ok] is the outcome of allocating synced_mask. *)
Definition ept_p2m_init (mask_ok : bool) (p : p2m_domain T) : Z * p2m_domain T :=
  let p := p <| ept_mt := EPT_DEFAULT_MT |> <| ept_wl := 3 |> in
  let p := if cpu_has_vmx_pml plat then p <| ept_ad := 1 |> else p in
  if negb mask_ok then (- ENOMEM, p)
  else (0, p <| ept_syncs ::= Z.add 1 |>).

(** p2m_initialise(); p2m_pt_init() installs the non-EPT function pointers. *)
Definition p2m_initialise (mask_ok : bool) (p : p2m_domain T) : Z * p2m_domain T :=
  let p := p <| default_access := p2m_access_rwx |> <| p2m_class := p2m_host |>
             <| np2m_base := P2M_BASE_EADDR |> in
  if hap_enabled cfg && cpu_has_vmx plat then ept_p2m_init mask_ok p else (0, p).

(** What the three allocations of p2m_init_one() return. *)
Record init_allocs := mkAllocs { xzalloc_ok : bool; dirty_mask_ok : bool; synced_mask_ok : bool }.

(** p2m_init_one(): [None] is NULL; [zero] is the table of a zeroed struct. *)
Definition p2m_init_one (zero : T) (al : init_allocs) : option (p2m_domain T) :=
  if negb (xzalloc_ok al) then None
  else
    let p := mkP2m zero p2m_host p2m_access_rwx 0 0 0 0 0 0 0 0 0 0 in
    if negb (dirty_mask_ok al) then None
    else
      let '(rc, p) := p2m_initialise (synced_mask_ok al) p in
      if negb (rc =? 0) then None else Some p.

(** p2m_alloc_table(); [pages] is whether the domain already owns memory and
    [top] the page p2m_alloc_ptp() returns. *)
Definition p2m_alloc_table (pages : bool) (top : option Z) (p : p2m_domain T)
  : Z * p2m_domain T :=
  if bool_decide (p2m_class p = p2m_host) && pages then (- EINVAL, p)
  else if negb (phys_table p =? 0) then (- EINVAL, p)
  else
    match top with
    | None => (- ENOMEM, p)
    | Some mfn =>
        let p := p <| phys_table := mfn |> in
        let '(rc, t) := p2m_set_entry (table p) 0 INVALID_MFN PAGE_ORDER_4K
                          p2m_invalid (default_access p) in
        (rc, p <| table := t |>)
    end.

(** p2m_teardown(): the pages go back to the pool, [zero] is what is left. *)
Definition p2m_teardown (zero : T) (p : p2m_domain T) : p2m_domain T :=
  p <| phys_table := 0 |> <| table := zero |>.
End P2m.
