(* ===== verification/P2mProofs.v ===== *)
(** * The generic p2m operations over any lawful table

    [p2m_set_entry] splits a request into the largest blocks the alignment
    allows; the theorem here says the split cannot be seen.  [flat_table] is a
    small lawful table, used to show that the laws can hold and to evaluate
    the operations on concrete inputs. *)

From S2P Require Import Prelude P2m.

(** ** A lawful table: a list of blocks, the most recent first *)

Definition flat := list (Z * p2m_ent).

Definition flat_absent : p2m_ent := mkEnt INVALID_MFN p2m_mmio_dm p2m_access_n 0.
Definition FLAT_LIMIT : Z := 2 ^ 36.

Definition in_block (g : Z) (b : Z * p2m_ent) : bool :=
  (b.1 <=? g) && (g <? b.1 + order_size (e_order b.2)).

Fixpoint flat_find (t : flat) (g : Z) : p2m_ent :=
  match t with
  | [] => flat_absent
  | b :: t' =>
      if in_block g b then
        if e_mfn b.2 =? INVALID_MFN then b.2
        else mkEnt (e_mfn b.2 + (g - b.1)) (e_type b.2) (e_access b.2) (e_order b.2)
      else flat_find t' g
  end.

Definition flat_get (t : flat) (g q : Z) : p2m_ent * flat :=
  (if (g <? 0) || (FLAT_LIMIT <=? g) then flat_absent else flat_find t g, t).

Definition flat_set (t : flat) (gfn mfn o : Z) (ty : p2m_type) (a : p2m_access)
    (sve : Z) : Z * flat :=
  if (gfn <? 0) || (o <? 0) || (FLAT_LIMIT <? gfn + order_size o)
  then (- EINVAL, t)
  else (0, (gfn, mkEnt mfn ty a o) :: t).

#[export] Instance flat_table : P2MTable flat :=
  { get_entry := flat_get; set_entry := flat_set }.

Lemma flat_set_cases t gfn mfn o ty a sve rc t' :
  flat_set t gfn mfn o ty a sve = (rc, t') ->
  t' = t \/ (rc = 0 /\ 0 <= gfn /\ 0 <= o /\ gfn + order_size o <= FLAT_LIMIT /\
            t' = (gfn, mkEnt mfn ty a o) :: t).
Proof.
  unfold flat_set. destruct (_ || _) eqn:E; intros; simplify_eq; [by left | right].
  apply orb_false_iff in E as [E ?]. zbool. auto.
Qed.

Lemma flat_set_ok t gfn mfn o ty a sve t' :
  flat_set t gfn mfn o ty a sve = (0, t') ->
  0 <= gfn /\ 0 <= o /\ gfn + order_size o <= FLAT_LIMIT /\
  t' = (gfn, mkEnt mfn ty a o) :: t.
Proof.
  unfold flat_set. destruct (_ || _) eqn:E; intros; simplify_eq.
  apply orb_false_iff in E as [E ?]. zbool. auto.
Qed.

Lemma flat_get_in t g q : 0 <= g < FLAT_LIMIT -> (flat_get t g q).1 = flat_find t g.
Proof.
  intros Hg. unfold flat_get. simpl.
  destruct (Z.ltb_spec g 0), (Z.leb_spec FLAT_LIMIT g); simpl; lia || done.
Qed.

Lemma in_block_true g b : b.1 <= g < b.1 + order_size (e_order b.2) -> in_block g b = true.
Proof.
  intros. unfold in_block. apply andb_true_iff. split; [apply Z.leb_le | apply Z.ltb_lt]; lia.
Qed.

Lemma in_block_false g b : g < b.1 \/ b.1 + order_size (e_order b.2) <= g -> in_block g b = false.
Proof.
  intros. unfold in_block. apply andb_false_iff.
  rewrite Z.leb_gt, Z.ltb_ge. lia.
Qed.

#[export] Instance flat_laws : P2MTableLaws flat.
Proof.
  refine {| table_ok := fun _ => True; may_set := fun _ _ _ _ => True |}.
  - done.
  - done.
  - done.
  - intros t t' gfn mfn o ty a sve rc _ _ _ Hs. unfold set_entry, flat_table, flat_set in Hs.
    by destruct (_ || _); simplify_eq.
  - intros t t' gfn mfn o ty a sve g _ _ _ Hs _ _ Hm Hg e.
    apply flat_set_ok in Hs as (Hg0 & Ho & Hl & ->).
    subst e. simpl get_entry. rewrite flat_get_in by lia. simpl flat_find.
    rewrite in_block_true by (simpl; lia). simpl e_mfn at 1.
    by rewrite (proj2 (Z.eqb_neq _ _)) by done.
  - intros t t' gfn ty a sve _ _ _ Hs.
    apply flat_set_ok in Hs as (Hg0 & Ho & Hl & ->). unfold order_size in Hl.
    simpl get_entry. rewrite flat_get_in by lia. simpl flat_find.
    by rewrite in_block_true by (unfold order_size; simpl; lia).
  - intros t t' gfn mfn o ty a sve rc g _ _ _ Hs _ _ Hg e e'.
    apply flat_set_cases in Hs as [->|(-> & Hg0 & Ho & Hl & ->)]; [done|].
    subst e e'. simpl get_entry. unfold flat_get.
    destruct (_ || _); [done|]. simpl flat_find.
    rewrite in_block_false; [done | exact Hg].
Defined.

Section SetEntry.
Context {T : Type} `{P2MTableLaws T}.
Context (cfg : p2m_config).

(** ** The order of one step *)

Lemma land_ones_mod x n : 0 <= n -> Z.land x (Z.shiftl 1 n - 1) = x mod 2 ^ n.
Proof.
  intros. rewrite Z.shiftl_1_l, Z.sub_1_r, <- Z.ones_equiv. by apply Z.land_ones.
Qed.

Lemma lor3_aligned a b c n : 0 <= n ->
  Z.land (Z.lor a (Z.lor b c)) (Z.shiftl 1 n - 1) = 0 ->
  a mod 2 ^ n = 0 /\ b mod 2 ^ n = 0 /\ c mod 2 ^ n = 0.
Proof.
  intros Hn E. rewrite <- !land_ones_mod by done.
  rewrite !Z.land_lor_distr_l in E.
  apply Z.lor_eq_0_iff in E as [Ea E]. by apply Z.lor_eq_0_iff in E as [Eb Ec].
Qed.

(** The orders a step can have. *)
Definition step_order (o : Z) : Prop :=
  o = PAGE_ORDER_4K \/ (o = PAGE_ORDER_2M /\ hap_has_2mb cfg = true) \/
  (o = PAGE_ORDER_1G /\ hap_has_1gb cfg = true).

Lemma set_order_step gfn mfn todo : step_order (set_order cfg gfn mfn todo).
Proof.
  unfold set_order, step_order. destruct (hap_enabled cfg); [|by left].
  destruct (_ && hap_has_1gb cfg) eqn:E1; [zbool; by right; right|].
  destruct (_ && hap_has_2mb cfg) eqn:E2; [zbool; by right; left|]. by left.
Qed.

Lemma set_order_spec gfn mfn todo :
  0 < todo ->
  let o := set_order cfg gfn mfn todo in
  0 <= o <= 18 /\ gfn mod 2 ^ o = 0 /\ mfn mod 2 ^ o = 0 /\ todo mod 2 ^ o = 0 /\
  2 ^ o <= todo.
Proof.
  intros Ht o.
  assert (K : 0 <= o <= 18 /\ gfn mod 2 ^ o = 0 /\ mfn mod 2 ^ o = 0 /\ todo mod 2 ^ o = 0).
  { subst o. unfold set_order, PAGE_ORDER_1G, PAGE_ORDER_2M, PAGE_ORDER_4K.
    destruct (hap_enabled cfg); [|by rewrite !Z.mod_1_r].
    destruct (_ && _) eqn:E1.
    { zbool. apply lor3_aligned in H1 as (? & ? & ?); [|lia]. lia. }
    destruct (_ && hap_has_2mb cfg) eqn:E2.
    { zbool. apply lor3_aligned in H1 as (? & ? & ?); [|lia]. lia. }
    by rewrite !Z.mod_1_r. }
  destruct K as (Ho & Hg & Hm & Htm). split; [done|]. do 3 (split; [done|]).
  assert (0 < 2 ^ o) by (apply Z.pow_pos_nonneg; lia).
  destruct (Z.lt_ge_cases todo (2 ^ o)); [|lia]. rewrite Z.mod_small in Htm; lia.
Qed.

(** ** What a lookup sees *)

Definition look (t : T) (g : Z) : Z * p2m_type * p2m_access :=
  let e := (get_entry t g 0).1 in (e_mfn e, e_type e, e_access e).

(** Frame [g] of a block starting at [gfn] is mapped as the request says. *)
Definition mapped_as (t : T) (gfn mfn g : Z) (ty : p2m_type) (a : p2m_access) : Prop :=
  if mfn =? INVALID_MFN then (look t g).1.1 = INVALID_MFN
  else look t g = (mfn + (g - gfn), ty, a).

(** Every step of a request for the [todo] frames from [mfn] on is within the
    rules of the table. *)
Definition may_map (mfn todo : Z) (ty : p2m_type) (a : p2m_access) : Prop :=
  if mfn =? INVALID_MFN then may_set INVALID_MFN 0 ty a
  else forall i o, 0 <= i -> i + 2 ^ o <= todo -> step_order o -> may_set (mfn + i) o ty a.

Lemma look_set_out t t' gfn mfn o ty a sve rc g :
  table_ok t -> may_set mfn o ty a -> 0 <= gfn ->
  set_entry t gfn mfn o ty a sve = (rc, t') -> gfn mod order_size o = 0 -> 0 <= g ->
  g < gfn \/ gfn + order_size o <= g -> look t' g = look t g.
Proof.
  intros Hok Hmay Hg0 Hs Ha Hg1 Hg. unfold look. cbv zeta.
  destruct (set_entry_out t t' gfn mfn o ty a sve rc g Hok Hmay Hg0 Hs Ha Hg1 Hg) as (-> & -> & ->). done.
Qed.

Lemma look_set_in t t' gfn mfn o ty a sve g :
  table_ok t -> may_set mfn o ty a -> 0 <= gfn ->
  set_entry t gfn mfn o ty a sve = (0, t') ->
  gfn mod order_size o = 0 -> mfn mod order_size o = 0 -> (mfn = INVALID_MFN -> o = 0) ->
  gfn <= g < gfn + order_size o -> mapped_as t' gfn mfn g ty a.
Proof.
  intros Hok Hmay Hg0 Hs Hga Hma Hinv Hg. unfold mapped_as, look. case_if E; zbool.
  - rewrite (Hinv E) in *. subst mfn. unfold order_size in Hg.
    replace g with gfn by lia. simpl. by eapply set_entry_invalid.
  - destruct (set_entry_in t t' gfn mfn o ty a sve g Hok Hmay Hg0 Hs Hga Hma E Hg) as (-> & -> & ->). done.
Qed.

Lemma invalid_mfn_order o : 0 <= o <= 18 -> INVALID_MFN mod 2 ^ o = 0 -> o = 0.
Proof.
  intros Ho E. destruct (decide (o = 0)); [done|]. exfalso.
  assert (X : INVALID_MFN mod 2 = 0).
  { apply Z.mod_divide; [done|]. apply Z.mod_divide in E; [|lia].
    transitivity (2 ^ o); [|done]. exists (2 ^ (o - 1)).
    rewrite Z.mul_comm, <- Z.pow_succ_r by lia. f_equal. lia. }
  vm_compute in X. done.
Qed.

Definition loop_post t gfn mfn todo ty a rc (r : Z * T) : Prop :=
  table_ok r.2 /\
  (r.1 = 0 -> rc = 0 /\ forall g, gfn <= g < gfn + todo -> mapped_as r.2 gfn mfn g ty a) /\
  (forall g, 0 <= g -> g < gfn \/ gfn + todo <= g -> look r.2 g = look t g).

(** One step of the loop in front of the rest. *)
Lemma loop_post_step t t1 gfn mfn todo o ty a rc srv r :
  table_ok t -> may_set mfn o ty a -> 0 <= gfn ->
  set_entry t gfn mfn o ty a (-1) = (srv, t1) ->
  gfn mod 2 ^ o = 0 -> mfn mod 2 ^ o = 0 -> 0 <= o -> 2 ^ o <= todo ->
  (mfn = INVALID_MFN -> o = 0) ->
  loop_post t1 (gfn + 2 ^ o) (if mfn =? INVALID_MFN then mfn else mfn + 2 ^ o)
    (todo - 2 ^ o) ty a (if srv =? 0 then rc else srv) r ->
  (mfn <> INVALID_MFN -> 2 ^ o < todo -> mfn + 2 ^ o <> INVALID_MFN) ->
  loop_post t gfn mfn todo ty a rc r.
Proof.
  intros Hok Hmay Hg0 Hs Hg Hm Ho Ht Hinv (P0 & P1 & P2) Hne. split; [done|]. split.
  - intros Hr. destruct (P1 Hr) as [Hrc P]. revert Hrc. case_if E; zbool; [subst srv|congruence].
    intros Hrc. split; [done|]. intros g Hgr.
    destruct (Z.lt_ge_cases g (gfn + 2 ^ o)).
    + pose proof (look_set_in _ _ _ _ _ _ _ _ g Hok Hmay Hg0 Hs Hg Hm Hinv) as K.
      unfold mapped_as. rewrite (P2 g) by lia. apply K. unfold order_size. lia.
    + specialize (P g ltac:(lia)). unfold mapped_as in *.
      revert P. destruct (Z.eqb_spec mfn INVALID_MFN) as [->|Hmi]; [done|].
      rewrite (proj2 (Z.eqb_neq _ _)) by (apply Hne; lia). intros ->. f_equal. f_equal. lia.
  - intros g Hg1 Hgr. rewrite P2 by lia. apply (look_set_out t t1 gfn mfn o ty a (-1) srv); try done.
    unfold order_size. lia.
Qed.

Lemma may_map_first mfn todo o ty a :
  may_map mfn todo ty a -> step_order o -> 2 ^ o <= todo -> (mfn = INVALID_MFN -> o = 0) ->
  may_set mfn o ty a.
Proof.
  unfold may_map. intros Hm Hs Ho Hinv. destruct (Z.eqb_spec mfn INVALID_MFN) as [->|_].
  - by rewrite (Hinv eq_refl).
  - rewrite <- (Z.add_0_r mfn). apply Hm; [lia|lia|done].
Qed.

Lemma may_map_rest mfn todo o ty a :
  may_map mfn todo ty a -> 0 <= 2 ^ o ->
  may_map (if mfn =? INVALID_MFN then mfn else mfn + 2 ^ o) (todo - 2 ^ o) ty a \/
  mfn + 2 ^ o = INVALID_MFN.
Proof.
  unfold may_map. intros Hm Ho. destruct (Z.eqb_spec mfn INVALID_MFN) as [->|Hne]; [by left|].
  destruct (Z.eqb_spec (mfn + 2 ^ o) INVALID_MFN) as [->|_]; [by right|]. left.
  intros i k Hi Hk Hs. rewrite <- Z.add_assoc. apply Hm; [lia|lia|done].
Qed.

Lemma p2m_set_entry_loop_ok ty a : forall fuel t gfn mfn todo rc,
  table_ok t -> may_map mfn todo ty a ->
  0 <= todo -> (Z.to_nat todo <= fuel)%nat -> 0 <= gfn -> gfn + todo < 2 ^ 64 ->
  mfn = INVALID_MFN \/ (0 <= mfn /\ mfn + todo <= INVALID_MFN) ->
  loop_post t gfn mfn todo ty a rc (p2m_set_entry_loop cfg fuel t gfn mfn todo ty a rc).
Proof.
  induction fuel as [|fuel IH]; intros t gfn mfn todo rc Hok Hmay Ht Hf Hg Hgt Hm; simpl.
  { split; [done|]. split; simpl; [|done]. intros ->. split; [done|]. lia. }
  case_if E; zbool; [split; [done|]; split; simpl; [|done]; intros ->; split; [done | lia]|].
  destruct (set_order_spec gfn mfn todo) as (Ho & Ag & Am & At & Hle); [lia|].
  pose proof (set_order_step gfn mfn todo) as Hstep.
  set (o := set_order cfg gfn mfn todo) in *. clearbody o.
  destruct (set_entry t gfn mfn o ty a (-1)) as [srv t1] eqn:Hs.
  assert (Hp : 0 < 2 ^ o) by (apply Z.pow_pos_nonneg; lia).
  assert (Hinv : mfn = INVALID_MFN -> o = 0).
  { intros ->. by apply invalid_mfn_order. }
  pose proof (may_map_first mfn todo o ty a Hmay Hstep Hle Hinv) as Hmay1.
  pose proof (set_entry_ok t t1 gfn mfn o ty a (-1) srv Hok Hmay1 Hg Hs) as Hok1.
  rewrite Z.shiftl_1_l.
  unfold u64. rewrite (Z.mod_small (gfn + 2 ^ o)), (Z.mod_small (todo - 2 ^ o)) by lia.
  replace (if negb (mfn =? INVALID_MFN) then (mfn + 2 ^ o) mod 2 ^ 64 else mfn)
    with (if mfn =? INVALID_MFN then mfn else mfn + 2 ^ o).
  2: { destruct (Z.eqb_spec mfn INVALID_MFN); simpl; [done|]. rewrite Z.mod_small; [done|].
       unfold INVALID_MFN in *. lia. }
  eapply loop_post_step; [done|done|done|done | done | done | lia | done | done | |].
  2:{ unfold INVALID_MFN in *. intros. lia. }
  replace (if negb (srv =? 0) then srv else rc) with (if srv =? 0 then rc else srv) by (by destruct (srv =? 0)).
  destruct (decide (todo = 2 ^ o)) as [->|Hmore].
  - rewrite Z.sub_diag. destruct fuel; simpl; (split; [done|]; split; [intros Hr; split; [exact Hr|lia]|done]).
  - destruct (may_map_rest mfn todo o ty a Hmay ltac:(lia)) as [Hmay2|Hend].
    2: { exfalso. destruct Hm as [->|Hm]; [|lia]. lia. }
    apply IH; [done|done|lia|lia|lia|lia|].
    destruct (Z.eqb_spec mfn INVALID_MFN) as [->|Hmi]; [by left|]. right.
    destruct Hm as [?|Hm]; [done|]. lia.
Qed.

Lemma p2m_set_entry_ok t gfn mfn order ty a rc t' :
  table_ok t -> may_map mfn (2 ^ order) ty a ->
  0 <= order -> 0 <= gfn -> gfn + 2 ^ order < 2 ^ 64 ->
  mfn = INVALID_MFN \/ (0 <= mfn /\ mfn + 2 ^ order <= INVALID_MFN) ->
  p2m_set_entry cfg t gfn mfn order ty a = (rc, t') ->
  table_ok t' /\
  (rc = 0 -> forall g, gfn <= g < gfn + 2 ^ order -> mapped_as t' gfn mfn g ty a) /\
  (forall g, 0 <= g -> g < gfn \/ gfn + 2 ^ order <= g -> look t' g = look t g).
Proof.
  intros Hok Hmay Ho Hg Hgt Hm E. unfold p2m_set_entry in E. rewrite Z.shiftl_1_l in E.
  assert (0 <= 2 ^ order) by (apply Z.pow_nonneg; lia).
  pose proof (p2m_set_entry_loop_ok ty a (Z.to_nat (2 ^ order)) t gfn mfn (2 ^ order) 0
    Hok Hmay ltac:(lia) ltac:(lia) Hg Hgt Hm) as (P0 & P1 & P2). rewrite E in P0, P1, P2. simpl in P0, P1, P2.
  split; [done|]. split; [|done]. intros Hr. by apply P1.
Qed.
(** C27. [p2m_set_entry] over any lawful table, for a request within the rules
    of that table: when it returns 0, every frame
    of the 2^order block it was asked for is translated to the matching
    machine frame with the given type and access (or has no translation, when
    the request was to unmap), whatever superpages the loop chose; and whether
    or not it fails, no frame outside the block changes and the table
    stays in a proper state. *)
Theorem p2m_set_entry_spec t gfn mfn order ty a rc t' :
  table_ok t -> may_map mfn (2 ^ order) ty a ->
  0 <= order -> 0 <= gfn -> gfn + 2 ^ order < 2 ^ 64 ->
  mfn = INVALID_MFN \/ (0 <= mfn /\ mfn + 2 ^ order <= INVALID_MFN) ->
  p2m_set_entry cfg t gfn mfn order ty a = (rc, t') ->
  table_ok t' /\
  (rc = 0 -> forall g, gfn <= g < gfn + 2 ^ order -> mapped_as t' gfn mfn g ty a) /\
  (forall g, 0 <= g -> g < gfn \/ gfn + 2 ^ order <= g -> look t' g = look t g).
Proof. apply p2m_set_entry_ok. Qed.
End SetEntry.

Definition flat_cfg : p2m_config := mkCfg true true true true (2 ^ 40).

(** A block of 1024 frames, filled with two 2M entries. *)
Lemma p2m_set_entry_spec_witness :
  let r := p2m_set_entry flat_cfg ([] : flat) 1024 2048 10 p2m_ram_rw p2m_access_rx in
  length r.2 = 2%nat /\ look r.2 1500 = (2524, p2m_ram_rw, p2m_access_rx) /\
  look r.2 5000 = look ([] : flat) 5000.
Proof.
  split; [vm_compute; reflexivity|].
  pose proof (p2m_set_entry_spec flat_cfg ([] : flat) 1024 2048 10 p2m_ram_rw p2m_access_rx
    0 _ I ltac:(intros i o _ _ _; exact I) ltac:(lia) ltac:(lia) ltac:(lia) ltac:(right; unfold INVALID_MFN; lia)
    ltac:(vm_compute; reflexivity)) as (_ & P1 & P2).
  split.
  - exact (P1 eq_refl 1500 ltac:(lia)).
  - apply P2; lia.
Defined.
