(* ===== verification/HapPool.v ===== *)
(** * The pool of page-table pages of a domain (xen/arch/x86/mm/hap/hap.c)

    Page-table pages of the host table, the nested tables and the views come
    from one pool per domain.  The pool grows and shrinks by
    hap_set_allocation() against the domain heap; a page is taken and given
    back by hap_alloc_p2m_page() and hap_free_p2m_page(), a monitor table by
    hap_alloc() and hap_free().  The counters are C's unsigned int; the heap
    is the list of pages that alloc_domheap_page() will return, and the
    answers of hypercall_preempt_check() are input.  ASSERT is [bug_on]. *)

From S2P Require Import Prelude Monad.

(** d->arch.paging.hap *)
Record hap_pool := mkPool {
  freelist : list Z;
  free_pages : Z;
  total_pages : Z;
  p2m_pages : Z;
  p2m_alloc_failed : bool
}.
#[export] Instance eta_hap_pool : Eta hap_pool := fun x =>
  mkPool (freelist x) (free_pages x) (total_pages x) (p2m_pages x) (p2m_alloc_failed x).

(** hap_alloc(); the caller's frame is cleared where contents matter. *)
Definition hap_alloc (p : hap_pool) : option Z * hap_pool :=
  match freelist p with
  | [] => (None, p)
  | pg :: l => (Some pg, p <| freelist := l |> <| free_pages := u32 (free_pages p - 1) |>)
  end.

Definition hap_free (mfn : Z) (p : hap_pool) : hap_pool :=
  p <| free_pages := u32 (free_pages p + 1) |> <| freelist ::= fun l => l ++ [mfn] |>.

Definition hap_alloc_p2m_page (p : hap_pool) : option Z * hap_pool :=
  match hap_alloc p with
  | (Some pg, p) =>
      (Some pg, p <| total_pages := u32 (total_pages p - 1) |>
                  <| p2m_pages := u32 (p2m_pages p + 1) |>)
  | (None, p) => (None, p <| p2m_alloc_failed := true |>)
  end.

Definition hap_free_p2m_page (pg : Z) (p : hap_pool) : hap_pool :=
  hap_free pg (p <| p2m_pages := u32 (p2m_pages p - 1) |>
                 <| total_pages := u32 (total_pages p + 1) |>).

(** hap_get_allocation(): the size of the pool in MB, rounded up. *)
Definition hap_get_allocation (p : hap_pool) : Z :=
  let pg := u32 (total_pages p + p2m_pages p) in
  Z.shiftr pg (20 - PAGE_SHIFT) +
  (if Z.land pg (Z.shiftl 1 (20 - PAGE_SHIFT) - 1) =? 0 then 0 else 1).

(** The domain as these functions see it.  A monitor table of 0 is none. *)
Record hap_dom := mkHd {
  pool : hap_pool;
  domheap : list Z;
  preempt_checks : list bool;
  monitor_tables : list Z;
  host_list : list Z;                (* p2m->pages of the host table *)
  nested_lists : list (list Z);
  alt_lists : list (list Z);
  altp2m_eptp_page : option Z;       (* d->arch.altp2m_eptp *)
  crashed_oom : bool                 (* domain_crash() *)
}.
#[export] Instance eta_hap_dom : Eta hap_dom := fun x =>
  mkHd (pool x) (domheap x) (preempt_checks x) (monitor_tables x) (host_list x)
    (nested_lists x) (alt_lists x) (altp2m_eptp_page x) (crashed_oom x).

Section Hap.
Local Open Scope monad_scope.

Definition upd_pool (f : hap_pool -> hap_pool) : M hap_dom unit :=
  modify (fun s : hap_dom => s <| pool ::= f |>).

(** The loop of hap_set_allocation(): the result is the return value and
    whether the caller has to call again.  An iteration moves one page
    towards the goal. *)
Fixpoint set_allocation_loop (fuel : nat) (preemptible : bool) (pages : Z)
  : M hap_dom (Z * bool) :=
  match fuel with
  | O => fun _ => None
  | S fuel' =>
      let! s := gets (fun s : hap_dom => s) in
      let next : M hap_dom (Z * bool) :=
        if preemptible then
          let! c := gets (fun s : hap_dom => default false (head (preempt_checks s))) in
          modify (fun s : hap_dom => s <| preempt_checks ::= tail |>) ;;
          if c then ret (0, true) else set_allocation_loop fuel' preemptible pages
        else set_allocation_loop fuel' preemptible pages in
      if total_pages (pool s) <? pages then
        match domheap s with
        | [] => ret (- ENOMEM, false)
        | pg :: h =>
            modify (fun s : hap_dom => s <| domheap := h |>) ;;
            upd_pool (fun p => p <| free_pages := u32 (free_pages p + 1) |>
                                 <| total_pages := u32 (total_pages p + 1) |>
                                 <| freelist ::= fun l => l ++ [pg] |>) ;;
            next
        end
      else if pages <? total_pages (pool s) then
        match freelist (pool s) with
        | [] => ret (- ENOMEM, false)
        | pg :: l =>
            upd_pool (fun p => p <| freelist := l |>
                                 <| free_pages := u32 (free_pages p - 1) |>
                                 <| total_pages := u32 (total_pages p - 1) |>) ;;
            modify (fun s : hap_dom => s <| domheap ::= cons pg |>) ;;
            next
        end
      else ret (0, false)
  end.

Definition hap_set_allocation (pages : Z) (preemptible : bool) : M hap_dom (Z * bool) :=
  let! s := gets (fun s : hap_dom => s) in
  let pages :=
    if pages <? p2m_pages (pool s) then 0 else pages - p2m_pages (pool s) in
  set_allocation_loop (S (Z.to_nat (Z.abs (total_pages (pool s) - pages)))) preemptible pages.

(** hap_make_monitor_table(); the copies into the new table are not state of
    the pool.  INVALID_MFN is all ones. *)
Definition hap_make_monitor_table : M hap_dom Z :=
  let! r := gets (fun s : hap_dom => hap_alloc (pool s)) in
  upd_pool (fun _ => r.2) ;;
  match r.1 with
  | Some pg => ret pg
  | None => modify (fun s : hap_dom => s <| crashed_oom := true |>) ;; ret (2 ^ 64 - 1)
  end.

Definition hap_destroy_monitor_table (mmfn : Z) : M hap_dom unit := upd_pool (hap_free mmfn).

Context (mfn_valid : Z -> bool).
Context (paging_mode_enabled hostmode_external : bool).

(** hap_teardown(); the result is whether it was preempted. *)
Definition hap_teardown (preemptible : bool) : M hap_dom bool :=
  (if paging_mode_enabled then
     let! s := gets (fun s : hap_dom => s) in
     for_each (iota (length (monitor_tables s))) (fun i =>
       when hostmode_external
         (let! mfn := deref (fun s : hap_dom => monitor_tables s !! Z.to_nat i) in
          when (mfn_valid mfn && negb (mfn =? 0)) (hap_destroy_monitor_table mfn) ;;
          modify (fun s : hap_dom => s <| monitor_tables ::= <[Z.to_nat i := 0]> |>)))
   else ret tt) ;;
  let! total := gets (fun s : hap_dom => total_pages (pool s)) in
  if negb (total =? 0) then
    let! r := hap_set_allocation 0 preemptible in
    if r.2 then ret true
    else
      let! total := gets (fun s : hap_dom => total_pages (pool s)) in
      bug_on (negb (total =? 0)) ;; ret false
  else ret false.

(** p2m_teardown(): every page of the table's list goes back to the pool. *)
Definition teardown_list (l : list Z) : M hap_dom unit :=
  for_each l (fun pg => upd_pool (hap_free_p2m_page pg)).

Context (altp2m_supported : bool).

Definition hap_final_teardown : M hap_dom unit :=
  when altp2m_supported
    (let! s := gets (fun s : hap_dom => s) in
     modify (fun s : hap_dom => s <| altp2m_eptp_page := None |>) ;;
     for_each (alt_lists s) teardown_list ;;
     modify (fun s : hap_dom => s <| alt_lists ::= fmap (fun _ => []) |>)) ;;
  (let! s := gets (fun s : hap_dom => s) in
   for_each (nested_lists s) teardown_list ;;
   modify (fun s : hap_dom => s <| nested_lists ::= fmap (fun _ => []) |>)) ;;
  let! total := gets (fun s : hap_dom => total_pages (pool s)) in
  (if negb (total =? 0) then let! _ := hap_teardown false in ret tt else ret tt) ;;
  let! s := gets (fun s : hap_dom => s) in
  teardown_list (host_list s) ;;
  modify (fun s : hap_dom => s <| host_list := [] |>) ;;
  let! _ := hap_set_allocation 0 false in
  let! p := gets (fun s : hap_dom => p2m_pages (pool s)) in
  bug_on (negb (p =? 0)).
End Hap.
