(* ===== verification/HapPoolProofs.v ===== *)
(** * Conservation of page-table pages (theorems about HapPool.v) *)

From S2P Require Import Prelude Monad HapPool.

Local Notation "'len' l" := (Z.of_nat (length l)) (at level 9, l at level 8).

(** The counters of the pool: [k] pages are out as monitor tables and [m] as
    page tables. *)
Record counted (k m : Z) (p : hap_pool) : Prop := {
  cnt_free : free_pages p = len (freelist p);
  cnt_total : total_pages p = len (freelist p) + k;
  cnt_p2m : p2m_pages p = m;
  cnt_k : 0 <= k;
  cnt_m : 0 <= m
}.

(** All pages together fit the counters. *)
Definition fits (k m : Z) (s : hap_dom) : Prop :=
  len (domheap s) + len (freelist (pool s)) + k + m < 2 ^ 32.

Lemma u32_succ z : 0 <= z -> z + 1 < 2 ^ 32 -> u32 (z + 1) = z + 1.
Proof. intros. apply u32_small. lia. Qed.
Lemma u32_pred z : 0 < z -> z < 2 ^ 32 -> u32 (z - 1) = z - 1.
Proof. intros. apply u32_small. lia. Qed.

(** Taking a page for a table and giving one back. *)
Lemma alloc_p2m_counted k m p pg p' :
  counted k m p -> len (freelist p) + k + m < 2 ^ 32 ->
  hap_alloc_p2m_page p = (Some pg, p') ->
  freelist p = pg :: freelist p' /\ counted k (m + 1) p'.
Proof.
  intros [Hf Ht Hm Hk Hm0] Hfit. unfold hap_alloc_p2m_page, hap_alloc.
  destruct (freelist p) as [|x l] eqn:El; [done|]. intros [= -> <-]. split; [done|].
  unfold set. simpl in *. rewrite Hf, Ht, Hm.
  split; simpl; try lia; rewrite ?u32_pred, ?u32_succ; lia.
Qed.

Lemma free_p2m_counted k m p pg :
  counted k (m + 1) p -> 0 <= m -> len (freelist p) + k + m + 1 < 2 ^ 32 ->
  freelist (hap_free_p2m_page pg p) = freelist p ++ [pg] /\
  counted k m (hap_free_p2m_page pg p).
Proof.
  intros [Hf Ht Hm Hk Hm0] Hm1 Hfit. split; [done|].
  unfold hap_free_p2m_page, hap_free, set. simpl. rewrite Hf, Ht, Hm.
  split; simpl; rewrite ?length_app; simpl; try lia; rewrite ?u32_succ, ?u32_pred; lia.
Qed.

(** ** Growing and shrinking the pool *)

(** The parts of the domain that hap_set_allocation() does not change. *)
Definition pool_only (s s' : hap_dom) : Prop :=
  monitor_tables s' = monitor_tables s /\ host_list s' = host_list s /\
  nested_lists s' = nested_lists s /\ alt_lists s' = alt_lists s /\
  crashed_oom s' = crashed_oom s.

Definition alloc_post (k m pages : Z) (s : hap_dom) (r : Z * bool) (s' : hap_dom) : Prop :=
  domheap s' ++ freelist (pool s') ≡ₚ domheap s ++ freelist (pool s) /\
  counted k m (pool s') /\ pool_only s s' /\
  (r = (0, false) /\ total_pages (pool s') = pages \/
   r = (0, true) \/
   r = (- ENOMEM, false) /\ (total_pages (pool s') < pages /\ domheap s' = [] \/
                             pages < total_pages (pool s') /\ freelist (pool s') = [])).

Lemma perm_to_free (pg : Z) h l : h ++ l ++ [pg] ≡ₚ (pg :: h) ++ l.
Proof. rewrite (Permutation_app_comm l [pg]). simpl. by rewrite <- Permutation_middle. Qed.
Lemma perm_to_heap (pg : Z) h l : (pg :: h) ++ l ≡ₚ h ++ pg :: l.
Proof. simpl. by rewrite Permutation_middle. Qed.

Lemma alloc_post_weaken k m pages s s1 r s' :
  domheap s1 ++ freelist (pool s1) ≡ₚ domheap s ++ freelist (pool s) -> pool_only s s1 ->
  alloc_post k m pages s1 r s' -> alloc_post k m pages s r s'.
Proof.
  intros HP (A1 & A2 & A3 & A4 & A5) (P & C & (B1 & B2 & B3 & B4 & B5) & R).
  split; [by etransitivity|]. split; [done|]. split; [|done].
  unfold pool_only. split_and!; congruence.
Qed.

Lemma fits_perm k m s s1 :
  domheap s1 ++ freelist (pool s1) ≡ₚ domheap s ++ freelist (pool s) -> fits k m s -> fits k m s1.
Proof.
  intros HP Hf. apply Permutation_length in HP. rewrite !length_app in HP. unfold fits in *. lia.
Qed.

Lemma wp_set_allocation_loop k m pages pre : 0 <= pages -> forall fuel s,
  counted k m (pool s) -> fits k m s ->
  (Z.to_nat (Z.abs (total_pages (pool s) - pages)) < fuel)%nat ->
  wp (set_allocation_loop fuel pre pages) (alloc_post k m pages s) s.
Proof.
  intros Hp. induction fuel as [|fuel IH]; intros s Hc Hf Hfu; [lia|]. simpl.
  apply wp_bind, wp_gets.
  assert (Hnext : forall s1, domheap s1 ++ freelist (pool s1) ≡ₚ domheap s ++ freelist (pool s) ->
    pool_only s s1 -> counted k m (pool s1) ->
    (Z.to_nat (Z.abs (total_pages (pool s1) - pages)) < fuel)%nat ->
    wp (if pre then
          bind (gets (fun s : hap_dom => default false (head (preempt_checks s)))) (fun c =>
          bind (modify (fun s : hap_dom => s <| preempt_checks ::= tail |>)) (fun _ =>
          if c then ret (0, true) else set_allocation_loop fuel pre pages))
        else set_allocation_loop fuel pre pages) (alloc_post k m pages s) s1).
  { intros s1 HP Ho Hc1 Hfu1. destruct pre.
    - apply wp_bind, wp_gets, wp_bind, wp_modify. destruct (default false _).
      + apply wp_ret. split; [done|]. split; [done|]. split; [done|]. right. by left.
      + eapply wp_mono; [apply IH; [done|by apply (fits_perm k m s)|done]|].
        intros r s' H. by apply (alloc_post_weaken k m pages s s1).
    - eapply wp_mono; [apply IH; [done|by apply (fits_perm k m s)|done]|].
      intros r s' H. by apply (alloc_post_weaken k m pages s s1). }
  destruct Hc as [C1 C2 C3 C4 C5]. unfold fits in Hf.
  destruct (Z.ltb_spec (total_pages (pool s)) pages) as [Hlt|Hge].
  - destruct (domheap s) as [|pg h] eqn:Eh.
    + apply wp_ret. unfold alloc_post. rewrite Eh. split; [done|]. split; [done|]. split; [done|].
      right; right. split; [done|]. by left.
    + simpl in Hf. apply wp_bind, wp_modify, wp_bind. unfold upd_pool. apply wp_modify.
      apply Hnext; unfold set; simpl.
      * apply perm_to_free.
      * done.
      * split; simpl; rewrite ?length_app, ?C1, ?C2; simpl; try lia; rewrite u32_succ; lia.
      * rewrite C2 in *. rewrite u32_succ; lia.
  - destruct (Z.ltb_spec pages (total_pages (pool s))) as [Hgt|Heq].
    + destruct (freelist (pool s)) as [|pg l] eqn:El.
      * apply wp_ret. unfold alloc_post. rewrite El. split; [done|].
        split; [split; rewrite ?El; done|]. split; [done|]. right; right. split; [done|]. by right.
      * simpl in *. apply wp_bind. unfold upd_pool. apply wp_modify. apply wp_bind, wp_modify.
        apply Hnext; unfold set; simpl.
        -- apply perm_to_heap.
        -- done.
        -- split; simpl; rewrite ?C1, ?C2; try lia; rewrite u32_pred; lia.
        -- rewrite C2 in *. rewrite u32_pred; lia.
    + apply wp_ret. split; [done|]. split; [done|]. split; [done|]. left. split; [done|lia].
Qed.

(** What hap_set_allocation() aims at. *)
Definition pool_goal (pages m : Z) : Z := if pages <? m then 0 else pages - m.

Lemma wp_hap_set_allocation k m pages pre s :
  0 <= pages -> counted k m (pool s) -> fits k m s ->
  wp (hap_set_allocation pages pre) (alloc_post k m (pool_goal pages m) s) s.
Proof.
  intros Hp Hc Hf. unfold hap_set_allocation. apply wp_bind, wp_gets.
  rewrite (cnt_p2m _ _ _ Hc). fold (pool_goal pages m).
  apply wp_set_allocation_loop; [|done|done|lia].
  unfold pool_goal. destruct (Z.ltb_spec pages m); lia.
Qed.

(** ** Tearing the domain down *)

(** Giving back a list of page-table pages. *)
Lemma wp_teardown_list l : forall k m s Q,
  counted k (m + len l) (pool s) -> 0 <= m -> len (freelist (pool s)) + k + m + len l < 2 ^ 32 ->
  (forall p, counted k m p -> freelist p = freelist (pool s) ++ l ->
     Q tt (s <| pool := p |>)) ->
  wp (teardown_list l) Q s.
Proof.
  induction l as [|pg l IH]; intros k m s Q Hc Hm Hf HQ; unfold teardown_list in *; simpl for_each.
  - apply wp_ret. simpl in Hc. rewrite Z.add_0_r in Hc.
    specialize (HQ (pool s) Hc ltac:(by rewrite app_nil_r)). by destruct s.
  - apply wp_bind. unfold upd_pool at 1. apply wp_modify.
    replace (m + len (pg :: l)) with (m + len l + 1) in Hc by (simpl; lia). simpl in Hf.
    destruct (free_p2m_counted k (m + len l) (pool s) pg Hc ltac:(lia) ltac:(lia)) as [E Hc'].
    apply (IH k m).
    + exact Hc'.
    + done.
    + change (pool (s <| pool ::= hap_free_p2m_page pg |>)) with (hap_free_p2m_page pg (pool s)).
      rewrite E, length_app. simpl. lia.
    + intros p Hp El. change (pool (s <| pool ::= hap_free_p2m_page pg |>)) with
        (hap_free_p2m_page pg (pool s)) in El. rewrite E, <- app_assoc in El. exact (HQ p Hp El).
Qed.

Lemma wp_teardown_lists ls : forall k m s Q,
  counted k (m + len (concat ls)) (pool s) -> 0 <= m ->
  len (freelist (pool s)) + k + m + len (concat ls) < 2 ^ 32 ->
  (forall p, counted k m p -> freelist p = freelist (pool s) ++ concat ls ->
     Q tt (s <| pool := p |>)) ->
  wp (for_each ls teardown_list) Q s.
Proof.
  induction ls as [|l ls IH]; intros k m s Q Hc Hm Hf HQ; simpl for_each.
  - apply wp_ret. simpl in Hc. rewrite Z.add_0_r in Hc.
    specialize (HQ (pool s) Hc ltac:(by rewrite app_nil_r)). by destruct s.
  - simpl in Hc, Hf. rewrite length_app in Hc, Hf. apply wp_bind.
    apply (wp_teardown_list l k (m + len (concat ls))).
    + by replace (m + len (concat ls) + len l) with (m + Z.of_nat (length l + length (concat ls)))
        by lia.
    + lia.
    + lia.
    + intros p Hp El. apply (IH k m); [exact Hp|done| |].
      * change (pool (s <| pool := p |>)) with p. rewrite El, length_app. lia.
      * intros p' Hp' El'. change (pool (s <| pool := p |>)) with p in El'.
        rewrite El, <- app_assoc in El'. exact (HQ p' Hp' El').
Qed.

Section Teardown.
Context (mfn_valid : Z -> bool).

(** The monitor tables that exist. *)
Definition live_monitors (l : list Z) : list Z := filter (fun x => x <> 0) l.

(** The loop over the vCPUs: [k] monitor tables are still out. *)
Lemma wp_destroy_monitors rest : forall i k m s Q,
  drop i (monitor_tables s) = rest ->
  (forall x, x ∈ rest -> x <> 0 -> mfn_valid x = true) ->
  counted (k + len (live_monitors rest)) m (pool s) -> 0 <= k ->
  len (freelist (pool s)) + k + len (live_monitors rest) + m < 2 ^ 32 ->
  (forall p ms, counted k m p -> freelist p = freelist (pool s) ++ live_monitors rest ->
     length ms = length (monitor_tables s) -> Q tt (s <| pool := p |> <| monitor_tables := ms |>)) ->
  wp (for_each (Z.of_nat <$> seq i (length rest)) (fun i =>
       when true
         (bind (deref (fun s : hap_dom => monitor_tables s !! Z.to_nat i)) (fun mfn =>
          bind (when (mfn_valid mfn && negb (mfn =? 0)) (hap_destroy_monitor_table mfn)) (fun _ =>
          modify (fun s : hap_dom => s <| monitor_tables ::= <[Z.to_nat i := 0]> |>)))))) Q s.
Proof.
  induction rest as [|x rest IH]; intros i k m s Q Hd Hv Hc Hk Hf HQ; simpl.
  - apply wp_ret. simpl in Hc. rewrite Z.add_0_r in Hc.
    specialize (HQ (pool s) (monitor_tables s) Hc ltac:(by rewrite app_nil_r) eq_refl).
    by destruct s.
  - assert (Hx : monitor_tables s !! i = Some x).
    { rewrite <- (Nat.add_0_r i), <- lookup_drop, Hd. done. }
    assert (Hd' : drop (S i) (monitor_tables s) = rest).
    { rewrite <- (Nat.add_1_r i), <- drop_drop, Hd. done. }
    apply wp_bind. unfold when at 1. apply wp_bind. apply (wp_deref _ x); [by rewrite Nat2Z.id|].
    assert (Hins : drop (S i) (<[i := 0]> (monitor_tables s)) = rest)
      by (rewrite drop_insert_lt by lia; done).
    apply wp_bind. rewrite Nat2Z.id. destruct (decide (x = 0)) as [->|Hne].
    + rewrite andb_false_r. apply wp_ret, wp_modify. unfold live_monitors in *.
      rewrite filter_cons_False in Hc, Hf, HQ by (by intros []).
      apply (IH (S i) k m); [exact Hins|intros y Hy; apply Hv; by right|exact Hc|done|exact Hf|].
      intros p ms Hp El Hl. apply (HQ p ms Hp El). rewrite Hl. simpl. by rewrite length_insert.
    + rewrite (Hv x) by (done || left). rewrite (proj2 (Z.eqb_neq _ _)) by done. simpl negb.
      unfold when, hap_destroy_monitor_table, upd_pool. apply wp_modify, wp_modify.
      unfold live_monitors in *. rewrite filter_cons_True in Hc, Hf, HQ by done. simpl length in *.
      apply (IH (S i) k m); [exact Hins|intros y Hy; apply Hv; by right| |done| |].
      * destruct Hc as [C1 C2 C3 C4 C5]. unfold hap_free, set. simpl.
        split; simpl; rewrite ?length_app; simpl; try lia. rewrite C1, u32_succ; lia.
      * unfold hap_free, set. simpl. rewrite length_app. simpl. lia.
      * intros p ms Hp El Hl. unfold hap_free, set in El. simpl in El. rewrite <- app_assoc in El.
        apply (HQ p ms Hp El). rewrite Hl. simpl. by rewrite length_insert.
Qed.
End Teardown.

(** All pages that belong to the domain's page tables or came from the heap. *)
Definition all_pages (s : hap_dom) : list Z :=
  domheap s ++ freelist (pool s) ++ live_monitors (monitor_tables s) ++
  host_list s ++ concat (nested_lists s) ++ concat (alt_lists s).

(** The counters agree with the lists, and the monitor tables are frames. *)
Record hap_ok (mfn_valid : Z -> bool) (s : hap_dom) : Prop := {
  ok_counted : counted (len (live_monitors (monitor_tables s)))
    (len (host_list s) + len (concat (nested_lists s)) + len (concat (alt_lists s))) (pool s);
  ok_fits : len (all_pages s) < 2 ^ 32;
  ok_monitors : forall x, x ∈ monitor_tables s -> x <> 0 -> mfn_valid x = true
}.


(** Without preemption the loop does not stop early. *)
Lemma wp_loop_not_preempted pages : forall fuel s,
  wp (set_allocation_loop fuel false pages) (fun _ _ => True) s ->
  wp (set_allocation_loop fuel false pages) (fun r _ => r.2 = false) s.
Proof.
  induction fuel as [|fuel IH]; intros s; simpl; [done|].
  intros H. apply wp_bind, wp_gets. unfold wp, bind, gets in H. simpl in H.
  destruct (_ <? _).
  - destruct (domheap s); [done|]. apply wp_bind, wp_modify, wp_bind. unfold upd_pool. apply wp_modify.
    apply IH. exact H.
  - destruct (_ <? _); [|done]. destruct (freelist (pool s)); [done|].
    apply wp_bind. unfold upd_pool. apply wp_modify. apply wp_bind, wp_modify. apply IH. exact H.
Qed.

Lemma wp_release_all m s Q :
  counted 0 m (pool s) -> fits 0 m s ->
  (forall s', domheap s' ≡ₚ domheap s ++ freelist (pool s) -> freelist (pool s') = [] ->
     counted 0 m (pool s') -> pool_only s s' -> Q (0, false) s') ->
  wp (hap_set_allocation 0 false) Q s.
Proof.
  intros Hc Hf HQ. pose proof (wp_hap_set_allocation 0 m 0 false s ltac:(lia) Hc Hf) as H.
  assert (H2 : wp (hap_set_allocation 0 false) (fun r _ => r.2 = false) s).
  { unfold hap_set_allocation in *. apply wp_bind, wp_gets. apply wp_loop_not_preempted.
    eapply wp_mono; [exact H|done]. }
  eapply wp_mono; [exact (wp_conj _ _ _ _ H H2)|].
  replace (pool_goal 0 m) with 0.
  2: { unfold pool_goal. pose proof (cnt_m _ _ _ Hc). destruct (Z.ltb_spec 0 m); lia. }
  intros r s' [(HP & Hc' & Ho & [[-> Ht]|[->|[-> [[Ht _]|[Ht El]]]]]) Hr]; simpl in Hr; try done.
  - pose proof (cnt_total _ _ _ Hc') as E. assert (El : freelist (pool s') = []).
    { destruct (freelist (pool s')); [done|]. simpl in E. lia. }
    rewrite El, app_nil_r in HP. by apply HQ.
  - pose proof (cnt_total _ _ _ Hc'). lia.
  - pose proof (cnt_total _ _ _ Hc') as E. rewrite El in E. simpl in E. lia.
Qed.

Section FinalTeardown.
Context (mfn_valid : Z -> bool).

Lemma wp_hap_teardown m s Q :
  (forall x, x ∈ monitor_tables s -> x <> 0 -> mfn_valid x = true) ->
  counted (len (live_monitors (monitor_tables s))) m (pool s) ->
  len (domheap s) + len (freelist (pool s)) + len (live_monitors (monitor_tables s)) + m < 2 ^ 32 ->
  (forall s', domheap s' ≡ₚ domheap s ++ freelist (pool s) ++ live_monitors (monitor_tables s) ->
     freelist (pool s') = [] -> counted 0 m (pool s') -> host_list s' = host_list s -> Q false s') ->
  wp (hap_teardown mfn_valid true true false) Q s.
Proof.
  intros Hv Hc Hf HQ. unfold hap_teardown. apply wp_bind, wp_bind, wp_gets.
  unfold iota. apply (wp_destroy_monitors mfn_valid (monitor_tables s) 0 0 m).
  - done.
  - done.
  - done.
  - done.
  - lia.
  - intros p ms Hp El _. apply wp_bind, wp_gets. unfold set. simpl pool.
    destruct (Z.eqb_spec (total_pages p) 0) as [E|E]; simpl negb; cbv iota.
    + apply wp_ret. rewrite (cnt_total _ _ _ Hp), Z.add_0_r in E.
      assert (En : freelist p = []) by (destruct (freelist p); [done|simpl in E; lia]).
      rewrite En in El. symmetry in El. apply app_nil in El as [Ef Em]. apply HQ; simpl; [|done..].
      by rewrite Ef, Em, !app_nil_r.
    + apply wp_bind, (wp_release_all m); [exact Hp| |].
      * unfold fits. simpl. rewrite El, length_app. lia.
      * simpl domheap. simpl pool. intros s' HP En Hc' (_ & Hh & _). simpl in Hh. cbv iota.
        apply wp_bind, wp_gets. pose proof (cnt_total _ _ _ Hc') as Et. rewrite En in Et. simpl in Et.
        simpl. rewrite Et. apply wp_bind, wp_bug_on; [done|]. apply wp_ret.
        apply HQ; [|done|done|done]. by rewrite HP, El.
Qed.

(** The first stage: the views. *)
Lemma wp_teardown_views altp2m k m s Q :
  (altp2m = false -> concat (alt_lists s) = []) ->
  counted k (m + len (concat (alt_lists s))) (pool s) -> 0 <= m ->
  len (freelist (pool s)) + k + m + len (concat (alt_lists s)) < 2 ^ 32 ->
  (forall p al e, counted k m p -> freelist p = freelist (pool s) ++ concat (alt_lists s) ->
     Q tt (s <| pool := p |> <| alt_lists := al |> <| altp2m_eptp_page := e |>)) ->
  wp (when altp2m
    (bind (gets (fun s : hap_dom => s)) (fun s =>
     bind (modify (fun s : hap_dom => s <| altp2m_eptp_page := None |>)) (fun _ =>
     bind (for_each (alt_lists s) teardown_list) (fun _ =>
     modify (fun s : hap_dom => s <| alt_lists ::= fmap (fun _ => []) |>)))))) Q s.
Proof.
  intros Ha Hc Hm Hf HQ. apply wp_when; intros E.
  - apply wp_bind, wp_gets, wp_bind, wp_modify, wp_bind.
    apply (wp_teardown_lists _ k m); [exact Hc|done|exact Hf|]. intros p Hp El. apply wp_modify.
    apply (HQ p _ None Hp El).
  - rewrite (Ha E) in Hc, HQ. simpl in Hc. rewrite Z.add_0_r in Hc.
    specialize (HQ (pool s) (alt_lists s) (altp2m_eptp_page s) Hc ltac:(by rewrite app_nil_r)).
    by destruct s.
Qed.

Lemma perm_final (H F Mo Ho N A h' f1 f2 h'' : list Z) :
  f1 = (F ++ A) ++ N -> h' ≡ₚ H ++ f1 ++ Mo -> f2 = [] ++ Ho -> h'' ≡ₚ h' ++ f2 ->
  h'' ≡ₚ H ++ F ++ Mo ++ Ho ++ N ++ A.
Proof.
  intros -> E1 -> E2. rewrite E2, E1. simpl. rewrite <- !app_assoc.
  do 2 apply Permutation_app_head. rewrite (Permutation_app_comm A). rewrite <- !app_assoc.
  rewrite (Permutation_app_comm N (Mo ++ Ho ++ A)). rewrite <- !app_assoc.
  do 2 apply Permutation_app_head. apply Permutation_app_comm.
Qed.

(** The last two stages: the host table, and what its teardown released. *)
Lemma wp_teardown_hosttable s Q :
  counted 0 (len (host_list s)) (pool s) -> freelist (pool s) = [] ->
  len (domheap s) + len (host_list s) < 2 ^ 32 ->
  (forall s', domheap s' ≡ₚ domheap s ++ [] ++ host_list s -> freelist (pool s') = [] ->
     counted 0 0 (pool s') -> Q tt s') ->
  wp (bind (gets (fun s : hap_dom => s)) (fun s =>
      bind (teardown_list (host_list s)) (fun _ =>
      bind (modify (fun s : hap_dom => s <| host_list := [] |>)) (fun _ =>
      bind (hap_set_allocation 0 false) (fun _ =>
      bind (gets (fun s : hap_dom => p2m_pages (pool s))) (fun p =>
      bug_on (negb (p =? 0)))))))) Q s.
Proof.
  intros Hc En Hf HQ. apply wp_bind, wp_gets, wp_bind.
  apply (wp_teardown_list _ 0 0); [exact Hc|done|rewrite En; simpl; lia|].
  rewrite En. intros p Hp El. apply wp_bind, wp_modify, wp_bind, (wp_release_all 0).
  - exact Hp.
  - unfold fits, set. simpl. rewrite El. simpl. lia.
  - unfold set. simpl domheap. simpl pool. rewrite El. intros s' HP En' Hc' _.
    apply wp_bind, wp_gets. rewrite (cnt_p2m _ _ _ Hc'). apply wp_bug_on; [done|]. by apply HQ.
Qed.

Lemma wp_final_teardown altp2m s Q :
  hap_ok mfn_valid s -> (altp2m = false -> concat (alt_lists s) = []) ->
  (forall s', domheap s' ≡ₚ all_pages s -> freelist (pool s') = [] -> counted 0 0 (pool s') -> Q tt s') ->
  wp (hap_final_teardown mfn_valid true true altp2m) Q s.
Proof.
  intros [Hc Hf Hv] Ha HQ. unfold all_pages in Hf, HQ. rewrite !length_app in Hf.
  unfold hap_final_teardown. apply wp_bind, (wp_teardown_views _ _ _ s _ Ha Hc); [lia|lia|].
  intros p al e Hp El. apply wp_bind, wp_bind, wp_gets, wp_bind.
  apply (wp_teardown_lists _ (len (live_monitors (monitor_tables s))) (len (host_list s)));
    unfold set; simpl; [exact Hp|lia|rewrite El, length_app; lia|].
  intros p1 Hp1 El1. apply wp_modify, wp_bind, wp_gets. unfold set. simpl. rewrite El in El1.
  assert (Hlast : forall s1, domheap s1 ≡ₚ domheap s ++ freelist p1 ++ live_monitors (monitor_tables s) ->
    freelist (pool s1) = [] -> counted 0 (len (host_list s)) (pool s1) -> host_list s1 = host_list s ->
    wp (bind (gets (fun s : hap_dom => s)) (fun s =>
      bind (teardown_list (host_list s)) (fun _ =>
      bind (modify (fun s : hap_dom => s <| host_list := [] |>)) (fun _ =>
      bind (hap_set_allocation 0 false) (fun _ =>
      bind (gets (fun s : hap_dom => p2m_pages (pool s))) (fun p =>
      bug_on (negb (p =? 0)))))))) Q s1).
  { intros s1 HP1 En1 Hc1 Hh1. rewrite <- Hh1 in Hc1. apply (wp_teardown_hosttable s1 Q Hc1 En1).
    - rewrite HP1, Hh1, El1, !length_app. lia.
    - rewrite Hh1. intros s' HP' En' Hc'. apply HQ; [|done|done].
      exact (perm_final _ _ _ _ _ _ _ _ _ _ El1 HP1 eq_refl HP'). }
  apply wp_bind. destruct (Z.eqb_spec (total_pages p1) 0) as [Et|Et]; simpl negb; cbv iota.
  - apply wp_ret. pose proof (cnt_total _ _ _ Hp1) as Ec. rewrite Et in Ec.
    assert (En : freelist p1 = []) by (destruct (freelist p1); [done|simpl in Ec; lia]).
    assert (Em : live_monitors (monitor_tables s) = [])
      by (destruct (live_monitors (monitor_tables s)); [done|simpl in Ec; lia]).
    rewrite Em in Hp1. apply Hlast; simpl; [|done|exact Hp1|done].
    by rewrite En, Em, !app_nil_r.
  - apply wp_bind, (wp_hap_teardown (len (host_list s))); simpl; [done|exact Hp1| |].
    + rewrite El1, !length_app. lia.
    + intros s1 HP1 En1 Hc1 Hh1. apply wp_ret. by apply Hlast.
Qed.

End FinalTeardown.

(** Two vCPUs with a monitor table each, a host table of three pages, one
    nested table and two views. *)
Definition demo_hd : hap_dom :=
  mkHd (mkPool [10; 11] 2 4 8 false) [100] [] [20; 21; 0] [30; 31; 32] [[40; 41]] [[50]; [51; 52]]
    (Some 60) false.

