(* ===== verification/Ept.v ===== *)
(** * EPT page tables (xen/arch/x86/mm/p2m-ept.c)

    The table behind the function pointers of a p2m on Intel hardware.  A
    table page is a frame of 512 entries; the entries of upper levels point to
    frames by number, so the state holds the contents of frames, the pool the
    frames come from (HapPool.v) and the list of frames of this table.  An
    entry is the record of the bit fields of ept_entry_t; its frame number has
    40 bits.  ASSERT is [bug_on], and an access to a frame without contents is
    [None].  Levels are numbered as in the code, 0 for the last and
    ept_get_wl() for the first. *)

From S2P Require Import Prelude Monad P2m HapPool.

Definition EPT_TABLE_ORDER : Z := 9.
Definition EPT_PAGETABLE_ENTRIES : nat := 512.
Definition MTRR_NUM_TYPES : Z := 7.
(** ept_p2m_init() sets ept_wl to 3. *)
Definition ept_get_wl : nat := 3.

(** ept_entry_t *)
Record epte := mkEpte {
  pr : bool; pw : bool; px : bool;
  emt : Z; ipat : bool; sp : bool;
  pa : bool; pd : bool;
  recalc : bool; snp : bool;
  emfn : Z;
  sa_p2mt : p2m_type; access : p2m_access;
  suppress_ve : bool
}.
#[export] Instance eta_epte : Eta epte := fun e =>
  mkEpte (pr e) (pw e) (px e) (emt e) (ipat e) (sp e) (pa e) (pd e) (recalc e) (snp e)
    (emfn e) (sa_p2mt e) (access e) (suppress_ve e).
#[export] Instance epte_eq_dec : EqDecision epte.
Proof. solve_decision. Defined.

(** epte = 0 *)
Definition epte_zero : epte :=
  mkEpte false false false 0 false false false false false false 0 p2m_ram_rw p2m_access_rwx false.

(** Assignment to the 40-bit field. *)
Definition mfn40 (z : Z) : Z := z mod 2 ^ 40.

Definition is_epte_present (e : epte) : bool := pr e || pw e || px e.
Definition is_epte_superpage (e : epte) : bool := sp e.
Definition is_epte_valid (e : epte) : bool :=
  negb (bool_decide (e <| suppress_ve := false |> = epte_zero)) &&
  negb (bool_decide (sa_p2mt e = p2m_invalid)).

Definition p2m_is_changeable (t : p2m_type) : bool :=
  match t with p2m_ram_rw | p2m_ram_logdirty => true | _ => false end.
Definition p2m_is_paged (t : p2m_type) : bool :=
  match t with p2m_ram_paged => true | _ => false end.

(** IOMMUF_readable is 1 and IOMMUF_writable 2. *)
Definition p2m_get_iommu_flags (t : p2m_type) : Z :=
  match t with
  | p2m_ram_rw | p2m_grant_map_rw | p2m_ram_logdirty | p2m_map_foreign => 3
  | p2m_ram_ro | p2m_grant_map_ro => 1
  | _ => 0
  end.

Inductive iommu_op :=
  | iommu_pte_flush (gfn order : Z) (present : bool)
  | iommu_map_page (gfn mfn flags : Z)
  | iommu_unmap_page (gfn : Z).

(** One EPT p2m and what it uses. *)
Record est := mkEst {
  pages : gmap Z (list epte);        (* contents of page-table frames *)
  pool : hap_pool;
  p2m_list : list Z;                 (* p2m->pages *)
  root : Z;                          (* p2m_get_pagetable() *)
  asr : Z;                           (* ept_get_asr() *)
  max_mapped_pfn : Z;
  dflt_access : p2m_access;          (* p2m->default_access *)
  syncs : Z;                         (* calls of ept_sync_domain() *)
  spurious : list bool;              (* ept_spurious_misconfig of the vCPUs *)
  foreign_refs : gmap Z Z;           (* references taken on foreign pages *)
  iommu_log : list iommu_op;
  propagated : list (Z * Z * Z * p2m_type * p2m_access)
                                     (* calls of p2m_altp2m_propagate_change() *)
}.
#[export] Instance eta_est : Eta est := fun s =>
  mkEst (pages s) (pool s) (p2m_list s) (root s) (asr s) (max_mapped_pfn s) (dflt_access s)
    (syncs s) (spurious s) (foreign_refs s) (iommu_log s) (propagated s).

(** What the code asks of the rest of the hypervisor. *)
Record ept_env := mkEnv {
  env_ept_ad : bool;                 (* cpu_has_vmx_ept_ad *)
  env_pml : bool;                    (* vmx_domain_pml_enabled(d) *)
  env_snoop : bool;                  (* iommu_enabled && iommu_snoop *)
  env_mmio_ro : Z -> bool;           (* mmio_ro_ranges *)
  env_emt : Z -> Z -> Z -> bool -> Z * bool;
                                     (* epte_get_entry_emt(): gfn mfn order direct_mmio *)
  env_logdirty : Z -> Z -> Z;        (* p2m_is_logdirty_range() *)
  env_mfn_valid : Z -> bool;
  env_owner : Z -> bool;             (* page_get_owner() != NULL *)
  env_get_page : Z -> bool;
  env_1gb : bool;                    (* hvm_hap_has_1gb() *)
  env_2mb : bool;
  env_host : bool;                   (* p2m_is_hostp2m(p2m) *)
  env_need_iommu : bool;
  env_pt_share : bool                (* iommu_hap_pt_share *)
}.

Section Ept.
Local Open Scope monad_scope.
Context (env : ept_env).

Definition ept_sync_domain : M est unit := modify (fun s : est => s <| syncs ::= Z.add 1 |>).

(** map_domain_page() and an access to entry [i]. *)
Definition read_entry (mfn : Z) (i : nat) : M est epte :=
  deref (fun s : est => es ← pages s !! mfn; es !! i).
Definition write_entry (mfn : Z) (i : nat) (e : epte) : M est unit :=
  modify (fun s : est => s <| pages ::= alter <[i := e]> mfn |>).

(** atomic_write_ept_entry() on the entry [i] of frame [mfn]. *)
Definition atomic_write_ept_entry (mfn : Z) (i : nat) (new : epte) (level : nat) : M est Z :=
  let! old := read_entry mfn i in
  let check_foreign :=
    negb (emfn new =? emfn old) || negb (bool_decide (sa_p2mt new = sa_p2mt old)) in
  match level with
  | S _ =>
      bug_on (is_epte_superpage new && p2m_is_foreign (sa_p2mt new)) ;;
      write_entry mfn i new ;; ret 0
  | O =>
      let! rc :=
        if p2m_is_foreign (sa_p2mt new) then
          if negb (is_epte_present new) then ret (- EINVAL)
          else if check_foreign then
            if negb (env_mfn_valid env (emfn new)) then ret (- EINVAL)
            else if negb (env_owner env (emfn new)) then ret (- ESRCH)
            else if negb (env_get_page env (emfn new)) then ret (- EBUSY)
            else
              modify (fun s : est =>
                s <| foreign_refs ::= fun r => <[emfn new := rd r (emfn new) + 1]> r |>) ;;
              ret 0
          else ret 0
        else ret 0 in
      if negb (rc =? 0) then ret rc
      else
        write_entry mfn i new ;;
        when (p2m_is_foreign (sa_p2mt old) && check_foreign)
          (modify (fun s : est =>
             s <| foreign_refs ::= fun r => <[emfn old := rd r (emfn old) - 1]> r |>)) ;;
        ret 0
  end.

Definition set_rwx (r w x : bool) (e : epte) : epte :=
  e <| pr := r |> <| pw := w |> <| px := x |>.

Definition ept_p2m_type_to_flags (e : epte) (ty : p2m_type) (a : p2m_access) : epte :=
  let ad := env_ept_ad env in
  let e :=
    match ty with
    | p2m_ram_rw => set_rwx true true true e <| pa := ad |> <| pd := ad |>
    | p2m_mmio_direct =>
        let w := negb (env_mmio_ro env (emfn e)) in
        set_rwx true w true e <| pa := ad |> <| pd := w && ad |>
    | p2m_ram_logdirty =>
        set_rwx true (env_pml env && negb (is_epte_superpage e)) true e
          <| pa := ad |> <| pd := false |>
    | p2m_ram_ro | p2m_ram_shared => set_rwx true false true e <| pa := ad |> <| pd := false |>
    | p2m_grant_map_rw | p2m_map_foreign =>
        set_rwx true true false e <| pa := ad |> <| pd := ad |>
    | p2m_grant_map_ro | p2m_mmio_write_dm =>
        set_rwx true false false e <| pa := ad |> <| pd := false |>
    | _ => set_rwx false false false e
    end in
  match a with
  | p2m_access_n | p2m_access_n2rwx => set_rwx false false false e
  | p2m_access_r => e <| pw := false |> <| px := false |>
  | p2m_access_w => e <| pr := false |> <| px := false |>
  | p2m_access_x => e <| pr := false |> <| pw := false |>
  | p2m_access_rx | p2m_access_rx2rw => e <| pw := false |>
  | p2m_access_wx => e <| pr := false |>
  | p2m_access_rw => e <| px := false |>
  | p2m_access_rwx => e
  end.

Definition GUEST_TABLE_MAP_FAILED : Z := 0.
Definition GUEST_TABLE_NORMAL_PAGE : Z := 1.
Definition GUEST_TABLE_SUPER_PAGE : Z := 2.
Definition GUEST_TABLE_POD_PAGE : Z := 3.

(** p2m_alloc_ptp(): hap_alloc() clears the frame. *)
Definition p2m_alloc_ptp : M est (option Z) :=
  let! r := gets (fun s : est => hap_alloc_p2m_page (pool s)) in
  modify (fun s : est => s <| pool := r.2 |>) ;;
  match r.1 with
  | None => ret None
  | Some pg =>
      modify (fun s : est => s <| pages ::= <[pg := replicate EPT_PAGETABLE_ENTRIES epte_zero]> |>
                               <| p2m_list ::= fun l => l ++ [pg] |>) ;;
      ret (Some pg)
  end.

(** p2m_free_ptp(); page_list_del() unlinks the page from p2m->pages. *)
Definition p2m_free_ptp (pg : Z) : M est unit :=
  modify (fun s : est => s <| p2m_list ::= filter (fun x => x <> pg) |>
                           <| pool ::= hap_free_p2m_page pg |>).

(** ept_set_middle_entry(): the entry for a new table, or [None] when no
    page could be allocated; the caller stores it. *)
Definition ept_set_middle_entry : M est (option epte) :=
  let! pg := p2m_alloc_ptp in
  match pg with
  | None => ret None
  | Some mfn =>
      let! s := gets (fun s : est => s) in
      let e := set_rwx true true true
                 (epte_zero <| emfn := mfn40 mfn |> <| access := dflt_access s |>)
                 <| pa := env_ept_ad env |> <| suppress_ve := true |> in
      modify (fun s : est => s <| pages ::= alter (fmap (fun x => x <| suppress_ve := true |>)) mfn |>) ;;
      ret (Some e)
  end.

Fixpoint ept_free_entry (level : nat) (e : epte) : M est unit :=
  match level with
  | O => ret tt
  | S l =>
      if negb (is_epte_present e) || is_epte_superpage e then ret tt
      else
        when (1 <? Z.of_nat level)
          (for_each (seq 0 EPT_PAGETABLE_ENTRIES) (fun i =>
             let! x := read_entry (emfn e) i in ept_free_entry l x)) ;;
        p2m_free_ptp (emfn e)
  end.

(** Entry [i] of the table that replaces the superpage [e] of [level]. *)
Definition split_entry (e : epte) (level i : nat) : epte :=
  let trunk := Z.shiftl 1 ((Z.of_nat level - 1) * EPT_TABLE_ORDER) in
  let x := e <| sp := 1 <? Z.of_nat level |>
             <| emfn := mfn40 (emfn e + Z.of_nat i * trunk) |>
             <| snp := env_snoop env |> <| suppress_ve := true |> in
  ept_p2m_type_to_flags x (sa_p2mt x) (access x).

(** The loop of ept_split_super_page(); [rec] is the recursive call on an
    entry of the new table, and [last] says that none is due. *)
Fixpoint split_loop (rec : epte -> M est (bool * epte)) (last : bool) (e : epte)
    (level : nat) (mfn : Z) (n i : nat) : M est bool :=
  match n with
  | O => ret true
  | S n' =>
      let x := split_entry e level i in
      write_entry mfn i x ;;
      if last then split_loop rec last e level mfn n' (S i)
      else
        bug_on (negb (is_epte_superpage x)) ;;
        let! r := rec x in
        write_entry mfn i r.2 ;;
        if r.1 then split_loop rec last e level mfn n' (S i) else ret false
  end.

(** ept_split_super_page(): the result and the new value of the entry. *)
Fixpoint ept_split_super_page (level : nat) (target : nat) (e : epte) : M est (bool * epte) :=
  match level with
  | O => ret (true, e)
  | S l =>
      if (level =? target)%nat then ret (true, e)
      else
        bug_on (negb (is_epte_superpage e)) ;;
        let! new := ept_set_middle_entry in
        match new with
        | None => ret (false, e)
        | Some new_ept =>
            let! rv := split_loop (ept_split_super_page l target) (l =? target)%nat e level
                         (emfn new_ept) EPT_PAGETABLE_ENTRIES 0 in
            ret (rv, new_ept)
        end
  end.

(** ept_next_level(): the result, the frame of the table and the remainder. *)
Definition ept_next_level (read_only : bool) (table gfn_remainder : Z) (next_level : nat)
  : M est (Z * Z * Z) :=
  let shift := Z.of_nat next_level * EPT_TABLE_ORDER in
  let index := Z.to_nat (Z.shiftr gfn_remainder shift) in
  bug_on (negb (index <? EPT_PAGETABLE_ENTRIES)%nat) ;;
  let! e := read_entry table index in
  let follow (e : epte) : M est (Z * Z * Z) :=
    if is_epte_superpage e then ret (GUEST_TABLE_SUPER_PAGE, table, gfn_remainder)
    else ret (GUEST_TABLE_NORMAL_PAGE, emfn e,
              Z.land gfn_remainder (Z.shiftl 1 shift - 1)) in
  if negb (is_epte_present e) then
    if bool_decide (sa_p2mt e = p2m_populate_on_demand)
    then ret (GUEST_TABLE_POD_PAGE, table, gfn_remainder)
    else if read_only then ret (GUEST_TABLE_MAP_FAILED, table, gfn_remainder)
    else
      let! new := ept_set_middle_entry in
      match new with
      | None => ret (GUEST_TABLE_MAP_FAILED, table, gfn_remainder)
      | Some e => write_entry table index e ;; follow e
      end
  else follow e.

(** ** Memory types and pending re-calculations *)

(** ept_invalidate_emt(): whether an entry was changed. *)
Definition ept_invalidate_emt (mfn : Z) (rec : bool) (level : nat) : M est bool :=
  let! old := deref (fun s : est => pages s !! mfn) in
  let due (e : epte) :=
    is_epte_valid e && is_epte_present e &&
    negb ((emt e =? MTRR_NUM_TYPES) && (recalc e || negb rec)) in
  for_each (seq 0 EPT_PAGETABLE_ENTRIES) (fun i =>
    let! e := read_entry mfn i in
    when (due e)
      (let e := e <| emt := MTRR_NUM_TYPES |> in
       let e := if rec then e <| recalc := true |> else e in
       let! rc := atomic_write_ept_entry mfn i e level in
       bug_on (negb (rc =? 0)))) ;;
  ret (existsb due old).

(** One entry of the last level in resolve_misconfig(). *)
Definition resolve_entry (mfn gfn : Z) (i : nat) : M est unit :=
  let! e := read_entry mfn i in
  let e := if emt e =? MTRR_NUM_TYPES then e <| emt := 0 |> else e in
  if negb (is_epte_valid e) || negb (is_epte_present e) then ret tt
  else
    let '(m, ip) := env_emt env (gfn + Z.of_nat i) (emfn e) 0
                      (bool_decide (sa_p2mt e = p2m_mmio_direct)) in
    let e := e <| emt := m mod 8 |> <| ipat := ip |> in
    let e :=
      if recalc e && p2m_is_changeable (sa_p2mt e) then
        let ty := if env_logdirty env (gfn + Z.of_nat i) (gfn + Z.of_nat i) =? 0
                  then p2m_ram_rw else p2m_ram_logdirty in
        ept_p2m_type_to_flags (e <| sa_p2mt := ty |>) ty (access e)
      else e in
    let! rc := atomic_write_ept_entry mfn i (e <| recalc := false |>) 0 in
    bug_on (negb (rc =? 0)).

(** The walk of resolve_misconfig() from [level] on. *)
Fixpoint resolve_from (level : nat) (mfn gfn rc : Z) : M est Z :=
  let i := Z.to_nat (Z.land (Z.shiftr gfn (Z.of_nat level * EPT_TABLE_ORDER)) 511) in
  let! e := read_entry mfn i in
  match level with
  | O =>
      if negb (emt e =? MTRR_NUM_TYPES) then ret rc
      else
        for_each (seq 0 EPT_PAGETABLE_ENTRIES) (resolve_entry mfn (gfn - Z.of_nat i)) ;;
        ret 1
  | S l =>
      if is_epte_superpage e then
        if negb (emt e =? MTRR_NUM_TYPES) then ret rc
        else
          let '(m, ip) := env_emt env gfn (emfn e) (Z.of_nat level * EPT_TABLE_ORDER)
                            (bool_decide (sa_p2mt e = p2m_mmio_direct)) in
          let rcalc := recalc e in
          let '(m, e) :=
            if rcalc && p2m_is_changeable (sa_p2mt e) then
              let size := Z.shiftl 1 (Z.of_nat level * EPT_TABLE_ORDER) in
              let ld := env_logdirty env (gfn - gfn mod size) (gfn - gfn mod size + size - 1) in
              if ld =? 0 then (m, e <| sa_p2mt := p2m_ram_rw |> <| recalc := false |>)
              else if ld =? 1 then (m, e <| sa_p2mt := p2m_ram_logdirty |> <| recalc := false |>)
              else (-1, e)
            else (m, e) in
          if m <? 0 then
            let! r := ept_split_super_page level l e in
            if r.1 then
              let! wrc := atomic_write_ept_entry mfn i r.2 level in
              bug_on (negb (wrc =? 0)) ;;
              resolve_from l (emfn r.2) gfn rc
            else ept_free_entry level r.2 ;; ret (- ENOMEM)
          else
            let e := e <| emt := m mod 8 |> <| ipat := ip |> <| recalc := false |> in
            let e := if rcalc && p2m_is_changeable (sa_p2mt e)
                     then ept_p2m_type_to_flags e (sa_p2mt e) (access e) else e in
            let! wrc := atomic_write_ept_entry mfn i e level in
            bug_on (negb (wrc =? 0)) ;; ret 1
      else if emt e =? MTRR_NUM_TYPES then
        bug_on (negb (is_epte_present e)) ;;
        let! _ := ept_invalidate_emt (emfn e) (recalc e) level in
        let! wrc := atomic_write_ept_entry mfn i (e <| emt := 0 |> <| recalc := false |>) level in
        bug_on (negb (wrc =? 0)) ;;
        resolve_from l (emfn e) gfn 1
      else if is_epte_present e && (emt e =? 0) then resolve_from l (emfn e) gfn rc
      else ret rc
  end.

Definition resolve_misconfig (gfn : Z) : M est Z :=
  let! mfn := gets asr in
  if mfn =? 0 then ret 0
  else
    let! rc := resolve_from ept_get_wl mfn gfn 0 in
    when (negb (rc =? 0)) (modify (fun s : est => s <| spurious ::= fmap (fun _ => true) |>)) ;;
    ret rc.

(** ept_handle_misconfig() on vCPU [curr]. *)
Definition ept_handle_misconfig (curr : nat) (gpa : Z) : M est bool :=
  let! sps := deref (fun s : est => spurious s !! curr : option bool) in
  let! rc := resolve_misconfig (Z.shiftr gpa PAGE_SHIFT) in
  modify (fun s : est => s <| spurious ::= <[curr := false]> |>) ;;
  ept_sync_domain ;;
  ret (if sps then 0 <=? rc else 0 <? rc).

(** ** Updates *)

Inductive sync_state := sync_off | sync_on | sync_check.

(** The descent of ept_set_entry() from level [i] to [target]: the last
    result, the level, the frame of the table and the remainder. *)
Fixpoint set_descend (n : nat) (i : nat) (table rem ret0 : Z) : M est (Z * nat * Z * Z) :=
  match n with
  | O => ret (ret0, i, table, rem)
  | S n' =>
      let! (r, table, rem) := ept_next_level false table rem i in
      if negb (r =? GUEST_TABLE_NORMAL_PAGE) then ret (r, i, table, rem)
      else set_descend n' (pred i) table rem r
  end.

(** The descent into the tables a split has installed. *)
Fixpoint split_descend (n : nat) (i : nat) (table rem : Z) : M est (nat * Z * Z) :=
  match n with
  | O => ret (i, table, rem)
  | S n' =>
      let! (r, table, rem) := ept_next_level false table rem i in
      if r =? GUEST_TABLE_MAP_FAILED then ret (i, table, rem)
      else split_descend n' (pred i) table rem
  end.

(** The new entry of ept_set_entry(), without suppress_ve. *)
Definition make_entry (gfn mfn : Z) (i : nat) (ty : p2m_type) (a : p2m_access) : epte :=
  let direct_mmio := bool_decide (ty = p2m_mmio_direct) in
  if env_mfn_valid env mfn || direct_mmio || p2m_is_paged ty
     || bool_decide (ty = p2m_ram_paging_in) then
    let '(m, ip) := env_emt env gfn mfn (Z.of_nat i * EPT_TABLE_ORDER) direct_mmio in
    ept_p2m_type_to_flags
      (epte_zero <| emt := if 0 <=? m then m mod 8 else MTRR_NUM_TYPES |> <| ipat := ip |>
                 <| sp := negb (i =? 0)%nat |> <| sa_p2mt := ty |> <| access := a |>
                 <| snp := env_snoop env |> <| emfn := mfn40 mfn |>) ty a
  else epte_zero.

(** The calls that keep the IOMMU's tables up to date. *)
Definition update_iommu (gfn mfn order : Z) (ty : p2m_type) (present : bool) : M est unit :=
  let log o := modify (fun s : est => s <| iommu_log ::= cons o |>) in
  let flags := p2m_get_iommu_flags ty in
  if env_pt_share env then log (iommu_pte_flush gfn order present)
  else if negb (flags =? 0) then
    for_each (iota (Z.to_nat (Z.shiftl 1 order))) (fun i => log (iommu_map_page (gfn + i) (mfn + i) flags))
  else
    for_each (iota (Z.to_nat (Z.shiftl 1 order))) (fun i => log (iommu_unmap_page (gfn + i))).

(** The end of ept_set_entry() from the label out: [old] is the entry whose
    tables are to be freed. *)
Definition set_out (gfn mfn order : Z) (target : nat) (ty : p2m_type) (a : p2m_access)
    (rc : Z) (needs_sync : sync_state) (modify_vtd present : bool) (old : epte) : M est Z :=
  match needs_sync with sync_off => ret tt | _ => ept_sync_domain end ;;
  (if (rc =? 0) && env_host env && env_need_iommu env && modify_vtd
   then update_iommu gfn mfn order ty present else ret tt) ;;
  when (is_epte_present old) (ept_free_entry target old) ;;
  when ((rc =? 0) && env_host env)
    (modify (fun s : est => s <| propagated ::= cons (gfn, mfn, order, ty, a) |>)) ;;
  ret rc.

(** ept_set_entry() from the write of the new entry on; [idx] is the entry's
    position in [table]. *)
Definition set_write (gfn mfn order : Z) (target : nat) (ty : p2m_type) (a : p2m_access) (sve : Z)
    (table : Z) (idx : nat) (needs_sync : sync_state) (present : bool) (old : epte) : M est Z :=
  let! cur := read_entry table idx in
  let built := env_mfn_valid env mfn || bool_decide (ty = p2m_mmio_direct) || p2m_is_paged ty
               || bool_decide (ty = p2m_ram_paging_in) in
  let modify_vtd :=
    negb (built && (emfn cur =? mfn40 mfn)
          && (p2m_get_iommu_flags (sa_p2mt cur) =? p2m_get_iommu_flags ty)) in
  let new := make_entry gfn mfn target ty a in
  let new := new <| suppress_ve :=
    if negb (sve =? -1) then negb (sve =? 0)
    else if is_epte_valid old then suppress_ve old else true |> in
  let! rc := atomic_write_ept_entry table idx new target in
  let old := if negb (rc =? 0) then epte_zero else old in
  (if negb (rc =? 0) then ret tt
   else when (negb (bool_decide (ty = p2m_invalid)))
     (modify (fun s : est => s <| max_mapped_pfn ::= Z.max (gfn + Z.shiftl 1 order - 1) |>))) ;;
  set_out gfn mfn order target ty a rc needs_sync modify_vtd present old.

Definition ept_set_entry (gfn mfn order : Z) (ty : p2m_type) (a : p2m_access) (sve : Z) : M est Z :=
  let target := Z.to_nat (order / EPT_TABLE_ORDER) in
  if negb (Z.land (Z.lor gfn mfn) (Z.shiftl 1 order - 1) =? 0)
     || negb (Z.shiftr gfn ((Z.of_nat ept_get_wl + 1) * EPT_TABLE_ORDER) =? 0)
     || negb (order mod EPT_TABLE_ORDER =? 0) then ret (- EINVAL)
  else
    let! r := resolve_misconfig gfn in
    if r <? 0 then ept_sync_domain ;; ret r
    else
      let needs_sync := if 0 <? r then sync_on else sync_check in
      bug_on (negb (((target =? 2)%nat && env_1gb env) || ((target =? 1)%nat && env_2mb env)
                    || (target =? 0)%nat)) ;;
      bug_on (p2m_is_foreign ty && negb (target =? 0)%nat) ;;
      let! top := gets root in
      let! (r, i, table, rem) :=
        set_descend (ept_get_wl - target) ept_get_wl top gfn GUEST_TABLE_NORMAL_PAGE in
      if (r =? GUEST_TABLE_MAP_FAILED) then
        set_out gfn mfn order target ty a (- ENOENT) needs_sync true false epte_zero
      else
        bug_on ((r =? GUEST_TABLE_POD_PAGE) && (i =? target)%nat) ;;
        let idx := Z.to_nat (Z.shiftr rem (Z.of_nat i * EPT_TABLE_ORDER)) in
        let! e := read_entry table idx in
        let present := is_epte_present e in
        if (i =? target)%nat then
          let needs_sync :=
            match needs_sync with
            | sync_check => if negb present then sync_off else sync_check
            | x => x
            end in
          set_write gfn mfn order target ty a sve table idx needs_sync present e
        else
          bug_on (negb (is_epte_superpage e)) ;;
          let! s := ept_split_super_page i target e in
          if negb s.1 then
            ept_free_entry i s.2 ;;
            set_out gfn mfn order target ty a (- ENOMEM) needs_sync true present epte_zero
          else
            let! rc := atomic_write_ept_entry table idx s.2 i in
            bug_on (negb (rc =? 0)) ;;
            let! (i, table, rem) := split_descend (i - target) i table rem in
            bug_on (negb (i =? target)%nat) ;;
            let idx := Z.to_nat (Z.shiftr rem (Z.of_nat i * EPT_TABLE_ORDER)) in
            set_write gfn mfn order target ty a sve table idx needs_sync present epte_zero.

(** ** Lookups *)

(** p2m_pod_demand_populate(p2m, gfn, order, q) *)
Context (pod_demand_populate : Z -> Z -> Z -> M est Z).

Definition no_entry (ty : p2m_type) : p2m_ent * bool :=
  (mkEnt INVALID_MFN ty p2m_access_n 0, true).

(** The end of ept_get_entry(): the entry that was reached at level [i].  The
    page order is left as it is, here 0, when there is no valid entry. *)
Definition get_leaf (gfn q table rem : Z) (i : nat) (rcalc : bool) : M est (p2m_ent * bool) :=
  let idx := Z.to_nat (Z.shiftr rem (Z.of_nat i * EPT_TABLE_ORDER)) in
  let! e := read_entry table idx in
  let finish : M est (p2m_ent * bool) :=
    let! e := read_entry table idx in
    if is_epte_valid e then
      let ty :=
        if (rcalc || recalc e) && p2m_is_changeable (sa_p2mt e) then
          if env_logdirty env gfn gfn =? 0 then p2m_ram_rw else p2m_ram_logdirty
        else sa_p2mt e in
      let mfn :=
        if (i =? 0)%nat then emfn e
        else emfn e + Z.land rem (Z.shiftl 1 (Z.of_nat i * EPT_TABLE_ORDER) - 1) in
      ret (mkEnt mfn ty (access e) (Z.of_nat i * EPT_TABLE_ORDER), suppress_ve e)
    else ret (no_entry p2m_mmio_dm) in
  if bool_decide (sa_p2mt e = p2m_populate_on_demand) then
    if Z.land q P2M_ALLOC =? 0 then ret (no_entry p2m_populate_on_demand)
    else
      bug_on (negb (i =? 0)%nat) ;;
      let! r := pod_demand_populate gfn PAGE_ORDER_4K q in
      if negb (r =? 0) then ret (no_entry p2m_mmio_dm) else finish
  else finish.

(** The walk of ept_get_entry() at level [i]; [fuel] bounds the levels and
    the retries after a populate-on-demand. *)
Fixpoint get_descend (fuel : nat) (i : nat) (gfn q table rem : Z) (rcalc : bool)
  : M est (p2m_ent * bool) :=
  match fuel with
  | O => fun _ => None
  | S fuel' =>
      match i with
      | O => get_leaf gfn q table rem 0 rcalc
      | S i' =>
          let! e := read_entry table (Z.to_nat (Z.shiftr rem (Z.of_nat i * EPT_TABLE_ORDER))) in
          let rcalc := rcalc || recalc e in
          let! (r, table', rem') := ept_next_level true table rem i in
          if r =? GUEST_TABLE_MAP_FAILED then ret (no_entry p2m_mmio_dm)
          else if r =? GUEST_TABLE_POD_PAGE then
            if Z.land q P2M_ALLOC =? 0 then ret (no_entry p2m_populate_on_demand)
            else
              bug_on (2 <? Z.of_nat i) ;;
              let! pr := pod_demand_populate gfn (Z.of_nat i * EPT_TABLE_ORDER) q in
              if pr =? 0 then get_descend fuel' i gfn q table rem rcalc
              else ret (no_entry p2m_mmio_dm)
          else if r =? GUEST_TABLE_SUPER_PAGE then get_leaf gfn q table rem i rcalc
          else get_descend fuel' i' gfn q table' rem' rcalc
      end
  end.

(** ept_get_entry(): the entry and its suppress_ve; [retries] bounds the
    populate-on-demand retries. *)
Definition ept_get_entry (retries : nat) (gfn q : Z) : M est (p2m_ent * bool) :=
  let! s := gets (fun s : est => s) in
  if max_mapped_pfn s <? gfn then ret (no_entry p2m_mmio_dm)
  else get_descend (S ept_get_wl + retries) ept_get_wl gfn q (root s) gfn false.

(** ** Changes of type over ranges *)

Definition ept_change_entry_type_global : M est unit :=
  let! mfn := gets asr in
  if mfn =? 0 then ret tt
  else let! c := ept_invalidate_emt mfn true ept_get_wl in when c ept_sync_domain.

Definition ept_memory_type_changed : M est unit :=
  let! mfn := gets asr in
  if mfn =? 0 then ret tt
  else let! c := ept_invalidate_emt mfn false ept_get_wl in when c ept_sync_domain.

(** The descent of ept_invalidate_emt_range(). *)
Fixpoint range_descend (n : nat) (i : nat) (table rem r0 : Z) : M est (Z * nat * Z * Z) :=
  match n with
  | O => ret (r0, i, table, rem)
  | S n' =>
      let! (r, table, rem) := ept_next_level true table rem i in
      if negb (r =? GUEST_TABLE_NORMAL_PAGE) then ret (r, i, table, rem)
      else range_descend n' (pred i) table rem r
  end.

(** Its descent after a split stops only when the next table cannot be mapped. *)
Fixpoint range_split_descend (n : nat) (i : nat) (table rem : Z) : M est (nat * Z * Z) :=
  match n with
  | O => ret (i, table, rem)
  | S n' =>
      let! (r, table, rem) := ept_next_level true table rem i in
      if r =? GUEST_TABLE_MAP_FAILED then ret (i, table, rem)
      else range_split_descend n' (pred i) table rem
  end.

(** The loop over the entries [index .. last] of one table. *)
Definition invalidate_entries (table : Z) (index last : nat) (target : nat) : M est Z :=
  let! old := deref (fun s : est => pages s !! table) in
  let due (e : epte) :=
    is_epte_valid e && is_epte_present e && (negb (emt e =? MTRR_NUM_TYPES) || negb (recalc e)) in
  for_each (seq index (S last - index)) (fun i =>
    let! e := read_entry table i in
    when (due e)
      (let! rc := atomic_write_ept_entry table i
                    (e <| emt := MTRR_NUM_TYPES |> <| recalc := true |>) target in
       bug_on (negb (rc =? 0)))) ;;
  ret (if existsb due (take (S last - index) (drop index old)) then 1 else 0).

Definition ept_invalidate_emt_range (target : nat) (first_gfn last_gfn : Z) : M est Z :=
  let last := Z.to_nat (Z.land (Z.shiftr last_gfn (Z.of_nat target * EPT_TABLE_ORDER)) 511) in
  let! top := gets root in
  let! (r, i, table, rem) :=
    range_descend (ept_get_wl - target) ept_get_wl top first_gfn GUEST_TABLE_NORMAL_PAGE in
  if r =? GUEST_TABLE_MAP_FAILED then ret 0
  else if (target <? i)%nat then
    let idx := Z.to_nat (Z.shiftr rem (Z.of_nat i * EPT_TABLE_ORDER)) in
    let! e := read_entry table idx in
    bug_on (negb (is_epte_superpage e)) ;;
    let! s := ept_split_super_page i target e in
    if negb s.1 then ept_free_entry i s.2 ;; ret (- ENOMEM)
    else
      let! wrc := atomic_write_ept_entry table idx s.2 i in
      bug_on (negb (wrc =? 0)) ;;
      let! (i, table, rem) := range_split_descend (i - target) i table rem in
      bug_on (negb (i =? target)%nat) ;;
      invalidate_entries table (Z.to_nat (Z.shiftr rem (Z.of_nat i * EPT_TABLE_ORDER))) last target
  else
    invalidate_entries table (Z.to_nat (Z.shiftr rem (Z.of_nat i * EPT_TABLE_ORDER))) last target.

(** The loop of ept_change_entry_type_range(): the last result and whether a
    flush is due.  Each level takes at most three iterations. *)
Fixpoint change_range_loop (fuel : nat) (i : nat) (mask first last rc sync : Z) : M est (Z * Z) :=
  match fuel with
  | O => fun _ => None
  | S fuel' =>
      if (ept_get_wl <? i)%nat then ret (rc, sync)
      else if negb (Z.land first mask =? 0) then
        let end_gfn := Z.min (Z.lor first mask) last in
        let! rc := ept_invalidate_emt_range i first end_gfn in
        let sync := Z.lor sync rc in
        if (rc <? 0) || (last <=? end_gfn) then ret (rc, sync)
        else change_range_loop fuel' i mask (end_gfn + 1) last rc sync
      else if negb (Z.land last mask =? mask) then
        let start_gfn := Z.max first (Z.ldiff last mask) in
        let! rc := ept_invalidate_emt_range i start_gfn last in
        let sync := Z.lor sync rc in
        if (rc <? 0) || (start_gfn <=? first) then ret (rc, sync)
        else change_range_loop fuel' i mask first (start_gfn - 1) rc sync
      else change_range_loop fuel' (S i) (Z.lor mask (Z.shiftl mask EPT_TABLE_ORDER)) first last rc sync
  end.

Definition ept_change_entry_type_range (first_gfn last_gfn : Z) : M est Z :=
  let! mfn := gets asr in
  if mfn =? 0 then ret (- EINVAL)
  else
    let! (rc, sync) :=
      change_range_loop (3 * S ept_get_wl + 1) 0 (Z.shiftl 1 EPT_TABLE_ORDER - 1)
        first_gfn last_gfn 0 0 in
    when (negb (sync =? 0)) ept_sync_domain ;;
    ret (if rc <? 0 then rc else 0).
End Ept.
