(* ===== verification/EptRep.v ===== *)
(** * The shape of an EPT table in memory

    [rep m l p fp]: in the frames [m], frame [p] is a table of level [l] whose
    sub-tables are laid out without sharing, [fp] being the set of all its
    frames, and whose entries are [good].  [walk] is where the translation of
    a guest frame ends and [ent_view] what a lookup reports of that entry.
    [update_at] is the one lemma behind every change of a table: replacing an
    entry somewhere down the tree keeps the shape, and changes the walks that
    pass through that entry only. *)

From S2P Require Import Prelude Monad P2m HapPool Ept.

#[local] Arguments union : simpl never.
#[local] Arguments difference : simpl never.

(** Position of guest frame [g] in a table of level [l]. *)
Definition idx (g : Z) (l : nat) : nat := Z.to_nat ((g / 2 ^ (9 * Z.of_nat l)) mod 512).

Lemma idx_lt g l : (idx g l < 512)%nat.
Proof. unfold idx. pose proof (Z.mod_pos_bound (g / 2 ^ (9 * Z.of_nat l)) 512 ltac:(lia)). lia. Qed.

(** An entry of an upper level that points to a table. *)
Definition tbl (e : epte) : bool := is_epte_present e && negb (sp e).

(** Permissions of a type and of an access right to read and to execute. *)
Definition type_r (ty : p2m_type) : bool :=
  match ty with
  | p2m_ram_rw | p2m_mmio_direct | p2m_ram_logdirty | p2m_ram_ro | p2m_ram_shared
  | p2m_grant_map_rw | p2m_map_foreign | p2m_grant_map_ro | p2m_mmio_write_dm => true
  | _ => false
  end.
Definition type_x (ty : p2m_type) : bool :=
  match ty with
  | p2m_ram_rw | p2m_mmio_direct | p2m_ram_logdirty | p2m_ram_ro | p2m_ram_shared => true
  | _ => false
  end.
Definition acc_r (a : p2m_access) : bool :=
  match a with p2m_access_r | p2m_access_rx | p2m_access_rx2rw | p2m_access_rw | p2m_access_rwx => true
  | _ => false end.
Definition acc_x (a : p2m_access) : bool :=
  match a with p2m_access_x | p2m_access_rx | p2m_access_rx2rw | p2m_access_wx | p2m_access_rwx => true
  | _ => false end.
Definition rx_of (ty : p2m_type) (a : p2m_access) : bool :=
  (type_r ty && acc_r a) || (type_x ty && acc_x a).

Definition is_pod (ty : p2m_type) : bool := bool_decide (ty = p2m_populate_on_demand).

(** Superpage entries: aligned, of level 1 or 2, not foreign, and present as
    far as their type and access say, or populate-on-demand. *)
Record good_super (l : nat) (e : epte) : Prop := {
  gs_level : (l <= 2)%nat;
  gs_align : emfn e mod 2 ^ (9 * Z.of_nat l) = 0;
  gs_foreign : p2m_is_foreign (sa_p2mt e) = false;
  gs_present : is_epte_present e = rx_of (sa_p2mt e) (access e);
  gs_perm : sa_p2mt e = p2m_populate_on_demand \/ rx_of (sa_p2mt e) (access e) = true
}.

(** Entries of a table on which no change of type is pending. *)
Record good (l : nat) (e : epte) : Prop := {
  g_recalc : recalc e = false;
  g_mfn : 0 <= emfn e < 2 ^ 40;
  g_super : (0 < l)%nat -> sp e = true -> good_super l e;
  g_pod : (0 < l)%nat -> sa_p2mt e = p2m_populate_on_demand -> sp e = true;
  g_emt : (0 < l)%nat -> sp e = false -> is_epte_present e = false -> emt e <> MTRR_NUM_TYPES;
  g_last : l = 0%nat -> sp e = false
}.


Fixpoint rep (m : gmap Z (list epte)) (l : nat) (p : Z) (fp : gset Z) {struct l} : Prop :=
  exists (es : list epte) (fs : nat -> gset Z),
    m !! p = Some es /\ length es = 512%nat /\ Forall (good l) es /\
    (forall x, x ∈ fp <-> x = p \/ exists i, (i < 512)%nat /\ x ∈ fs i) /\
    (forall i, (i < 512)%nat -> p ∉ fs i) /\
    (forall i j, (i < 512)%nat -> (j < 512)%nat -> i <> j -> fs i ## fs j) /\
    (forall i e, es !! i = Some e ->
       match l with
       | O => fs i = ∅
       | S l' => if tbl e then rep m l' (emfn e) (fs i) else fs i = ∅
       end).

(** The frames behind one entry of level [l]. *)
Definition sub_rep (m : gmap Z (list epte)) (l : nat) (e : epte) (f : gset Z) : Prop :=
  match l with
  | O => f = ∅
  | S l' => if tbl e then rep m l' (emfn e) f else f = ∅
  end.

Lemma rep_unfold m l p fp :
  rep m l p fp <->
  exists (es : list epte) (fs : nat -> gset Z),
    m !! p = Some es /\ length es = 512%nat /\ Forall (good l) es /\
    (forall x, x ∈ fp <-> x = p \/ exists i, (i < 512)%nat /\ x ∈ fs i) /\
    (forall i, (i < 512)%nat -> p ∉ fs i) /\
    (forall i j, (i < 512)%nat -> (j < 512)%nat -> i <> j -> fs i ## fs j) /\
    (forall i e, es !! i = Some e -> sub_rep m l e (fs i)).
Proof. by destruct l. Qed.

(** ** Walks *)

Fixpoint walk (m : gmap Z (list epte)) (l : nat) (p g : Z) : option (nat * epte) :=
  es ← m !! p;
  e ← es !! idx g l;
  match l with
  | O => Some (O, e)
  | S l' => if tbl e then walk m l' (emfn e) g else Some (l, e)
  end.

(** The walk from an entry on. *)
Definition ewalk (m : gmap Z (list epte)) (l : nat) (e : epte) (g : Z) : option (nat * epte) :=
  match l with
  | O => Some (O, e)
  | S l' => if tbl e then walk m l' (emfn e) g else Some (l, e)
  end.

Lemma walk_unfold m l p g :
  walk m l p g = es ← m !! p; e ← es !! idx g l; ewalk m l e g.
Proof. by destruct l. Qed.

Lemma walk_entry m l p g es e :
  m !! p = Some es -> es !! idx g l = Some e -> walk m l p g = ewalk m l e g.
Proof. intros E1 E2. rewrite walk_unfold, E1. simpl. by rewrite E2. Qed.

(** The table of level [l'] on the path of [g]. *)
Fixpoint reach (m : gmap Z (list epte)) (l : nat) (p g : Z) (l' : nat) : option Z :=
  if (l =? l')%nat then Some p
  else
    match l with
    | O => None
    | S l1 =>
        es ← m !! p; e ← es !! idx g l;
        if tbl e then reach m l1 (emfn e) g l' else None
    end.

Lemma reach_refl m l p g : reach m l p g l = Some p.
Proof. destruct l; simpl; [done|]. by rewrite Nat.eqb_refl. Qed.

Lemma reach_down m l p g l' es e :
  (l' < l)%nat -> m !! p = Some es -> es !! idx g l = Some e -> tbl e = true ->
  reach m l p g l' = reach m (pred l) (emfn e) g l'.
Proof.
  intros Hl E1 E2 Ht. destruct l as [|l]; [lia|].
  change (reach m (S l) p g l') with (if (S l =? l')%nat then Some p else
    es ← m !! p; e ← es !! idx g (S l); if tbl e then reach m l (emfn e) g l' else None).
  rewrite (proj2 (Nat.eqb_neq (S l) l')) by lia. rewrite E1. simpl. rewrite E2. simpl. by rewrite Ht.
Qed.

Lemma reach_step_inv m l p g l' q :
  (l' < l)%nat -> reach m l p g l' = Some q ->
  exists es e, m !! p = Some es /\ es !! idx g l = Some e /\ tbl e = true /\
    reach m (pred l) (emfn e) g l' = Some q.
Proof.
  intros Hl. destruct l as [|l]; [lia|].
  change (reach m (S l) p g l') with (if (S l =? l')%nat then Some p else
    es ← m !! p; e ← es !! idx g (S l); if tbl e then reach m l (emfn e) g l' else None).
  rewrite (proj2 (Nat.eqb_neq (S l) l')) by lia. intros E.
  destruct (m !! p) as [es|] eqn:E1; [|done]. simpl in E.
  destruct (es !! idx g (S l)) as [e|] eqn:E2; [|done]. simpl in E.
  destruct (tbl e) eqn:Et; [|done]. by exists es, e.
Qed.

(** One level further down. *)
Lemma reach_extend m g : forall l p l1 q es e,
  reach m l p g (S l1) = Some q -> (S l1 <= l)%nat ->
  m !! q = Some es -> es !! idx g (S l1) = Some e -> tbl e = true ->
  reach m l p g l1 = Some (emfn e).
Proof.
  induction l as [|l IH]; intros p l1 q es e Hr Hl E1 E2 Ht; [lia|].
  destruct (decide (S l = S l1)) as [Heq|Hne].
  - injection Heq as ->. rewrite reach_refl in Hr. injection Hr as ->.
    rewrite (reach_down _ _ _ _ _ es e) by (done || lia). apply reach_refl.
  - apply reach_step_inv in Hr as (es0 & e0 & F1 & F2 & Ft & Hr); [|lia].
    rewrite (reach_down _ _ _ _ _ es0 e0) by (done || lia). simpl pred in *.
    eapply IH; [exact Hr|lia|done|done|done].
Qed.

(** ** Frame properties *)

Lemma sub_rep_frame_of (l : nat) m m' :
  (forall p fp, (forall q, q ∈ fp -> m' !! q = m !! q) -> rep m (pred l) p fp -> rep m' (pred l) p fp) ->
  forall e f, (forall q, q ∈ f -> m' !! q = m !! q) -> sub_rep m l e f -> sub_rep m' l e f.
Proof.
  intros Hrep e f Hf. destruct l; simpl; [done|]. destruct (tbl e); [|done]. by apply Hrep.
Qed.

Lemma rep_frame m m' : forall l p fp,
  (forall q, q ∈ fp -> m' !! q = m !! q) -> rep m l p fp -> rep m' l p fp.
Proof.
  induction l as [|l IH]; intros p fp Hf; rewrite !rep_unfold;
    intros (es & fs & E & Hlen & Hg & Hfp & Hp & Hd & Hs); exists es, fs;
    (split; [rewrite Hf; [done|apply Hfp; by left]|]); do 5 (split; [done|]);
    intros i e Hi; specialize (Hs i e Hi).
  - done.
  - apply (sub_rep_frame_of (S l) m); [exact IH| |exact Hs].
    intros q Hq. apply Hf, Hfp. right. exists i. split; [|done]. apply lookup_lt_Some in Hi. lia.
Qed.

Lemma sub_rep_frame m m' l e f :
  (forall q, q ∈ f -> m' !! q = m !! q) -> sub_rep m l e f -> sub_rep m' l e f.
Proof. apply sub_rep_frame_of. intros. by apply (rep_frame m). Qed.

Lemma walk_frame m m' : forall l p fp g,
  (forall q, q ∈ fp -> m' !! q = m !! q) -> rep m l p fp -> walk m' l p g = walk m l p g.
Proof.
  induction l as [|l IH]; intros p fp g Hf Hr; pose proof Hr as Hr0; rewrite rep_unfold in Hr;
    destruct Hr as (es & fs & E & Hlen & Hg & Hfp & Hp & Hd & Hs);
    rewrite !walk_unfold, Hf by (apply Hfp; by left); [done|].
  rewrite E. simpl. destruct (es !! idx g (S l)) as [e|] eqn:Ee; [|done]. simpl.
  specialize (Hs _ e Ee). simpl in Hs. destruct (tbl e); [|done]. eapply IH; [|exact Hs].
  intros q Hq. apply Hf, Hfp. right. exists (idx g (S l)). split; [apply idx_lt|done].
Qed.

Lemma ewalk_frame m m' l e f g :
  (forall q, q ∈ f -> m' !! q = m !! q) -> sub_rep m l e f -> ewalk m' l e g = ewalk m l e g.
Proof.
  intros Hf Hs. destruct l as [|l]; [done|]. simpl in *. destruct (tbl e); [|done].
  by eapply walk_frame.
Qed.

Lemma reach_frame m m' g l' : forall l p fp,
  (forall q, q ∈ fp -> m' !! q = m !! q) -> rep m l p fp -> reach m' l p g l' = reach m l p g l'.
Proof.
  induction l as [|l IH]; intros p fp Hf Hr; [done|].
  destruct (decide (S l = l')) as [<-|Hne]; [by rewrite !reach_refl|].
  rewrite rep_unfold in Hr. destruct Hr as (es & fs & E & Hlen & Hg & Hfp & Hp & Hd & Hs).
  simpl. destruct l' as [|l'']; [|destruct (Nat.eqb_spec l l''); [lia|]];
  (rewrite Hf by (apply Hfp; by left); rewrite E; simpl;
   destruct (es !! idx g (S l)) as [e|] eqn:Ee; [|done]; simpl;
   specialize (Hs _ e Ee); simpl in Hs; destruct (tbl e); [|done]; eapply IH; [|exact Hs];
   intros q Hq; apply Hf, Hfp; right; exists (idx g (S l)); split; [apply idx_lt|done]).
Qed.

Lemma rep_root_in m l p fp : rep m l p fp -> p ∈ fp.
Proof. rewrite rep_unfold. intros (es & fs & _ & _ & _ & Hfp & _). apply Hfp. by left. Qed.

(** ** Replacing an entry *)

(** Frame condition for a change of entry [i] of frame [p]: outside the
    frames [sub] behind the old entry only [p] changes, and there only [i]. *)
Definition changes_entry (m m' : gmap Z (list epte)) (fp sub : gset Z) (p : Z) (i : nat)
    (es : list epte) (e' : epte) : Prop :=
  (forall q, q ∈ fp -> q ∉ sub -> q <> p -> m' !! q = m !! q) /\ m' !! p = Some (<[i := e']> es).

(** At the frame itself. *)
Lemma rep_focus m l p fp i :
  rep m l p fp -> (i < 512)%nat ->
  exists es e sub, m !! p = Some es /\ es !! i = Some e /\ length es = 512%nat /\ good l e /\
    sub ⊆ fp /\ (p ∉ sub) /\ sub_rep m l e sub /\
    (forall m' e' f', changes_entry m m' fp sub p i es e' -> good l e' -> sub_rep m' l e' f' ->
       f' ## (fp ∖ sub) -> rep m' l p ((fp ∖ sub) ∪ f')) /\
    (forall (m' : gmap Z (list epte)) j x h, (forall q, q ∈ fp -> q ∉ sub -> q <> p -> m' !! q = m !! q) ->
       j <> i -> es !! j = Some x -> ewalk m' l x h = ewalk m l x h).
Proof.
  rewrite rep_unfold. intros (es & fs & E & Hlen & Hg & Hfp & Hp & Hd & Hs) Hi.
  destruct (lookup_lt_is_Some_2 es i) as [e He]; [lia|].
  assert (Hout : forall x j, (j < 512)%nat -> j <> i -> x ∈ fs j -> x ∉ fs i).
  { intros x j Hj Hne Hx Hxi. by apply (Hd j i Hj Hi Hne x). }
  assert (Hoth : forall (m' : gmap Z (list epte)) j x, (forall q, q ∈ fp -> q ∉ fs i -> q <> p -> m' !! q = m !! q) ->
    j <> i -> es !! j = Some x -> forall q, q ∈ fs j -> m' !! q = m !! q).
  { intros m' j x Hm Hne Hx q Hq. apply lookup_lt_Some in Hx as Hj. apply Hm.
    - apply Hfp. right. exists j. split; [lia|done].
    - apply (Hout q j); [lia|done|done].
    - intros ->. apply (Hp j); [lia|done]. }
  exists es, e, (fs i). split_and!; [done|done|done| | |by apply Hp|by apply Hs| |].
  { eapply Forall_lookup_1; done. }
  { intros x Hx. apply Hfp. right. by exists i. }
  2: { intros m' j x h Hm Hne Hx. apply (ewalk_frame m m' l x (fs j)); [|by apply Hs].
       by apply (Hoth m' j x). }
  intros m' e' f' [Hm Hpm] Hg' Hs' Hdis. rewrite rep_unfold.
  exists (<[i := e']> es), (fun j => if decide (j = i) then f' else fs j).
  split_and!; [done|by rewrite length_insert|by apply Forall_insert| | | |].
  - intros x. rewrite elem_of_union, elem_of_difference, Hfp. split.
    + intros [[[->|(j & Hj & Hx)] Hn]|Hx]; [by left| |].
      * right. exists j. split; [done|]. destruct (decide (j = i)) as [->|]; done.
      * right. exists i. split; [done|]. by rewrite decide_True.
    + intros [->|(j & Hj & Hx)]; [left; split; [by left|by apply Hp]|].
      destruct (decide (j = i)) as [->|Hne]; [by right|]. left. split; [right; by exists j|].
      by apply (Hout x j).
  - intros j Hj. destruct (decide (j = i)) as [->|]; [|by apply Hp]. intros Hx.
    apply (Hdis p Hx). apply elem_of_difference. split; [apply Hfp; by left|by apply Hp].
  - assert (Hf' : forall j, (j < 512)%nat -> j <> i -> f' ## fs j).
    { intros j Hj Hne x Hx Hxj. apply (Hdis x Hx). apply elem_of_difference.
      split; [apply Hfp; right; by exists j|by apply (Hout x j)]. }
    intros j k Hj Hk Hne.
    destruct (decide (j = i)) as [->|], (decide (k = i)) as [->|]; [done|by apply Hf'| |by apply Hd].
    apply disjoint_sym. by apply Hf'.
  - intros j x Hx. destruct (decide (j = i)) as [->|Hne].
    + rewrite list_lookup_insert_eq in Hx by lia. by injection Hx as <-.
    + rewrite list_lookup_insert_ne in Hx by done. apply (sub_rep_frame m); [|by apply Hs].
      by apply (Hoth m' j x).
Qed.

(** [h] takes the same way as [g] from level [L] down to the table of level [l]. *)
Definition same_path (g h : Z) (l L : nat) : Prop :=
  forall k, (l < k <= L)%nat -> idx h k = idx g k.

Lemma same_path_Forall g h l L :
  same_path g h l L <-> Forall (fun k => idx h k = idx g k) (seq (S l) (L - l)).
Proof.
  rewrite Forall_forall. split.
  - intros Hs k Hk. apply list_elem_of_In, in_seq in Hk. apply Hs. lia.
  - intros Hf k Hk. apply Hf, list_elem_of_In, in_seq. lia.
Qed.
#[export] Instance same_path_dec g h l L : Decision (same_path g h l L).
Proof.
  destruct (decide (Forall (fun k => idx h k = idx g k) (seq (S l) (L - l)))) as [H|H];
    rewrite <- same_path_Forall in H; [by left|by right].
Defined.

Lemma same_path_refl g l L : same_path g g l L.
Proof. done. Qed.

Record updated (m m' : gmap Z (list epte)) (L l : nat) (P p g : Z) (i : nat) (e' : epte)
    (fp' : gset Z) : Prop := {
  up_rep : rep m' L P fp';
  up_reach : forall h, same_path g h l L -> reach m' L P h l = Some p;
  up_in : forall h, same_path g h l L -> idx h l = i -> walk m' L P h = ewalk m' l e' h;
  up_out : forall h, ~ (same_path g h l L /\ idx h l = i) -> walk m' L P h = walk m L P h
}.

Lemma reach_le m g l' q : forall l p, reach m l p g l' = Some q -> (l' <= l)%nat.
Proof.
  induction l as [|l IH]; intros p Hr.
  - destruct l'; [lia|done].
  - destruct (decide (S l = l')) as [->|Hne]; [lia|]. simpl in Hr.
    destruct l' as [|l'']; [lia|]. rewrite (proj2 (Nat.eqb_neq l l'')) in Hr by lia.
    destruct (m !! p) as [es|]; [|done]. simpl in Hr.
    destruct (es !! _) as [e|]; [|done]. simpl in Hr. destruct (tbl e); [|done].
    apply IH in Hr. lia.
Qed.

(** The frame that changes is the top of the tree. *)
Lemma update_here m g l p i P fp :
  (i < 512)%nat -> rep m l P fp -> reach m l P g l = Some p ->
  exists es e sub, m !! p = Some es /\ es !! i = Some e /\ length es = 512%nat /\ good l e /\
    p ∈ fp /\ sub ⊆ fp /\ (p ∉ sub) /\ sub_rep m l e sub /\
    forall m' e' f', changes_entry m m' fp sub p i es e' -> good l e' -> sub_rep m' l e' f' ->
      f' ## (fp ∖ sub) -> updated m m' l l P p g i e' ((fp ∖ sub) ∪ f').
Proof.
  intros Hi Hrep Hr. rewrite reach_refl in Hr. injection Hr as ->.
  destruct (rep_focus m l p fp i Hrep Hi)
    as (es & e & sub & E & Ee & Hlen & Hg & Hsub & Hp & Hs & Hup & Hoth).
  exists es, e, sub. split_and!; try done; [by eapply rep_root_in|].
  intros m' e' f' Hch Hg' Hs' Hd. pose proof Hch as [Hm Em].
  assert (Hdiff : forall h, ~ (same_path g h l l /\ idx h l = i) -> idx h l <> i).
  { intros h Hn Heq. apply Hn. split; [intros k Hk; lia|done]. }
  split.
  - by apply (Hup m' e').
  - intros h _. apply reach_refl.
  - intros h _ <-. apply (walk_entry _ _ _ _ _ e' Em).
    rewrite list_lookup_insert_eq; [done|]. rewrite Hlen. apply idx_lt.
  - intros h Hn. apply Hdiff in Hn. rewrite !walk_unfold, Em, E. cbn [mbind option_bind].
    rewrite list_lookup_insert_ne by done.
    destruct (es !! idx h l) as [x|] eqn:Ex; [|done]. cbn [mbind option_bind].
    by apply (Hoth m' (idx h l)).
Qed.

Lemma sub_swap (fp f0 sub f' : gset Z) :
  sub ⊆ f0 -> f0 ⊆ fp -> (fp ∖ sub) ∪ f' = (fp ∖ f0) ∪ ((f0 ∖ sub) ∪ f').
Proof.
  intros H1 H2. apply set_eq. intros x. specialize (H1 x). specialize (H2 x).
  rewrite !elem_of_union, !elem_of_difference. destruct (decide (x ∈ f0)); tauto.
Qed.

Lemma update_at m g l p i : (i < 512)%nat -> forall L P fp,
  rep m L P fp -> reach m L P g l = Some p ->
  exists es e sub, m !! p = Some es /\ es !! i = Some e /\ length es = 512%nat /\ good l e /\
    p ∈ fp /\ sub ⊆ fp /\ (p ∉ sub) /\ sub_rep m l e sub /\
    forall m' e' f', changes_entry m m' fp sub p i es e' -> good l e' -> sub_rep m' l e' f' ->
      f' ## (fp ∖ sub) -> updated m m' L l P p g i e' ((fp ∖ sub) ∪ f').
Proof.
  intros Hi. induction L as [|L IH]; intros P fp Hrep Hr; pose proof (reach_le _ _ _ _ _ _ Hr) as Hl.
  - assert (l = 0%nat) as -> by lia. by apply update_here.
  - destruct (decide (l = S L)) as [->|Hne]; [by apply update_here|].
    apply reach_step_inv in Hr as (es0 & e0 & E0 & Ee0 & Ht & Hr); [|lia]. simpl pred in Hr.
    destruct (rep_focus m (S L) P fp (idx g (S L)) Hrep (idx_lt _ _))
      as (es1 & e1 & f0 & E1 & Ee1 & Hlen & Hg1 & Hf0 & HP & Hs & Hup & Hoth).
    rewrite E0 in E1. injection E1 as <-. rewrite Ee0 in Ee1. injection Ee1 as <-.
    simpl in Hs. rewrite Ht in Hs.
    destruct (IH (emfn e0) f0 Hs Hr)
      as (es & e & sub & E & Ee & Hlen' & Hg & Hpf & Hsub & Hp & Hsr & Hc).
    exists es, e, sub. split_and!; try done; [by apply Hf0|by transitivity f0|].
    intros m' e' f' [Hm Em] Hg' Hs' Hd.
    assert (HpP : p <> P) by (intros ->; done).
    assert (HsubP : P ∉ sub) by (intros HPs; by apply HP, Hsub).
    assert (EP : m' !! P = Some es0).
    { rewrite Hm; [done|by eapply rep_root_in|done|done]. }
    assert (Hd0 : f' ## (f0 ∖ sub)).
    { intros x Hx Hx0. apply (Hd x Hx). apply elem_of_difference in Hx0 as [Hx0 Hn].
      apply elem_of_difference. split; [by apply Hf0|done]. }
    destruct (Hc m' e' f') as [U1 U2 U3 U4]; [split; [|done]|done|done|done|].
    { intros q Hq. apply Hm. by apply Hf0. }
    rewrite (sub_swap fp f0 sub f' Hsub Hf0). split.
    + apply (Hup m' e0); [split|done| |].
      * intros q Hq Hqf Hqp. apply Hm; [done| |by intros ->]. intros Hqs. by apply Hqf, Hsub.
      * rewrite EP. f_equal. symmetry. by apply list_insert_id.
      * simpl. rewrite Ht. exact U1.
      * intros x [Hx|Hx]%elem_of_union; rewrite elem_of_difference.
        -- intros [_ Hn]. apply Hn. by apply elem_of_difference in Hx as [? _].
        -- intros [Hx1 Hx2]. apply (Hd x Hx). apply elem_of_difference. split; [done|].
           intros Hxs. by apply Hx2, Hsub.
    + intros h Hh. assert (Eh : es0 !! idx h (S L) = Some e0) by (rewrite (Hh (S L)) by lia; done).
      rewrite (reach_down _ _ _ _ _ es0 e0) by (done || lia). simpl pred. apply U2.
      intros k Hk. apply Hh. lia.
    + intros h Hh Hhi. assert (Eh : es0 !! idx h (S L) = Some e0) by (rewrite (Hh (S L)) by lia; done).
      rewrite (walk_entry _ _ _ _ _ _ EP Eh). simpl. rewrite Ht. apply U3; [|done].
      intros k Hk. apply Hh. lia.
    + intros h Hn. destruct (decide (idx h (S L) = idx g (S L))) as [Hsame|Hdiff].
      * assert (Eh : es0 !! idx h (S L) = Some e0) by (by rewrite Hsame).
        rewrite (walk_entry _ _ _ _ _ _ EP Eh), (walk_entry _ _ _ _ _ _ E0 Eh). simpl. rewrite Ht.
        apply U4. intros [Hp1 Hp2]. apply Hn. split; [|done]. intros k Hk.
        destruct (decide (k = S L)) as [->|]; [done|]. apply Hp1. lia.
      * rewrite !walk_unfold, EP, E0. cbn [mbind option_bind].
        destruct (es0 !! idx h (S L)) as [x|] eqn:Ex; [|done]. cbn [mbind option_bind].
        apply (Hoth m' (idx h (S L))); [|done|done].
        intros q Hq Hqf Hqp. apply Hm; [done| |by intros ->]. intros Hqs. by apply Hqf, Hsub.
Qed.

Lemma reach_in m g l q : forall L P fp, rep m L P fp -> reach m L P g l = Some q -> q ∈ fp.
Proof.
  induction L as [|L IH]; intros P fp Hrep Hr; pose proof (reach_le _ _ _ _ _ _ Hr) as Hl.
  - assert (l = 0%nat) as -> by lia. injection Hr as <-. by eapply rep_root_in.
  - destruct (decide (l = S L)) as [->|Hne].
    + rewrite reach_refl in Hr. injection Hr as <-. by eapply rep_root_in.
    + apply reach_step_inv in Hr as (es0 & e0 & E0 & Ee0 & Ht & Hr); [|lia].
      destruct (rep_focus m (S L) P fp (idx g (S L)) Hrep (idx_lt _ _))
        as (es1 & e1 & f0 & E1 & Ee1 & _ & _ & Hf0 & _ & Hs & _).
      rewrite E0 in E1. injection E1 as <-. rewrite Ee0 in Ee1. injection Ee1 as <-.
      simpl in Hs. rewrite Ht in Hs. apply Hf0. by eapply IH.
Qed.

(** A change of the table of level [l] on the path leaves the path above. *)
Lemma reach_above m m' g l q l' : forall L P fp p',
  rep m L P fp -> reach m L P g l = Some q -> (l < l')%nat -> reach m L P g l' = Some p' ->
  (forall x, x <> q -> m' !! x = m !! x) -> reach m' L P g l' = Some p'.
Proof.
  induction L as [|L IH]; intros P fp p' Hrep Hr Hll Hr' Hm; pose proof (reach_le _ _ _ _ _ _ Hr') as Hl.
  - lia.
  - destruct (decide (l' = S L)) as [->|Hne].
    + rewrite reach_refl in Hr' |- *. done.
    + apply reach_step_inv in Hr as (es0 & e0 & E0 & Ee0 & Ht & Hr); [|lia].
      rewrite (reach_down m _ _ _ _ es0 e0) in Hr' by (done || lia). simpl pred in Hr, Hr'.
      destruct (rep_focus m (S L) P fp (idx g (S L)) Hrep (idx_lt _ _))
        as (es1 & e1 & f0 & E1 & Ee1 & _ & _ & Hf0 & HP & Hs & _).
      rewrite E0 in E1. injection E1 as <-. rewrite Ee0 in Ee1. injection Ee1 as <-.
      simpl in Hs. rewrite Ht in Hs.
      rewrite (reach_down m' _ _ _ _ es0 e0); [|lia| |done|done].
      * simpl pred. by apply (IH _ f0).
      * rewrite Hm; [done|]. intros ->. apply HP. by eapply reach_in.
Qed.
