(* ===== verification/EptOps.v ===== *)
(** * Steps on EPT tables: views of entries, allocating, splitting, freeing *)

From S2P Require Import Prelude Monad P2m HapPool Ept EptRep.

#[local] Arguments union : simpl never.
#[local] Arguments difference : simpl never.
#[local] Arguments Z.pow : simpl never.
#[local] Arguments Z.mul : simpl never.
#[local] Arguments Z.of_nat : simpl never.

(** ** What a lookup reports *)

Definition hole (ty : p2m_type) : Z * p2m_type * p2m_access := (INVALID_MFN, ty, p2m_access_n).

(** Of the entry [e] of level [l] at which the walk for [g] ends. *)
Definition ent_view (l : nat) (e : epte) (g : Z) : Z * p2m_type * p2m_access :=
  match l with
  | O =>
      if is_pod (sa_p2mt e) then hole p2m_populate_on_demand
      else if is_epte_valid e then (emfn e, sa_p2mt e, access e) else hole p2m_mmio_dm
  | S _ =>
      if negb (is_epte_present e) then
        hole (if is_pod (sa_p2mt e) then p2m_populate_on_demand else p2m_mmio_dm)
      else if is_pod (sa_p2mt e) then hole p2m_populate_on_demand
      else if is_epte_valid e then
        (emfn e + g mod 2 ^ (9 * Z.of_nat l), sa_p2mt e, access e)
      else hole p2m_mmio_dm
  end.

Definition view_of (w : option (nat * epte)) (g : Z) : Z * p2m_type * p2m_access :=
  match w with Some (l, e) => ent_view l e g | None => hole p2m_mmio_dm end.

Lemma present_valid e :
  is_epte_present e = true -> is_epte_valid e = negb (bool_decide (sa_p2mt e = p2m_invalid)).
Proof.
  intros Hp. unfold is_epte_valid. rewrite bool_decide_false; [done|]. intros E.
  assert (K : is_epte_present (e <| suppress_ve := false |>) = true) by exact Hp.
  rewrite E in K. done.
Qed.

Lemma rx_invalid a : rx_of p2m_invalid a = false.
Proof. by destruct a. Qed.
Lemma rx_pod a : rx_of p2m_populate_on_demand a = false.
Proof. by destruct a. Qed.

Section Flags.
Context (env : ept_env).

Lemma flags_keep e ty a : let f := ept_p2m_type_to_flags env e ty a in
  emfn f = emfn e /\ sp f = sp e /\ sa_p2mt f = sa_p2mt e /\ access f = access e /\
  emt f = emt e /\ recalc f = recalc e /\ suppress_ve f = suppress_ve e.
Proof. destruct ty, a; done. Qed.

Lemma flags_rx e ty a :
  pr (ept_p2m_type_to_flags env e ty a) || px (ept_p2m_type_to_flags env e ty a) = rx_of ty a.
Proof. destruct ty, a; done. Qed.

Lemma flags_present e ty a :
  ty = p2m_populate_on_demand \/ rx_of ty a = true ->
  is_epte_present (ept_p2m_type_to_flags env e ty a) = rx_of ty a.
Proof.
  intros [->|Hrx].
  - rewrite rx_pod. by destruct a.
  - pose proof (flags_rx e ty a) as K. rewrite Hrx in K |- *. unfold is_epte_present.
    destruct (pr _), (pw _), (px _); done.
Qed.

(** The frames of a superpage, divided among the entries of a table. *)
Lemma split_frames l z j :
  (S l <= 2)%nat -> 0 <= z < 2 ^ 40 -> z mod 2 ^ (9 * Z.of_nat (S l)) = 0 -> (j < 512)%nat ->
  mfn40 (z + Z.of_nat j * Z.shiftl 1 ((Z.of_nat (S l) - 1) * EPT_TABLE_ORDER))
    = z + Z.of_nat j * 2 ^ (9 * Z.of_nat l) /\
  (z + Z.of_nat j * 2 ^ (9 * Z.of_nat l)) mod 2 ^ (9 * Z.of_nat l) = 0 /\
  0 <= z + Z.of_nat j * 2 ^ (9 * Z.of_nat l) < 2 ^ 40.
Proof.
  intros Hl Hz Ha Hj. rewrite Z.shiftl_1_l. unfold mfn40, EPT_TABLE_ORDER.
  destruct l as [|[|l]]; [| |lia].
  - change ((Z.of_nat 1 - 1) * 9) with 0. change (9 * Z.of_nat 1) with 9 in Ha.
    change (9 * Z.of_nat 0) with 0. change (2 ^ 0) with 1. change (2 ^ 9) with 512 in Ha.
    change (2 ^ 40) with 1099511627776 in *. rewrite Z.mod_1_r, Z.mod_small; dlia.
  - change ((Z.of_nat 2 - 1) * 9) with 9. change (9 * Z.of_nat 2) with 18 in Ha.
    change (9 * Z.of_nat 1) with 9. change (2 ^ 9) with 512 in *. change (2 ^ 18) with 262144 in *.
    change (2 ^ 40) with 1099511627776 in *. rewrite Z.mod_small; dlia.
Qed.

Lemma idx_split h l : 0 <= h -> (l <= 1)%nat ->
  h mod 2 ^ (9 * Z.of_nat (S l)) =
  Z.of_nat (idx h l) * 2 ^ (9 * Z.of_nat l) + h mod 2 ^ (9 * Z.of_nat l).
Proof.
  intros Hh Hl. unfold idx. rewrite Z2Nat.id by (apply Z.mod_pos_bound; lia).
  destruct l as [|[|l]]; [| |lia].
  - change (9 * Z.of_nat 1) with 9. change (9 * Z.of_nat 0) with 0. change (2 ^ 0) with 1.
    change (2 ^ 9) with 512. rewrite Z.div_1_r, Z.mod_1_r. lia.
  - change (9 * Z.of_nat 2) with 18. change (9 * Z.of_nat 1) with 9. change (2 ^ 9) with 512.
    change (2 ^ 18) with 262144. dlia.
Qed.

(** An entry of the table made by a split. *)
Lemma split_entry_good l e j :
  good (S l) e -> sp e = true -> (j < 512)%nat ->
  let x := split_entry env e (S l) j in
  good l x /\ ((0 < l)%nat -> sp x = true) /\
  forall h, 0 <= h -> idx h l = j -> ent_view l x h = ent_view (S l) e h.
Proof.
  intros Hg Hsp Hj. cbv zeta.
  destruct Hg as [Gr Gm Gs _ _ _]. specialize (Gs ltac:(lia) Hsp) as [Sl Sa Sf Sp Sr].
  destruct (split_frames l (emfn e) j Sl Gm Sa Hj) as (Em & Ea & Er).
  unfold split_entry.
  set (y := e <| sp := _ |> <| emfn := _ |> <| snp := _ |> <| suppress_ve := _ |>).
  assert (Ey : emfn y = emfn e + Z.of_nat j * 2 ^ (9 * Z.of_nat l)) by exact Em.
  assert (Esp : sp y = (1 <? Z.of_nat (S l))) by done.
  assert (Ety : sa_p2mt y = sa_p2mt e) by done. assert (Eac : access y = access e) by done.
  assert (Erc : recalc y = recalc e) by done.
  clearbody y. rewrite Ety, Eac.
  destruct (flags_keep y (sa_p2mt e) (access e)) as (K1 & K2 & K3 & K4 & K5 & K6 & K7).
  pose proof (flags_present y _ _ Sr) as K8.
  set (x := ept_p2m_type_to_flags env y (sa_p2mt e) (access e)) in *. clearbody x.
  rewrite Ey in K1. rewrite Esp in K2. rewrite Ety in K3. rewrite Eac in K4. rewrite Erc, Gr in K6.
  assert (Hsx : (0 < l)%nat -> sp x = true) by (intros; rewrite K2; apply Z.ltb_lt; lia).
  split; [|split; [exact Hsx|]].
  - split; [done|by rewrite K1| | | |by intros ->].
    + intros Hl _. split; [lia|by rewrite K1|by rewrite K3|by rewrite K3, K4|by rewrite K3, K4].
    + intros Hl _. by apply Hsx.
    + intros Hl Hn. rewrite Hsx in Hn by done. done.
  - intros h Hh Hi. unfold ent_view at 2. rewrite Sp.
    destruct Sr as [Ep|Hrx].
    + rewrite Ep, rx_pod. rewrite Ep, rx_pod in K8. unfold ent_view. rewrite K3, K8, Ep. by destruct l.
    + rewrite Hrx. assert (Hnp : is_pod (sa_p2mt e) = false).
      { unfold is_pod. apply bool_decide_false. intros E. by rewrite E, rx_pod in Hrx. }
      assert (Hni : bool_decide (sa_p2mt e = p2m_invalid) = false).
      { apply bool_decide_false. intros E. by rewrite E, rx_invalid in Hrx. }
      rewrite Hrx in K8, Sp. rewrite Hnp, (present_valid e Sp), Hni. simpl negb. cbv iota.
      unfold ent_view. rewrite K3, K4, K8, Hnp, (present_valid x K8), K3, Hni, K1. simpl negb. cbv iota.
      rewrite (idx_split h l Hh) by lia. rewrite Hi. destruct l; [|do 2 f_equal; lia].
      change (9 * Z.of_nat 0) with 0. change (2 ^ 0) with 1. rewrite Z.mod_1_r.
      do 2 f_equal; lia.
Qed.
End Flags.

(** ** Frames in use and free frames *)

Definition own (s : est) : gset Z := list_to_set (p2m_list s).

Record heap (s : est) : Prop := {
  hp_nodup : NoDup (p2m_list s ++ freelist (pool s));
  hp_range : forall x, x ∈ p2m_list s ++ freelist (pool s) -> 0 <= x < 2 ^ 40
}.

(** Frames move between the table and the pool; the rest of the p2m stays. *)
Record moves (s s' : est) : Prop := {
  mv_root : root s' = root s;
  mv_asr : asr s' = asr s;
  mv_max : max_mapped_pfn s' = max_mapped_pfn s;
  mv_dflt : dflt_access s' = dflt_access s;
  mv_perm : p2m_list s' ++ freelist (pool s') ≡ₚ p2m_list s ++ freelist (pool s)
}.

Lemma moves_refl s : moves s s.
Proof. by split. Qed.
Lemma moves_trans s1 s2 s3 : moves s1 s2 -> moves s2 s3 -> moves s1 s3.
Proof. intros [] []. split; congruence || by etransitivity. Qed.

Lemma heap_moves s s' : heap s -> moves s s' -> heap s'.
Proof.
  intros [Hn Hr] Hm. split.
  - by rewrite (mv_perm _ _ Hm).
  - intros x Hx. apply Hr. by rewrite <- (mv_perm _ _ Hm).
Qed.

Lemma own_elem s x : x ∈ own s <-> x ∈ p2m_list s.
Proof. unfold own. by rewrite elem_of_list_to_set. Qed.

Lemma own_range s x : heap s -> x ∈ own s -> 0 <= x < 2 ^ 40.
Proof. intros [_ Hr] Hx. apply Hr, elem_of_app. left. by apply own_elem. Qed.

(** Only the frames in use, and what is not part of the table, may differ. *)
Record same_frames (s s' : est) : Prop := {
  sf_moves : moves s s';
  sf_own : own s' = own s;
  sf_pages : pages s' = pages s
}.

Section Steps.
Context (env : ept_env).

Lemma wp_p2m_alloc_ptp s Q :
  heap s ->
  (forall s', same_frames s s' -> Q None s') ->
  (forall s' pg, moves s s' -> pg ∉ own s -> 0 <= pg < 2 ^ 40 -> own s' = own s ∪ {[pg]} ->
     pages s' = <[pg := replicate 512 epte_zero]> (pages s) -> Q (Some pg) s') ->
  wp p2m_alloc_ptp Q s.
Proof.
  intros [Hn Hr] Hnone Hsome. unfold p2m_alloc_ptp. apply wp_bind, wp_gets, wp_bind, wp_modify.
  unfold hap_alloc_p2m_page, hap_alloc. destruct (freelist (pool s)) as [|pg l] eqn:El; simpl fst.
  - apply wp_ret. apply Hnone. unfold set. simpl. split; [|done|done].
    split; simpl; try done.
  - apply wp_bind, wp_modify, wp_ret. unfold set. simpl. apply Hsome; simpl.
    + split; simpl; try done. rewrite El, <- app_assoc. done.
    + rewrite own_elem. intros Hx. apply NoDup_app in Hn as (_ & Hn & _). apply (Hn pg Hx). left.
    + apply Hr, elem_of_app. right. left.
    + unfold own. simpl. rewrite list_to_set_app_L. simpl. by rewrite (right_id_L ∅ (∪)).
    + done.
Qed.

Definition empty_entry : epte := epte_zero <| suppress_ve := true |>.

Lemma empty_good l : good l empty_entry.
Proof. split; try done. Qed.

Lemma zero_good l : good l epte_zero.
Proof. by split. Qed.

Lemma empty_view l h : ent_view l empty_entry h = hole p2m_mmio_dm.
Proof. by destruct l. Qed.

(** A table of equal entries that point to no table. *)
Lemma rep_blank x m l p :
  (forall k, good k x) -> tbl x = false -> m !! p = Some (replicate 512 x) -> rep m l p {[p]}.
Proof.
  intros Hg Ht E. apply rep_unfold. exists (replicate 512 x), (fun _ => ∅).
  split_and!; [done|by rewrite length_replicate| | | | |].
  - apply Forall_replicate, Hg.
  - intros y. rewrite elem_of_singleton. split; [by left|].
    intros [->|(i & _ & Hy)]; [done|]. by apply elem_of_empty in Hy.
  - intros i _ Hy. by apply elem_of_empty in Hy.
  - intros i j _ _ _ y Hy. by apply elem_of_empty in Hy.
  - intros i e He. apply lookup_replicate in He as [-> _]. destruct l; [done|]. simpl. by rewrite Ht.
Qed.

Lemma rep_empty m l p : m !! p = Some (replicate 512 empty_entry) -> rep m l p {[p]}.
Proof. apply rep_blank; [apply empty_good|done]. Qed.

Lemma walk_empty m l p h :
  m !! p = Some (replicate 512 empty_entry) -> walk m l p h = Some (l, empty_entry).
Proof.
  intros E. rewrite (walk_entry _ _ _ _ _ empty_entry E); [by destruct l|].
  apply lookup_replicate_2, idx_lt.
Qed.

(** An entry that points to a table. *)
Definition table_entry (e : epte) (pg : Z) : Prop :=
  tbl e = true /\ emfn e = pg /\ is_pod (sa_p2mt e) = false /\ recalc e = false /\ sp e = false /\
  p2m_is_foreign (sa_p2mt e) = false.

Lemma table_entry_good l e pg : table_entry e pg -> 0 <= pg < 2 ^ 40 -> good l e.
Proof.
  intros (Ht & E & Hp & Hr & Hs & _) Hpg. split; [done|by rewrite E| | | |done].
  - intros _ Hsp. congruence.
  - intros _ Hpod. unfold is_pod in Hp. by apply bool_decide_eq_false in Hp.
  - intros _ _ Hn. unfold tbl in Ht. by rewrite Hn in Ht.
Qed.

Lemma wp_set_middle s Q :
  heap s ->
  (forall s', same_frames s s' -> Q None s') ->
  (forall s' e pg, moves s s' -> pg ∉ own s -> 0 <= pg < 2 ^ 40 -> own s' = own s ∪ {[pg]} ->
     pages s' = <[pg := replicate 512 empty_entry]> (pages s) -> table_entry e pg ->
     Q (Some e) s') ->
  wp (ept_set_middle_entry env) Q s.
Proof.
  intros Hh Hnone Hsome. unfold ept_set_middle_entry. apply wp_bind.
  apply wp_p2m_alloc_ptp; [done|intros s' Hs; apply wp_ret; by apply Hnone|].
  intros s' pg Hm Hn Hpg Ho Hp. apply wp_bind, wp_gets, wp_bind, wp_modify, wp_ret.
  apply (Hsome _ _ pg); [| |done| | |].
  - destruct Hm. by split.
  - done.
  - exact Ho.
  - unfold set. simpl. rewrite Hp. rewrite alter_insert_eq.
    by rewrite fmap_replicate.
  - unfold table_entry. split_and!; try done. exact (Z.mod_small pg (2 ^ 40) Hpg).
Qed.

Lemma wp_read_entry p i s es e Q :
  pages s !! p = Some es -> es !! i = Some e -> Q e s -> wp (read_entry p i) Q s.
Proof. intros E1 E2 HQ. apply (wp_deref _ e); [|done]. rewrite E1. simpl. by rewrite E2. Qed.

Lemma wp_write_entry p i e s es Q :
  pages s !! p = Some es ->
  (forall s', moves s s' -> own s' = own s -> pages s' = <[p := <[i := e]> es]> (pages s) -> Q tt s') ->
  wp (write_entry p i e) Q s.
Proof.
  intros E HQ. apply wp_modify. apply HQ; [by split|done|]. unfold set. simpl.
  apply map_eq. intros q. destruct (decide (q = p)) as [->|Hne].
  - by rewrite lookup_alter_eq, E, lookup_insert_eq.
  - by rewrite lookup_alter_ne, lookup_insert_ne by done.
Qed.

(** ** Freeing *)

Lemma filter_perm (x : Z) l : NoDup l -> x ∈ l -> filter (fun y => y <> x) l ++ [x] ≡ₚ l.
Proof.
  intros Hn Hx. apply list_elem_of_split in Hx as (l1 & l2 & ->).
  apply NoDup_app in Hn as (N1 & Hd & N2). apply NoDup_cons in N2 as [Hx2 N2].
  assert (F : forall l' : list Z, x ∉ l' -> filter (fun y => y <> x) l' = l').
  { induction l' as [|y l' IH]; intros Hy; [done|]. apply not_elem_of_cons in Hy as [Hne Hy].
    rewrite filter_cons_True by done. by rewrite IH. }
  rewrite filter_app, filter_cons_False by (by intros []).
  rewrite (F l1) by (intros H; apply (Hd x H); left). rewrite (F l2) by done.
  rewrite <- app_assoc. apply Permutation_app_head. by rewrite <- Permutation_cons_append.
Qed.

Lemma wp_p2m_free_ptp pg s Q :
  heap s -> pg ∈ own s ->
  (forall s', moves s s' -> own s' = own s ∖ {[pg]} -> pages s' = pages s -> Q tt s') ->
  wp (p2m_free_ptp pg) Q s.
Proof.
  intros Hh Hpg HQ. apply wp_modify. apply own_elem in Hpg.
  pose proof (hp_nodup _ Hh) as Hn. apply NoDup_app in Hn as (Hn & _). apply HQ.
  - split; try done. unfold set. simpl. rewrite app_assoc.
    rewrite <- (filter_perm pg (p2m_list s)) at 2; [|done|done].
    rewrite <- !app_assoc. apply Permutation_app_head. by rewrite Permutation_app_comm.
  - unfold own, set. simpl. apply set_eq. intros x.
    rewrite elem_of_difference, !elem_of_list_to_set, list_elem_of_filter, elem_of_singleton. tauto.
  - done.
Qed.

Lemma union_diff (X f : gset Z) : f ⊆ X -> (X ∖ f) ∪ f = X.
Proof. intros H. apply set_eq. intros x. specialize (H x). rewrite elem_of_union, elem_of_difference. destruct (decide (x ∈ f)); tauto. Qed.

Lemma drop_added (X f : gset Z) p : p ∈ f -> ((X ∖ f) ∪ {[p]}) ∖ {[p]} = X ∖ f.
Proof. set_solver. Qed.

(** What ept_free_entry() guarantees at one level. *)
Definition free_spec (level : nat) (free : epte -> M est unit) : Prop :=
  forall e s f Q, heap s -> sub_rep (pages s) level e f -> f ⊆ own s ->
  (forall s', moves s s' -> own s' = own s ∖ f -> pages s' = pages s -> Q tt s') ->
  wp (free e) Q s.

(** The frames of the first [n] entries are given back. *)
Definition freed_to (s : est) (fs : nat -> gset Z) (n : nat) (s' : est) : Prop :=
  moves s s' /\ pages s' = pages s /\
  forall x, x ∈ own s' <-> x ∈ own s /\ ~ exists j, (j < n)%nat /\ x ∈ fs j.

Lemma freed_one s fs n s' s2 :
  freed_to s fs n s' -> moves s' s2 -> own s2 = own s' ∖ fs n -> pages s2 = pages s' ->
  freed_to s fs (S n) s2.
Proof.
  intros (Hm & Hpg & Ho) Hm2 Ho2 Hp2. split_and!; [by eapply moves_trans|by rewrite Hp2|].
  intros y. rewrite Ho2, elem_of_difference, Ho. split.
  - intros [[Hy Hn1] Hn2]. split; [done|]. intros (j & Hj & Hyj).
    destruct (decide (j = n)) as [->|]; [done|]. apply Hn1. exists j. split; [lia|done].
  - intros [Hy Hn1]. split; [split; [done|]|].
    + intros (j & Hj & Hyj). apply Hn1. exists j. split; [lia|done].
    + intros Hyn. apply Hn1. exists n. split; [lia|done].
Qed.

(** The loop over the entries of table [p]. *)
Lemma wp_free_entries l p s es fs f free :
  free_spec l free -> heap s -> f ⊆ own s -> pages s !! p = Some es -> length es = 512%nat ->
  (forall x, x ∈ f <-> x = p \/ exists i, (i < 512)%nat /\ x ∈ fs i) ->
  (forall i j, (i < 512)%nat -> (j < 512)%nat -> i <> j -> fs i ## fs j) ->
  (forall i e, es !! i = Some e -> sub_rep (pages s) l e (fs i)) ->
  wp (for_each (seq 0 EPT_PAGETABLE_ENTRIES) (fun i => bind (read_entry p i) free))
    (fun _ s' => freed_to s fs 512 s') s.
Proof.
  intros Hfree Hh Hf E Hlen Hfp Hd Hsub. apply (wp_for_each _ _ (freed_to s fs)).
  - split_and!; [apply moves_refl|done|]. intros x. split; [intros; split; [done|]|by intros [? _]].
    intros (j & Hj & _). lia.
  - intros n i s' Hi Hfr. apply lookup_seq in Hi as [-> Hn]. simpl in *. pose proof Hfr as (Hm & Hpg & Ho).
    destruct (lookup_lt_is_Some_2 es n) as [x Hx]; [rewrite Hlen; exact Hn|].
    apply wp_bind. apply (wp_read_entry _ _ _ es x); [by rewrite Hpg|done|].
    apply (Hfree x s' (fs n)); [by apply (heap_moves s)|rewrite Hpg; by apply Hsub| |].
    + intros y Hy. apply Ho. split; [apply Hf, Hfp; right; by exists n|].
      intros (j & Hj & Hyj). apply (Hd j n) with y; [unfold EPT_PAGETABLE_ENTRIES in *; lia..|done|done].
    + intros s2 Hm2 Ho2 Hp2. by apply (freed_one s fs n s').
  - intros s'. by rewrite length_seq.
Qed.

(** The table itself and its frames but for those of its entries. *)
Lemma freed_all s fs f p s' :
  f ⊆ own s -> p ∈ f -> (forall x, x ∈ f <-> x = p \/ exists i, (i < 512)%nat /\ x ∈ fs i) ->
  (forall i, (i < 512)%nat -> p ∉ fs i) -> freed_to s fs 512 s' -> own s' = (own s ∖ f) ∪ {[p]}.
Proof.
  intros Hf Hpf Hfp Hp (_ & _ & Ho). apply set_eq. intros x.
  rewrite Ho, elem_of_union, elem_of_difference, elem_of_singleton, Hfp. split.
  - intros [Hx Hn]. destruct (decide (x = p)) as [->|Hne]; [by right|]. left.
    split; [done|]. intros [H|H]; done.
  - intros [[Hx Hn]| -> ].
    + split; [done|]. intros Hj. apply Hn. by right.
    + split; [by apply Hf|]. intros (j & Hj & Hx). by apply (Hp j).
Qed.

Lemma wp_free_entry level : free_spec level (ept_free_entry level).
Proof.
  induction level as [|l IH]; intros e s f Q Hh Hs Hf HQ.
  { apply wp_ret. simpl in Hs. subst f. apply HQ; [apply moves_refl| |done]. by rewrite difference_empty_L. }
  cbn [ept_free_entry]. unfold is_epte_superpage. unfold sub_rep in Hs. unfold tbl in Hs.
  destruct (is_epte_present e && negb (sp e)) eqn:Et.
  2: { replace (negb (is_epte_present e) || sp e) with true
         by (destruct (is_epte_present e), (sp e); done).
       apply wp_ret. subst f. apply HQ; [apply moves_refl| |done]. by rewrite difference_empty_L. }
  replace (negb (is_epte_present e) || sp e) with false
    by (destruct (is_epte_present e), (sp e); done).
  pose proof Hs as Hroot. apply rep_root_in in Hroot.
  rewrite rep_unfold in Hs. destruct Hs as (es & fs & E & Hlen & Hg & Hfp & Hp & Hd & Hsub).
  assert (Hloop : wp (when (1 <? Z.of_nat (S l)) (for_each (seq 0 EPT_PAGETABLE_ENTRIES) (fun i =>
    bind (read_entry (emfn e) i) (ept_free_entry l)))) (fun _ s' => freed_to s fs 512 s') s).
  { apply wp_when; intros Hl; [by eapply wp_free_entries|].
    assert (l = 0%nat) as -> by (apply Z.ltb_ge in Hl; lia).
    split_and!; [apply moves_refl|done|]. intros x. split; [|by intros [? _]]. intros Hx. split; [done|].
    intros (j & Hj & Hxj). destruct (lookup_lt_is_Some_2 es j) as [y Hy]; [lia|].
    specialize (Hsub j y Hy). simpl in Hsub. rewrite Hsub in Hxj. by apply elem_of_empty in Hxj. }
  apply wp_bind. eapply wp_mono; [exact Hloop|]. intros [] s' Hfr.
  pose proof (freed_all s fs f (emfn e) s' Hf Hroot Hfp Hp Hfr) as Ho. destruct Hfr as (Hm & Hpg & _).
  apply wp_p2m_free_ptp; [by apply (heap_moves s)|rewrite Ho; apply elem_of_union_r; by apply elem_of_singleton|].
  intros s2 Hm2 Ho2 Hp2. apply HQ; [by eapply moves_trans| |congruence].
  rewrite Ho2, Ho. by apply drop_added.
Qed.

(** ** Splitting *)

Lemma walk_reach m h l' : forall l p k x,
  walk m l p h = Some (k, x) -> (k <= l')%nat -> (l' <= l)%nat -> exists q, reach m l p h l' = Some q.
Proof.
  induction l as [|l IH]; intros p k x Hw Hk Hl.
  - assert (l' = 0%nat) as -> by lia. by exists p.
  - destruct (decide (l' = S l)) as [->|Hne]; [exists p; apply reach_refl|].
    rewrite walk_unfold in Hw. destruct (m !! p) as [es|] eqn:E1; [|done]. simpl in Hw.
    destruct (es !! idx h (S l)) as [e|] eqn:E2; [|done]. simpl in Hw.
    destruct (tbl e) eqn:Et; [|injection Hw as <- _; lia].
    rewrite (reach_down _ _ _ _ _ es e) by (done || lia). apply (IH _ k x); [done|done|lia].
Qed.

(** Frames were added to the table; those it had are as they were. *)
Record grown (s s' : est) (new : gset Z) : Prop := {
  gr_moves : moves s s';
  gr_own : own s' = own s ∪ new;
  gr_fresh : new ## own s;
  gr_pages : forall q, q ∈ own s -> pages s' !! q = pages s !! q
}.

Lemma grown_refl s : grown s s ∅.
Proof. split; [apply moves_refl|by rewrite (right_id_L ∅ (∪))|apply disjoint_empty_l|done]. Qed.

Lemma grown_same s s' : same_frames s s' -> grown s s' ∅.
Proof. intros [Hm Ho Hp]. split; [done|by rewrite Ho, (right_id_L ∅ (∪))|apply disjoint_empty_l|by intros; rewrite Hp]. Qed.

Lemma disjoint_step (n1 n2 o : gset Z) : n1 ## o -> n2 ## (o ∪ n1) -> (n1 ∪ n2) ## o.
Proof. set_solver. Qed.

Lemma grown_trans s1 s2 s3 n1 n2 : grown s1 s2 n1 -> grown s2 s3 n2 -> grown s1 s3 (n1 ∪ n2).
Proof.
  intros [M1 O1 F1 P1] [M2 O2 F2 P2]. rewrite O1 in F2, O2. split.
  - by eapply moves_trans.
  - rewrite O2. by rewrite (assoc_L (∪)).
  - by apply disjoint_step.
  - intros q Hq. rewrite P2; [by apply P1|]. rewrite O1. by apply elem_of_union_l.
Qed.

(** Walks for [h] end at [target] and report what [e] reported. *)
Definition split_view (w : option (nat * epte)) (target l : nat) (e : epte) (h : Z) : Prop :=
  exists k x, w = Some (k, x) /\ k = target /\ ent_view k x h = ent_view l e h.

(** What splitting an entry of [level] does. *)
Definition split_spec (level target : nat) (split : epte -> M est (bool * epte)) : Prop :=
  forall e s Q, heap s -> good level e -> sp e = true ->
  (forall s' e' new, grown s s' new -> table_entry e' (emfn e') -> good level e' ->
     sub_rep (pages s') level e' new ->
     (forall h, 0 <= h -> split_view (ewalk (pages s') level e' h) target level e h) ->
     Q (true, e') s') ->
  (forall s' e' new, grown s s' new -> good level e' -> sub_rep (pages s') level e' new ->
     Q (false, e') s') ->
  wp (split e) Q s.

(** One entry of the table [q], of level [l] and with the frames [F], is
    written; it had no table behind it. *)
Lemma write_new_entry m l q F i es old x' new m' :
  (i < 512)%nat -> rep m l q F -> m !! q = Some es -> es !! i = Some old -> tbl old = false ->
  (forall p, p ∈ F -> p <> q -> m' !! p = m !! p) -> m' !! q = Some (<[i := x']> es) ->
  good l x' -> sub_rep m' l x' new -> new ## F ->
  updated m m' l l q q 0 i x' (F ∪ new).
Proof.
  intros Hi Hrep E Ei Ht Hm Em Hg Hs Hd.
  destruct (update_at m 0 l q i Hi l q F Hrep (reach_refl _ _ _ _))
    as (es1 & e1 & sub & E1 & Ee1 & Hlen & Hg1 & Hq & Hsub & Hqs & Hsr & Hup).
  rewrite E in E1. injection E1 as <-. rewrite Ei in Ee1. injection Ee1 as <-.
  assert (sub = ∅) as -> by (destruct l; [done|]; simpl in Hsr; by rewrite Ht in Hsr).
  specialize (Hup m' x' new). rewrite difference_empty_L in Hup.
  apply Hup; [split; [|done]|done|done|done]. intros p Hp _ Hne. by apply Hm.
Qed.

Lemma same_path_here g h l : same_path g h l l.
Proof. intros k Hk. lia. Qed.

(** The state of the table [q] after [i] entries of the loop. *)
Record split_inv (s0 s : est) (l target : nat) (e : epte) (q : Z) (i : nat) (F : gset Z) : Prop := {
  si_grown : grown s0 s F;
  si_rep : rep (pages s) l q F;
  si_rest : forall es, pages s !! q = Some es -> forall j, (i <= j < 512)%nat -> es !! j = Some empty_entry;
  si_view : forall h, 0 <= h -> (idx h l < i)%nat -> split_view (walk (pages s) l q h) target (S l) e h
}.

Lemma split_inv_own s0 s l target e q i F : split_inv s0 s l target e q i F -> F ⊆ own s.
Proof. intros [[_ Ho _ _] _ _ _]. rewrite Ho. apply union_subseteq_r. Qed.

(** Writing entry [i] in front of the rest of the table. *)
Lemma split_inv_write s0 s l target e q i F s' x new :
  split_inv s0 s l target e q i F -> (i < 512)%nat -> grown s0 s' (F ∪ new) ->
  (forall es, pages s !! q = Some es -> pages s' !! q = Some (<[i := x]> es)) ->
  (forall p, p ∈ F -> p <> q -> pages s' !! p = pages s !! p) ->
  good l x -> sub_rep (pages s') l x new -> new ## F ->
  (forall h, 0 <= h -> idx h l = i -> split_view (ewalk (pages s') l x h) target (S l) e h) ->
  split_inv s0 s' l target e q (S i) (F ∪ new).
Proof.
  intros [Hgr Hrep Hrest Hview] Hi Hgr' Hq Hp Hg Hs Hd Hv.
  pose proof Hrep as K. rewrite rep_unfold in K. destruct K as (es & fs & E & Hlen & _).
  pose proof (write_new_entry (pages s) l q F i es empty_entry x new (pages s') Hi Hrep E
    (Hrest es E i ltac:(lia)) eq_refl Hp (Hq es E) Hg Hs Hd) as U.
  split; [done|by destruct U| |].
  - intros es' E' j Hj. rewrite (Hq es E) in E'. injection E' as <-.
    rewrite list_lookup_insert_ne by lia. apply (Hrest es E). lia.
  - intros h Hh Hlt. destruct (decide (idx h l = i)) as [Hi'|Hne].
    + rewrite (up_in _ _ _ _ _ _ _ _ _ _ U h (same_path_here _ _ _) Hi'). by apply Hv.
    + rewrite (up_out _ _ _ _ _ _ _ _ _ _ U h) by (intros [_ ?]; done). apply Hview; [done|lia].
Qed.

Lemma grown_write s0 s s' F q v :
  grown s0 s F -> q ∈ F -> moves s s' -> own s' = own s -> pages s' = <[q := v]> (pages s) ->
  grown s0 s' F.
Proof.
  intros [Hm Ho Hf Hp] Hq Hm' Ho' Hp'. split.
  - by eapply moves_trans.
  - by rewrite Ho'.
  - done.
  - intros p Hpo. rewrite Hp', lookup_insert_ne; [by apply Hp|]. intros ->. by apply (Hf p).
Qed.

Lemma rep_lookup m l p fp : rep m l p fp -> exists es, m !! p = Some es /\ length es = 512%nat.
Proof. rewrite rep_unfold. intros (es & fs & E & Hlen & _). by exists es. Qed.

Lemma leaf_sub_rep m l x : ((0 < l)%nat -> sp x = true) -> sub_rep m l x ∅.
Proof.
  intros Hx. destruct l; [done|]. simpl. unfold tbl. rewrite Hx by lia. by rewrite andb_false_r.
Qed.

Lemma leaf_ewalk m l x h : ((0 < l)%nat -> sp x = true) -> ewalk m l x h = Some (l, x).
Proof.
  intros Hx. destruct l; [done|]. simpl. unfold tbl. rewrite Hx by lia. by rewrite andb_false_r.
Qed.

(** Entry [i] was written, split below, and written again. *)
Record rewritten (s0 s s2 s3 : est) (F new : gset Z) (q : Z) (i : nat) (es : list epte) (x' : epte) : Prop := {
  rw_grown : grown s0 s3 (F ∪ new);
  rw_entry : pages s3 !! q = Some (<[i := x']> es);
  rw_others : forall p, p ∈ F -> p <> q -> pages s3 !! p = pages s !! p;
  rw_new : forall p, p ∈ new -> pages s3 !! p = pages s2 !! p;
  rw_disjoint : new ## F
}.

Lemma rewrite_entry s0 s s1 s2 s3 F new q i es x x' :
  grown s0 s1 F -> F ⊆ own s1 -> q ∈ F -> pages s1 = <[q := <[i := x]> es]> (pages s) -> grown s1 s2 new ->
  moves s2 s3 -> own s3 = own s2 -> pages s3 = <[q := <[i := x']> (<[i := x]> es)]> (pages s2) ->
  rewritten s0 s s2 s3 F new q i es x'.
Proof.
  intros Hgr1 HF1 Hq Hp1 Hg2 Hm3 Ho3 Hp3. rewrite list_insert_insert_eq in Hp3.
  assert (Hdis : new ## F) by (intros p Hp1' Hp2'; apply (gr_fresh _ _ _ Hg2 p); [done|by apply HF1]).
  split; [| | | |done].
  - apply (grown_write s0 s2 s3 _ q (<[i := x']> es)); [|by apply elem_of_union_l|done|done|done].
    by eapply grown_trans.
  - rewrite Hp3. apply lookup_insert_eq.
  - intros p Hp Hpq. rewrite Hp3, lookup_insert_ne by done.
    rewrite (gr_pages _ _ _ Hg2) by (by apply HF1). rewrite Hp1. by apply lookup_insert_ne.
  - intros p Hp. rewrite Hp3. apply lookup_insert_ne. intros <-. by apply (Hdis q).
Qed.

Lemma wp_split_loop s0 l target e q rec : 
  heap s0 -> good (S l) e -> sp e = true -> (target <= l)%nat ->
  ((l =? target)%nat = false -> split_spec l target rec) ->
  forall n i s F Q, (n + i = 512)%nat -> split_inv s0 s l target e q i F ->
  (forall s' F', split_inv s0 s' l target e q 512 F' -> Q true s') ->
  (forall s' F', grown s0 s' F' -> rep (pages s') l q F' -> Q false s') ->
  wp (split_loop env rec (l =? target)%nat e (S l) q n i) Q s.
Proof.
  intros Hh0 Hg Hsp Htl Hrec. induction n as [|n IH]; intros i s F Q Hn Hinv Hok Hfail.
  { apply wp_ret. assert (i = 512)%nat as -> by lia. by apply (Hok s F). }
  pose proof Hinv as [Hgr Hrep Hrest Hview]. pose proof (split_inv_own _ _ _ _ _ _ _ _ Hinv) as HF.
  destruct (rep_lookup _ _ _ _ Hrep) as (es & E & Hlen). pose proof (rep_root_in _ _ _ _ Hrep) as Hq.
  destruct (split_entry_good env l e i Hg Hsp ltac:(lia)) as (Gx & Sx & Vx).
  cbn [split_loop]. cbv zeta. generalize dependent (split_entry env e (S l) i). intros x Gx Sx Vx.
  apply wp_bind, (wp_write_entry _ _ _ _ es); [done|]. intros s1 Hm1 Ho1 Hp1.
  assert (Hgr1 : grown s0 s1 F) by (by apply (grown_write s0 s s1 F q (<[i := x]> es))).
  assert (Eq1 : pages s1 !! q = Some (<[i := x]> es)) by (rewrite Hp1; apply lookup_insert_eq).
  assert (Hoth1 : forall p, p ∈ F -> p <> q -> pages s1 !! p = pages s !! p)
    by (intros p _ Hne; rewrite Hp1; by apply lookup_insert_ne).
  destruct (Nat.eqb_spec l target) as [Heq|Hne].
  - subst target. apply (IH (S i) s1 (F ∪ ∅) Q); [lia| |done|done].
    apply (split_inv_write s0 s l l e q i F s1 x ∅ Hinv); [lia| | |done|done|by apply leaf_sub_rep|apply disjoint_empty_l|].
    + by rewrite (right_id_L ∅ (∪)).
    + intros es' E'. rewrite E in E'. by injection E' as <-.
    + intros h Hh Hi. rewrite leaf_ewalk by done. exists l, x. split_and!; [done|lia|by apply Vx].
  - assert (Hspx : sp x = true) by (apply Sx; lia).
    apply wp_bind, wp_bug_on; [unfold is_epte_superpage; by rewrite Hspx|]. apply wp_bind.
    assert (Hh1 : heap s1) by (apply (heap_moves s0); [done|by destruct Hgr1]).
    assert (HF1 : F ⊆ own s1) by (by rewrite Ho1).
    assert (Hfin : forall s2 x' new ok, grown s1 s2 new -> good l x' -> sub_rep (pages s2) l x' new ->
      (ok = true -> forall h, 0 <= h -> split_view (ewalk (pages s2) l x' h) target l x h) ->
      wp (bind (write_entry q i (ok, x').2) (fun _ => if (ok, x').1 then
             split_loop env rec false e (S l) q n (S i) else ret false)) Q s2).
    { intros s2 x' new ok Hg2 Gx' Sx' Vx'. simpl fst. simpl snd.
      assert (Eq2 : pages s2 !! q = Some (<[i := x]> es)) by (rewrite (gr_pages _ _ _ Hg2); [done|by apply HF1]).
      apply wp_bind, (wp_write_entry _ _ _ _ (<[i := x]> es)); [done|]. intros s3 Hm3 Ho3 Hp3.
      destruct (rewrite_entry s0 s s1 s2 s3 F new q i es x x') as [Hgr3 Eq3 Hoth3 Hfr Hdis]; try done.
      assert (Sx3 : sub_rep (pages s3) l x' new) by (by apply (sub_rep_frame (pages s2))). destruct ok.
      - apply (IH (S i) s3 (F ∪ new) Q); [lia| |done|done].
        apply (split_inv_write s0 s l target e q i F s3 x' new Hinv); [lia|done| |done|done|done|done|].
        + intros es' E'. rewrite E in E'. by injection E' as <-.
        + intros h Hh Hi. rewrite (ewalk_frame (pages s2) (pages s3) l x' new h Hfr Sx').
          destruct (Vx' eq_refl h Hh) as (k & y & Ew & Hk & Ev). exists k, y. split_and!; [done|done|].
          rewrite Ev. by apply Vx.
      - apply wp_ret. apply (Hfail s3 (F ∪ new)); [done|].
        apply (up_rep _ _ _ _ _ _ _ _ _ _ (write_new_entry (pages s) l q F i es empty_entry x' new
          (pages s3) ltac:(lia) Hrep E (Hrest es E i ltac:(lia)) eq_refl Hoth3 Eq3 Gx' Sx3 Hdis)). }
    apply (Hrec eq_refl); [done|done|done| |].
    + intros s2 x' new Hg2 _ Gx' Sx' Vx'. by apply (Hfin s2 x' new true).
    + intros s2 x' new Hg2 Gx' Sx'. by apply (Hfin s2 x' new false).
Qed.

Lemma wp_split level target : (target < level)%nat -> (level <= 2)%nat ->
  split_spec level target (ept_split_super_page env level target).
Proof.
  revert target. induction level as [|l IH]; intros target Ht Hl e s Q Hh Hg Hsp Hok Hfail; [lia|].
  cbn [ept_split_super_page]. rewrite (proj2 (Nat.eqb_neq (S l) target)) by lia.
  apply wp_bind, wp_bug_on; [unfold is_epte_superpage; by rewrite Hsp|].
  apply wp_bind, wp_set_middle; [done| |].
  { intros s' Hs. apply wp_ret. apply (Hfail s' e ∅); [by apply grown_same|done|].
    apply leaf_sub_rep. done. }
  intros s1 e1 pg Hm1 Hn1 Hpg Ho1 Hp1 Te. pose proof Te as (Tt & Te1 & _).
  assert (Hgr1 : grown s s1 {[pg]}).
  { split; [done|done|by apply disjoint_singleton_l|]. intros p Hp. rewrite Hp1. apply lookup_insert_ne. by intros ->. }
  assert (E1 : pages s1 !! emfn e1 = Some (replicate 512 empty_entry))
    by (rewrite Hp1, Te1; apply lookup_insert_eq).
  assert (G1 : good (S l) e1) by (by apply (table_entry_good _ _ pg)).
  apply wp_bind. apply (wp_split_loop s l target e (emfn e1)) with (F := {[pg]}); try done; [lia| | | |].
  - intros Hne. apply Nat.eqb_neq in Hne. apply IH; lia.
  - split; [done| | |].
    + rewrite <- Te1. by apply rep_empty.
    + intros es E j Hj. rewrite E1 in E. apply (inj Some) in E as <-. apply lookup_replicate_2. lia.
    + intros h _ Hlt. lia.
  - intros s2 F2 [Hgr2 Hrep2 _ Hv2]. apply wp_ret. apply (Hok s2 e1 F2); [done|by rewrite Te1|done| |].
    + simpl. by rewrite Tt.
    + intros h Hh0. simpl. rewrite Tt. apply Hv2; [done|apply idx_lt].
  - intros s2 F2 Hgr2 Hrep2. apply wp_ret. apply (Hfail s2 e1 F2); [done|done|]. simpl. by rewrite Tt.
Qed.
End Steps.
