(* ===== verification/EptProofs.v ===== *)
(** * Invariant and lookups of an EPT p2m (about Ept.v)

    [wf] is the invariant: the frames of the table form a tree without
    sharing, they are exactly the frames on p2m->pages, none of them is in the
    pool, and no guest frame above max_mapped_pfn is mapped.  [stable] says
    that a step keeps the invariant and every translation. *)

From S2P Require Import Prelude Monad P2m HapPool Ept EptRep EptOps.

#[local] Arguments union : simpl never.
#[local] Arguments difference : simpl never.
#[local] Arguments Z.pow : simpl never.
#[local] Arguments Z.mul : simpl never.
#[local] Arguments Z.of_nat : simpl never.

(** What the table says of guest frame [g]. *)
Definition eview (s : est) (g : Z) : Z * p2m_type * p2m_access :=
  view_of (walk (pages s) 3 (root s) g) g.

Record wf (s : est) : Prop := {
  wf_heap : heap s;
  wf_rep : rep (pages s) 3 (root s) (own s);
  wf_asr : asr s = 0 \/ asr s = root s;
  wf_max : 0 <= max_mapped_pfn s < 2 ^ 36;
  wf_above : forall g, max_mapped_pfn s < g < 2 ^ 36 -> eview s g = hole p2m_mmio_dm
}.

Record stable (s s' : est) : Prop := {
  st_wf : wf s';
  st_moves : moves s s';
  st_view : forall g, 0 <= g -> eview s' g = eview s g
}.

Lemma stable_refl s : wf s -> stable s s.
Proof. intros. split; [done|apply moves_refl|done]. Qed.

Lemma stable_trans s1 s2 s3 : stable s1 s2 -> stable s2 s3 -> stable s1 s3.
Proof.
  intros [_ M1 V1] [W M2 V2]. split; [done|by eapply moves_trans|].
  intros g Hg. by rewrite V2, V1.
Qed.

(** The page that [g] reaches at level [l]. *)
Definition at_level (s : est) (g : Z) (l : nat) (p : Z) : Prop :=
  reach (pages s) 3 (root s) g l = Some p.

Lemma walk_via m h : forall L P l p es e,
  reach m L P h l = Some p -> m !! p = Some es -> es !! idx h l = Some e ->
  walk m L P h = ewalk m l e h.
Proof.
  induction L as [|L IH]; intros P l p es e Hr E Ee; pose proof (reach_le _ _ _ _ _ _ Hr) as Hl.
  - assert (l = 0%nat) as -> by lia. injection Hr as <-. by apply (walk_entry _ _ _ _ es).
  - destruct (decide (l = S L)) as [->|Hne].
    + rewrite reach_refl in Hr. injection Hr as ->. by apply (walk_entry _ _ _ _ es).
    + apply reach_step_inv in Hr as (es0 & e0 & E0 & Ee0 & Ht & Hr); [|lia].
      rewrite (walk_entry _ _ _ _ _ _ E0 Ee0). simpl. rewrite Ht. by eapply IH.
Qed.

Lemma reach_same_path m g h l : forall L P p,
  reach m L P g l = Some p -> same_path g h l L -> reach m L P h l = Some p.
Proof.
  induction L as [|L IH]; intros P p Hr Hs; pose proof (reach_le _ _ _ _ _ _ Hr) as Hl.
  - assert (l = 0%nat) as -> by lia. done.
  - destruct (decide (l = S L)) as [->|Hne].
    + rewrite reach_refl in Hr |- *. done.
    + apply reach_step_inv in Hr as (es0 & e0 & E0 & Ee0 & Ht & Hr); [|lia].
      rewrite (reach_down _ _ _ _ _ es0 e0); [|lia|done|by rewrite (Hs (S L)) by lia|done].
      apply IH; [done|]. intros k Hk. apply Hs. lia.
Qed.

(** A change of one entry under which what it reports stays the same. *)
Lemma stable_update s s' g l p i e e' es :
  wf s -> at_level s g l p -> pages s !! p = Some es -> es !! i = Some e ->
  moves s s' -> updated (pages s) (pages s') 3 l (root s) p g i e' (own s') ->
  (forall h, 0 <= h -> idx h l = i ->
     view_of (ewalk (pages s') l e' h) h = view_of (ewalk (pages s) l e h) h) ->
  stable s s' /\ at_level s' g l p.
Proof.
  intros Hwf Hr E Ee Hm [U1 U2 U3 U4] Hv. pose proof Hm as [M1 M2 M3 M4 M5].
  assert (Hview : forall h, 0 <= h -> eview s' h = eview s h).
  { intros h Hh. unfold eview. rewrite M1.
    destruct (decide (idx h l = i)) as [Hi|Hi]; [|rewrite U4; [done|by intros [_ ?]]].
    destruct (decide (same_path g h l 3)) as [Hs|Hn]; [|rewrite U4; [done|by intros [? _]]].
    rewrite U3 by done. rewrite Hv by done. f_equal. symmetry.
    eapply walk_via; [by apply (reach_same_path _ g)|done|by rewrite Hi]. }
  destruct Hwf as [W1 W2 W3 W4 W5]. split.
  - split; [|done|done]. split.
    + by apply (heap_moves s).
    + by rewrite M1.
    + by rewrite M1, M2.
    + by rewrite M3.
    + intros h Hh. rewrite M3 in Hh. rewrite Hview by lia. by apply W5.
  - unfold at_level. rewrite M1. apply U2. done.
Qed.

(** ** Changes that keep every translation *)

(** Entries that translate alike; they may differ in the memory type, the
    accessed and dirty bits and the like. *)
Record sim (e e' : epte) : Prop := {
  sim_present : is_epte_present e' = is_epte_present e;
  sim_sp : sp e' = sp e;
  sim_mfn : emfn e' = emfn e;
  sim_type : sa_p2mt e' = sa_p2mt e;
  sim_access : access e' = access e;
  sim_valid : is_epte_valid e' = is_epte_valid e
}.

Lemma sim_tbl e e' : sim e e' -> tbl e' = tbl e.
Proof. intros []. unfold tbl. congruence. Qed.

Lemma sim_view e e' l h : sim e e' -> ent_view l e' h = ent_view l e h.
Proof. intros [S1 S2 S3 S4 S5 S6]. unfold ent_view. by rewrite S1, S3, S4, S5, S6. Qed.

Lemma sim_sub_rep m l e e' f : sim e e' -> sub_rep m l e f -> sub_rep m l e' f.
Proof.
  intros Hs. destruct l; [done|]. simpl. rewrite (sim_tbl _ _ Hs), (sim_mfn _ _ Hs). done.
Qed.

Lemma sim_good l e e' :
  sim e e' -> recalc e' = false ->
  ((0 < l)%nat -> sp e' = false -> is_epte_present e' = false -> emt e' <> MTRR_NUM_TYPES) ->
  good l e -> good l e'.
Proof.
  intros [S1 S2 S3 S4 S5 S6] Hr He [Gr Gm Gs Gp Ge Gl]. split; [done|by rewrite S3| | |done|by rewrite S2].
  - intros Hl Hsp. rewrite S2 in Hsp. destruct (Gs Hl Hsp) as [A1 A2 A3 A4 A5].
    split; rewrite ?S1, ?S3, ?S4, ?S5; done.
  - intros Hl Hp. rewrite S2. apply Gp; [done|]. by rewrite <- S4.
Qed.

Lemma stable_sim s s' g l p i es e e' :
  wf s -> at_level s g l p -> (i < 512)%nat -> pages s !! p = Some es -> es !! i = Some e ->
  good l e' -> sim e e' ->
  moves s s' -> own s' = own s -> pages s' = <[p := <[i := e']> es]> (pages s) ->
  stable s s' /\ at_level s' g l p.
Proof.
  intros Hwf Hr Hi E Ee Hg Hsim Hm Ho Hp.
  destruct (update_at (pages s) g l p i Hi 3 (root s) (own s) (wf_rep _ Hwf) Hr)
    as (es1 & e1 & sub & E1 & Ee1 & Hlen & Hg1 & Hpo & Hsub & Hps & Hsr & Hup).
  rewrite E in E1. apply (inj Some) in E1 as <-. rewrite Ee in Ee1. apply (inj Some) in Ee1 as <-.
  assert (Hfr : forall q, q <> p -> pages s' !! q = pages s !! q)
    by (intros q Hq; rewrite Hp; by apply lookup_insert_ne).
  assert (Hfs : forall q, q ∈ sub -> pages s' !! q = pages s !! q) by (intros q Hq; apply Hfr; by intros ->).
  assert (Hsr' : sub_rep (pages s') l e' sub)
    by (apply (sim_sub_rep _ _ e); [done|]; by apply (sub_rep_frame (pages s))).
  assert (Eo : (own s ∖ sub) ∪ sub = own s') by (rewrite Ho; by apply union_diff).
  apply (stable_update s s' g l p i e e' es); [done|done|done|done|done| |].
  - rewrite <- Eo. apply Hup; [split; [by intros; apply Hfr|rewrite Hp; apply lookup_insert_eq]|done|done|].
    intros x Hx Hd. by apply elem_of_difference in Hd as [_ ?].
  - intros h _ _. destruct l as [|l]; simpl.
    + exact (sim_view e e' 0 h Hsim).
    + rewrite (sim_tbl _ _ Hsim), (sim_mfn _ _ Hsim). simpl in Hsr. destruct (tbl e) eqn:Et.
      * f_equal. by apply (walk_frame _ _ l (emfn e) sub).
      * exact (sim_view e e' (S l) h Hsim).
Qed.

(** An entry without a table is replaced by one with a table that was built
    on the side. *)
Lemma stable_table s s1 s' g l p i es e e' new :
  wf s -> at_level s g l p -> (i < 512)%nat -> pages s !! p = Some es -> es !! i = Some e ->
  tbl e = false -> grown s s1 new -> good l e' -> sub_rep (pages s1) l e' new ->
  (forall h, 0 <= h -> idx h l = i -> view_of (ewalk (pages s1) l e' h) h = ent_view l e h) ->
  moves s1 s' -> own s' = own s1 -> pages s' = <[p := <[i := e']> es]> (pages s1) ->
  stable s s' /\ at_level s' g l p.
Proof.
  intros Hwf Hr Hi E Ee Ht [Gm Go Gf Gp] Hg Hsr1 Hv Hm Ho Hp.
  destruct (update_at (pages s) g l p i Hi 3 (root s) (own s) (wf_rep _ Hwf) Hr)
    as (es1 & e1 & sub & E1 & Ee1 & Hlen & Hg1 & Hpo & Hsub & Hps & Hsr & Hup).
  rewrite E in E1. apply (inj Some) in E1 as <-. rewrite Ee in Ee1. apply (inj Some) in Ee1 as <-.
  assert (sub = ∅) as -> by (destruct l; [done|]; simpl in Hsr; by rewrite Ht in Hsr).
  rewrite difference_empty_L in Hup.
  assert (Hpn : p ∉ new) by (intros Hpn; by apply (Gf p)).
  assert (Hfn : forall q, q ∈ new -> pages s' !! q = pages s1 !! q)
    by (intros q Hq; rewrite Hp; apply lookup_insert_ne; by intros <-).
  apply (stable_update s s' g l p i e e' es); [done|done|done|done|by eapply moves_trans| |].
  - rewrite Ho, Go. apply Hup; [split|done| |done].
    + intros q Hq _ Hne. rewrite Hp, lookup_insert_ne by done. by apply Gp.
    + rewrite Hp. apply lookup_insert_eq.
    + by apply (sub_rep_frame (pages s1)).
  - intros h Hh Hhi. rewrite (ewalk_frame (pages s1) (pages s') l e' new h Hfn Hsr1), Hv by done.
    destruct l; [done|]. simpl. by rewrite Ht.
Qed.

(** ** Writing an entry *)

Section Write.
Context (env : ept_env).

Lemma wp_atomic_write p i new level s es old Q :
  pages s !! p = Some es -> es !! i = Some old ->
  ((0 < level)%nat -> sp new && p2m_is_foreign (sa_p2mt new) = false) ->
  (forall s', moves s s' -> own s' = own s -> pages s' = <[p := <[i := new]> es]> (pages s) -> Q 0 s') ->
  (level = 0%nat -> p2m_is_foreign (sa_p2mt new) = true ->
   ~ (is_epte_present new = true /\ emfn new = emfn old /\ sa_p2mt new = sa_p2mt old) ->
   forall s' rc, same_frames s s' -> rc < 0 -> Q rc s') ->
  wp (atomic_write_ept_entry env p i new level) Q s.
Proof.
  intros E Ee Hl Hok Hfail. unfold atomic_write_ept_entry. apply wp_bind, (wp_read_entry _ _ _ es old); [done|done|].
  destruct level as [|level].
  2: { apply wp_bind, wp_bug_on; [apply Hl; lia|]. apply wp_bind, (wp_write_entry _ _ _ _ es); [done|].
       intros s' Hm Ho Hp. apply wp_ret. by apply Hok. }
  assert (Hwrite : forall (c : bool) s0, same_frames s s0 ->
    wp (bind (write_entry p i new) (fun _ => bind (when c (modify (fun s : est =>
             s <| foreign_refs ::= fun r => <[emfn old := rd r (emfn old) - 1]> r |>))) (fun _ => ret 0))) Q s0).
  { intros c s0 [Hm0 Ho0 Hp0]. apply wp_bind, (wp_write_entry _ _ _ _ es); [by rewrite Hp0|].
    intros s' Hm Ho Hp. apply wp_bind. pose proof (moves_trans _ _ _ Hm0 Hm) as Hm'.
    destruct c; [apply wp_modify|apply wp_ret]; apply wp_ret.
    - apply Hok; [by destruct Hm'; split|by rewrite <- Ho0, <- Ho|by rewrite <- Hp0, <- Hp].
    - apply Hok; [done|by rewrite Ho|by rewrite Hp, Hp0]. }
  assert (Hrefl : same_frames s s) by (split; [apply moves_refl|done|done]).
  apply wp_bind. destruct (p2m_is_foreign (sa_p2mt new)) eqn:Ef; [|apply wp_ret; by apply Hwrite].
  assert (Hno : ~ (is_epte_present new = true /\ emfn new = emfn old /\ sa_p2mt new = sa_p2mt old) ->
    forall rc, rc < 0 -> Q rc s) by (intros Hn rc Hrc; by apply (Hfail eq_refl eq_refl Hn)).
  destruct (is_epte_present new) eqn:Epr; simpl negb; cbv iota.
  2: { apply wp_ret. apply wp_ret, Hno; [by intros [? _]|done]. }
  destruct (negb (emfn new =? emfn old) || negb (bool_decide (sa_p2mt new = sa_p2mt old))) eqn:Ec.
  2: { apply wp_ret. by apply Hwrite. }
  assert (Hn : ~ (true = true /\ emfn new = emfn old /\ sa_p2mt new = sa_p2mt old)).
  { intros (_ & E1 & E2). rewrite E1, E2, Z.eqb_refl, bool_decide_true in Ec; done. }
  destruct (env_mfn_valid env (emfn new)); simpl negb; cbv iota; [|apply wp_ret, wp_ret, Hno; done].
  destruct (env_owner env (emfn new)); simpl negb; cbv iota; [|apply wp_ret, wp_ret, Hno; done].
  destruct (env_get_page env (emfn new)); simpl negb; cbv iota; [|apply wp_ret, wp_ret, Hno; done].
  apply wp_bind, wp_modify, wp_ret. apply Hwrite. split; [by split|done|done].
Qed.

Lemma idx_code g l : Z.to_nat (Z.land (Z.shiftr g (Z.of_nat l * EPT_TABLE_ORDER)) 511) = idx g l.
Proof.
  unfold idx, EPT_TABLE_ORDER. change 511 with (Z.ones 9). rewrite Z.land_ones by lia.
  rewrite Z.shiftr_div_pow2 by lia. by rewrite (Z.mul_comm (Z.of_nat l)).
Qed.

Lemma level_entry s g l p i :
  wf s -> at_level s g l p -> (i < 512)%nat ->
  exists es e sub, pages s !! p = Some es /\ es !! i = Some e /\ length es = 512%nat /\ good l e /\
    p ∈ own s /\ sub ⊆ own s /\ (p ∉ sub) /\ sub_rep (pages s) l e sub.
Proof.
  intros Hwf Hr Hi.
  destruct (update_at (pages s) g l p i Hi 3 (root s) (own s) (wf_rep _ Hwf) Hr)
    as (es & e & sub & E & Ee & Hlen & Hg & Hpo & Hsub & Hps & Hsr & _). eauto 12.
Qed.

Lemma good_foreign l e : good l e -> sp e && p2m_is_foreign (sa_p2mt e) = false.
Proof.
  intros Hg. destruct (sp e) eqn:Es; [|done]. simpl. destruct l as [|l].
  - by rewrite (g_last _ _ Hg) in Es.
  - by destruct (g_super _ _ Hg ltac:(lia) Es).
Qed.

(** Writing an entry that translates like the old one. *)
Lemma wp_sim_write s g l p i es e e' lv Q :
  wf s -> at_level s g l p -> (i < 512)%nat -> pages s !! p = Some es -> es !! i = Some e ->
  good l e' -> sim e e' -> (lv = 0%nat -> is_epte_present e' = true) ->
  (forall s', stable s s' -> at_level s' g l p -> pages s' = <[p := <[i := e']> es]> (pages s) -> Q 0 s') ->
  wp (atomic_write_ept_entry env p i e' lv) Q s.
Proof.
  intros Hwf Hr Hi E Ee Hg Hs Hpr HQ. apply (wp_atomic_write _ _ _ _ _ es e); [done|done| | |].
  - intros _. by apply (good_foreign l).
  - intros s' Hm Ho Hp. destruct (stable_sim s s' g l p i es e e') as [H1 H2]; try done. by apply HQ.
  - intros Hlv _ Hn. exfalso. apply Hn. destruct Hs. auto.
Qed.

(** ** Resolving pending changes of memory type *)

Lemma valid_nonzero e :
  is_epte_present e = true \/ sp e = true ->
  is_epte_valid e = negb (bool_decide (sa_p2mt e = p2m_invalid)).
Proof.
  intros [Hp|Hs]; [by apply present_valid|]. unfold is_epte_valid. rewrite bool_decide_false; [done|].
  intros E. assert (K : sp (e <| suppress_ve := false |>) = true) by exact Hs. by rewrite E in K.
Qed.

Lemma sim_intro e e' :
  is_epte_present e = true \/ sp e = true -> is_epte_present e' = is_epte_present e -> sp e' = sp e ->
  emfn e' = emfn e -> sa_p2mt e' = sa_p2mt e -> access e' = access e -> sim e e'.
Proof.
  intros Hn S1 S2 S3 S4 S5. split; [done..|]. rewrite !valid_nonzero; [by rewrite S4|done|].
  by rewrite S1, S2.
Qed.

(** An entry that is present keeps the invariant whatever its memory type. *)
Lemma good_present l e e' : good l e -> is_epte_present e = true -> sim e e' -> recalc e' = false -> good l e'.
Proof.
  intros Hg Hp Hs Hr. apply (sim_good l e); [done|done| |done]. intros _ _ Hn.
  rewrite (sim_present _ _ Hs) in Hn. congruence.
Qed.

Lemma wp_resolve_entry s g p gf i :
  wf s -> at_level s g 0 p -> (i < 512)%nat ->
  wp (resolve_entry env p gf i) (fun _ s' => stable s s' /\ at_level s' g 0 p) s.
Proof.
  intros Hwf Hr Hi. destruct (level_entry s g 0 p i Hwf Hr Hi) as (es & e & sub & E & Ee & _ & Hg & _).
  unfold resolve_entry. apply wp_bind, (wp_read_entry _ _ _ es e); [done|done|].
  set (e1 := if emt e =? MTRR_NUM_TYPES then e <| emt := 0 |> else e).
  assert (P1 : is_epte_present e1 = is_epte_present e) by (subst e1; by destruct (_ =? _)).
  assert (S1 : sp e1 = sp e) by (subst e1; by destruct (_ =? _)).
  assert (M1 : emfn e1 = emfn e) by (subst e1; by destruct (_ =? _)).
  assert (T1 : sa_p2mt e1 = sa_p2mt e) by (subst e1; by destruct (_ =? _)).
  assert (A1 : access e1 = access e) by (subst e1; by destruct (_ =? _)).
  assert (R1 : recalc e1 = false) by (rewrite <- (g_recalc _ _ Hg); subst e1; by destruct (_ =? _)).
  clearbody e1. destruct (negb (is_epte_valid e1) || negb (is_epte_present e1)) eqn:Ev.
  { apply wp_ret. split; [by apply stable_refl|done]. }
  apply orb_false_iff in Ev as [_ Hp]. apply negb_false_iff in Hp.
  destruct (env_emt env _ _ _ _) as [m ip].
  set (e2 := e1 <| emt := _ |> <| ipat := _ |>).
  assert (R2 : recalc e2 = false) by exact R1. rewrite R2. cbv iota.
  replace (if false && p2m_is_changeable (sa_p2mt e2) then _ else e2) with e2 by done.
  set (e3 := e2 <| recalc := false |>).
  assert (Hp3 : is_epte_present e3 = true) by exact Hp.
  assert (Hsim : sim e e3).
  { apply sim_intro; [left; congruence|congruence|done..]. }
  assert (R3 : recalc e3 = false) by done. clearbody e3.
  apply wp_bind, (wp_sim_write s g 0 p i es e); try done.
  - apply (good_present 0 e); [done|congruence|done|done].
Qed.

Lemma wp_resolve_leafs s g p gf :
  wf s -> at_level s g 0 p ->
  wp (for_each (seq 0 EPT_PAGETABLE_ENTRIES) (resolve_entry env p gf))
    (fun _ s' => stable s s' /\ at_level s' g 0 p) s.
Proof.
  intros Hwf Hr. apply (wp_for_each _ _ (fun _ s' => stable s s' /\ at_level s' g 0 p)).
  - split; [by apply stable_refl|done].
  - intros n i s1 Hi [Hst Hr1]. apply lookup_seq in Hi as [-> Hn]. simpl.
    eapply wp_mono; [apply (wp_resolve_entry s1 g); [by destruct Hst|done|exact Hn]|].
    intros [] s2 [Hst2 Hr2]. split; [by eapply stable_trans|done].
  - done.
Qed.

(** Marking the entries of a table whose memory types are out of date. *)
Lemma wp_invalidate_emt s g l p lv :
  wf s -> at_level s g l p -> (0 < lv)%nat ->
  wp (ept_invalidate_emt env p false lv) (fun _ s' => stable s s' /\ at_level s' g l p /\
    forall q, q <> p -> pages s' !! q = pages s !! q) s.
Proof.
  intros Hwf Hr Hlv. destruct (level_entry s g l p 0 Hwf Hr ltac:(lia)) as (es0 & _ & _ & E0 & _).
  unfold ept_invalidate_emt. apply wp_bind, (wp_deref _ es0); [done|]. apply wp_bind.
  apply (wp_for_each _ _ (fun _ s' => stable s s' /\ at_level s' g l p /\
    forall q, q <> p -> pages s' !! q = pages s !! q)).
  - split_and!; [by apply stable_refl|done|done].
  - intros n i s1 Hi (Hst & Hr1 & Hfr). apply lookup_seq in Hi as [-> Hn]. simpl.
    pose proof (st_wf _ _ Hst) as Hwf1.
    destruct (level_entry s1 g l p n Hwf1 Hr1 Hn) as (es & e & sub & E & Ee & _ & Hg & _).
    apply wp_bind, (wp_read_entry _ _ _ es e); [done|done|]. apply wp_when; intros Hdue; [|done].
    apply andb_true_iff in Hdue as [Hdue _]. apply andb_true_iff in Hdue as [_ Hp].
    cbv zeta iota. set (e1 := e <| emt := MTRR_NUM_TYPES |>).
    assert (Hsim : sim e e1) by (apply sim_intro; [by left|done..]).
    assert (R1 : recalc e1 = false) by exact (g_recalc _ _ Hg). clearbody e1.
    apply wp_bind, (wp_sim_write s1 g l p n es e); try done; [|lia|].
    + by apply (good_present l e).
    + intros s2 Hst2 Hr2 Hp2. apply wp_bug_on; [done|].
      split_and!; [by eapply stable_trans|done|].
      intros q Hq. rewrite Hp2, lookup_insert_ne by done. by apply Hfr.
  - intros s1 H1. by apply wp_ret.
Qed.

Definition resolved (s : est) (rc : Z) (s' : est) : Prop := stable s s' /\ (rc = - ENOMEM \/ 0 <= rc).

Lemma split_view_eq w target l e h : split_view w target l e h -> view_of w h = ent_view l e h.
Proof. intros (k & x & -> & _ & E). exact E. Qed.

Lemma extend_level s g l p es e :
  at_level s g (S l) p -> (S l <= 3)%nat -> pages s !! p = Some es -> es !! idx g (S l) = Some e ->
  tbl e = true -> at_level s g l (emfn e).
Proof. intros Hr Hl E Ee Ht. by eapply reach_extend. Qed.

(** The frames of the table are as they were. *)
Lemma stable_same s s' :
  wf s -> moves s s' -> own s' = own s -> (forall q, q ∈ own s -> pages s' !! q = pages s !! q) ->
  stable s s' /\ forall g l p, at_level s g l p -> at_level s' g l p.
Proof.
  intros [W1 W2 W3 W4 W5] Hm Ho Hp. pose proof Hm as [M1 M2 M3 M4 M5].
  assert (Hv : forall g, eview s' g = eview s g).
  { intros g. unfold eview. rewrite M1. by rewrite (walk_frame (pages s) (pages s') 3 _ _ g Hp W2). }
  split.
  - split; [|done|by intros; apply Hv]. split.
    + by apply (heap_moves s).
    + rewrite M1, Ho. by apply (rep_frame (pages s)).
    + by rewrite M1, M2.
    + by rewrite M3.
    + intros g Hg. rewrite Hv. apply W5. by rewrite <- M3.
  - intros g l p Hr. unfold at_level in *. rewrite M1. by rewrite (reach_frame (pages s) _ g l 3 _ _ Hp W2).
Qed.

Lemma drop_new_frames (o n : gset Z) : n ## o -> (o ∪ n) ∖ n = o.
Proof. set_solver. Qed.

(** A split that ran out of memory is undone. *)
Lemma wp_undo_split {A} s s1 new level e' (F : M est A) Q :
  wf s -> grown s s1 new -> sub_rep (pages s1) level e' new ->
  (forall s', stable s s' -> wp F Q s') ->
  wp (bind (ept_free_entry level e') (fun _ => F)) Q s1.
Proof.
  intros Hwf [Gm Go Gf Gp] Hs HF.
  apply wp_bind, (wp_free_entry level e' s1 new); [|done|rewrite Go; apply union_subseteq_r|].
  { apply (heap_moves s); [by destruct Hwf|done]. }
  intros s' Hm Ho Hp. apply HF. apply stable_same; [done|by eapply moves_trans| |].
  - rewrite Ho, Go. by apply drop_new_frames.
  - intros q Hq. rewrite Hp. by apply Gp.
Qed.

(** A split that succeeded is installed. *)
Lemma wp_install_split {A} s s1 new g l p es e e' target (K : M est A) Q :
  wf s -> at_level s g (S l) p -> (S l <= 3)%nat -> 0 <= g -> pages s !! p = Some es ->
  es !! idx g (S l) = Some e -> sp e = true -> (target <= l)%nat ->
  grown s s1 new -> table_entry e' (emfn e') -> good (S l) e' -> sub_rep (pages s1) (S l) e' new ->
  (forall h, 0 <= h -> split_view (ewalk (pages s1) (S l) e' h) target (S l) e h) ->
  (forall s', stable s s' -> at_level s' g (S l) p -> at_level s' g l (emfn e') ->
     (exists x, walk (pages s') 3 (root s') g = Some (target, x)) -> wp K Q s') ->
  wp (bind (atomic_write_ept_entry env p (idx g (S l)) e' (S l)) (fun rc =>
      bind (bug_on (negb (rc =? 0))) (fun _ => K))) Q s1.
Proof.
  intros Hwf Hr Hl Hg0 E Ee Hsp Htl Hgr Te Hge Hsr Hv HK.
  destruct (level_entry s g (S l) p 0 Hwf Hr ltac:(lia)) as (es' & _ & _ & E' & _ & _ & _ & Hpo & _).
  assert (Hel : tbl e = false) by (unfold tbl; rewrite Hsp; apply andb_false_r).
  destruct Te as (Tt & _ & _ & _ & Ts & Tf).
  apply wp_bind, (wp_atomic_write _ _ _ _ _ es e); [|done| | |done].
  - by rewrite (gr_pages _ _ _ Hgr).
  - intros _. by rewrite Ts.
  - intros s' Hm Ho Hp. apply wp_bind, wp_bug_on; [done|].
    destruct (stable_table s s1 s' g (S l) p (idx g (S l)) es e e' new) as [Hst Hr']; try done.
    { apply idx_lt. }
    { intros h Hh _. by eapply split_view_eq, Hv. }
    assert (Ep : pages s' !! p = Some (<[idx g (S l) := e']> es)) by (rewrite Hp; apply lookup_insert_eq).
    assert (Hlen : length es = 512%nat).
    { destruct (level_entry s g (S l) p 0 Hwf Hr ltac:(lia)) as (es2 & _ & _ & E2 & _ & Hlen & _).
      rewrite E in E2. apply (inj Some) in E2 as <-. done. }
    assert (Eep : (<[idx g (S l) := e']> es) !! idx g (S l) = Some e')
      by (apply list_lookup_insert_eq; rewrite Hlen; apply idx_lt).
    assert (Hpn : p ∉ new) by (intros Hpn; by apply (gr_fresh _ _ _ Hgr p)).
    assert (Hfn : forall q, q ∈ new -> pages s' !! q = pages s1 !! q)
      by (intros q Hq; rewrite Hp; apply lookup_insert_ne; by intros <-).
    apply HK; [done|done|by eapply extend_level|].
    destruct (Hv g Hg0) as (k & x & Ew & -> & _). exists x.
    rewrite (walk_via _ _ _ _ _ _ _ _ Hr' Ep Eep).
    by rewrite (ewalk_frame (pages s1) (pages s') (S l) e' new g Hfn Hsr).
Qed.

(** The walk on to the table behind an entry whose type was spread to it. *)
Lemma wp_push_down s g l p es e K :
  wf s -> at_level s g (S l) p -> (S l <= 3)%nat -> pages s !! p = Some es -> es !! idx g (S l) = Some e ->
  good (S l) e -> tbl e = true -> p <> emfn e -> length es = 512%nat ->
  (forall s', stable s s' -> at_level s' g l (emfn e) -> wp K (resolved s') s') ->
  wp (bind (ept_invalidate_emt env (emfn e) false (S l)) (fun _ =>
      bind (atomic_write_ept_entry env p (idx g (S l)) (e <| emt := 0 |> <| recalc := false |>) (S l)) (fun rc =>
        bind (bug_on (negb (rc =? 0))) (fun _ => K)))) (resolved s) s.
Proof.
  intros Hwf Hr Hl E Ee Hg Ht Hpe Hlen HK. pose proof (extend_level s g l p es e Hr Hl E Ee Ht) as Hr1.
  assert (Epr : is_epte_present e = true) by (unfold tbl in Ht; by apply andb_true_iff in Ht as [? _]).
  apply wp_bind. eapply wp_mono; [apply (wp_invalidate_emt s g l); [done|done|lia]|].
  intros _ s1 (Hst1 & Hr2 & Hfr). pose proof (st_wf _ _ Hst1) as Hwf1.
  assert (E1 : pages s1 !! p = Some es) by (by rewrite Hfr).
  assert (Hr1' : at_level s1 g (S l) p).
  { unfold at_level. rewrite (mv_root _ _ (st_moves _ _ Hst1)).
    apply (reach_above (pages s) _ g l (emfn e) (S l) 3 (root s) (own s)); try done; [|lia]. by destruct Hwf. }
  set (e1 := e <| emt := 0 |> <| recalc := false |>).
  assert (Hsim : sim e e1) by (apply sim_intro; [by left|done..]).
  assert (Hge : good (S l) e1) by (by apply (good_present _ e)).
  assert (Ht1 : tbl e1 = true) by (by rewrite (sim_tbl _ _ Hsim)).
  pose proof (sim_mfn _ _ Hsim) as Em1. clearbody e1.
  apply wp_bind, (wp_sim_write s1 g (S l) p (idx g (S l)) es e); try done; [apply idx_lt|].
  intros s2 Hst2 Hr3 Hp2. apply wp_bind, wp_bug_on; [done|].
  assert (Hr4 : at_level s2 g l (emfn e)).
  { rewrite <- Em1. apply (extend_level s2 g l p (<[idx g (S l) := e1]> es)); [done|done| | |done].
    - rewrite Hp2. apply lookup_insert_eq.
    - apply list_lookup_insert_eq. rewrite Hlen. apply idx_lt. }
  assert (Hst : stable s s2) by (by eapply stable_trans).
  eapply wp_mono; [by apply HK|]. intros rc' s3 [Hst3 Hrc']. split; [by eapply stable_trans|done].
Qed.

Lemma wp_resolve_from level : forall p rc s g,
  (level <= 3)%nat -> wf s -> at_level s g level p -> 0 <= g -> 0 <= rc ->
  wp (resolve_from env level p g rc) (resolved s) s.
Proof.
  induction level as [|l IH]; intros p rc s g Hl Hwf Hr Hg0 Hrc.
  { destruct (level_entry s g 0 p (idx g 0) Hwf Hr (idx_lt _ _)) as (es & e & sub & E & Ee & _).
    cbn [resolve_from]. rewrite idx_code. apply wp_bind, (wp_read_entry _ _ _ es e); [done|done|].
    destruct (negb _); [apply wp_ret; split; [by apply stable_refl|by right]|].
    apply wp_bind. eapply wp_mono; [by apply (wp_resolve_leafs s g)|].
    intros [] s' [Hst _]. apply wp_ret. split; [done|right; lia]. }
  destruct (level_entry s g (S l) p (idx g (S l)) Hwf Hr (idx_lt _ _))
    as (es & e & sub & E & Ee & Hlen & Hg & Hpo & Hsub & Hps & Hsr).
  cbn [resolve_from]. rewrite idx_code. apply wp_bind, (wp_read_entry _ _ _ es e); [done|done|].
  unfold is_epte_superpage. destruct (sp e) eqn:Esp.
  - destruct (negb _); [apply wp_ret; split; [by apply stable_refl|by right]|].
    destruct (env_emt env _ _ _ _) as [m ip]. rewrite (g_recalc _ _ Hg). cbv zeta.
    change (false && p2m_is_changeable (sa_p2mt e)) with false. cbv iota.
    destruct (g_super _ _ Hg ltac:(lia) Esp) as [GS1 GS2 GS3 GS4 GS5].
    destruct (m <? 0).
    + apply wp_bind. apply (wp_split env (S l) l ltac:(lia) GS1 e); [by destruct Hwf|done|done| |].
      * intros s1 e' new Hgr Te Hge Hs1 Hv. simpl fst. simpl snd. cbv iota.
        apply (wp_install_split s s1 new g l p es e e' l); try done.
        intros s' Hst Hr1 Hr2 _. eapply wp_mono; [apply (IH _ _ s' g); [lia|by destruct Hst|done|done|done]|].
        intros rc' s2 [Hst2 Hrc']. split; [by eapply stable_trans|done].
      * intros s1 e' new Hgr Hge Hs1. simpl fst. simpl snd. cbv iota.
        apply (wp_undo_split s s1 new (S l) e'); [done|done|done|].
        intros s' Hst. apply wp_ret. split; [done|by left].
    + set (e1 := e <| emt := _ |> <| ipat := _ |> <| recalc := _ |>).
      assert (Hsim : sim e e1) by (apply sim_intro; [by right|done..]).
      assert (Hge : good (S l) e1).
      { apply (sim_good _ e); [done|done| |done]. intros _ Hn. by rewrite (sim_sp _ _ Hsim), Esp in Hn. }
      replace (if false && p2m_is_changeable (sa_p2mt e1) then _ else e1) with e1 by done.
      clearbody e1. apply wp_bind, (wp_sim_write s g (S l) p (idx g (S l)) es e); try done; [apply idx_lt|].
      intros s' Hst _ _. apply wp_bind, wp_bug_on; [done|]. apply wp_ret. split; [done|right; lia].
  - destruct (Z.eqb_spec (emt e) MTRR_NUM_TYPES) as [Hemt|Hemt].
    + destruct (is_epte_present e) eqn:Epr; [|by destruct (g_emt _ _ Hg ltac:(lia) Esp Epr)].
      assert (Ht : tbl e = true) by (unfold tbl; by rewrite Epr, Esp).
      apply wp_bind, wp_bug_on; [done|]. rewrite (g_recalc _ _ Hg).
      apply (wp_push_down s g l p es e); try done.
      * intros Hpe. simpl in Hsr. rewrite Ht in Hsr. apply Hps. rewrite Hpe. by eapply rep_root_in.
      * intros s2 Hst2 Hr4. by apply (IH _ _ s2 g); [lia|destruct Hst2|..|lia].
    + destruct (is_epte_present e && (emt e =? 0)) eqn:Ep;
        [|apply wp_ret; split; [by apply stable_refl|by right]].
      apply andb_true_iff in Ep as [Ep _].
      apply (IH (emfn e) rc s g); [lia|done| |done|done].
      apply (extend_level s g l p es e); try done. unfold tbl. by rewrite Ep, Esp.
Qed.

Lemma wp_resolve_misconfig s g :
  wf s -> 0 <= g -> wp (resolve_misconfig env g) (resolved s) s.
Proof.
  intros Hwf Hg. unfold resolve_misconfig. apply wp_bind, wp_gets.
  destruct (Z.eqb_spec (asr s) 0) as [_|Hne].
  { apply wp_ret. split; [by apply stable_refl|by right]. }
  destruct (wf_asr _ Hwf) as [?|Ha]; [done|]. rewrite Ha. apply wp_bind.
  eapply wp_mono; [apply (wp_resolve_from 3 (root s) 0 s g); [done|done|apply reach_refl|done|done]|].
  intros rc s1 [Hst Hrc]. apply wp_bind. apply wp_when; intros _; [apply wp_modify|]; apply wp_ret.
  - split; [|done]. eapply stable_trans; [exact Hst|].
    destruct Hst as [Hwf1 _ _]. apply stable_same; [done|by split|done|done].
  - done.
Qed.

(** ** One level down *)

(** The part of [g] that is left for the tables of level [i] and below. *)
Definition rest (g : Z) (i : nat) : Z := g mod 2 ^ (9 * Z.of_nat (S i)).

Lemma rest_index g i : Z.to_nat (Z.shiftr (rest g i) (Z.of_nat i * EPT_TABLE_ORDER)) = idx g i.
Proof.
  unfold rest, idx, EPT_TABLE_ORDER. f_equal. rewrite Z.shiftr_div_pow2 by lia.
  rewrite (Z.mul_comm (Z.of_nat i)). replace (9 * Z.of_nat (S i)) with (9 * Z.of_nat i + 9) by lia.
  rewrite Z.pow_add_r by lia. change (2 ^ 9) with 512.
  assert (0 < 2 ^ (9 * Z.of_nat i)) by (apply Z.pow_pos_nonneg; lia).
  rewrite Z.rem_mul_r by lia.
  rewrite (Z.mul_comm (2 ^ (9 * Z.of_nat i)) ((g / 2 ^ (9 * Z.of_nat i)) mod 512)), Z.div_add by lia.
  rewrite Z.div_small by (apply Z.mod_pos_bound; lia). lia.
Qed.

Lemma rest_next g i :
  Z.land (rest g (S i)) (Z.shiftl 1 (Z.of_nat (S i) * EPT_TABLE_ORDER) - 1) = rest g i.
Proof.
  unfold rest, EPT_TABLE_ORDER. rewrite (Z.mul_comm (Z.of_nat (S i))).
  rewrite Z.shiftl_1_l, Z.sub_1_r, <- Z.ones_equiv, Z.land_ones by lia.
  apply Z.mod_mod_divide. exists (2 ^ 9). rewrite <- Z.pow_add_r by lia. f_equal. lia.
Qed.

(** The four outcomes of a step. *)
Lemma wp_next_level ro p s i g es e Q :
  pages s !! p = Some es -> es !! idx g (S i) = Some e ->
  (is_epte_present e = false -> is_pod (sa_p2mt e) = true ->
     Q (GUEST_TABLE_POD_PAGE, p, rest g (S i)) s) ->
  (is_epte_present e = false -> is_pod (sa_p2mt e) = false -> ro = true ->
     Q (GUEST_TABLE_MAP_FAILED, p, rest g (S i)) s) ->
  (is_epte_present e = false -> is_pod (sa_p2mt e) = false -> ro = false ->
     heap s /\ (forall s', same_frames s s' -> Q (GUEST_TABLE_MAP_FAILED, p, rest g (S i)) s') /\
     (forall s1 s' e' pg, moves s s1 -> pg ∉ own s -> 0 <= pg < 2 ^ 40 -> own s1 = own s ∪ {[pg]} ->
        pages s1 = <[pg := replicate 512 empty_entry]> (pages s) -> table_entry e' pg ->
        moves s1 s' -> own s' = own s1 -> pages s' = <[p := <[idx g (S i) := e']> es]> (pages s1) ->
        Q (GUEST_TABLE_NORMAL_PAGE, pg, rest g i) s') /\ p ∈ own s) ->
  (is_epte_present e = true -> sp e = true -> Q (GUEST_TABLE_SUPER_PAGE, p, rest g (S i)) s) ->
  (tbl e = true -> Q (GUEST_TABLE_NORMAL_PAGE, emfn e, rest g i) s) ->
  wp (ept_next_level env ro p (rest g (S i)) (S i)) Q s.
Proof.
  intros E Ee Hpod Hro Hrw Hsuper Htbl. unfold ept_next_level. cbv zeta. rewrite rest_index, rest_next.
  apply wp_bind, wp_bug_on.
  { apply negb_false_iff, Nat.ltb_lt. exact (idx_lt g (S i)). }
  apply wp_bind, (wp_read_entry _ _ _ es e); [done|done|]. unfold is_pod in *. unfold is_epte_superpage.
  destruct (is_epte_present e) eqn:Epr; simpl negb; cbv iota.
  - destruct (sp e) eqn:Esp; apply wp_ret; [by apply Hsuper|]. apply Htbl. unfold tbl. by rewrite Epr, Esp.
  - destruct (bool_decide (sa_p2mt e = p2m_populate_on_demand)); [apply wp_ret; by apply Hpod|].
    destruct ro; [apply wp_ret; by apply Hro|].
    destruct (Hrw eq_refl eq_refl eq_refl) as (Hh & Hnone & Hsome & Hpo).
    apply wp_bind, wp_set_middle; [done|intros s' Hs; apply wp_ret; by apply Hnone|].
    intros s1 e' pg Hm Hn Hpg Ho Hp Te. pose proof Te as (_ & Em & _ & _ & Ts & _).
    apply wp_bind, (wp_write_entry _ _ _ _ es).
    { rewrite Hp, lookup_insert_ne; [done|]. by intros <-. }
    intros s' Hm' Ho' Hp'. rewrite Ts, Em. apply wp_ret. by apply (Hsome s1 s' e').
Qed.

(** ** Lookups *)

Context (pod : Z -> Z -> Z -> M est Z).

Definition seen (r : p2m_ent * bool) : Z * p2m_type * p2m_access :=
  (e_mfn r.1, e_type r.1, e_access r.1).

Lemma wp_get_leaf s g i p es e :
  pages s !! p = Some es -> es !! idx g i = Some e -> recalc e = false ->
  ((0 < i)%nat -> is_epte_present e = true) ->
  wp (get_leaf env pod g 0 p (rest g i) i false) (fun r s' => s' = s /\ seen r = ent_view i e g) s.
Proof.
  intros E Ee Hr Hp. unfold get_leaf. cbv zeta. rewrite rest_index.
  apply wp_bind, (wp_read_entry _ _ _ es e); [done|done|].
  assert (Hpod : forall j : nat, i = S j -> is_epte_present e = true) by (intros j ->; apply Hp; lia).
  unfold ent_view. unfold is_pod. case_bool_decide as Et.
  - change (Z.land 0 P2M_ALLOC =? 0) with true. apply wp_ret. split; [done|].
    destruct i as [|j]; [done|]. by rewrite (Hpod j eq_refl).
  - apply wp_bind, (wp_read_entry _ _ _ es e); [done|done|]. rewrite Hr.
    destruct (is_epte_valid e) eqn:Ev; apply wp_ret; (split; [done|]).
    + destruct i as [|j]; [done|]. rewrite (Hpod j eq_refl). simpl Nat.eqb. cbv iota.
      rewrite rest_next. done.
    + destruct i as [|j]; [done|]. by rewrite (Hpod j eq_refl).
Qed.

Lemma wp_get_descend s g : wf s -> 0 <= g -> forall i fuel p,
  at_level s g i p -> (i <= 3)%nat -> (i < fuel)%nat ->
  wp (get_descend env pod fuel i g 0 p (rest g i) false) (fun r s' => s' = s /\ seen r = eview s g) s.
Proof.
  intros Hwf Hg0. induction i as [|i IH]; intros fuel p Hr Hi Hf; (destruct fuel as [|fuel]; [lia|]).
  - destruct (level_entry s g 0 p (idx g 0) Hwf Hr (idx_lt _ _)) as (es & e & sub & E & Ee & _ & Hg & _).
    cbn [get_descend]. unfold eview. rewrite (walk_via _ _ _ _ _ _ _ _ Hr E Ee).
    apply (wp_get_leaf s g 0 p es e); [done|done|by destruct Hg|lia].
  - destruct (level_entry s g (S i) p (idx g (S i)) Hwf Hr (idx_lt _ _)) as (es & e & sub & E & Ee & _ & Hg & _).
    cbn [get_descend]. rewrite rest_index. apply wp_bind, (wp_read_entry _ _ _ es e); [done|done|].
    rewrite (g_recalc _ _ Hg). change (false || false) with false.
    assert (Ev : tbl e = false -> eview s g = ent_view (S i) e g).
    { intros Ht. unfold eview. rewrite (walk_via _ _ _ _ _ _ _ _ Hr E Ee). simpl. by rewrite Ht. }
    apply wp_bind, (wp_next_level true p s i g es e); [done|done| | |done| |].
    + intros Hp Hpod. apply wp_ret. split; [done|]. rewrite Ev by (unfold tbl; by rewrite Hp).
      unfold ent_view. by rewrite Hp, Hpod.
    + intros Hp Hpod _. apply wp_ret. split; [done|]. rewrite Ev by (unfold tbl; by rewrite Hp).
      unfold ent_view. by rewrite Hp, Hpod.
    + intros Hp Hsp. change (_ =? _) with false at 1. simpl.
      rewrite Ev by (unfold tbl; by rewrite Hsp, andb_false_r).
      apply (wp_get_leaf s g (S i) p es e); [done|done|by destruct Hg|done].
    + intros Ht. apply (IH fuel (emfn e)); [|lia|lia].
      by apply (extend_level s g i p es e).
Qed.

(** What ept_get_entry() reports. *)
Definition elook (s : est) (g : Z) : Z * p2m_type * p2m_access :=
  if max_mapped_pfn s <? g then hole p2m_mmio_dm else eview s g.

Lemma rest_top g : 0 <= g < 2 ^ 36 -> rest g 3 = g.
Proof. intros. unfold rest. change (9 * Z.of_nat 4) with 36. by apply Z.mod_small. Qed.

Lemma wp_ept_get_entry s retries g :
  wf s -> 0 <= g ->
  wp (ept_get_entry env pod retries g 0) (fun r s' => s' = s /\ seen r = elook s g) s.
Proof.
  intros Hwf Hg. unfold ept_get_entry, elook. apply wp_bind, wp_gets.
  pose proof (wf_max _ Hwf) as Hmax. destruct (Z.ltb_spec (max_mapped_pfn s) g); [by apply wp_ret|].
  rewrite <- (rest_top g) at 2 by lia.
  apply (wp_get_descend s g Hwf Hg 3 (S ept_get_wl + retries)); [apply reach_refl|lia|].
  unfold ept_get_wl. lia.
Qed.

Lemma elook_view s g : wf s -> g < 2 ^ 36 -> elook s g = eview s g.
Proof.
  intros Hwf Hg. unfold elook. destruct (Z.ltb_spec (max_mapped_pfn s) g); [|done].
  symmetry. by apply (wf_above _ Hwf).
Qed.
End Write.
