(* ===== verification/EptSet.v ===== *)
(** * ept_set_entry() (theorems about Ept.v)

    Whatever superpages and tables are in the way, a successful update maps
    the block as asked and nothing else, a failed one changes no translation,
    and every frame stays accounted for. *)

From S2P Require Import Prelude Monad P2m HapPool Ept EptRep EptOps EptProofs.

#[local] Arguments union : simpl never.
#[local] Arguments difference : simpl never.
#[local] Arguments Z.pow : simpl never.
#[local] Arguments Z.mul : simpl never.
#[local] Arguments Z.of_nat : simpl never.

Lemma walk_level m g : forall l p k x, walk m l p g = Some (k, x) -> (k <= l)%nat.
Proof.
  induction l as [|l IH]; intros p k x Hw; rewrite walk_unfold in Hw;
    (destruct (m !! p) as [es|]; [|done]); simpl in Hw;
    (destruct (es !! _) as [e|]; [|done]); simpl in Hw; [injection Hw as <- _; lia|].
  destruct (tbl e); [apply IH in Hw; lia|injection Hw as <- _; lia].
Qed.

Section Set_entry.
Context (env : ept_env).

(** ** Descending *)

(** Why the descent for [g] stopped at the table [p] of level [i]. *)
Definition stopped (s : est) (g : Z) (target : nat) (r : Z) (i : nat) (p : Z) : Prop :=
  r = GUEST_TABLE_MAP_FAILED \/
  (r = GUEST_TABLE_NORMAL_PAGE /\ i = target) \/
  ((r = GUEST_TABLE_SUPER_PAGE \/ r = GUEST_TABLE_POD_PAGE) /\ (target < i)%nat /\
   exists es e, pages s !! p = Some es /\ es !! idx g i = Some e /\ sp e = true /\ good i e).

Lemma wp_set_descend g : 0 <= g -> forall n i p s Q,
  wf s -> at_level s g i p -> (n <= i)%nat -> (i <= 3)%nat ->
  (forall r i' p' s', stable s s' -> at_level s' g i' p' -> (i' <= 3)%nat ->
     stopped s' g (i - n) r i' p' -> Q (r, i', p', rest g i') s') ->
  wp (set_descend env n i p (rest g i) GUEST_TABLE_NORMAL_PAGE) Q s.
Proof.
  intros Hg0. induction n as [|n IH]; intros i p s Q Hwf Hr Hn Hi HQ.
  { apply wp_ret. apply HQ; [by apply stable_refl|done|done|]. right. left. split; [done|lia]. }
  destruct i as [|i]; [lia|]. change (S i - S n)%nat with (i - n)%nat in HQ.
  destruct (level_entry s g (S i) p (idx g (S i)) Hwf Hr (idx_lt _ _))
    as (es & e & sub & E & Ee & Hlen & Hg & Hpo & _ & _ & _).
  cbn [set_descend]. apply wp_bind, (wp_next_level env false p s i g es e); [done|done| |done| | |].
  - intros Hp Hpod. apply wp_ret. apply HQ; [by apply stable_refl|done|done|]. right. right.
    split; [by right|]. split; [lia|]. exists es, e. split_and!; try done.
    apply (g_pod _ _ Hg); [lia|]. unfold is_pod in Hpod. by apply bool_decide_eq_true in Hpod.
  - intros Hp Hpod _. split_and!; [by destruct Hwf| | |done].
    + intros s' [Hm Ho Hpg]. apply wp_ret.
      destruct (stable_same s s' Hwf Hm Ho ltac:(intros q _; by rewrite Hpg)) as [Hst Hat].
      apply HQ; [done|by apply Hat|done|by left].
    + intros s1 s' e' pg Hm Hn1 Hpg Ho Hp1 Te Hm' Ho' Hp'.
      pose proof Te as (Tt & Em & _).
      assert (Hgr : grown s s1 {[pg]}).
      { split; [done|done|by apply disjoint_singleton_l|].
        intros q Hq. rewrite Hp1. apply lookup_insert_ne. by intros ->. }
      assert (E1 : pages s1 !! emfn e' = Some (replicate 512 empty_entry))
        by (rewrite Hp1, Em; apply lookup_insert_eq).
      destruct (stable_table s s1 s' g (S i) p (idx g (S i)) es e e' {[pg]}) as [Hst Hr']; try done.
      * apply idx_lt.
      * unfold tbl. by rewrite Hp.
      * by apply (table_entry_good _ _ pg).
      * simpl. rewrite Tt. rewrite <- Em. by apply rep_empty.
      * intros h _ _. simpl. rewrite Tt, (walk_empty _ _ _ _ E1). simpl. rewrite Hp, Hpod.
        exact (empty_view i h).
      * assert (Hrn : at_level s' g i pg).
        { rewrite <- Em. apply (extend_level s' g i p (<[idx g (S i) := e']> es)); [done|done| | |done].
          - rewrite Hp'. apply lookup_insert_eq.
          - apply list_lookup_insert_eq. rewrite Hlen. apply idx_lt. }
        apply (IH i pg s' Q); [by destruct Hst|done|lia|lia|].
        intros r i' p' s2 Hst2. apply HQ. by eapply stable_trans.
  - intros Hp Hsp. apply wp_ret. apply HQ; [by apply stable_refl|done|done|]. right. right.
    split; [by left|]. split; [lia|]. exists es, e. done.
  - intros Ht. apply (IH i (emfn e) s Q); [done| |lia|lia|done].
    by apply (extend_level s g i p es e).
Qed.

Lemma wp_set_descend_top g n s Q :
  0 <= g < 2 ^ 36 -> wf s -> (n <= 3)%nat ->
  (forall r i' p' s', stable s s' -> at_level s' g i' p' -> (i' <= 3)%nat ->
     stopped s' g (3 - n) r i' p' -> Q (r, i', p', rest g i') s') ->
  wp (set_descend env n ept_get_wl (root s) g GUEST_TABLE_NORMAL_PAGE) Q s.
Proof.
  intros Hg Hwf Hn HQ. rewrite <- (rest_top g Hg).
  apply (wp_set_descend g ltac:(lia) n ept_get_wl); [done|apply reach_refl|done|done|done].
Qed.

(** Down the tables that a split has made. *)
Lemma wp_split_descend g target x s : wf s -> walk (pages s) 3 (root s) g = Some (target, x) ->
  forall n i p Q, at_level s g i p -> (i <= 3)%nat -> (i - n = target)%nat -> (n <= i)%nat ->
  (forall q, at_level s g target q -> Q (target, q, rest g target) s) ->
  wp (split_descend env n i p (rest g i)) Q s.
Proof.
  intros Hwf Hw. induction n as [|n IH]; intros i p Q Hr Hi Ht Hn HQ.
  { apply wp_ret. assert (i = target) as -> by lia. by apply HQ. }
  destruct i as [|i]; [lia|].
  destruct (level_entry s g (S i) p (idx g (S i)) Hwf Hr (idx_lt _ _))
    as (es & e & sub & E & Ee & Hlen & Hg & Hpo & _ & _ & _).
  assert (Htb : tbl e = true).
  { destruct (tbl e) eqn:Et; [done|]. rewrite (walk_via _ _ _ _ _ _ _ _ Hr E Ee) in Hw. simpl in Hw.
    rewrite Et in Hw. injection Hw as Heq _. lia. }
  pose proof Htb as Hps. unfold tbl in Hps. apply andb_true_iff in Hps as [Hp Hsp].
  apply negb_true_iff in Hsp.
  cbn [split_descend]. apply wp_bind, (wp_next_level env false p s i g es e); [done|done|congruence..|].
  intros _. apply (IH i (emfn e)); [by apply (extend_level s g i p es e)|lia|lia|lia|done].
Qed.

(** ** The block of a request *)

Lemma block_path t g h :
  (t <= 2)%nat -> 0 <= g < 2 ^ 36 -> g mod 2 ^ (9 * Z.of_nat t) = 0 -> 0 <= h < 2 ^ 36 ->
  same_path g h t 3 /\ idx h t = idx g t <-> g <= h < g + 2 ^ (9 * Z.of_nat t).
Proof.
  intros Ht Hg Ha Hh.
  assert (K : (forall k, (t <= k <= 3)%nat -> idx h k = idx g k) <->
              same_path g h t 3 /\ idx h t = idx g t).
  { split.
    - intros Hk. split; [intros k Hkk; apply Hk; lia|apply Hk; lia].
    - intros [Hs Hi] k Hk. destruct (decide (k = t)) as [->|]; [done|]. apply Hs. lia. }
  rewrite <- K. clear K. unfold idx.
  assert (Hz : forall z k, (0 < 512) /\ 0 <= (z / 2 ^ (9 * Z.of_nat k)) mod 512)
    by (intros z k; split; [lia|apply Z.mod_pos_bound; lia]).
  assert (Hk : (forall k, (t <= k <= 3)%nat ->
      Z.to_nat ((h / 2 ^ (9 * Z.of_nat k)) mod 512) = Z.to_nat ((g / 2 ^ (9 * Z.of_nat k)) mod 512)) <->
    forall k, (t <= k <= 3)%nat ->
      (h / 2 ^ (9 * Z.of_nat k)) mod 512 = (g / 2 ^ (9 * Z.of_nat k)) mod 512).
  { split; intros Hk k Hkk; specialize (Hk k Hkk); [|congruence].
    apply Z2Nat.inj in Hk; [done|apply Hz..]. }
  rewrite Hk. clear Hk Hz. split.
  - intros Hk. pose proof (Hk 3%nat ltac:(lia)) as H3. pose proof (Hk 2%nat ltac:(lia)) as H2.
    change (9 * Z.of_nat 3) with 27 in H3. change (9 * Z.of_nat 2) with 18 in H2.
    change (2 ^ 27) with 134217728 in *. change (2 ^ 18) with 262144 in *. change (2 ^ 36) with 68719476736 in *.
    destruct t as [|[|[|t]]]; [| | |lia].
    + pose proof (Hk 1%nat ltac:(lia)) as H1. pose proof (Hk 0%nat ltac:(lia)) as H0.
      change (9 * Z.of_nat 1) with 9 in *. change (9 * Z.of_nat 0) with 0 in *.
      change (2 ^ 9) with 512 in *. change (2 ^ 0) with 1 in *. dlia.
    + pose proof (Hk 1%nat ltac:(lia)) as H1. change (9 * Z.of_nat 1) with 9 in *.
      change (2 ^ 9) with 512 in *. dlia.
    + change (9 * Z.of_nat 2) with 18 in *. change (2 ^ 18) with 262144 in *. dlia.
  - intros Hb k Hk.
    assert (Hq : h / 2 ^ (9 * Z.of_nat t) = g / 2 ^ (9 * Z.of_nat t)).
    { destruct t as [|[|[|t]]]; [| | |lia]; 
        [change (9 * Z.of_nat 0) with 0 in *|change (9 * Z.of_nat 1) with 9 in *|
         change (9 * Z.of_nat 2) with 18 in *];
        change (2 ^ 9) with 512 in *; change (2 ^ 18) with 262144 in *; change (2 ^ 0) with 1 in *; dlia. }
    replace (9 * Z.of_nat k) with (9 * Z.of_nat t + 9 * Z.of_nat (k - t)) by lia.
    rewrite Z.pow_add_r by lia. rewrite <- !Z.div_div by (try apply Z.pow_nonzero; lia || apply Z.pow_pos_nonneg; lia).
    by rewrite Hq.
Qed.

(** ** The new entry *)

(** Requests for which an entry with contents is written. *)
Definition built (mfn : Z) (ty : p2m_type) : bool :=
  env_mfn_valid env mfn || bool_decide (ty = p2m_mmio_direct) || p2m_is_paged ty
  || bool_decide (ty = p2m_ram_paging_in).

(** What a lookup in the block is to report afterwards. *)
Definition new_view (gfn mfn : Z) (ty : p2m_type) (a : p2m_access) (g : Z) : Z * p2m_type * p2m_access :=
  if negb (built mfn ty) then hole p2m_mmio_dm
  else if is_pod ty then hole p2m_populate_on_demand
  else if bool_decide (ty = p2m_invalid) then hole p2m_mmio_dm
  else (mfn40 mfn + (g - gfn), ty, a).

(** Requests within the rules: a superpage needs the processor's support, a
    type that is not foreign, and permission to read or execute (or to be
    populate-on-demand). *)
Record legal (mfn order : Z) (ty : p2m_type) (a : p2m_access) : Prop := {
  lg_order : order = 0 \/ (order = 9 /\ env_2mb env = true) \/ (order = 18 /\ env_1gb env = true);
  lg_super : 0 < order -> p2m_is_foreign ty = false /\
               (ty = p2m_populate_on_demand \/ rx_of ty a = true)
}.

Lemma valid_type e :
  (sa_p2mt e = p2m_ram_rw -> access e = p2m_access_rwx -> is_epte_present e = true) ->
  is_epte_valid e = negb (bool_decide (sa_p2mt e = p2m_invalid)).
Proof.
  intros Hp. destruct (is_epte_present e) eqn:Epr; [by apply present_valid|].
  unfold is_epte_valid. rewrite bool_decide_false; [done|]. intros E.
  assert (H1 : sa_p2mt (e <| suppress_ve := false |>) = sa_p2mt e) by done.
  assert (H2 : access (e <| suppress_ve := false |>) = access e) by done.
  rewrite E in H1, H2. by specialize (Hp (eq_sym H1) (eq_sym H2)).
Qed.

Lemma mfn40_range z : 0 <= mfn40 z < 2 ^ 40.
Proof. apply Z.mod_pos_bound. lia. Qed.

Lemma mfn40_align z t : (t <= 2)%nat -> z mod 2 ^ (9 * Z.of_nat t) = 0 ->
  mfn40 z mod 2 ^ (9 * Z.of_nat t) = 0.
Proof.
  intros Ht Hz. unfold mfn40. rewrite Z.mod_mod_divide; [done|].
  exists (2 ^ (40 - 9 * Z.of_nat t)). rewrite <- Z.pow_add_r by lia. f_equal. lia.
Qed.

(** The fields of the entry that is written. *)
Lemma new_entry_fields gfn mfn t ty a b :
  built mfn ty = true ->
  let x := (make_entry env gfn mfn t ty a) <| suppress_ve := b |> in
  emfn x = mfn40 mfn /\ sp x = negb (t =? 0)%nat /\ sa_p2mt x = ty /\ access x = a /\
  recalc x = false /\ (ty = p2m_populate_on_demand \/ rx_of ty a = true -> is_epte_present x = rx_of ty a).
Proof.
  intros Hb. cbv zeta. unfold make_entry. unfold built in Hb. rewrite Hb.
  destruct (env_emt env _ _ _ _) as [m ip].
  match goal with |- context [ept_p2m_type_to_flags env ?e0 ty a] => set (y := e0) end.
  assert (Y : emfn y = mfn40 mfn /\ sp y = negb (t =? 0)%nat /\ sa_p2mt y = ty /\ access y = a /\ recalc y = false)
    by (subst y; split_and!; reflexivity).
  clearbody y. destruct Y as (Y1 & Y2 & Y3 & Y4 & Y5).
  destruct (flags_keep env y ty a) as (K1 & K2 & K3 & K4 & K5 & K6 & K7).
  pose proof (flags_present env y ty a) as K8.
  set (z := ept_p2m_type_to_flags env y ty a) in *. clearbody z.
  change (emfn (z <| suppress_ve := b |>)) with (emfn z). change (sp (z <| suppress_ve := b |>)) with (sp z).
  change (sa_p2mt (z <| suppress_ve := b |>)) with (sa_p2mt z).
  change (access (z <| suppress_ve := b |>)) with (access z).
  change (recalc (z <| suppress_ve := b |>)) with (recalc z).
  change (is_epte_present (z <| suppress_ve := b |>)) with (is_epte_present z).
  split_and!; congruence || done.
Qed.

Lemma new_entry_ok gfn mfn order t ty a b :
  legal mfn order ty a -> order = 9 * Z.of_nat t -> (t <= 2)%nat -> mfn mod 2 ^ (9 * Z.of_nat t) = 0 ->
  let x := (make_entry env gfn mfn t ty a) <| suppress_ve := b |> in
  good t x /\ (forall m, sub_rep m t x ∅) /\ (forall m h, ewalk m t x h = Some (t, x)) /\
  forall h, h mod 2 ^ (9 * Z.of_nat t) = h - gfn -> ent_view t x h = new_view gfn mfn ty a h.
Proof.
  intros [Lo Ls] Ho Ht Ha. cbv zeta. unfold new_view. destruct (built mfn ty) eqn:Hb.
  2: { unfold make_entry. unfold built in Hb. rewrite Hb. destruct b; cbv iota.
       - split_and!; [apply empty_good|intros m; destruct t; exact eq_refl|intros m h; destruct t; exact eq_refl|]. intros h _. apply empty_view.
       - split_and!; [apply zero_good|intros m; destruct t; exact eq_refl|intros m h; destruct t; exact eq_refl|]. intros h _. by destruct t. }
  destruct (new_entry_fields gfn mfn t ty a b Hb) as (F1 & F2 & F3 & F4 & F5 & F6).
  set (x := (make_entry env gfn mfn t ty a) <| suppress_ve := b |>) in *. clearbody x. simpl negb. cbv iota.
  assert (Hsup : (0 < t)%nat -> sp x = true /\ p2m_is_foreign ty = false /\
                  (ty = p2m_populate_on_demand \/ rx_of ty a = true)).
  { intros Hpos. rewrite F2. split; [destruct t; [lia|done]|]. apply Ls. lia. }
  split_and!.
  - split; [done|rewrite F1; apply mfn40_range| | | |intros ->; by rewrite F2].
    + intros Hpos _. destruct (Hsup Hpos) as (_ & Hf & Hr).
      split; [done|rewrite F1; by apply mfn40_align|by rewrite F3|rewrite F3, F4; by apply F6|by rewrite F3, F4].
    + intros Hpos _. by destruct (Hsup Hpos).
    + intros Hpos Hn. destruct (Hsup Hpos) as [Hs _]. congruence.
  - intros m. apply leaf_sub_rep. intros Hpos. by destruct (Hsup Hpos).
  - intros m h. apply leaf_ewalk. intros Hpos. by destruct (Hsup Hpos).
  - intros h Hh. assert (Hv : is_epte_valid x = negb (bool_decide (ty = p2m_invalid))).
    { rewrite <- F3. apply valid_type. rewrite F3, F4. intros -> ->. by apply F6; right. }
    unfold ent_view. rewrite F1, F3, F4, Hv. destruct t as [|t].
    + destruct (is_pod ty); [done|]. destruct (bool_decide (ty = p2m_invalid)); [done|]. simpl.
      change (9 * Z.of_nat 0) with 0 in Hh. change (2 ^ 0) with 1 in Hh. rewrite Z.mod_1_r in Hh.
      rewrite <- Hh. by rewrite Z.add_0_r.
    + destruct (Hsup ltac:(lia)) as (_ & _ & Hr). rewrite F6 by done. destruct Hr as [->|Hrx].
      * rewrite rx_pod. done.
      * rewrite Hrx. simpl negb. cbv iota. destruct (is_pod ty); [done|].
        destruct (bool_decide (ty = p2m_invalid)); [done|]. simpl. by rewrite Hh.
Qed.

(** ** The end of an update *)

Lemma same_refl s : same_frames s s.
Proof. split; [apply moves_refl|done|done]. Qed.
Lemma same_trans s1 s2 s3 : same_frames s1 s2 -> same_frames s2 s3 -> same_frames s1 s3.
Proof. intros [M1 O1 P1] [M2 O2 P2]. split; [by eapply moves_trans|congruence|congruence]. Qed.

Lemma wp_update_iommu gfn mfn order ty present s :
  wp (update_iommu env gfn mfn order ty present) (fun _ s' => same_frames s s') s.
Proof.
  assert (Hloop : forall (f : Z -> iommu_op) l s0,
    wp (for_each l (fun i => modify (fun s : est => s <| iommu_log ::= cons (f i) |>)))
      (fun _ s' => same_frames s0 s') s0).
  { intros f l. induction l as [|x l IH]; intros s0; simpl for_each; [apply wp_ret, same_refl|].
    apply wp_bind, wp_modify. eapply wp_mono; [apply IH|]. intros [] s' Hs.
    eapply same_trans; [|exact Hs]. split; [by split|done|done]. }
  unfold update_iommu. cbv zeta. destruct (env_pt_share env).
  - apply wp_modify. split; [by split|done|done].
  - destruct (negb _); apply Hloop.
Qed.

(** The old entry's tables are freed, and nothing else of the table changes. *)
Lemma wp_set_out gfn mfn order t ty a rc sync vtd present old sub s Q :
  heap s -> sub_rep (pages s) t old sub -> sub ⊆ own s ->
  (forall s', moves s s' -> own s' = own s ∖ sub -> pages s' = pages s -> Q rc s') ->
  wp (set_out env gfn mfn order t ty a rc sync vtd present old) Q s.
Proof.
  intros Hh Hs Hsub HQ. unfold set_out. apply wp_bind.
  assert (Hrest : forall s1, same_frames s s1 ->
    wp (bind (when (is_epte_present old) (ept_free_entry t old)) (fun _ =>
        bind (when ((rc =? 0) && env_host env)
          (modify (fun s : est => s <| propagated ::= cons (gfn, mfn, order, ty, a) |>))) (fun _ =>
        ret rc))) Q s1).
  { intros s1 [Hm1 Ho1 Hp1]. apply wp_bind.
    assert (Hfin : forall s2, moves s s2 -> own s2 = own s ∖ sub -> pages s2 = pages s ->
      wp (bind (when ((rc =? 0) && env_host env)
          (modify (fun s : est => s <| propagated ::= cons (gfn, mfn, order, ty, a) |>))) (fun _ =>
        ret rc)) Q s2).
    { intros s2 Hm2 Ho2 Hp2. apply wp_bind. apply wp_when; intros _; [apply wp_modify|]; apply wp_ret.
      - apply HQ; [by destruct Hm2; split|done|done].
      - by apply HQ. }
    apply wp_when; intros Hp.
    - apply (wp_free_entry t old s1 sub); [by apply (heap_moves s)|by rewrite Hp1|by rewrite Ho1|].
      intros s2 Hm2 Ho2 Hp2. apply Hfin; [by eapply moves_trans|by rewrite Ho2, Ho1|by rewrite Hp2, Hp1].
    - assert (sub = ∅) as -> by (destruct t; [done|]; simpl in Hs; unfold tbl in Hs; by rewrite Hp in Hs).
      apply Hfin; [done|by rewrite Ho1, difference_empty_L|done]. }
  assert (Hmid : forall s1, same_frames s s1 ->
    wp (bind (if (rc =? 0) && env_host env && env_need_iommu env && vtd
              then update_iommu env gfn mfn order ty present else ret tt) (fun _ =>
        bind (when (is_epte_present old) (ept_free_entry t old)) (fun _ =>
        bind (when ((rc =? 0) && env_host env)
          (modify (fun s : est => s <| propagated ::= cons (gfn, mfn, order, ty, a) |>))) (fun _ =>
        ret rc)))) Q s1).
  { intros s1 Hs1. apply wp_bind. destruct (_ && vtd); [|apply wp_ret; by apply Hrest].
    eapply wp_mono; [apply wp_update_iommu|]. intros [] s2 Hs2. apply Hrest. by eapply same_trans. }
  destruct sync; [apply wp_ret, Hmid, same_refl|..]; apply wp_modify, Hmid; (split; [by split|done|done]).
Qed.

(** What ept_set_entry() guarantees. *)
Record set_post (s : est) (gfn mfn order : Z) (ty : p2m_type) (a : p2m_access) (rc : Z) (s' : est) : Prop := {
  sp_wf : wf s';
  sp_rc : rc <= 0;
  sp_perm : p2m_list s' ++ freelist (pool s') ≡ₚ p2m_list s ++ freelist (pool s);
  sp_range : rc = 0 -> gfn + 2 ^ order <= 2 ^ 36;
  sp_in : rc = 0 -> forall g, gfn <= g < gfn + 2 ^ order -> eview s' g = new_view gfn mfn ty a g;
  sp_out : forall g, 0 <= g < 2 ^ 36 -> rc <> 0 \/ ~ gfn <= g < gfn + 2 ^ order -> eview s' g = eview s g
}.

Lemma post_stable s s' gfn mfn order ty a rc :
  stable s s' -> rc < 0 -> set_post s gfn mfn order ty a rc s'.
Proof.
  intros [Hwf Hm Hv] Hrc. split; [done|lia|by destruct Hm|lia|lia|]. intros g Hg _. by apply Hv; lia.
Qed.

Lemma post_trans s s1 s' gfn mfn order ty a rc :
  stable s s1 -> set_post s1 gfn mfn order ty a rc s' -> set_post s gfn mfn order ty a rc s'.
Proof.
  intros [Hwf Hm Hv] [P1 Prc P2 P0 P3 P4]. split; [done|done| |done|done|].
  - etransitivity; [exact P2|]. by destruct Hm.
  - intros g Hg Hn. rewrite P4 by done. by apply Hv; lia.
Qed.

Lemma wp_after_stable s s1 gfn mfn order ty a (m : M est Z) :
  stable s s1 -> wp m (fun rc s' => set_post s1 gfn mfn order ty a rc s') s1 ->
  wp m (fun rc s' => set_post s gfn mfn order ty a rc s') s1.
Proof. intros Hst Hm. eapply wp_mono; [exact Hm|]. intros rc s' Hp. by eapply post_trans. Qed.

Lemma wp_fail_out s gfn mfn order t ty a rc sync vtd present :
  wf s -> rc < 0 ->
  wp (set_out env gfn mfn order t ty a rc sync vtd present epte_zero)
    (fun r s' => set_post s gfn mfn order ty a r s') s.
Proof.
  intros Hwf Hrc. apply (wp_set_out _ _ _ _ _ _ _ _ _ _ _ ∅); [by destruct Hwf|by destruct t|apply empty_subseteq|].
  intros s' Hm Ho Hp. rewrite difference_empty_L in Ho. apply post_stable; [|done].
  by apply stable_same; [done|done|done|intros q _; rewrite Hp].
Qed.

(** ** Writing the new entry *)

Lemma shiftl_order order : 0 <= order -> Z.shiftl 1 order = 2 ^ order.
Proof. intros. by rewrite Z.shiftl_1_l. Qed.

Lemma block_offset t g h : (t <= 2)%nat -> g mod 2 ^ (9 * Z.of_nat t) = 0 ->
  g <= h < g + 2 ^ (9 * Z.of_nat t) -> h mod 2 ^ (9 * Z.of_nat t) = h - g.
Proof.
  intros Ht Hg Hh. assert (0 < 2 ^ (9 * Z.of_nat t)) by (apply Z.pow_pos_nonneg; lia).
  replace h with (g + (h - g)) at 1 by lia. rewrite <- Zplus_mod_idemp_l, Hg. apply Z.mod_small. lia.
Qed.

Lemma block_end t g : (t <= 2)%nat -> 0 <= g < 2 ^ 36 -> g mod 2 ^ (9 * Z.of_nat t) = 0 ->
  g + 2 ^ (9 * Z.of_nat t) <= 2 ^ 36.
Proof.
  intros Ht Hg Ha. change (2 ^ 36) with 68719476736 in *. destruct t as [|[|[|t]]]; [| | |lia];
    [change (9 * Z.of_nat 0) with 0 in *|change (9 * Z.of_nat 1) with 9 in *|change (9 * Z.of_nat 2) with 18 in *];
    change (2 ^ 9) with 512 in *; change (2 ^ 18) with 262144 in *; change (2 ^ 0) with 1 in *; dlia.
Qed.

(** The state after the entry is written, max_mapped_pfn raised and the old
    tables freed. *)
Lemma post_written s s' gfn mfn order t ty a p x sub :
  wf s -> order = 9 * Z.of_nat t -> (t <= 2)%nat -> 0 <= gfn < 2 ^ 36 ->
  gfn mod 2 ^ (9 * Z.of_nat t) = 0 ->
  updated (pages s) (pages s') 3 t (root s) p gfn (idx gfn t) x (own s') ->
  (forall h, ewalk (pages s') t x h = Some (t, x)) ->
  (forall h, h mod 2 ^ (9 * Z.of_nat t) = h - gfn -> ent_view t x h = new_view gfn mfn ty a h) ->
  own s' = own s ∖ sub -> root s' = root s -> asr s' = asr s ->
  max_mapped_pfn s' = (if bool_decide (ty = p2m_invalid) then max_mapped_pfn s
                       else Z.max (gfn + 2 ^ order - 1) (max_mapped_pfn s)) ->
  p2m_list s' ++ freelist (pool s') ≡ₚ p2m_list s ++ freelist (pool s) ->
  set_post s gfn mfn order ty a 0 s'.
Proof.
  intros [W1 W2 W3 W4 W5] -> Ht Hg Ha [U1 U2 U3 U4] Hew Hview Ho Hr Hasr Hmax Hperm.
  pose proof (block_end t gfn Ht Hg Ha) as Hend.
  assert (Hin : forall h, gfn <= h < gfn + 2 ^ (9 * Z.of_nat t) -> eview s' h = new_view gfn mfn ty a h).
  { intros h Hh. destruct (proj2 (block_path t gfn h Ht Hg Ha ltac:(lia)) Hh) as [Hs Hi].
    unfold eview. rewrite Hr, U3, Hew by done. apply Hview. by apply block_offset. }
  assert (Hout : forall h, 0 <= h < 2 ^ 36 -> ~ gfn <= h < gfn + 2 ^ (9 * Z.of_nat t) -> eview s' h = eview s h).
  { intros h Hh Hn. unfold eview. rewrite Hr, U4; [done|].
    intros Hb. by apply Hn, (block_path t gfn h). }
  split; [|done|done|by intros _|by intros _|].
  - split.
    + split; [by rewrite Hperm; destruct W1|]. intros x0 Hx0. apply W1. by rewrite <- Hperm.
    + by rewrite Hr.
    + by rewrite Hr, Hasr.
    + rewrite Hmax. case_bool_decide; [done|]. lia.
    + intros h Hh. rewrite Hmax in Hh.
      destruct (decide (gfn <= h < gfn + 2 ^ (9 * Z.of_nat t))) as [Hb|Hb].
      * rewrite Hin by done. unfold new_view. case_bool_decide as Eti; [|lia]. subst ty.
        by destruct (built mfn p2m_invalid).
      * rewrite Hout by (done || (case_bool_decide; lia)). apply W5.
        case_bool_decide; lia.
  - intros h Hh [Hn|Hn]; [done|]. by apply Hout.
Qed.

Lemma wp_set_write s gfn mfn order t ty a sve p sync present old es cur :
  wf s -> at_level s gfn t p -> legal mfn order ty a -> order = 9 * Z.of_nat t -> (t <= 2)%nat ->
  0 <= gfn < 2 ^ 36 -> gfn mod 2 ^ (9 * Z.of_nat t) = 0 -> mfn mod 2 ^ (9 * Z.of_nat t) = 0 ->
  pages s !! p = Some es -> es !! idx gfn t = Some cur ->
  old = cur \/ (old = epte_zero /\ ((0 < t)%nat -> tbl cur = false)) ->
  wp (set_write env gfn mfn order t ty a sve p (idx gfn t) sync present old)
    (fun rc s' => set_post s gfn mfn order ty a rc s') s.
Proof.
  intros Hwf Hr Hlg Ho Ht Hg Hga Hma E Ee Hold.
  destruct (update_at (pages s) gfn t p (idx gfn t) (idx_lt _ _) 3 (root s) (own s) (wf_rep _ Hwf) Hr)
    as (es1 & e1 & sub & E1 & Ee1 & Hlen & Hg1 & Hpo & Hsub & Hps & Hsr & Hup).
  rewrite E in E1. apply (inj Some) in E1 as <-. rewrite Ee in Ee1. apply (inj Some) in Ee1 as <-.
  assert (Hso : sub_rep (pages s) t old sub).
  { destruct Hold as [->|[-> Hleaf]]; [done|]. destruct t as [|t]; [done|].
    simpl in Hsr. rewrite (Hleaf ltac:(lia)) in Hsr. done. }
  unfold set_write. apply wp_bind, (wp_read_entry _ _ _ es cur); [done|done|]. cbv zeta.
  match goal with |- context [ (make_entry env gfn mfn t ty a) <| suppress_ve := ?bb |> ] =>
    destruct (new_entry_ok gfn mfn order t ty a bb Hlg Ho Ht Hma) as (Gx & Sx & Wx & Vx);
    set (x := (make_entry env gfn mfn t ty a) <| suppress_ve := bb |>) in * end.
  clearbody x. apply wp_bind, (wp_atomic_write env p (idx gfn t) x t s es cur); [done|done| | |].
  - intros _. by apply (good_foreign t).
  - intros s1 Hm1 Ho1 Hp1. simpl negb. cbv iota.
    assert (Hpages : forall q, q <> p -> pages s1 !! q = pages s !! q)
      by (intros q Hq; rewrite Hp1; by apply lookup_insert_ne).
    assert (Hch : forall s2, pages s2 = pages s1 -> changes_entry (pages s) (pages s2) (own s) sub p (idx gfn t) es x).
    { intros s2 ->. split; [intros q _ _; apply Hpages|]. rewrite Hp1. apply lookup_insert_eq. }
    assert (Hfin : forall s2, moves s1 (s2 <| max_mapped_pfn := max_mapped_pfn s1 |>) ->
      own s2 = own s1 -> pages s2 = pages s1 ->
      max_mapped_pfn s2 = (if bool_decide (ty = p2m_invalid) then max_mapped_pfn s
                           else Z.max (gfn + 2 ^ order - 1) (max_mapped_pfn s)) ->
      forall vtd, wp (set_out env gfn mfn order t ty a 0 sync vtd present old)
        (fun rc s' => set_post s gfn mfn order ty a rc s') s2).
    { intros s2 [N1 N2 N3 N4 N5] Ho2 Hp2 Hx2 vtd. simpl in N1, N2, N4, N5.
      assert (Hperm2 : p2m_list s2 ++ freelist (pool s2) ≡ₚ p2m_list s ++ freelist (pool s)).
      { etransitivity; [exact N5|]. by destruct Hm1. }
      apply (wp_set_out _ _ _ _ _ _ _ _ _ _ _ sub).
      - destruct Hwf as [[H1 H2] _ _ _ _]. split; [by rewrite Hperm2|]. intros y Hy. apply H2. by rewrite <- Hperm2.
      - apply (sub_rep_frame (pages s)); [|done]. intros q Hq. rewrite Hp2. apply Hpages. by intros ->.
      - by rewrite Ho2, Ho1.
      - intros s' Hm' Ho' Hp'. pose proof Hm' as [M1 M2 M3 M4 M5]. destruct Hm1 as [L1 L2 L3 L4 L5].
        assert (Hup' : updated (pages s) (pages s') 3 t (root s) p gfn (idx gfn t) x (own s')).
        { replace (own s') with ((own s ∖ sub) ∪ ∅) by (rewrite (right_id_L ∅ (∪)); congruence).
          apply Hup; [apply Hch; congruence|done|apply Sx|apply disjoint_empty_l]. }
        apply (post_written s s' gfn mfn order t ty a p x sub); try done; try congruence. by rewrite M5. }
    apply wp_bind. apply wp_when; intros Hty; [apply wp_modify|]; apply Hfin; try done.
    + unfold set. simpl. rewrite shiftl_order by (destruct Hlg as [[->|[[-> _]|[-> _]]] _]; lia).
      apply negb_true_iff in Hty. rewrite Hty. by rewrite (mv_max _ _ Hm1).
    + apply negb_false_iff in Hty. rewrite Hty. by destruct Hm1.
  - intros -> Hfor _ s1 rc [Hm1 Ho1 Hp1] Hrc. rewrite (proj2 (Z.eqb_neq rc 0)) by lia. simpl negb. cbv iota.
    apply wp_bind, wp_ret.
    destruct (stable_same s s1 Hwf Hm1 Ho1 ltac:(intros q _; by rewrite Hp1)) as [Hst _].
    eapply wp_mono; [apply wp_fail_out; [by destruct Hst|lia]|]. intros r s' Hpost. by eapply post_trans.
Qed.

(** ** The whole update *)

Lemma legal_target mfn order ty a :
  legal mfn order ty a -> exists t : nat, order = 9 * Z.of_nat t /\ (t <= 2)%nat /\
    Z.to_nat (order / EPT_TABLE_ORDER) = t /\
    ((t =? 2)%nat && env_1gb env || (t =? 1)%nat && env_2mb env || (t =? 0)%nat) = true.
Proof.
  intros [[->|[[-> H]|[-> H]]] _].
  - exists 0%nat. split_and!; done || lia.
  - exists 1%nat. split_and!; done || lia || by rewrite H.
  - exists 2%nat. split_and!; done || lia || by rewrite H.
Qed.

Lemma aligned_args gfn mfn order : 0 <= order ->
  Z.land (Z.lor gfn mfn) (Z.shiftl 1 order - 1) = 0 -> gfn mod 2 ^ order = 0 /\ mfn mod 2 ^ order = 0.
Proof.
  intros Ho. rewrite Z.shiftl_1_l, Z.sub_1_r, <- Z.ones_equiv, Z.land_lor_distr_l, !Z.land_ones by lia.
  intros H. by apply Z.lor_eq_0_iff in H.
Qed.

(** A superpage [e] above the target is split, and the new entry written into
    the table that replaces it. *)
Lemma wp_set_split s gfn mfn order t ty a sve p l es e sync present :
  wf s -> at_level s gfn (S l) p -> (S l <= 3)%nat -> legal mfn order ty a -> order = 9 * Z.of_nat t ->
  (t <= 2)%nat -> (t < S l)%nat -> 0 <= gfn < 2 ^ 36 ->
  gfn mod 2 ^ (9 * Z.of_nat t) = 0 -> mfn mod 2 ^ (9 * Z.of_nat t) = 0 ->
  pages s !! p = Some es -> es !! idx gfn (S l) = Some e -> sp e = true -> good (S l) e ->
  wp (bind (ept_split_super_page env (S l) t e) (fun r =>
        if negb r.1 then
          bind (ept_free_entry (S l) r.2) (fun _ =>
            set_out env gfn mfn order t ty a (- ENOMEM) sync true present epte_zero)
        else
          bind (atomic_write_ept_entry env p (idx gfn (S l)) r.2 (S l)) (fun rc =>
          bind (bug_on (negb (rc =? 0))) (fun _ =>
          bind (split_descend env (S l - t) (S l) p (rest gfn (S l))) (fun x => let '(i, table, rem) := x in
          bind (bug_on (negb (i =? t)%nat)) (fun _ =>
            set_write env gfn mfn order t ty a sve table (Z.to_nat (Z.shiftr rem (Z.of_nat i * EPT_TABLE_ORDER)))
              sync present epte_zero))))))
    (fun rc s' => set_post s gfn mfn order ty a rc s') s.
Proof.
  intros Hwf2 Hat Hl3 Hlg Ho Ht Hti Hg Hga Hma E Ee Hsp Hge.
  pose proof (gs_level _ _ (g_super _ _ Hge ltac:(lia) Hsp)) as Hl2.
  apply wp_bind, (wp_split env (S l) t Hti Hl2 e s); [by destruct Hwf2|done|done| |].
  - intros s3 e' new Hgr Te Hge' Hs3 Hv. cbn [fst snd negb]. cbv iota.
    apply (wp_install_split env s s3 new gfn l p es e e' t); try done; [lia..|].
    intros s4 Hst4 Hat4 _ (x & Hw). pose proof (st_wf _ _ Hst4) as Hwf4. apply wp_bind.
    apply (wp_split_descend gfn t x s4 Hwf4 Hw (S l - t) (S l) p); [done|lia|lia|lia|].
    intros q Hq. apply wp_bind, wp_bug_on; [by rewrite Nat.eqb_refl|]. rewrite rest_index.
    destruct (level_entry s4 gfn t q (idx gfn t) Hwf4 Hq (idx_lt _ _)) as (es4 & c & _ & E4 & Ee4 & _).
    apply (wp_after_stable s s4); [done|].
    apply (wp_set_write s4 gfn mfn order t ty a sve q _ _ epte_zero es4 c); try done. right.
    split; [done|]. intros Hpos. rewrite (walk_via _ _ _ _ _ _ _ _ Hq E4 Ee4) in Hw.
    destruct t as [|t']; [lia|]. simpl in Hw. destruct (tbl c) eqn:Ec; [|done].
    exfalso. apply walk_level in Hw. lia.
  - intros s3 e' new Hgr Hge' Hs3. cbn [fst snd negb]. cbv iota.
    apply (wp_undo_split s s3 new (S l) e'); [done|done|done|].
    intros s4 Hst4. apply (wp_after_stable s s4); [done|]. apply wp_fail_out; [by destruct Hst4|done].
Qed.

Lemma wp_ept_set_entry s gfn mfn order ty a sve :
  wf s -> legal mfn order ty a -> 0 <= gfn ->
  wp (ept_set_entry env gfn mfn order ty a sve) (fun rc s' => set_post s gfn mfn order ty a rc s') s.
Proof.
  intros Hwf Hlg Hg0. destruct (legal_target mfn order ty a Hlg) as (t & Ho & Ht & Et & Hcpu).
  unfold ept_set_entry. rewrite Et. cbv zeta. destruct (_ || negb (order mod _ =? 0)) eqn:Echk.
  { apply wp_ret. apply post_stable; [by apply stable_refl|done]. }
  apply orb_false_iff in Echk as [Echk _]. apply orb_false_iff in Echk as [Ea Er].
  apply negb_false_iff, Z.eqb_eq in Ea. apply negb_false_iff, Z.eqb_eq in Er.
  apply aligned_args in Ea as [Hga Hma]; [|lia]. rewrite Ho in Hga, Hma.
  assert (Hg : 0 <= gfn < 2 ^ 36).
  { change ((Z.of_nat ept_get_wl + 1) * EPT_TABLE_ORDER) with 36 in Er.
    rewrite Z.shiftr_div_pow2 in Er by lia. apply Z.div_small_iff in Er; lia. }
  apply wp_bind. eapply wp_mono; [by apply wp_resolve_misconfig|]. intros r s1 [Hst1 Hr].
  pose proof (st_wf _ _ Hst1) as Hwf1.
  destruct (Z.ltb_spec r 0) as [Hneg|Hnn].
  { apply wp_bind, wp_modify, wp_ret. eapply post_trans; [exact Hst1|].
    apply post_stable; [|lia]. apply stable_same; [done|by split|done|done]. }
  apply (wp_after_stable s s1); [done|]. apply wp_bind, wp_bug_on; [by rewrite Hcpu|].
  apply wp_bind, wp_bug_on.
  { destruct (Nat.eqb_spec t 0) as [_|Hne]; [by rewrite andb_false_r|].
    destruct (lg_super _ _ _ _ Hlg ltac:(lia)) as [-> _]. done. }
  apply wp_bind, wp_gets. apply wp_bind.
  apply (wp_set_descend_top gfn); [done|done|unfold ept_get_wl; lia|]. intros rr i p s2 Hst2 Hat Hi Hstop. replace (3 - (ept_get_wl - t))%nat with t in Hstop
    by (unfold ept_get_wl; lia).
  pose proof (st_wf _ _ Hst2) as Hwf2.
  apply (wp_after_stable s1 s2); [done|]. destruct Hstop as [->|[[-> ->]|(Hrr & Hti & es & e & E & Ee & Hsp & Hge)]].
  - apply wp_fail_out; [done|done].
  - simpl. rewrite rest_index, Nat.eqb_refl.
    destruct (level_entry s2 gfn t p (idx gfn t) Hwf2 Hat (idx_lt _ _)) as (es & e & _ & E & Ee & _).
    apply wp_bind, wp_bug_on; [done|].
    apply wp_bind, (wp_read_entry _ _ _ es e); [done|done|].
    apply (wp_set_write s2 gfn mfn order t ty a sve p _ _ e es e); try done. by left.
  - replace (rr =? GUEST_TABLE_MAP_FAILED) with false by (destruct Hrr as [->| ->]; done).
    rewrite rest_index. rewrite (proj2 (Nat.eqb_neq i t)) by lia. rewrite andb_false_r.
    apply wp_bind, wp_bug_on; [done|].
    apply wp_bind, (wp_read_entry _ _ _ es e); [done|done|].
    apply wp_bind, wp_bug_on; [unfold is_epte_superpage; by rewrite Hsp|].
    destruct i as [|l]; [lia|]. apply (wp_set_split s2 gfn mfn order t ty a sve p l es e); try done; lia.
Qed.
End Set_entry.
