(* ===== verification/EptClaims.v ===== *)
(** * The contract of an EPT p2m

    The claims about Ept.v, and the instance of the table interface of P2m.v
    that they discharge: what is proved of the generic layer over any lawful
    table holds over EPT tables in memory. *)

From S2P Require Import Prelude Monad P2m P2mProofs HapPool Ept EptRep EptOps EptProofs EptSet.

#[local] Arguments union : simpl never.
#[local] Arguments difference : simpl never.
#[local] Arguments Z.pow : simpl never.

(** ** A new table *)

(** After p2m_alloc_table() has taken the root [pg] from the pool. *)
Definition new_table (pg : Z) (p : hap_pool) : est :=
  mkEst {[pg := replicate 512 epte_zero]} p [pg] pg pg 0 p2m_access_rwx 0 [] ∅ [] [].

Lemma new_table_wf pg p :
  NoDup (pg :: freelist p) -> (forall x, x ∈ pg :: freelist p -> 0 <= x < 2 ^ 40) -> wf (new_table pg p).
Proof.
  intros Hn Hr. split.
  - split; [exact Hn|exact Hr].
  - replace (own (new_table pg p)) with ({[pg]} : gset Z).
    + apply (rep_blank epte_zero); [apply zero_good|done|]. simpl. apply lookup_singleton_eq.
    + unfold own. simpl. by rewrite (right_id_L ∅ (∪)).
  - by right.
  - simpl. lia.
  - intros g _. unfold eview. simpl root. simpl pages.
    rewrite (walk_entry _ _ _ _ (replicate 512 epte_zero) epte_zero); [done|apply lookup_singleton_eq|].
    apply lookup_replicate_2, idx_lt.
Qed.

Section Claims.
Context (env : ept_env).
Context (pod : Z -> Z -> Z -> M est Z).

Lemma elook_out s g : wf s -> 2 ^ 36 <= g -> elook s g = hole p2m_mmio_dm.
Proof.
  intros Hwf Hg. unfold elook. rewrite (proj2 (Z.ltb_lt _ _)); [done|].
  destruct (wf_max _ Hwf). lia.
Qed.

(** Lookups after an update. *)
Lemma elook_post s s' gfn mfn order ty a rc g :
  wf s -> set_post env s gfn mfn order ty a rc s' -> 0 <= gfn -> 0 <= g ->
  elook s' g = if (rc =? 0) && (gfn <=? g) && (g <? gfn + 2 ^ order)
               then new_view env gfn mfn ty a g else elook s g.
Proof.
  intros Hwf [P1 _ P2 P0 P3 P4] Hg0 Hg. destruct (_ && (g <? _)) eqn:Eb.
  - zbool. subst rc. specialize (P0 eq_refl). rewrite elook_view by (done || lia). apply P3; [done|lia].
  - destruct (Z.lt_ge_cases g (2 ^ 36)) as [Hlt|Hge]; [|by rewrite !elook_out].
    rewrite !elook_view by done. apply P4; [done|].
    destruct (Z.eqb_spec rc 0) as [->|]; [|by left]. right. intros Hb.
    rewrite (proj2 (Z.leb_le _ _)), (proj2 (Z.ltb_lt _ _)) in Eb by lia. done.
Qed.

(** C3. ept_set_entry() against ept_get_entry(), on the tables in memory: for
    a table in a proper state with no change of type pending, and a request
    within the rules of superpages, no ASSERT fails and no frame outside the
    table is touched; the table stays in a proper state; every frame is still
    either part of the table or in the pool; and of every guest frame a lookup
    reports afterwards what was asked for, if the call returned 0 and the
    frame is in the block, and exactly what it reported before otherwise,
    whatever tables had to be made, superpages split or sub-tables freed, and
    also when memory ran out half-way. *)
Theorem ept_set_entry_refines (s : est) (gfn mfn order : Z) (ty : p2m_type) (a : p2m_access) (sve : Z)
    (Hwf : wf s) (Hlegal : legal env mfn order ty a) (Hgfn : 0 <= gfn) :
  exists rc s', ept_set_entry env gfn mfn order ty a sve s = Some (rc, s') /\ wf s' /\
    p2m_list s' ++ freelist (pool s') ≡ₚ p2m_list s ++ freelist (pool s) /\
    forall g retries, 0 <= g -> exists r r',
      ept_get_entry env pod retries g 0 s = Some (r, s) /\
      ept_get_entry env pod retries g 0 s' = Some (r', s') /\
      seen r' = if (rc =? 0) && (gfn <=? g) && (g <? gfn + 2 ^ order)
                then new_view env gfn mfn ty a g else seen r.
Proof.
  destruct (wp_run _ _ _ (wp_ept_set_entry env s gfn mfn order ty a sve Hwf Hlegal Hgfn))
    as (rc & s' & E & Hpost).
  exists rc, s'. split; [done|]. split; [by destruct Hpost|]. split; [by destruct Hpost|].
  intros g retries Hg.
  destruct (wp_run _ _ _ (wp_ept_get_entry env pod s retries g Hwf Hg)) as (r & s1 & E1 & -> & Hr).
  destruct (wp_run _ _ _ (wp_ept_get_entry env pod s' retries g (sp_wf _ _ _ _ _ _ _ _ _ Hpost) Hg))
    as (r' & s2 & E2 & -> & Hr').
  exists r, r'. split; [done|]. split; [done|]. rewrite Hr, Hr'. by apply (elook_post s).
Qed.
End Claims.

(** ** The table interface *)

(** max_mapped_pfn is below INVALID_GFN in every state of the hypervisor; the
    type carries this bound, so that it holds of every table. *)
Definition ept_t (env : ept_env) (pod : Z -> Z -> Z -> M est Z) : Type :=
  {s : est | max_mapped_pfn s < INVALID_GFN}.

Section Instance_.
Context (env : ept_env) (pod : Z -> Z -> Z -> M est Z).

Definition pack (t : ept_t env pod) (s : est) : ept_t env pod :=
  match decide (max_mapped_pfn s < INVALID_GFN) with
  | left H => exist _ s H
  | right _ => t
  end.

(** The function pointers that ept_p2m_init() installs.  A call that stops
    the hypervisor has no result; it is given the error EINVAL here. *)
#[export] Instance ept_table : P2MTable (ept_t env pod) := {
  get_entry t gfn q :=
    match ept_get_entry env pod 0 gfn q (proj1_sig t) with
    | Some (r, s) => (r.1, if q =? 0 then t else pack t s)
    | None => (mkEnt INVALID_MFN p2m_mmio_dm p2m_access_n 0, t)
    end;
  set_entry t gfn mfn o ty a sve :=
    match ept_set_entry env gfn mfn o ty a sve (proj1_sig t) with
    | Some (rc, s) => (rc, pack t s)
    | None => (- EINVAL, t)
    end
}.

(** Requests for which the interface is lawful: to map frames that exist (or
    a type that needs none) with a mappable type, or to unmap a page. *)
Definition ept_may (mfn o : Z) (ty : p2m_type) (a : p2m_access) : Prop :=
  legal env mfn o ty a /\
  (mfn = INVALID_MFN -> built env mfn ty = false) /\
  (mfn <> INVALID_MFN -> built env mfn ty = true /\ 0 <= mfn < 2 ^ 40 /\
     ty <> p2m_invalid /\ ty <> p2m_populate_on_demand).

Lemma pack_ok t s : max_mapped_pfn s < INVALID_GFN -> proj1_sig (pack t s) = s.
Proof. intros H. unfold pack. by destruct (decide _). Qed.

Lemma wf_bound s : wf s -> max_mapped_pfn s < INVALID_GFN.
Proof. intros Hwf. destruct (wf_max _ Hwf). unfold INVALID_GFN. lia. Qed.

Lemma ept_get_seen (t : ept_t env pod) g :
  wf (proj1_sig t) -> 0 <= g ->
  let e := (get_entry t g 0).1 in (e_mfn e, e_type e, e_access e) = elook (proj1_sig t) g.
Proof.
  intros Hwf Hg. simpl.
  destruct (wp_run _ _ _ (wp_ept_get_entry env pod _ 0 g Hwf Hg)) as (r & s1 & E & _ & Hr).
  by rewrite E.
Qed.

Lemma ept_set_run (t : ept_t env pod) gfn mfn o ty a sve rc t' :
  wf (proj1_sig t) -> ept_may mfn o ty a -> 0 <= gfn ->
  set_entry t gfn mfn o ty a sve = (rc, t') ->
  set_post env (proj1_sig t) gfn mfn o ty a rc (proj1_sig t').
Proof.
  intros Hwf [Hl _] Hg. simpl.
  destruct (wp_run _ _ _ (wp_ept_set_entry env _ gfn mfn o ty a sve Hwf Hl Hg)) as (rc1 & s1 & E & Hp).
  rewrite E. intros [= <- <-]. rewrite pack_ok; [done|]. apply wf_bound. by destruct Hp.
Qed.

Lemma order_size_pos o ty a mfn : ept_may mfn o ty a -> order_size o = 2 ^ o /\ 0 < 2 ^ o.
Proof.
  intros [[Lo _] _]. split; [done|]. apply Z.pow_pos_nonneg; [lia|].
  destruct Lo as [->|[[-> _]|[-> _]]]; lia.
Qed.

#[export] Instance ept_laws : P2MTableLaws (ept_t env pod).
Proof.
  refine {| table_ok := fun t => wf (proj1_sig t); may_set := ept_may |}.
  - intros t gfn. simpl. by destruct (ept_get_entry _ _ _ _ _ _) as [[r s]|].
  - intros [s Hs]. unfold get_entry. simpl. unfold ept_get_entry, bind, gets. simpl.
    rewrite (proj2 (Z.ltb_lt _ _)) by done. done.
  - intros t t' gfn mfn o ty a sve rc Hwf Hm Hg E. by destruct (ept_set_run _ _ _ _ _ _ _ _ _ Hwf Hm Hg E).
  - intros t t' gfn mfn o ty a sve rc Hwf Hm Hg E. by destruct (ept_set_run _ _ _ _ _ _ _ _ _ Hwf Hm Hg E).
  - intros t t' gfn mfn o ty a sve g Hwf Hm Hg0 E Hga Hma Hne Hg e.
    pose proof (ept_set_run _ _ _ _ _ _ _ _ _ Hwf Hm Hg0 E) as Hp.
    destruct (order_size_pos _ _ _ _ Hm) as [Eo _]. rewrite Eo in Hg.
    pose proof (ept_get_seen t' g (sp_wf _ _ _ _ _ _ _ _ _ Hp) ltac:(lia)) as Hs.
    rewrite (elook_post env _ _ _ _ _ _ _ _ g Hwf Hp Hg0 ltac:(lia)) in Hs.
    rewrite (proj2 (Z.leb_le _ _)), (proj2 (Z.ltb_lt _ _)) in Hs by lia. simpl andb in Hs. cbv iota in Hs.
    destruct Hm as (_ & _ & Hm). destruct (Hm Hne) as (Hb & Hr & Hn1 & Hn2).
    unfold new_view in Hs. rewrite Hb in Hs. unfold is_pod in Hs.
    rewrite !bool_decide_false in Hs by done. simpl negb in Hs. cbv iota in Hs.
    unfold mfn40 in Hs. rewrite Z.mod_small in Hs by done. cbv zeta in Hs.
    injection Hs as H1 H2 H3. exact (conj H1 (conj H2 H3)).
  - intros t t' gfn ty a sve Hwf Hm Hg0 E.
    pose proof (ept_set_run _ _ _ _ _ _ _ _ _ Hwf Hm Hg0 E) as Hp.
    pose proof (ept_get_seen t' gfn (sp_wf _ _ _ _ _ _ _ _ _ Hp) Hg0) as Hs.
    rewrite (elook_post env _ _ _ _ _ _ _ _ gfn Hwf Hp Hg0 Hg0) in Hs.
    rewrite (proj2 (Z.leb_le _ _)), (proj2 (Z.ltb_lt _ _)) in Hs by (change (2 ^ 0) with 1; lia).
    simpl andb in Hs. cbv iota in Hs.
    destruct Hm as (_ & Hm & _). unfold new_view in Hs. rewrite (Hm eq_refl) in Hs. cbv zeta in Hs.
    injection Hs as H1 _ _. exact H1.
  - intros t t' gfn mfn o ty a sve rc g Hwf Hm Hg0 E Hga Hg Hout e e'.
    pose proof (ept_set_run _ _ _ _ _ _ _ _ _ Hwf Hm Hg0 E) as Hp.
    destruct (order_size_pos _ _ _ _ Hm) as [Eo _]. rewrite Eo in Hout.
    pose proof (ept_get_seen t' g (sp_wf _ _ _ _ _ _ _ _ _ Hp) Hg) as Hs'.
    pose proof (ept_get_seen t g Hwf Hg) as Hs.
    rewrite (elook_post env _ _ _ _ _ _ _ _ g Hwf Hp Hg0 Hg), <- Hs in Hs'.
    replace ((rc =? 0) && (gfn <=? g) && (g <? gfn + 2 ^ o)) with false in Hs'.
    + cbv zeta iota in Hs'. injection Hs' as H1 H2 H3. exact (conj H1 (conj H2 H3)).
    + symmetry. destruct (rc =? 0); [|done]. simpl.
      destruct Hout; [rewrite (proj2 (Z.leb_gt _ _)) by lia; done|].
      rewrite (proj2 (Z.ltb_ge _ _)) by lia. apply andb_false_r.
Defined.

(** What the interface calls a lookup is what ept_get_entry() reports. *)
Lemma look_elook (t : ept_t env pod) g : wf (proj1_sig t) -> 0 <= g -> look t g = elook (proj1_sig t) g.
Proof. apply ept_get_seen. Qed.
End Instance_.

(** ** The generic layer over EPT *)

(** Requests to map frames that exist, with a type and an access right that
    permit to read or execute. *)
Lemma may_map_ept env pod cfg mfn todo ty a :
  hap_has_2mb cfg = env_2mb env -> hap_has_1gb cfg = env_1gb env -> 0 < todo ->
  (forall i, 0 <= i < todo -> env_mfn_valid env (mfn + i) = true) ->
  0 <= mfn -> mfn + todo <= 2 ^ 40 -> p2m_is_foreign ty = false -> rx_of ty a = true ->
  may_map (T := ept_t env pod) cfg mfn todo ty a.
Proof.
  intros H2 H1 Ht Hv Hm Hmt Hf Hrx. unfold may_map.
  destruct (Z.eqb_spec mfn INVALID_MFN) as [->|Hne]; [unfold INVALID_MFN in *; lia|].
  intros i o Hi Hio Hs. unfold may_set. simpl.
  assert (Ho : 0 < 2 ^ o) by (apply Z.pow_pos_nonneg; [lia|]; destruct Hs as [->|[[-> _]|[-> _]]]; done).
  split_and!.
  - split; [|intros _; split; [done|by right]]. rewrite <- H2, <- H1.
    destruct Hs as [->|[[-> ->]|[-> ->]]]; [by left|by right; left|by right; right].
  - intros Heq. exfalso. unfold INVALID_MFN in *. lia.
  - intros _. unfold built. rewrite Hv by lia. split_and!; [done|lia|lia| |].
    + intros ->. by rewrite rx_invalid in Hrx.
    + intros ->. by rewrite rx_pod in Hrx.
Qed.

(** C30. From p2m_set_entry() down to the bits in memory: mapping a block of
    2^order existing frames into a proper EPT, with a type and an access
    right that let the guest read or execute, keeps the table proper, and if
    it returns 0 a walk of the table translates every frame of the block as
    asked; outside the block no translation changes in any case.  The loop of
    the generic layer is used through the table interface only, the tables in
    memory discharge its laws. *)
Theorem p2m_set_entry_on_ept (env : ept_env) (pod : Z -> Z -> Z -> M est Z) (cfg : p2m_config)
    (t t' : ept_t env pod) (gfn mfn order : Z) (ty : p2m_type) (a : p2m_access) (rc : Z)
    (H2mb : hap_has_2mb cfg = env_2mb env) (H1gb : hap_has_1gb cfg = env_1gb env)
    (Hwf : wf (proj1_sig t)) (Horder : 0 <= order) (Hgfn : 0 <= gfn) (Hend : gfn + 2 ^ order < 2 ^ 64)
    (Hframes : forall i, 0 <= i < 2 ^ order -> env_mfn_valid env (mfn + i) = true)
    (Hmfn : 0 <= mfn) (Hmax : mfn + 2 ^ order <= 2 ^ 40)
    (Hforeign : p2m_is_foreign ty = false) (Hperm : rx_of ty a = true)
    (Hrun : p2m_set_entry cfg t gfn mfn order ty a = (rc, t')) :
  wf (proj1_sig t') /\
  (rc = 0 -> forall g, gfn <= g < gfn + 2 ^ order -> elook (proj1_sig t') g = (mfn + (g - gfn), ty, a)) /\
  (forall g, 0 <= g -> g < gfn \/ gfn + 2 ^ order <= g -> elook (proj1_sig t') g = elook (proj1_sig t) g).
Proof.
  assert (Hp : 0 < 2 ^ order) by (apply Z.pow_pos_nonneg; lia).
  destruct (p2m_set_entry_ok cfg t gfn mfn order ty a rc t') as (Hok & Hin & Hout); try done.
  { by apply may_map_ept. }
  { right. unfold INVALID_MFN. lia. }
  split; [done|]. split.
  - intros Hrc g Hg. specialize (Hin Hrc g Hg). unfold mapped_as in Hin.
    rewrite (proj2 (Z.eqb_neq _ _)) in Hin by (unfold INVALID_MFN; lia).
    rewrite <- Hin. symmetry. apply look_elook; [done|lia].
  - intros g Hg Hn. rewrite <- !look_elook by done. by apply Hout.
Qed.

(** ** Concrete tables *)

(** 1 GiB and 2 MiB pages, all frames below 2^30 valid, all memory
    write-back. *)
Definition demo_env : ept_env :=
  mkEnv true false false (fun _ => false) (fun _ _ _ _ => (6, true)) (fun _ _ => 0)
    (fun m => m <? 2 ^ 30) (fun _ => true) (fun _ => true) true true false false false.
Definition demo_pod (_ _ _ : Z) : M est Z := ret 1.
Definition demo_pool (n : Z) : hap_pool := mkPool (seqZ 2 n) n n 1 false.
Definition demo_table : est := new_table 1 (demo_pool 6).

Lemma demo_table_wf : wf demo_table.
Proof.
  apply new_table_wf.
  - change (NoDup (seqZ 1 7)). apply NoDup_seqZ.
  - change (forall x, x ∈ seqZ 1 7 -> 0 <= x < 2 ^ 40). intros x Hx. apply elem_of_seqZ in Hx.
    change (2 ^ 40) with 1099511627776. lia.
Qed.

Lemma ept_set_entry_refines_witness :
  legal demo_env 1024 9 p2m_ram_rw p2m_access_rx /\
  exists rc s', ept_set_entry demo_env 512 1024 9 p2m_ram_rw p2m_access_rx (-1) demo_table = Some (rc, s') /\
    wf s' /\ p2m_list s' ++ freelist (pool s') ≡ₚ p2m_list demo_table ++ freelist (pool demo_table) /\
    forall g retries, 0 <= g -> exists r r',
      ept_get_entry demo_env demo_pod retries g 0 demo_table = Some (r, demo_table) /\
      ept_get_entry demo_env demo_pod retries g 0 s' = Some (r', s') /\
      seen r' = if (rc =? 0) && (512 <=? g) && (g <? 512 + 2 ^ 9)
                then new_view demo_env 512 1024 p2m_ram_rw p2m_access_rx g else seen r.
Proof.
  assert (Hl : legal demo_env 1024 9 p2m_ram_rw p2m_access_rx)
    by (split; [right; left; done|intros _; split; [done|by right]]).
  split; [exact Hl|].
  apply (ept_set_entry_refines demo_env demo_pod demo_table 512 1024 9 p2m_ram_rw p2m_access_rx (-1)
    demo_table_wf Hl). lia.
Defined.

Definition demo_cfg : p2m_config := mkCfg true true true true (2 ^ 30).
Definition demo_t : ept_t demo_env demo_pod := exist _ demo_table eq_refl.
Definition demo_run : Z * ept_t demo_env demo_pod :=
  p2m_set_entry demo_cfg demo_t 512 1024 9 p2m_ram_rw p2m_access_rx.

Lemma demo_run_eq :
  p2m_set_entry demo_cfg demo_t 512 1024 9 p2m_ram_rw p2m_access_rx = (demo_run.1, demo_run.2).
Proof. unfold demo_run. by destruct (p2m_set_entry _ _ _ _ _ _ _). Qed.

Lemma p2m_set_entry_on_ept_witness :
  demo_run.1 = 0 /\ wf (proj1_sig demo_run.2) /\
  elook (proj1_sig demo_run.2) 600 = (1112, p2m_ram_rw, p2m_access_rx).
Proof.
  assert (Hrc : demo_run.1 = 0) by (vm_compute; reflexivity).
  split; [exact Hrc|].
  destruct (p2m_set_entry_on_ept demo_env demo_pod demo_cfg demo_t demo_run.2 512 1024 9 p2m_ram_rw
    p2m_access_rx demo_run.1 eq_refl eq_refl demo_table_wf ltac:(lia) ltac:(lia)
    ltac:(vm_compute; reflexivity)
    ltac:(intros i Hi; apply Z.ltb_lt; change (2 ^ 9) with 512 in Hi; change (2 ^ 30) with 1073741824; lia)
    ltac:(lia) ltac:(vm_compute; discriminate) eq_refl eq_refl demo_run_eq)
    as (Hwf & Hin & _).
  split; [exact Hwf|]. apply (Hin Hrc). change (2 ^ 9) with 512. lia.
Defined.

(** What a lookup of [g] reports after one update of the demo table. *)
Definition set_then_get (order : Z) (a : p2m_access) (g : Z) : option (Z * (Z * p2m_type * p2m_access)) :=
  match ept_set_entry demo_env 262144 524288 order p2m_ram_rw a (-1) demo_table with
  | Some (rc, s) => (fun r => (rc, seen r.1)) <$> ept_get_entry demo_env demo_pod 0 g 0 s
  | None => None
  end.

(** The rule that a superpage needs some permission is one the code does
    not enforce: a 2 MiB or 1 GiB page mapped with no access rights is
    accepted with result 0, and yet lookups in it find no translation, while
    a 4 KiB page mapped the same way is found with its frame and its rights.
    ept_next_level() takes an entry without permission bits for an empty one
    at every level but the last. *)
Theorem superpage_without_access_is_lost (wide n2 : bool) :
  let order := if wide then 18 else 9 in
  let a := if n2 then p2m_access_n2rwx else p2m_access_n in
  set_then_get order a 262144 = Some (0, hole p2m_mmio_dm) /\
  set_then_get 0 a 262144 = Some (0, (524288, p2m_ram_rw, a)).
Proof. destruct wide, n2; vm_compute; split; reflexivity. Qed.
