(* ===== verification/Altp2m.v ===== *)
(** * Alternate p2m views and VMFUNC
      (xen/arch/x86/mm/altp2m.c, mm/p2m.c, mm/hap/hap.c, hvm/hvm.c, hvm/vmx/vmx.c)

    The state is one HVM domain: its vCPUs with the VMCS fields EPTP switching
    uses, its 39 alternate tables, the EPTP list page the processor reads, and
    the host table.  A pointer to a p2m is its index; NULL is [None].  The
    operations run in the monad of Monad.v: [BUG_ON], a NULL dereference and
    an access through a missing array are the fatal outcome.

    [cur] is the calling vCPU when it belongs to the domain.  A vCPU is in the
    guest ([in_guest]) or in the hypervisor; pausing a vCPU that is in the
    guest forces its VM exit, whose EPTP check runs before anything else. *)

From S2P Require Import Prelude Monad P2m.

Definition MAX_ALTP2M : Z := 39.
Definition MAX_EPTP : Z := 512.
Definition INVALID_ALTP2M : Z := 65535.
Definition SECONDARY_EXEC_ENABLE_VM_FUNCTIONS : Z := 0x2000.
Definition SECONDARY_EXEC_ENABLE_VIRT_EXCEPTIONS : Z := 0x40000.
Definition VMX_VMFUNC_EPTP_SWITCHING : Z := 1.
Definition X86EMUL_OKAY : Z := 0.
Definition X86EMUL_EXCEPTION : Z := 2.
Definition EXIT_REASON_EPT_VIOLATION : Z := 48.

(** struct vcpu: struct altp2mvcpu, secondary_exec_control, VMCS fields. *)
Record vcpu := mkVcpu {
  p2midx : Z;
  veinfo_gfn : Z;
  secondary_exec_control : Z;
  EPT_POINTER : Z;
  EPTP_INDEX : Z;
  VM_FUNCTION_CONTROL : Z;
  EPTP_LIST_ADDR : Z;
  VIRT_EXCEPTION_INFO : Z;
  SECONDARY_VM_EXEC_CONTROL : Z;
  pause_count : Z;
  in_guest : bool
}.
#[export] Instance eta_vcpu : Eta vcpu := fun x =>
  mkVcpu (p2midx x) (veinfo_gfn x) (secondary_exec_control x) (EPT_POINTER x)
    (EPTP_INDEX x) (VM_FUNCTION_CONTROL x) (EPTP_LIST_ADDR x)
    (VIRT_EXCEPTION_INFO x) (SECONDARY_VM_EXEC_CONTROL x) (pause_count x)
    (in_guest x).

Record domain (T : Type) := mkDomain {
  vcpus : list vcpu;
  altp2m_p2m : list (option (p2m_domain T));
  altp2m_eptp : list Z;                    (* [] before the page is allocated *)
  eptp_maddr : Z;                          (* virt_to_maddr(altp2m_eptp) *)
  hostp2m : option (p2m_domain T);
  nested_p2m : list (option (p2m_domain T));
  m2p : gmap Z Z;
  altp2m_active : bool;
  is_dying : bool;
  crashed : bool;                          (* domain_crash() was called *)
  is_hvm : bool;
  nestedhvm_enabled : bool;
  param_altp2m : Z;                        (* params[HVM_PARAM_ALTP2M] *)
  dom_pause_count : Z
}.
Arguments mkDomain {T}.
Arguments vcpus {T}. Arguments altp2m_p2m {T}. Arguments altp2m_eptp {T}.
Arguments eptp_maddr {T}. Arguments hostp2m {T}. Arguments nested_p2m {T}.
Arguments m2p {T}. Arguments altp2m_active {T}. Arguments is_dying {T}.
Arguments crashed {T}. Arguments is_hvm {T}. Arguments nestedhvm_enabled {T}.
Arguments param_altp2m {T}. Arguments dom_pause_count {T}.
#[export] Instance eta_domain {T} : Eta (domain T) := fun x =>
  mkDomain (vcpus x) (altp2m_p2m x) (altp2m_eptp x) (eptp_maddr x) (hostp2m x)
    (nested_p2m x) (m2p x) (altp2m_active x) (is_dying x) (crashed x)
    (is_hvm x) (nestedhvm_enabled x) (param_altp2m x) (dom_pause_count x).

Section Altp2m.
Local Open Scope monad_scope.
Context {T : Type} `{P2MTable T}.
Context (cfg : p2m_config) (plat : platform).
Context (mem_sharing_unshare_page : T -> Z -> T).
(** A table whose top level is clear. *)
Context (zero : T).
(** [Some k] when [current] is vCPU [k] of the domain, else [None]. *)
Context (cur : option nat).

Local Abbreviation D := (domain T).

(** ** Access to the shared structures *)

Definition vcpu_get (k : nat) : M D vcpu := deref (fun d => vcpus d !! k).
Definition vcpu_upd (k : nat) (f : vcpu -> vcpu) : M D unit :=
  modify (fun d => d <| vcpus ::= alter f k |>).
Definition for_each_vcpu (body : nat -> M D unit) : M D unit :=
  let! n := gets (fun d : D => length (vcpus d)) in
  for_each (seq 0 n) body.

(** d->arch.altp2m_p2m[i] as a pointer, dereferenced. *)
Definition p2m_get (i : Z) : M D (p2m_domain T) :=
  deref (fun d => mjoin (altp2m_p2m d !! Z.to_nat i)).
Definition p2m_upd (i : Z) (f : p2m_domain T -> p2m_domain T) : M D unit :=
  p2m_get i ;; modify (fun d => d <| altp2m_p2m ::= alter (fmap f) (Z.to_nat i) |>).
Definition host_get : M D (p2m_domain T) := deref hostp2m.
Definition host_upd (f : p2m_domain T -> p2m_domain T) : M D unit :=
  host_get ;; modify (fun d => d <| hostp2m ::= fmap f |>).

(** d->arch.altp2m_eptp[i] *)
Definition eptp_get (i : Z) : M D Z := deref (fun d => altp2m_eptp d !! Z.to_nat i).
Definition eptp_set (i e : Z) : M D unit :=
  eptp_get i ;; modify (fun d => d <| altp2m_eptp ::= <[Z.to_nat i := e]> |>).

Definition domain_crash : M D unit := modify (fun d => d <| crashed := true |>).

(** get_gfn_type_access() on the host table and on an alternate table. *)
Definition get_gfn_host (gfn q : Z) : M D p2m_ent :=
  let! h := host_get in
  let '(e, t, crash) := __get_gfn_type_access cfg mem_sharing_unshare_page
                          (Some (table h)) gfn q in
  host_upd (fun h => h <| table := default (table h) t |>) ;;
  when crash domain_crash ;;
  ret e.
Definition get_gfn_alt (i : option Z) (gfn q : Z) : M D p2m_ent :=
  match i with
  | None =>
      ret ((__get_gfn_type_access cfg mem_sharing_unshare_page None gfn q).1.1)
  | Some i =>
      let! p := p2m_get i in
      let '(e, t, crash) := __get_gfn_type_access cfg mem_sharing_unshare_page
                              (Some (table p)) gfn q in
      p2m_upd i (fun p => p <| table := default (table p) t |>) ;;
      when crash domain_crash ;;
      ret e
  end.

(** p2m->get_entry() and p2m->set_entry() through the function pointers. *)
Definition alt_get_entry (i gfn q : Z) : M D p2m_ent :=
  let! p := p2m_get i in
  let '(e, t) := get_entry (table p) gfn q in
  p2m_upd i (fun p => p <| table := t |>) ;;
  ret e.
Definition host_get_entry (gfn q : Z) : M D p2m_ent :=
  let! h := host_get in
  let '(e, t) := get_entry (table h) gfn q in
  host_upd (fun h => h <| table := t |>) ;;
  ret e.
Definition alt_set_entry (i gfn mfn order : Z) (ty : p2m_type) (a : p2m_access)
    (sve : Z) : M D Z :=
  let! p := p2m_get i in
  let '(rc, t) := set_entry (table p) gfn mfn order ty a sve in
  p2m_upd i (fun p => p <| table := t |>) ;;
  ret rc.
Definition alt_p2m_set_entry (i gfn mfn order : Z) (ty : p2m_type) (a : p2m_access)
  : M D Z :=
  let! p := p2m_get i in
  let '(rc, t) := p2m_set_entry cfg (table p) gfn mfn order ty a in
  p2m_upd i (fun p => p <| table := t |>) ;;
  ret rc.

(** ** Current view of a vCPU *)

Definition p2m_get_altp2m (k : nat) : M D (option Z) :=
  let! v := vcpu_get k in
  let index := p2midx v in
  if index =? INVALID_ALTP2M then ret None
  else
    bug_on (MAX_ALTP2M <=? index) ;;
    let! p := deref (fun d : D => altp2m_p2m d !! Z.to_nat index) in
    ret (match p with Some _ => Some index | None => None end).

(** atomic_inc / atomic_dec(&p->active_vcpus); NULL is fatal. *)
Definition active_vcpus_add (p : option Z) (delta : Z) : M D unit :=
  let! i := deref (fun _ : D => p) in
  p2m_upd i (fun p => p <| active_vcpus ::= Z.add delta |>).

(** ** vmx.c: loading the VMCS *)

Definition vmx_vcpu_update_eptp (k : nat) : M D unit :=
  let! active := gets altp2m_active in
  let! p2m := if active then p2m_get_altp2m k else ret None in
  let! eptp :=
    match p2m with
    | Some i =>
        p2m_upd i (fun p => p <| ept_asr := phys_table p |>) ;;
        let! p := p2m_get i in ret (ept_get_eptp p)
    | None =>
        host_upd (fun p => p <| ept_asr := phys_table p |>) ;;
        let! p := host_get in ret (ept_get_eptp p)
    end in
  vcpu_upd k (fun v => v <| EPT_POINTER := eptp |>) ;;
  let! v := vcpu_get k in
  when (negb (Z.land (secondary_exec_control v)
                SECONDARY_EXEC_ENABLE_VIRT_EXCEPTIONS =? 0))
    (vcpu_upd k (fun v => v <| EPTP_INDEX := p2midx v |>)).

Definition vmx_vcpu_update_vmfunc_ve (k : nat) : M D unit :=
  if negb (cpu_has_vmx_vmfunc plat) then ret tt
  else
    let mask :=
      if cpu_has_vmx_virt_exceptions plat
      then Z.lor SECONDARY_EXEC_ENABLE_VM_FUNCTIONS SECONDARY_EXEC_ENABLE_VIRT_EXCEPTIONS
      else SECONDARY_EXEC_ENABLE_VM_FUNCTIONS in
    let! d := gets (fun d : D => d) in
    (if negb (is_dying d) && altp2m_active d then
       vcpu_upd k (fun v => v <| secondary_exec_control ::= fun c => Z.lor c mask |>
                               <| VM_FUNCTION_CONTROL := VMX_VMFUNC_EPTP_SWITCHING |>
                               <| EPTP_LIST_ADDR := eptp_maddr d |>) ;;
       when (cpu_has_vmx_virt_exceptions plat)
         (let! v := vcpu_get k in
          let! e := get_gfn_host (veinfo_gfn v) 0 in
          if negb (e_mfn e =? INVALID_MFN) then
            vcpu_upd k (fun v => v <| VIRT_EXCEPTION_INFO :=
                                        u64 (Z.shiftl (e_mfn e) PAGE_SHIFT) |>)
          else
            vcpu_upd k (fun v => v <| secondary_exec_control ::=
              fun c => Z.ldiff c SECONDARY_EXEC_ENABLE_VIRT_EXCEPTIONS |>))
     else
       vcpu_upd k (fun v => v <| secondary_exec_control ::= fun c => Z.ldiff c mask |>)) ;;
    vcpu_upd k (fun v => v <| SECONDARY_VM_EXEC_CONTROL := secondary_exec_control v |>).

(** hvm.c: the wrappers over hvm_funcs. *)
Definition altp2m_vcpu_update_p2m (k : nat) : M D unit :=
  when (altp2m_hooks plat) (vmx_vcpu_update_eptp k).
Definition altp2m_vcpu_update_vmfunc_ve (k : nat) : M D unit :=
  when (altp2m_hooks plat) (vmx_vcpu_update_vmfunc_ve k).

(** ** Finding and switching views *)

Fixpoint find_eptp_from (ids : list Z) (eptp : Z) : M D Z :=
  match ids with
  | [] => ret INVALID_ALTP2M
  | i :: ids' =>
      let! e := eptp_get i in
      if e =? INVALID_MFN then find_eptp_from ids' eptp
      else
        let! p := p2m_get i in
        if eptp =? ept_get_eptp p then ret i else find_eptp_from ids' eptp
  end.
Definition p2m_find_altp2m_by_eptp (eptp : Z) : M D Z :=
  find_eptp_from (iota (Z.to_nat MAX_ALTP2M)) eptp.

(** The three statements that move a vCPU between views. *)
Definition move_vcpu (k : nat) (idx : Z) : M D unit :=
  let! p := p2m_get_altp2m k in
  active_vcpus_add p (-1) ;;
  vcpu_upd k (fun v => v <| p2midx := u16 idx |>) ;;
  let! p := p2m_get_altp2m k in
  active_vcpus_add p 1.

(** vmx_vmexit_handler(): whether the guest switched EPTP by itself. *)
Definition vmexit_sync_eptp (k : nat) : M D unit :=
  let! active := gets altp2m_active in
  let! v := vcpu_get k in
  when (active && negb (Z.land (secondary_exec_control v)
                          SECONDARY_EXEC_ENABLE_VM_FUNCTIONS =? 0))
    (let! idx :=
       if negb (Z.land (secondary_exec_control v)
                  SECONDARY_EXEC_ENABLE_VIRT_EXCEPTIONS =? 0)
       then ret (EPTP_INDEX v)
       else
         let! idx := p2m_find_altp2m_by_eptp (EPT_POINTER v) in
         when (idx =? INVALID_ALTP2M) domain_crash ;;
         ret idx in
     when (negb (idx =? p2midx v))
       (bug_on (MAX_ALTP2M <=? idx) ;;
        move_vcpu k idx)).

(** A VM exit of vCPU [k]. *)
Definition vmexit (k : nat) : M D unit :=
  vcpu_upd k (fun v => v <| in_guest := false |>) ;;
  vmexit_sync_eptp k.

(** vcpu_sleep_sync() returns once the vCPU is out of the guest. *)
Definition vcpu_sleep_sync (k : nat) : M D unit :=
  let! v := vcpu_get k in
  when (in_guest v) (vmexit k).
Definition vcpu_pause (k : nat) : M D unit :=
  vcpu_upd k (fun v => v <| pause_count ::= Z.add 1 |>) ;;
  vcpu_sleep_sync k.
Definition vcpu_unpause (k : nat) : M D unit :=
  vcpu_upd k (fun v => v <| pause_count ::= Z.add (-1) |>).

Definition is_current (k : nat) : bool := bool_decide (cur = Some k).

Definition domain_pause_except_self : M D unit :=
  match cur with
  | Some c => for_each_vcpu (fun k => when (negb (is_current k)) (vcpu_pause k))
  | None =>
      modify (fun d : D => d <| dom_pause_count ::= Z.add 1 |>) ;;
      for_each_vcpu vcpu_sleep_sync
  end.
Definition domain_unpause_except_self : M D unit :=
  match cur with
  | Some c => for_each_vcpu (fun k => when (negb (is_current k)) (vcpu_unpause k))
  | None => modify (fun d : D => d <| dom_pause_count ::= Z.add (-1) |>)
  end.

Definition p2m_switch_vcpu_altp2m_by_id (k : nat) (idx : Z) : M D bool :=
  if MAX_ALTP2M <=? idx then ret false
  else
    let! e := eptp_get idx in
    if negb (e =? INVALID_MFN) then
      let! v := vcpu_get k in
      when (negb (idx =? p2midx v))
        (move_vcpu k idx ;; altp2m_vcpu_update_p2m k) ;;
      ret true
    else ret false.

Definition p2m_altp2m_check (k : nat) (idx : Z) : M D unit :=
  let! active := gets altp2m_active in
  when active (p2m_switch_vcpu_altp2m_by_id k idx ;; ret tt).

Definition vmx_vcpu_emulate_vmfunc (k : nat) (eax ecx : Z) : M D Z :=
  let! active := gets altp2m_active in
  if negb (cpu_has_vmx_vmfunc plat) && active && (eax =? 0) then
    let! ok := p2m_switch_vcpu_altp2m_by_id k ecx in
    ret (if ok then X86EMUL_OKAY else X86EMUL_EXCEPTION)
  else ret X86EMUL_EXCEPTION.

Definition p2m_switch_domain_altp2m_by_id (idx : Z) : M D Z :=
  if MAX_ALTP2M <=? idx then ret (- EINVAL)
  else
    domain_pause_except_self ;;
    let! e := eptp_get idx in
    let! rc :=
      if negb (e =? INVALID_MFN) then
        for_each_vcpu (fun k =>
          let! v := vcpu_get k in
          when (negb (idx =? p2midx v))
            (move_vcpu k idx ;; altp2m_vcpu_update_p2m k)) ;;
        ret 0
      else ret (- EINVAL) in
    domain_unpause_except_self ;;
    ret rc.

(** ** altp2m.c: vCPU life cycle *)

Definition altp2m_vcpu_reset (k : nat) : M D unit :=
  vcpu_upd k (fun v => v <| p2midx := INVALID_ALTP2M |> <| veinfo_gfn := INVALID_GFN |>).

Definition altp2m_vcpu_initialise (k : nat) : M D unit :=
  when (negb (is_current k)) (vcpu_pause k) ;;
  altp2m_vcpu_reset k ;;
  vcpu_upd k (fun v => v <| p2midx := 0 |>) ;;
  let! p := p2m_get_altp2m k in
  active_vcpus_add p 1 ;;
  altp2m_vcpu_update_p2m k ;;
  when (negb (is_current k)) (vcpu_unpause k).

Definition altp2m_vcpu_destroy (k : nat) : M D unit :=
  when (negb (is_current k)) (vcpu_pause k) ;;
  let! p := p2m_get_altp2m k in
  match p with Some _ => active_vcpus_add p (-1) | None => ret tt end ;;
  altp2m_vcpu_reset k ;;
  altp2m_vcpu_update_p2m k ;;
  altp2m_vcpu_update_vmfunc_ve k ;;
  when (negb (is_current k)) (vcpu_unpause k).

(** ** Creating and destroying views *)

Definition p2m_init_altp2m_helper (i : Z) : M D unit :=
  p2m_upd i (fun p => p <| min_remapped_gfn := INVALID_GFN |>
                        <| max_remapped_gfn := 0 |>
                        <| ept_asr := phys_table p |>) ;;
  let! p := p2m_get i in
  eptp_set i (ept_get_eptp p).

Definition p2m_init_altp2m_by_id (idx : Z) : M D Z :=
  if MAX_ALTP2M <=? idx then ret (- EINVAL)
  else
    let! e := eptp_get idx in
    if e =? INVALID_MFN then p2m_init_altp2m_helper idx ;; ret 0
    else ret (- EINVAL).

Fixpoint init_next_from (ids : list Z) : M D (Z * option Z) :=
  match ids with
  | [] => ret (- EINVAL, None)
  | i :: ids' =>
      let! e := eptp_get i in
      if negb (e =? INVALID_MFN) then init_next_from ids'
      else p2m_init_altp2m_helper i ;; ret (0, Some i)
  end.
(** The error code, and the value stored through [idx] when one is. *)
Definition p2m_init_next_altp2m : M D (Z * option Z) :=
  init_next_from (iota (Z.to_nat MAX_ALTP2M)).

(** p2m_flush_table(), ept_p2m_uninit(), ept_p2m_init() on one table; the
    result of the reinitialisation is ignored by every caller. *)
Definition flush_reinit (mask_ok : bool) (p : p2m_domain T) : p2m_domain T :=
  (ept_p2m_init plat mask_ok (p2m_flush_table zero p)).2.

(** [mask_ok i]: synced_mask could be allocated again for table [i]. *)
Context (mask_ok : Z -> bool).

Definition p2m_flush_altp2m : M D unit :=
  for_each (iota (Z.to_nat MAX_ALTP2M)) (fun i =>
    p2m_upd i (flush_reinit (mask_ok i)) ;;
    eptp_set i INVALID_MFN).

Definition p2m_destroy_altp2m_by_id (idx : Z) : M D Z :=
  if (idx =? 0) || (MAX_ALTP2M <=? idx) then ret (- EBUSY)
  else
    domain_pause_except_self ;;
    let! e := eptp_get idx in
    let! rc :=
      if negb (e =? INVALID_MFN) then
        let! p := p2m_get idx in
        if active_vcpus p =? 0 then
          p2m_upd idx (flush_reinit (mask_ok idx)) ;;
          eptp_set idx INVALID_MFN ;;
          ret 0
        else ret (- EBUSY)
      else ret (- EBUSY) in
    domain_unpause_except_self ;;
    ret rc.

(** ** Filling a view *)

(** ~((1UL << order) - 1) *)
Definition order_mask (o : Z) : Z := u64 (Z.lnot (Z.shiftl 1 o - 1)).

(** The result, and the value of [*ap2m]. *)
Definition p2m_altp2m_lazy_copy (k : nat) (gpa : Z) : M D (bool * option Z) :=
  let gfn := Z.shiftr gpa PAGE_SHIFT in
  let! ap2m := p2m_get_altp2m k in
  let! e := get_gfn_alt ap2m gfn 0 in
  if negb (e_mfn e =? INVALID_MFN) then ret (false, ap2m)
  else
    let! e := get_gfn_host gfn (Z.lor P2M_ALLOC P2M_UNSHARE) in
    if e_mfn e =? INVALID_MFN then ret (false, ap2m)
    else
      let mask := order_mask (e_order e) in
      let mfn := Z.land (e_mfn e) mask in
      let! i := deref (fun _ : D => ap2m) in
      let! rv := alt_p2m_set_entry i (Z.land gfn mask) mfn (e_order e)
                   (e_type e) (e_access e) in
      when (negb (rv =? 0)) domain_crash ;;
      ret (true, ap2m).

(** The memaccess[] table: XENMEM_access_n .. XENMEM_access_rwx. *)
Definition memaccess : list p2m_access :=
  [p2m_access_n; p2m_access_r; p2m_access_w; p2m_access_rw;
   p2m_access_x; p2m_access_rx; p2m_access_wx; p2m_access_rwx].
Definition XENMEM_access_default : Z := 10.

(** current->domain != d, as the [sve] argument. *)
Definition foreign_caller : Z := if bool_decide (cur = None) then 1 else 0.

Definition p2m_set_altp2m_mem_access (idx gfn access : Z) : M D Z :=
  if MAX_ALTP2M <=? idx then ret (- EINVAL)
  else
    let! e := eptp_get idx in
    if e =? INVALID_MFN then ret (- EINVAL)
    else
      let! ap2m := p2m_get idx in
      match (if (0 <=? access) && (access <? Z.of_nat (length memaccess))
             then memaccess !! Z.to_nat access
             else if access =? XENMEM_access_default then Some (default_access ap2m)
             else None) with
      | None => ret (- EINVAL)
      | Some req_a =>
          if gfn =? INVALID_GFN then
            p2m_upd idx (fun p => p <| default_access := req_a |>) ;; ret 0
          else
            let! e := alt_get_entry idx gfn 0 in
            (* [None]: goto out *)
            let! found :=
              if negb (mfn_valid cfg (e_mfn e)) then
                let! e := host_get_entry gfn (Z.lor P2M_ALLOC P2M_UNSHARE) in
                if negb (mfn_valid cfg (e_mfn e)) || negb (bool_decide (e_type e = p2m_ram_rw))
                then ret None
                else if negb (e_order e =? PAGE_ORDER_4K) then
                  let mask := order_mask (e_order e) in
                  let! rc := alt_set_entry idx (Z.land gfn mask) (Z.land (e_mfn e) mask)
                               (e_order e) (e_type e) (e_access e) 1 in
                  ret (if negb (rc =? 0) then None else Some e)
                else ret (Some e)
              else ret (Some e) in
            match found with
            | None => ret (- EINVAL)
            | Some e =>
                let! rc := alt_set_entry idx gfn (e_mfn e) PAGE_ORDER_4K (e_type e)
                             req_a foreign_caller in
                ret (if rc =? 0 then 0 else - EINVAL)
            end
      end.

(** p2m_remove_page() on an alternate table, with the M2P of the domain. *)
Definition alt_remove_page (i gfn mfn order : Z) : M D Z :=
  let! p := p2m_get i in
  let! m := gets m2p in
  let '(rc, p', m') := p2m_remove_page cfg p gfn mfn order m in
  p2m_upd i (fun _ => p') ;;
  modify (fun d : D => d <| m2p := m' |>) ;;
  ret rc.

Definition p2m_change_altp2m_gfn (idx old_gfn new_gfn : Z) : M D Z :=
  if MAX_ALTP2M <=? idx then ret (- EINVAL)
  else
    let! e := eptp_get idx in
    if e =? INVALID_MFN then ret (- EINVAL)
    else
      let! e := alt_get_entry idx old_gfn 0 in
      if new_gfn =? INVALID_GFN then
        (if mfn_valid cfg (e_mfn e)
         then alt_remove_page idx old_gfn (e_mfn e) PAGE_ORDER_4K ;; ret 0
         else ret 0)
      else
        let! ok :=
          if negb (mfn_valid cfg (e_mfn e)) then
            let! e := host_get_entry old_gfn (Z.lor P2M_ALLOC P2M_UNSHARE) in
            if negb (mfn_valid cfg (e_mfn e)) || negb (bool_decide (e_type e = p2m_ram_rw))
            then ret false
            else if negb (e_order e =? PAGE_ORDER_4K) then
              let mask := order_mask (e_order e) in
              let! rc := alt_set_entry idx (Z.land old_gfn mask) (Z.land (e_mfn e) mask)
                           (e_order e) (e_type e) (e_access e) 1 in
              ret (rc =? 0)
            else ret true
          else ret true in
        if negb ok then ret (- EINVAL)
        else
          let! e := alt_get_entry idx new_gfn 0 in
          let! e := if negb (mfn_valid cfg (e_mfn e)) then host_get_entry new_gfn 0
                    else ret e in
          if negb (mfn_valid cfg (e_mfn e)) || negb (bool_decide (e_type e = p2m_ram_rw))
          then ret (- EINVAL)
          else
            let! rc := alt_set_entry idx old_gfn (e_mfn e) PAGE_ORDER_4K (e_type e)
                         (e_access e) foreign_caller in
            if rc =? 0 then
              p2m_upd idx (fun p =>
                if new_gfn <? min_remapped_gfn p then p <| min_remapped_gfn := new_gfn |>
                else p) ;;
              p2m_upd idx (fun p =>
                if max_remapped_gfn p <? new_gfn then p <| max_remapped_gfn := new_gfn |>
                else p) ;;
              ret 0
            else ret (- EINVAL).

Definition p2m_reset_altp2m (i : Z) : M D unit :=
  p2m_upd i (fun p => (flush_reinit (mask_ok i) p)
                        <| min_remapped_gfn := INVALID_GFN |>
                        <| max_remapped_gfn := 0 |>).

(** The inner loop: every live view but the one already reset. *)
Definition reset_others (last_reset_idx : Z) : M D unit :=
  for_each (iota (Z.to_nat MAX_ALTP2M)) (fun i =>
    if i =? last_reset_idx then ret tt
    else
      let! e := eptp_get i in
      when (negb (e =? INVALID_MFN)) (p2m_reset_altp2m i)).

Fixpoint propagate_from (ids : list Z) (gfn mfn page_order : Z) (p2mt : p2m_type)
    (p2ma : p2m_access) (reset_count last_reset_idx : Z) : M D unit :=
  match ids with
  | [] => ret tt
  | i :: ids' =>
      let! ep := eptp_get i in
      if ep =? INVALID_MFN then
        propagate_from ids' gfn mfn page_order p2mt p2ma reset_count last_reset_idx
      else
        let! e := get_gfn_alt (Some i) gfn 0 in
        let! p := p2m_get i in
        if (mfn =? INVALID_MFN) && (min_remapped_gfn p <=? gfn)
             && (gfn <=? max_remapped_gfn p) then
          if reset_count =? 0 then
            p2m_reset_altp2m i ;;
            propagate_from ids' gfn mfn page_order p2mt p2ma (reset_count + 1) i
          else reset_others last_reset_idx
        else
          when (negb (e_mfn e =? INVALID_MFN))
            (alt_p2m_set_entry i gfn mfn page_order p2mt p2ma ;; ret tt) ;;
          propagate_from ids' gfn mfn page_order p2mt p2ma reset_count last_reset_idx
  end.

Definition p2m_altp2m_propagate_change (gfn mfn page_order : Z) (p2mt : p2m_type)
    (p2ma : p2m_access) : M D unit :=
  let! active := gets altp2m_active in
  when active
    (propagate_from (iota (Z.to_nat MAX_ALTP2M)) gfn mfn page_order p2mt p2ma
       0 (u32 (Z.lnot 0))).

(** ** hvm.c: the HVMOP_altp2m hypercall *)

Definition HVMOP_ALTP2M_INTERFACE_VERSION : Z := 1.
Definition HVMOP_altp2m_get_domain_state : Z := 1.
Definition HVMOP_altp2m_set_domain_state : Z := 2.
Definition HVMOP_altp2m_vcpu_enable_notify : Z := 3.
Definition HVMOP_altp2m_create_p2m : Z := 4.
Definition HVMOP_altp2m_destroy_p2m : Z := 5.
Definition HVMOP_altp2m_switch_p2m : Z := 6.
Definition HVMOP_altp2m_set_mem_access : Z := 7.
Definition HVMOP_altp2m_change_gfn : Z := 8.
Definition DOMID_SELF : Z := 0x7FF0.

(** struct xen_hvm_altp2m_op; the members of the union are separate fields,
    as each command reads only its own. *)
Record xen_hvm_altp2m_op := mkAltp2mOp {
  op_version : Z; op_cmd : Z; op_domain : Z; op_pad1 : Z; op_pad2 : Z;
  ds_state : Z;
  en_vcpu_id : Z; en_pad : Z; en_gfn : Z;
  vw_view : Z;
  ma_view : Z; ma_access : Z; ma_pad : Z; ma_gfn : Z;
  cg_view : Z; cg_pad1 : Z; cg_pad2 : Z; cg_old_gfn : Z; cg_new_gfn : Z
}.
#[export] Instance eta_op : Eta xen_hvm_altp2m_op := fun x =>
  mkAltp2mOp (op_version x) (op_cmd x) (op_domain x) (op_pad1 x) (op_pad2 x)
    (ds_state x) (en_vcpu_id x) (en_pad x) (en_gfn x) (vw_view x)
    (ma_view x) (ma_access x) (ma_pad x) (ma_gfn x)
    (cg_view x) (cg_pad1 x) (cg_pad2 x) (cg_old_gfn x) (cg_new_gfn x).

(** What the surroundings of the hypercall answer. *)
Record op_env := mkOpEnv {
  copy_from_ok : bool;                     (* copy_from_guest() *)
  copy_to_ok : bool;                       (* __copy_to_guest() *)
  dom_found : bool;                        (* rcu_lock_domain_by_any_id() *)
  xsm_rc : Z                               (* xsm_hvm_altp2mhvm_op() *)
}.

(** HVMOP_altp2m_set_domain_state *)
Definition set_domain_state (state : Z) : M D Z :=
  let! d := gets (fun d : D => d) in
  if (param_altp2m d =? 0) || nestedhvm_enabled d then ret (- EINVAL)
  else
    let ostate := altp2m_active d in
    let nstate := negb (state =? 0) in
    modify (fun d : D => d <| altp2m_active := nstate |>) ;;
    if bool_decide (nstate <> ostate) then
      let! rc := if ostate then ret 0 else p2m_init_altp2m_by_id 0 in
      when (ostate || (rc =? 0))
        (for_each_vcpu (fun k =>
           if negb ostate then altp2m_vcpu_initialise k else altp2m_vcpu_destroy k) ;;
         when ostate p2m_flush_altp2m) ;;
      ret rc
    else ret 0.

(** The command switch; the second result is the structure copied back. *)
Definition altp2m_op_switch (env : op_env) (a : xen_hvm_altp2m_op)
  : M D (Z * option xen_hvm_altp2m_op) :=
  if op_cmd a =? HVMOP_altp2m_get_domain_state then
    let! d := gets (fun d : D => d) in
    if param_altp2m d =? 0 then ret (- EINVAL, None)
    else
      let a := a <| ds_state := if altp2m_active d then 1 else 0 |> in
      ret (if copy_to_ok env then (0, Some a) else (- EFAULT, None))
  else if op_cmd a =? HVMOP_altp2m_set_domain_state then
    let! rc := set_domain_state (ds_state a) in ret (rc, None)
  else if op_cmd a =? HVMOP_altp2m_vcpu_enable_notify then
    let! curr := deref (fun _ : D => cur) in
    let rc := if negb (en_pad a =? 0) || negb (op_domain a =? DOMID_SELF)
                 || negb (en_vcpu_id a =? Z.of_nat curr) then - EINVAL else 0 in
    altp2m_vcpu_update_vmfunc_ve curr ;;
    ret (rc, None)
  else if op_cmd a =? HVMOP_altp2m_create_p2m then
    let! r := p2m_init_next_altp2m in
    let a := a <| vw_view := default (vw_view a) r.2 |> in
    if r.1 =? 0 then ret (if copy_to_ok env then (0, Some a) else (- EFAULT, None))
    else ret (r.1, None)
  else if op_cmd a =? HVMOP_altp2m_destroy_p2m then
    let! rc := p2m_destroy_altp2m_by_id (vw_view a) in ret (rc, None)
  else if op_cmd a =? HVMOP_altp2m_switch_p2m then
    let! rc := p2m_switch_domain_altp2m_by_id (vw_view a) in ret (rc, None)
  else if op_cmd a =? HVMOP_altp2m_set_mem_access then
    if negb (ma_pad a =? 0) then ret (- EINVAL, None)
    else
      let! rc := p2m_set_altp2m_mem_access (ma_view a) (ma_gfn a) (ma_access a) in
      ret (rc, None)
  else if op_cmd a =? HVMOP_altp2m_change_gfn then
    if negb (cg_pad1 a =? 0) || negb (cg_pad2 a =? 0) then ret (- EINVAL, None)
    else
      let! rc := p2m_change_altp2m_gfn (cg_view a) (cg_old_gfn a) (cg_new_gfn a) in
      ret (rc, None)
  else ret (0, None).

Definition do_altp2m_op (env : op_env) (a : xen_hvm_altp2m_op)
  : M D (Z * option xen_hvm_altp2m_op) :=
  if negb (altp2m_supported plat) then ret (- EOPNOTSUPP, None)
  else if negb (copy_from_ok env) then ret (- EFAULT, None)
  else if negb (op_pad1 a =? 0) || negb (op_pad2 a =? 0)
       || negb (op_version a =? HVMOP_ALTP2M_INTERFACE_VERSION)
       || (op_cmd a <? HVMOP_altp2m_get_domain_state)
       || (HVMOP_altp2m_change_gfn <? op_cmd a) then ret (- EINVAL, None)
  else if negb (op_cmd a =? HVMOP_altp2m_vcpu_enable_notify) && negb (dom_found env)
  then ret (- ESRCH, None)
  else
    let! d := gets (fun d : D => d) in
    if negb (is_hvm d) then ret (- EOPNOTSUPP, None)
    else if negb (op_cmd a =? HVMOP_altp2m_get_domain_state)
         && negb (op_cmd a =? HVMOP_altp2m_set_domain_state)
         && negb (altp2m_active d) then ret (- EOPNOTSUPP, None)
    else if negb (xsm_rc env =? 0) then ret (xsm_rc env, None)
    else altp2m_op_switch env a.

(** ** hap.c: allocation of the views *)

(** The outcomes of the allocations hap_enable() asks for. *)
Record hap_allocs := mkHapAllocs {
  hap_pool_ok : bool;                      (* hap_set_allocation(d, 256) *)
  dom_has_pages : bool;                    (* !page_list_empty(&d->page_list) *)
  host_top : option Z;                     (* p2m_alloc_ptp() *)
  nested_top : Z -> option Z;
  alt_top : Z -> option Z;
  eptp_page : option Z                     (* alloc_xenheap_page(), its maddr *)
}.

(** p2m_alloc_table() on every table of an array, until one fails. *)
Fixpoint alloc_tables (get : Z -> M D (p2m_domain T))
    (upd : Z -> (p2m_domain T -> p2m_domain T) -> M D unit)
    (top : Z -> option Z) (pages : bool) (ids : list Z) : M D Z :=
  match ids with
  | [] => ret 0
  | i :: ids' =>
      let! p := get i in
      let '(rv, p') := p2m_alloc_table cfg pages (top i) p in
      upd i (fun _ => p') ;;
      if negb (rv =? 0) then ret rv else alloc_tables get upd top pages ids'
  end.

Definition nested_get (i : Z) : M D (p2m_domain T) :=
  deref (fun d => mjoin (nested_p2m d !! Z.to_nat i)).
Definition nested_upd (i : Z) (f : p2m_domain T -> p2m_domain T) : M D unit :=
  nested_get i ;; modify (fun d => d <| nested_p2m ::= alter (fmap f) (Z.to_nat i) |>).
Definition MAX_NESTEDP2M : Z := 10.

(** hap_enable(): [old_pages] is the size of the HAP pool, [translate] is
    mode & PG_translate. *)
Definition hap_enable (al : hap_allocs) (old_pages : Z) (translate : bool) : M D Z :=
  if (old_pages =? 0) && negb (hap_pool_ok al) then ret (- ENOMEM)
  else
    let! rv :=
      if translate then
        alloc_tables (fun _ => host_get) (fun _ => host_upd)
          (fun _ => host_top al) (dom_has_pages al) [0]
      else ret 0 in
    if negb (rv =? 0) then ret rv
    else
      let! rv := alloc_tables nested_get nested_upd (nested_top al)
                   (dom_has_pages al) (iota (Z.to_nat MAX_NESTEDP2M)) in
      if negb (rv =? 0) then ret rv
      else if altp2m_supported plat then
        match eptp_page al with
        | None => modify (fun d : D => d <| altp2m_eptp := [] |>) ;; ret (- ENOMEM)
        | Some maddr =>
            modify (fun d : D =>
              d <| altp2m_eptp := replicate (Z.to_nat MAX_EPTP) INVALID_MFN |>
                <| eptp_maddr := maddr |>) ;;
            let! rv := alloc_tables p2m_get p2m_upd (alt_top al) (dom_has_pages al)
                         (iota (Z.to_nat MAX_ALTP2M)) in
            if negb (rv =? 0) then ret rv
            else modify (fun d : D => d <| altp2m_active := false |>) ;; ret 0
        end
      else ret 0.

(** ** vmx.c: #VE delivered by software *)

Record ve_info := mkVeInfo {
  ve_exit_reason : Z; ve_semaphore : Z; ve_exit_qualification : Z;
  ve_gla : Z; ve_gpa : Z; ve_eptp_index : Z
}.

(** vmx_vcpu_emulate_ve(); [frame] is what hvm_map_guest_frame_rw() maps (the
    page and whether it is writable), [qual gla gpa] the VMCS fields.  The
    result, the page afterwards, and whether the exception was injected. *)
Definition vmx_vcpu_emulate_ve (v : vcpu) (frame : option (ve_info * bool))
    (qual gla gpa : Z) : bool * option ve_info * bool :=
  if veinfo_gfn v =? INVALID_GFN then (false, fst <$> frame, false)
  else
    match frame with
    | None => (false, None, false)
    | Some (ve, writable) =>
        if negb writable || negb (ve_semaphore ve =? 0) then (false, Some ve, false)
        else
          (true, Some (mkVeInfo EXIT_REASON_EPT_VIOLATION (u32 (Z.lnot 0)) qual
                         gla gpa (p2midx v)), true)
    end.
Definition altp2m_vcpu_emulate_ve (v : vcpu) (frame : option (ve_info * bool))
    (qual gla gpa : Z) : bool * option ve_info * bool :=
  if altp2m_hooks plat then vmx_vcpu_emulate_ve v frame qual gla gpa
  else (false, fst <$> frame, false).
End Altp2m.

#[global] Arguments MAX_ALTP2M : simpl never.
