(* ===== verification/Altp2mProofs.v ===== *)
(** * The alternate-view invariant

    [altp2m_inv]: every vCPU of an active domain is counted in exactly the
    view it is recorded in, that view exists, and the EPT pointer the
    processor holds is the pointer of a live view, the recorded one whenever
    the vCPU is outside the guest.  Every operation keeps it and none reaches
    a [BUG_ON] or a NULL pointer. *)

From S2P Require Import Prelude Monad P2m Altp2m.

(** ** Counting the vCPUs of a view *)

Definition in_view (i : Z) (v : vcpu) : Z := if p2midx v =? i then 1 else 0.
Fixpoint cnt (l : list vcpu) (i : Z) : Z :=
  match l with [] => 0 | v :: l' => in_view i v + cnt l' i end.

Lemma cnt_alter f l i : forall k v, l !! k = Some v ->
  cnt (alter f k l) i = cnt l i - in_view i v + in_view i (f v).
Proof.
  induction l as [|w l IH]; intros [|k] v Hv; simplify_eq/=; [lia|].
  rewrite (IH k v Hv). lia.
Qed.

Lemma alter_insert (f : vcpu -> vcpu) (l : list vcpu) : forall (k : nat) v,
  l !! k = Some v -> alter f k l = <[k := f v]> l.
Proof.
  induction l as [|w l IH]; intros [|k] v Hv; simplify_eq/=; [done|].
  f_equal. by apply IH.
Qed.

Lemma cnt_insert (l : list vcpu) i (k : nat) v w : l !! k = Some v ->
  cnt (<[k := w]> l) i = cnt l i - in_view i v + in_view i w.
Proof.
  intros Hv. rewrite <- (alter_insert (fun _ => w) _ _ _ Hv). by apply cnt_alter.
Qed.

Lemma cnt_alter_same f l i k :
  (forall v, p2midx (f v) = p2midx v) -> cnt (alter f k l) i = cnt l i.
Proof.
  intros Hf. revert k. induction l as [|v l IH]; intros [|k]; [done..| |]; simpl.
  - unfold in_view. by rewrite Hf.
  - f_equal. apply IH.
Qed.

Lemma cnt_nonneg l i : 0 <= cnt l i.
Proof. induction l; simpl; [lia|]. unfold in_view. case_if E; lia. Qed.

Lemma cnt_pos l i k v : l !! k = Some v -> p2midx v = i -> 0 < cnt l i.
Proof.
  intros Hk <-. revert k Hk. induction l as [|w l IH]; intros [|k] Hk; simplify_eq/=.
  - unfold in_view. rewrite Z.eqb_refl. pose proof (cnt_nonneg l (p2midx v)). lia.
  - specialize (IH k Hk). unfold in_view at 1. case_if E; lia.
Qed.

Lemma cnt_all l i : (forall v, v ∈ l -> p2midx v = i) -> cnt l i = Z.of_nat (length l).
Proof.
  induction l as [|v l IH]; intros Hl; [done|]. simpl.
  rewrite IH by (intros; apply Hl; by constructor).
  unfold in_view. rewrite (Hl v) by constructor. rewrite Z.eqb_refl. lia.
Qed.

Lemma cnt_none l i : (forall v, v ∈ l -> p2midx v <> i) -> cnt l i = 0.
Proof.
  induction l as [|v l IH]; intros Hl; [done|]. simpl.
  rewrite IH by (intros; apply Hl; by constructor).
  unfold in_view. case_if E; zbool; [|lia]. exfalso. apply (Hl v); [constructor | done].
Qed.

(** ** Control bits of a vCPU *)

Definition vmfunc_on (v : vcpu) : bool := Z.testbit (secondary_exec_control v) 13.
Definition ve_on (v : vcpu) : bool := Z.testbit (secondary_exec_control v) 18.

Lemma vmfunc_flag c :
  (Z.land c SECONDARY_EXEC_ENABLE_VM_FUNCTIONS =? 0) = negb (Z.testbit c 13).
Proof. by apply (land_flag c 13). Qed.
Lemma ve_flag c :
  (Z.land c SECONDARY_EXEC_ENABLE_VIRT_EXCEPTIONS =? 0) = negb (Z.testbit c 18).
Proof. by apply (land_flag c 18). Qed.

Section Inv.
Context {T : Type} `{P2MTable T}.
Context (cfg : p2m_config) (plat : platform).

Local Abbreviation D := (domain T).

(** ** Tables and EPT pointers *)

Definition tab (d : D) (i : nat) : option (p2m_domain T) := mjoin (altp2m_p2m d !! i).

(** The EPT pointer of a table whose root is frame [n]. *)
Definition eptp_of (n : Z) : Z :=
  Z.lor 6 (Z.lor (Z.shiftl 3 3)
    (Z.lor (Z.shiftl (if cpu_has_vmx_pml plat then 1 else 0) 6) (Z.shiftl n 12))).

Definition canon (p : p2m_domain T) : Prop :=
  ept_mt p = EPT_DEFAULT_MT /\ ept_wl p = 3 /\
  ept_ad p = (if cpu_has_vmx_pml plat then 1 else 0) /\
  0 <= phys_table p < 2 ^ 40.

Lemma ept_get_eptp_canon p :
  canon p -> ept_asr p = phys_table p -> ept_get_eptp p = eptp_of (phys_table p).
Proof.
  intros (Hm & Hw & Ha & Hr) Has. unfold ept_get_eptp, eptp_of.
  rewrite Hm, Hw, Ha, Has.
  rewrite (Z.mod_small (phys_table p)) by lia.
  by destruct (cpu_has_vmx_pml plat).
Qed.

Lemma eptp_of_shiftr n : 0 <= n -> Z.shiftr (eptp_of n) 12 = n.
Proof.
  intros Hn. unfold eptp_of. rewrite !Z.shiftr_lor.
  rewrite (Z.shiftr_shiftl_l n) by lia. replace (12 - 12) with 0 by lia.
  destruct (cpu_has_vmx_pml plat); rewrite Z.shiftl_0_r; done.
Qed.

Lemma eptp_of_inj n m : 0 <= n -> 0 <= m -> eptp_of n = eptp_of m -> n = m.
Proof.
  intros Hn Hm E. rewrite <- (eptp_of_shiftr n), <- (eptp_of_shiftr m) by done.
  by rewrite E.
Qed.

Lemma eptp_of_valid n : 0 <= n < 2 ^ 40 -> eptp_of n <> INVALID_MFN.
Proof.
  intros Hn E. pose proof (eptp_of_shiftr n ltac:(lia)) as Hs.
  rewrite E in Hs. unfold INVALID_MFN in Hs. vm_compute in Hs. subst n.
  destruct Hn as [_ Hn]. vm_compute in Hn. done.
Qed.

(** View [i] exists. *)
Definition live (d : D) (i : nat) : Prop :=
  (i < 39)%nat /\ exists e, altp2m_eptp d !! i = Some e /\ e <> INVALID_MFN.

Record shape (d : D) : Prop := {
  sh_len : length (altp2m_p2m d) = 39%nat;
  sh_tab : forall i, (i < 39)%nat -> exists p, tab d i = Some p;
  sh_eptp_len : length (altp2m_eptp d) = 512%nat;
  sh_host : exists h, hostp2m d = Some h;
  sh_canon : forall i p, tab d i = Some p -> canon p;
  sh_inj : forall i j p q, tab d i = Some p -> tab d j = Some q ->
             phys_table p = phys_table q -> i = j;
  sh_view : forall i p e, tab d i = Some p -> altp2m_eptp d !! i = Some e ->
              e <> INVALID_MFN -> e = eptp_of (phys_table p) /\ ept_asr p = phys_table p;
  sh_high : forall i e, (39 <= i)%nat -> altp2m_eptp d !! i = Some e -> e = INVALID_MFN
}.

(** The EPT pointer of view [i]. *)
Definition view_eptp (d : D) (i : nat) (e : Z) : Prop :=
  live d i /\ altp2m_eptp d !! i = Some e.

(** A vCPU of an active domain. *)
Record vcpu_active (d : D) (v : vcpu) : Prop := {
  va_idx : exists i, p2midx v = Z.of_nat i /\ live d i;
  va_hw : exists j, view_eptp d j (EPT_POINTER v);
  va_sync : in_guest v = false \/ vmfunc_on v = false ->
            view_eptp d (Z.to_nat (p2midx v)) (EPT_POINTER v);
  va_ve : veinfo_gfn v = INVALID_GFN
}.

Record vcpu_inactive (v : vcpu) : Prop := {
  vi_idx : p2midx v = 0 \/ p2midx v = INVALID_ALTP2M;
  vi_vmfunc : vmfunc_on v = false
}.

(** What holds of a vCPU in any state of the domain. *)
Record vcpu_common (v : vcpu) : Prop := {
  vc_ve : ve_on v = false;
  vc_vmfunc : vmfunc_on v = true -> cpu_has_vmx_vmfunc plat = true
}.

Record altp2m_inv (d : D) : Prop := {
  inv_shape : shape d;
  inv_common : forall k v, vcpus d !! k = Some v -> vcpu_common v;
  inv_count : forall i p, tab d i = Some p ->
    active_vcpus p = if altp2m_active d then cnt (vcpus d) (Z.of_nat i) else 0;
  inv_active : altp2m_active d = true ->
    forall k v, vcpus d !! k = Some v -> vcpu_active d v;
  inv_inactive : altp2m_active d = false ->
    (forall k v, vcpus d !! k = Some v -> vcpu_inactive v) /\ (forall i, ~ live d i)
}.

Lemma tab_lt d i p : shape d -> tab d i = Some p -> (i < 39)%nat.
Proof.
  intros S Ht. unfold tab in Ht. rewrite <- (sh_len _ S).
  destruct (altp2m_p2m d !! i) eqn:E; [|done]. by apply lookup_lt_Some in E.
Qed.

Lemma eptp_lookup d i : shape d -> (i < 39)%nat -> exists e, altp2m_eptp d !! i = Some e.
Proof.
  intros S Hi. apply lookup_lt_is_Some. rewrite (sh_eptp_len _ S). lia.
Qed.

(** A pointer names one view. *)
Lemma view_eptp_inj d i j e :
  shape d -> view_eptp d i e -> view_eptp d j e -> i = j.
Proof.
  intros S [[Hi [e1 [E1 N1]]] E1'] [[Hj [e2 [E2 N2]]] E2']. simplify_eq.
  destruct (sh_tab _ S i Hi) as [p Hp], (sh_tab _ S j Hj) as [q Hq].
  destruct (sh_view _ S _ _ _ Hp E1 N1) as [Ee1 _].
  destruct (sh_view _ S _ _ _ Hq E2 N2) as [Ee2 _].
  apply (sh_inj _ S i j p q Hp Hq).
  pose proof (sh_canon _ S _ _ Hp) as (_ & _ & _ & ?).
  pose proof (sh_canon _ S _ _ Hq) as (_ & _ & _ & ?).
  apply eptp_of_inj; [lia..|congruence].
Qed.

(** ** Primitive accesses *)

Lemma tab_alter (d : D) f i j :
  tab (d <| altp2m_p2m ::= alter (fmap f) i |>) j =
  if decide (i = j) then f <$> tab d j else tab d j.
Proof.
  unfold tab. simpl. rewrite lookup_alter_case.
  case_decide; [|done]. by destruct (altp2m_p2m d !! j) as [[p|]|].
Qed.

Lemma wp_vcpu_get (d : D) k v Q : vcpus d !! k = Some v -> Q v d -> wp (vcpu_get k) Q d.
Proof. intros. by eapply wp_deref. Qed.

Lemma wp_vcpu_upd (d : D) k f Q :
  Q tt (d <| vcpus ::= alter f k |>) -> wp (vcpu_upd k f) Q d.
Proof. apply wp_modify. Qed.

Lemma wp_p2m_get (d : D) i p Q :
  tab d (Z.to_nat i) = Some p -> Q p d -> wp (p2m_get i) Q d.
Proof. intros. by eapply wp_deref. Qed.

Lemma wp_p2m_upd (d : D) i f p Q :
  tab d (Z.to_nat i) = Some p ->
  Q tt (d <| altp2m_p2m ::= alter (fmap f) (Z.to_nat i) |>) -> wp (p2m_upd i f) Q d.
Proof. intros. apply wp_bind. eapply wp_p2m_get; [done|]. by apply wp_modify. Qed.

Lemma wp_host_get (d : D) h Q : hostp2m d = Some h -> Q h d -> wp host_get Q d.
Proof. intros. by eapply wp_deref. Qed.

Lemma wp_host_upd (d : D) h f Q :
  hostp2m d = Some h -> Q tt (d <| hostp2m ::= fmap f |>) -> wp (host_upd f) Q d.
Proof. intros. apply wp_bind. eapply wp_host_get; [done|]. by apply wp_modify. Qed.

Lemma wp_eptp_get (d : D) i e Q :
  altp2m_eptp d !! Z.to_nat i = Some e -> Q e d -> wp (eptp_get i) Q d.
Proof. intros. by eapply wp_deref. Qed.

Lemma wp_eptp_set (d : D) i e e' Q :
  altp2m_eptp d !! Z.to_nat i = Some e' ->
  Q tt (d <| altp2m_eptp ::= <[Z.to_nat i := e]> |>) -> wp (eptp_set i e) Q d.
Proof. intros. apply wp_bind. eapply wp_eptp_get; [done|]. by apply wp_modify. Qed.

Lemma wp_get_altp2m (d : D) k v i p Q :
  vcpus d !! k = Some v -> p2midx v = Z.of_nat i -> (i < 39)%nat ->
  tab d i = Some p -> Q (Some (Z.of_nat i)) d -> wp (p2m_get_altp2m k) Q d.
Proof.
  intros Hv Hi Hlt Hp HQ. apply wp_bind. eapply wp_vcpu_get; [done|].
  cbv zeta. rewrite Hi. unfold INVALID_ALTP2M. rewrite (proj2 (Z.eqb_neq _ _)) by lia.
  apply wp_bind, wp_bug_on. { apply Z.leb_gt. unfold MAX_ALTP2M. lia. }
  apply wp_bind. unfold tab in Hp.
  destruct (altp2m_p2m d !! i) as [o|] eqn:E; simplify_eq/=.
  eapply wp_deref. { rewrite Nat2Z.id. exact E. } by apply wp_ret.
Qed.

Lemma wp_get_altp2m_null (d : D) k v Q :
  vcpus d !! k = Some v -> p2midx v = INVALID_ALTP2M ->
  Q None d -> wp (p2m_get_altp2m k) Q d.
Proof.
  intros Hv Hi HQ. apply wp_bind. eapply wp_vcpu_get; [done|].
  cbv zeta. rewrite Hi, Z.eqb_refl. by apply wp_ret.
Qed.

Lemma wp_active_add (d : D) i delta p Q :
  tab d i = Some p ->
  Q tt (d <| altp2m_p2m ::= alter (fmap (fun p => p <| active_vcpus ::= Z.add delta |>)) i |>) ->
  wp (active_vcpus_add (Some (Z.of_nat i)) delta) Q d.
Proof.
  intros Hp HQ. apply wp_bind. eapply wp_deref; [done|].
  eapply wp_p2m_upd; rewrite Nat2Z.id; eauto.
Qed.

(** ** What operations may do to the tables *)

(** [p'] is [p] with the same root; its EPT pointer stays or becomes right. *)
Definition keeps (p p' : p2m_domain T) : Prop :=
  phys_table p' = phys_table p /\
  (ept_asr p' = ept_asr p \/ ept_asr p' = phys_table p') /\ (canon p -> canon p').

Definition tabs_keep (delta : nat -> Z) (d d' : D) : Prop :=
  length (altp2m_p2m d') = length (altp2m_p2m d) /\
  forall n p, tab d n = Some p ->
    exists p', tab d' n = Some p' /\ keeps p p' /\
               active_vcpus p' = active_vcpus p + delta n.

Definition no_delta : nat -> Z := fun _ => 0.

Lemma keeps_refl p : keeps p p.
Proof. split; [done|]. auto. Qed.

Lemma keeps_trans p q r : keeps p q -> keeps q r -> keeps p r.
Proof.
  intros (E1 & A1 & C1) (E2 & A2 & C2). split; [congruence|]. split; [|auto].
  destruct A2 as [A2|A2]; [|auto]. destruct A1 as [A1|A1]; [left | right]; congruence.
Qed.

Lemma tabs_keep_trans f g d d' d'' :
  tabs_keep f d d' -> tabs_keep g d' d'' -> tabs_keep (fun n => f n + g n) d d''.
Proof.
  intros [L1 K1] [L2 K2]. split; [congruence|]. intros n p Hp.
  destruct (K1 _ _ Hp) as (p' & Hp' & R1 & A1).
  destruct (K2 _ _ Hp') as (q & Hq & R2 & A2).
  exists q. split; [done|]. split; [by eapply keeps_trans | lia].
Qed.

Lemma tabs_keep_ext f g d d' : (forall n, f n = g n) -> tabs_keep f d d' -> tabs_keep g d d'.
Proof.
  intros E [L K]. split; [done|]. intros n p Hp. rewrite <- E. by apply K.
Qed.

Lemma tabs_keep_alter d f i dl :
  (forall p, tab d i = Some p -> keeps p (f p) /\ active_vcpus (f p) = active_vcpus p + dl) ->
  tabs_keep (fun n => if decide (i = n) then dl else 0) d
    (d <| altp2m_p2m ::= alter (fmap f) i |>).
Proof.
  intros Hf. split; [simpl; apply length_alter|]. intros n p Hp. rewrite tab_alter.
  case_decide as E; [subst n|].
  - rewrite Hp. exists (f p). split; [done|]. by apply Hf.
  - exists p. split; [done|]. split; [apply keeps_refl | lia].
Qed.

Lemma tabs_keep_same d d' :
  altp2m_p2m d' = altp2m_p2m d -> tabs_keep no_delta d d'.
Proof.
  intros E. unfold tabs_keep, tab. rewrite E. split; [done|].
  intros n p Hp. exists p. split; [done|]. split; [apply keeps_refl | unfold no_delta; lia].
Qed.

Lemma tabs_keep_inv delta d d' :
  shape d -> tabs_keep delta d d' -> forall n p', tab d' n = Some p' ->
  exists p, tab d n = Some p /\ keeps p p' /\ active_vcpus p' = active_vcpus p + delta n.
Proof.
  intros S [L K] n p' Hp'.
  assert (Hn : (n < 39)%nat).
  { rewrite <- (sh_len _ S), <- L. unfold tab in Hp'.
    destruct (altp2m_p2m d' !! n) eqn:E; [|done]. by apply lookup_lt_Some in E. }
  destruct (sh_tab _ S n Hn) as [p Hp].
  destruct (K _ _ Hp) as (q & Hq & R & A). simplify_eq. eauto.
Qed.

Lemma shape_keep delta d d' :
  shape d -> tabs_keep delta d d' -> altp2m_eptp d' = altp2m_eptp d ->
  is_Some (hostp2m d') -> shape d'.
Proof.
  intros S K E [h Hh]. pose proof (tabs_keep_inv _ _ _ S K) as B.
  destruct K as [L K]. split.
  - rewrite L. apply S.
  - intros i Hi. destruct (sh_tab _ S i Hi) as [p Hp].
    destruct (K _ _ Hp) as (q & Hq & _). eauto.
  - rewrite E. apply S.
  - eauto.
  - intros i p' Hp'. destruct (B _ _ Hp') as (p & Hp & (_ & _ & C) & _).
    apply C. by apply (sh_canon _ S i).
  - intros i j p' q' Hp' Hq' Eph.
    destruct (B _ _ Hp') as (p & Hp & (E1 & _) & _).
    destruct (B _ _ Hq') as (q & Hq & (E2 & _) & _).
    apply (sh_inj _ S i j p q Hp Hq). congruence.
  - intros i p' e Hp' He Hne. rewrite E in He.
    destruct (B _ _ Hp') as (p & Hp & (E1 & A & _) & _).
    destruct (sh_view _ S _ _ _ Hp He Hne) as [Ev Ea]. rewrite E1. split; [done|].
    destruct A; congruence.
  - rewrite E. apply S.
Qed.

(** ** How an operation moves the domain *)

Record evolves (delta : nat -> Z) (d d' : D) : Prop := {
  ev_tabs : tabs_keep delta d d';
  ev_eptp : altp2m_eptp d' = altp2m_eptp d;
  ev_active : altp2m_active d' = altp2m_active d;
  ev_host : is_Some (hostp2m d) -> is_Some (hostp2m d')
}.

Lemma evolves_refl d : evolves no_delta d d.
Proof. split; [by apply tabs_keep_same | done..]. Qed.

Lemma evolves_trans f g d d' d'' :
  evolves f d d' -> evolves g d' d'' -> evolves (fun n => f n + g n) d d''.
Proof.
  intros [T1 E1 A1 H1] [T2 E2 A2 H2]. split; [|congruence|congruence|auto].
  by eapply tabs_keep_trans.
Qed.

Lemma evolves_ext f g d d' : (forall n, f n = g n) -> evolves f d d' -> evolves g d d'.
Proof. intros E [T1 E1 A1 H1]. split; [by eapply tabs_keep_ext | done..]. Qed.

Lemma evolves_trans0 d d' d'' :
  evolves no_delta d d' -> evolves no_delta d' d'' -> evolves no_delta d d''.
Proof. intros E1 E2. eapply evolves_ext; [|by eapply evolves_trans]. done. Qed.

Lemma evolves_shape delta d d' : shape d -> evolves delta d d' -> shape d'.
Proof.
  intros S [K E A Hh]. eapply shape_keep; [done..|]. apply Hh.
  destruct (sh_host _ S) as [h ->]. eauto.
Qed.

Lemma evolves_live delta d d' i : evolves delta d d' -> live d' i <-> live d i.
Proof. intros [_ E _ _]. unfold live. by rewrite E. Qed.

Lemma evolves_view delta d d' i e :
  evolves delta d d' -> view_eptp d' i e <-> view_eptp d i e.
Proof. intros [_ E _ _]. unfold view_eptp, live. by rewrite E. Qed.

(** The primitive updates. *)
Lemma evolves_vcpus d f : evolves no_delta d (d <| vcpus ::= f |>).
Proof. split; [by apply tabs_keep_same | done..]. Qed.

Lemma evolves_host d f : evolves no_delta d (d <| hostp2m ::= fmap f |>).
Proof.
  split; [by apply tabs_keep_same | done..|]. simpl. intros [h ->]. simpl. eauto.
Qed.

Lemma evolves_crash d : evolves no_delta d (d <| crashed := true |>).
Proof. split; [by apply tabs_keep_same | done..]. Qed.

Lemma evolves_m2p d m : evolves no_delta d (d <| m2p := m |>).
Proof. split; [by apply tabs_keep_same | done..]. Qed.

Lemma evolves_pause d f : evolves no_delta d (d <| dom_pause_count ::= f |>).
Proof. split; [by apply tabs_keep_same | done..]. Qed.

Lemma evolves_tab d f i dl :
  (forall p, tab d i = Some p -> keeps p (f p) /\ active_vcpus (f p) = active_vcpus p + dl) ->
  evolves (fun n => if decide (i = n) then dl else 0) d
    (d <| altp2m_p2m ::= alter (fmap f) i |>).
Proof. intros Hf. split; [by apply tabs_keep_alter | done..]. Qed.

Lemma evolves_tab0 d f i :
  (forall p, tab d i = Some p -> keeps p (f p) /\ active_vcpus (f p) = active_vcpus p) ->
  evolves no_delta d (d <| altp2m_p2m ::= alter (fmap f) i |>).
Proof.
  intros Hf. eapply evolves_ext; [|apply (evolves_tab d f i 0)].
  - intros n. cbv beta. unfold no_delta. by destruct (decide (i = n)).
  - intros p Hp. destruct (Hf p Hp). split; [done | lia].
Qed.

(** The domain keeps the invariant when no vCPU changes. *)
Lemma inv_evolves d d' :
  altp2m_inv d -> evolves no_delta d d' -> vcpus d' = vcpus d -> altp2m_inv d'.
Proof.
  intros [S C N A I] E V. pose proof (evolves_shape _ _ _ S E) as S'. split.
  - done.
  - rewrite V. done.
  - intros i p' Hp'. rewrite V, (ev_active _ _ _ E).
    destruct (tabs_keep_inv _ _ _ S (ev_tabs _ _ _ E) _ _ Hp') as (p & Hp & _ & Ha).
    rewrite Ha, <- (N _ _ Hp). unfold no_delta. lia.
  - rewrite V, (ev_active _ _ _ E). intros Hact k v Hv.
    destruct (A Hact k v Hv) as [(i & Ei & Li) (j & Hj) Hs Hve]. split.
    + exists i. split; [done|]. by apply (evolves_live _ _ _ _ E).
    + exists j. by apply (evolves_view _ _ _ _ _ E).
    + intros Hd. apply (evolves_view _ _ _ _ _ E). auto.
    + done.
  - rewrite V, (ev_active _ _ _ E). intros Hact. destruct (I Hact) as [I1 I2].
    split; [done|]. intros i Hl. apply (I2 i). by apply (evolves_live _ _ _ _ E).
Qed.
End Inv.
