(* ===== verification/Altp2mSwitch.v ===== *)
(** * Switching views: the VMCS loads, the VM exit check, pausing

    Specifications, in the weakest-precondition style of Monad.v, of the
    routines every altp2m operation is made of.  They are proved under the
    invariant's [shape] so that the operations of Altp2mInv.v compose them. *)

From S2P Require Import Prelude Monad P2m Altp2m Altp2mProofs.

(** An update that leaves the root and the EPT pointer's fields alone. *)
Ltac keeps_tac := split; [done | split; [by left | by intros (?&?&?&?)]].

Section Switch.
Context {T : Type} `{P2MTableLaws T}.
Context (cfg : p2m_config) (plat : platform).
Context (mem_sharing_unshare_page : T -> Z -> T) (zero : T) (cur : option nat).

Local Abbreviation D := (domain T).
Local Abbreviation shape := (shape plat).
Local Abbreviation evolves := (evolves plat).
Local Abbreviation keeps := (keeps plat).
Local Abbreviation altp2m_inv := (altp2m_inv plat).

Implicit Types d : D.

Lemma keeps_asr (p : p2m_domain T) : keeps p (p <| ept_asr := phys_table p |>).
Proof. split; [done|]. split; [by right|]. by intros (?&?&?&?). Qed.

Lemma live_tab d i : shape d -> live d i -> exists p e,
  tab d i = Some p /\ altp2m_eptp d !! i = Some e /\ e <> INVALID_MFN /\
  e = eptp_of plat (phys_table p) /\ ept_asr p = phys_table p.
Proof.
  intros S [Hi [e [He Hne]]]. destruct (sh_tab _ _ S i Hi) as [p Hp].
  exists p, e. destruct (sh_view _ _ S _ _ _ Hp He Hne). done.
Qed.

Lemma vcpus_insert d k v f : vcpus d !! k = Some v ->
  vcpus (d <| vcpus ::= alter f k |>) = <[k := f v]> (vcpus d).
Proof. intros Hv. simpl. by apply alter_insert. Qed.

(** ** Loading the EPT pointer *)

Lemma wp_update_eptp_active d k v i Q :
  shape d -> altp2m_active d = true -> vcpus d !! k = Some v ->
  p2midx v = Z.of_nat i -> live d i -> ve_on v = false ->
  (forall d' e, evolves no_delta d d' -> view_eptp d i e ->
     vcpus d' = <[k := v <| EPT_POINTER := e |>]> (vcpus d) -> Q tt d') ->
  wp (vmx_vcpu_update_eptp k) Q d.
Proof.
  intros S Hact Hv Hi L Hve HQ.
  destruct (live_tab d i S L) as (p & e & Hp & He & Hne & Ee & Ea).
  assert (Hlt : (i < 39)%nat) by apply L.
  apply wp_bind, wp_gets. rewrite Hact.
  apply wp_bind. eapply wp_get_altp2m; [done..|].
  apply wp_bind, wp_bind. eapply wp_p2m_upd; [by rewrite Nat2Z.id|].
  apply wp_bind. eapply wp_p2m_get.
  { rewrite tab_alter, Nat2Z.id, decide_True, Hp by done. done. }
  apply wp_ret, wp_bind, wp_vcpu_upd, wp_bind.
  rewrite Nat2Z.id.
  eapply wp_vcpu_get. { simpl. rewrite lookup_alter_case, decide_True, Hv by done. done. }
  apply wp_when; simpl; rewrite ve_flag; unfold ve_on in Hve; rewrite Hve; [done|].
  intros _. apply (HQ _ e).
  - eapply evolves_trans0; [|apply evolves_vcpus]. apply evolves_tab0.
    intros q Hq. simplify_eq. split; [apply keeps_asr | done].
  - split; [done|]. done.
  - rewrite (vcpus_insert _ _ v) by done.
    replace (ept_get_eptp _) with e; [done|].
    rewrite Ee. symmetry. rewrite (ept_get_eptp_canon plat); [done| |done].
    apply keeps_asr. by eapply sh_canon.
Qed.

Lemma wp_update_eptp_inactive d k v Q :
  shape d -> altp2m_active d = false -> vcpus d !! k = Some v -> ve_on v = false ->
  (forall d' e, evolves no_delta d d' ->
     vcpus d' = <[k := v <| EPT_POINTER := e |>]> (vcpus d) -> Q tt d') ->
  wp (vmx_vcpu_update_eptp k) Q d.
Proof.
  intros S Hact Hv Hve HQ. destruct (sh_host _ _ S) as [h Hh].
  apply wp_bind, wp_gets. rewrite Hact. apply wp_bind, wp_ret.
  apply wp_bind, wp_bind. eapply wp_host_upd; [done|].
  apply wp_bind. eapply wp_host_get. { simpl. by rewrite Hh. }
  apply wp_ret, wp_bind, wp_vcpu_upd, wp_bind.
  eapply wp_vcpu_get. { simpl. rewrite lookup_alter_case, decide_True, Hv by done. done. }
  apply wp_when; simpl; rewrite ve_flag; unfold ve_on in Hve; rewrite Hve; [done|].
  intros _. eapply HQ.
  - eapply evolves_trans0; [apply evolves_host | apply evolves_vcpus].
  - by rewrite (vcpus_insert _ _ v).
Qed.

(** ** Enabling and disabling VMFUNC *)

(** What a query of the host table through [get_gfn_host] may change. *)
Lemma wp_get_gfn_host0 d gfn Q :
  shape d ->
  (forall e d', evolves no_delta d d' -> vcpus d' = vcpus d ->
     (gfn = INVALID_GFN -> e_mfn e = INVALID_MFN) -> Q e d') ->
  wp (get_gfn_host cfg mem_sharing_unshare_page gfn 0) Q d.
Proof.
  intros S HQ. destruct (sh_host _ _ S) as [h Hh].
  apply wp_bind. eapply wp_host_get; [done|].
  destruct (__get_gfn_type_access _ _ _ _ _) as [[e t] crash] eqn:E.
  apply wp_bind. eapply wp_host_upd; [done|].
  assert (He : gfn = INVALID_GFN -> e_mfn e = INVALID_MFN).
  { intros ->. revert E. unfold __get_gfn_type_access. simpl.
    destruct (paging_translate cfg); simpl; [|by intros; simplify_eq/=].
    destruct (get_entry (table h) INVALID_GFN 0) as [e0 t0] eqn:E0.
    pose proof (get_entry_invalid_gfn (table h)) as Hi. rewrite E0 in Hi. simpl in Hi.
    destruct (p2m_is_broken _); intros; by simplify_eq/=. }
  apply wp_bind, wp_when; intros _.
  - apply wp_modify. apply wp_ret. apply HQ; [|done..].
    eapply evolves_trans0; [apply evolves_host | apply evolves_crash].
  - apply wp_ret. apply HQ; [|done..]. apply evolves_host.
Qed.

Lemma testbit_mask c (b : bool) :
  let m := if b then Z.lor SECONDARY_EXEC_ENABLE_VM_FUNCTIONS
                       SECONDARY_EXEC_ENABLE_VIRT_EXCEPTIONS
           else SECONDARY_EXEC_ENABLE_VM_FUNCTIONS in
  Z.testbit (Z.lor c m) 13 = true /\
  Z.testbit (Z.lor c m) 18 = Z.testbit c 18 || b /\
  Z.testbit (Z.ldiff c m) 13 = false /\
  Z.testbit (Z.ldiff c m) 18 = Z.testbit c 18 && negb b.
Proof.
  cbv zeta. rewrite !Z.lor_spec, !Z.ldiff_spec.
  destruct b; vm_compute (Z.testbit _ 13); vm_compute (Z.testbit _ 18);
    rewrite ?orb_true_r, ?orb_false_r, ?andb_true_r, ?andb_false_r; done.
Qed.

(** Only control fields of the VMCS differ. *)
Record same_place (v v' : vcpu) : Prop := {
  sp_idx : p2midx v' = p2midx v;
  sp_gfn : veinfo_gfn v' = veinfo_gfn v;
  sp_ptr : EPT_POINTER v' = EPT_POINTER v;
  sp_guest : in_guest v' = in_guest v
}.

Lemma alter_after_insert (f : vcpu -> vcpu) (l : list vcpu) (k : nat) v w :
  l !! k = Some v -> alter f k (<[k := w]> l) = <[k := f w]> l.
Proof.
  intros Hv. rewrite (alter_insert _ _ k w), list_insert_insert_eq; [done|].
  apply list_lookup_insert_eq. by eapply lookup_lt_Some.
Qed.

(** Two updates of the same vCPU. *)
Lemma vcpus_insert2 d k v f g : vcpus d !! k = Some v ->
  vcpus (d <| vcpus ::= alter f k |> <| vcpus ::= alter g k |>) =
  <[k := g (f v)]> (vcpus d).
Proof.
  intros Hv. simpl. rewrite (alter_insert f _ k v Hv). by apply (alter_after_insert _ _ _ v).
Qed.

(** What [vmx_vcpu_update_vmfunc_ve] leaves in vCPU [k]. *)
Record vmfunc_loaded d (v v' : vcpu) : Prop := {
  vl_place : same_place v v';
  vl_common : vcpu_common plat v';
  vl_off : altp2m_active d = false -> vmfunc_on v' = false;
  vl_on : is_dying d = false -> altp2m_active d = true -> cpu_has_vmx_vmfunc plat = true ->
    vmfunc_on v' = true /\ VM_FUNCTION_CONTROL v' = VMX_VMFUNC_EPTP_SWITCHING /\
    EPTP_LIST_ADDR v' = eptp_maddr d /\
    SECONDARY_VM_EXEC_CONTROL v' = secondary_exec_control v'
}.

Lemma wp_vmfunc_load d k v (m : bool) Q :
  shape d -> vcpus d !! k = Some v -> veinfo_gfn v = INVALID_GFN ->
  (forall d', evolves no_delta d d' -> vcpus d' =
     <[k := (if m then v <| secondary_exec_control ::=
                              fun c => Z.ldiff c SECONDARY_EXEC_ENABLE_VIRT_EXCEPTIONS |>
             else v)]> (vcpus d) -> Q tt d') ->
  wp (when m
        (bind (vcpu_get k) (fun v =>
         bind (get_gfn_host cfg mem_sharing_unshare_page (veinfo_gfn v) 0) (fun e =>
          if negb (e_mfn e =? INVALID_MFN) then
            vcpu_upd k (fun v => v <| VIRT_EXCEPTION_INFO :=
                                        u64 (Z.shiftl (e_mfn e) PAGE_SHIFT) |>)
          else
            vcpu_upd k (fun v => v <| secondary_exec_control ::=
              fun c => Z.ldiff c SECONDARY_EXEC_ENABLE_VIRT_EXCEPTIONS |>))))) Q d.
Proof.
  intros S Hv Hg HQ. apply wp_when; intros ->.
  - apply wp_bind. eapply wp_vcpu_get; [done|].
    apply wp_bind. apply wp_get_gfn_host0; [done|].
    intros e d2 E2 V2 He. rewrite He by done. rewrite Z.eqb_refl. simpl negb. cbv iota.
    apply wp_vcpu_upd. apply HQ.
    + eapply evolves_trans0; [done | apply evolves_vcpus].
    + rewrite (vcpus_insert _ _ v) by (by rewrite V2). by rewrite V2.
  - apply HQ; [apply evolves_refl|]. symmetry. by apply list_insert_id.
Qed.

Lemma wp_update_vmfunc_ve d k v Q :
  shape d -> vcpus d !! k = Some v -> vcpu_common plat v ->
  (altp2m_active d = true -> veinfo_gfn v = INVALID_GFN) ->
  (forall d' v', evolves no_delta d d' -> vcpus d' = <[k := v']> (vcpus d) ->
     vmfunc_loaded d v v' -> Q tt d') ->
  wp (vmx_vcpu_update_vmfunc_ve cfg plat mem_sharing_unshare_page k) Q d.
Proof.
  intros S Hv [Cve Cvm] Hgfn HQ. unfold vmx_vcpu_update_vmfunc_ve.
  destruct (cpu_has_vmx_vmfunc plat) eqn:Hvm; simpl negb; cbv iota.
  2:{ apply wp_ret, (HQ d v).
      - apply evolves_refl.
      - symmetry. by apply list_insert_id.
      - split; [done | split; [done | by rewrite Hvm] | | by rewrite Hvm].
        intros _. destruct (vmfunc_on v); [|done]. by specialize (Cvm eq_refl). }
  cbv zeta. apply wp_bind, wp_gets. apply wp_bind. unfold ve_on in Cve.
  destruct (testbit_mask (secondary_exec_control v) (cpu_has_vmx_virt_exceptions plat))
    as (B1 & B2 & B3 & B4). rewrite Cve in B2, B4.
  set (mask := if cpu_has_vmx_virt_exceptions plat then _ else _) in *. clearbody mask.
  case_if Hon; [zbool|].
  - apply wp_bind, wp_vcpu_upd.
    match goal with |- wp _ _ ?d1 => pose proof (evolves_vcpus plat d _ : evolves no_delta d d1) as E1 end.
    eapply wp_vmfunc_load; [by eapply evolves_shape | | |].
    { simpl. rewrite lookup_alter_case, decide_True, Hv by done. done. }
    { simpl. by apply Hgfn. }
    intros d2 E2 V2. apply wp_vcpu_upd. eapply HQ.
    + eapply evolves_trans0; [done|]. eapply evolves_trans0; [done | apply evolves_vcpus].
    + simpl. rewrite V2. simpl. rewrite (alter_insert _ (vcpus d) k v Hv).
      rewrite list_insert_insert_eq. by apply (alter_after_insert _ _ _ v).
    + destruct (cpu_has_vmx_virt_exceptions plat); split; try done.
      * split; [|done]. unfold ve_on. simpl. rewrite Z.ldiff_spec. apply andb_false_r.
      * congruence.
      * intros. unfold vmfunc_on. simpl. by rewrite Z.ldiff_spec, B1.
      * congruence.
  - apply wp_vcpu_upd, wp_vcpu_upd. eapply HQ.
    + eapply evolves_trans0; apply evolves_vcpus.
    + by apply vcpus_insert2.
    + split; [done | by split | done |]. intros Hd Ha. rewrite Hd, Ha in Hon. done.
Qed.

(** ** Moving a vCPU between views *)

(** The change of a view's count when vCPU [v] becomes [v']. *)
Definition moving (v v' : vcpu) (n : nat) : Z :=
  in_view (Z.of_nat n) v' - in_view (Z.of_nat n) v.

Lemma moving_same v v' n : p2midx v' = p2midx v -> moving v v' n = 0.
Proof. intros E. unfold moving, in_view. rewrite E. lia. Qed.

Lemma wp_move_vcpu d k v i j Q :
  shape d -> vcpus d !! k = Some v -> p2midx v = Z.of_nat i ->
  (i < 39)%nat -> (j < 39)%nat ->
  (forall d', let v' := v <| p2midx := Z.of_nat j |> in
     evolves (moving v v') d d' -> vcpus d' = <[k := v']> (vcpus d) -> Q tt d') ->
  wp (move_vcpu k (Z.of_nat j)) Q d.
Proof.
  intros S Hv Ei Hi Hj HQ.
  destruct (sh_tab _ _ S i Hi) as [p Hp], (sh_tab _ _ S j Hj) as [q Hq].
  assert (Ej : u16 (Z.of_nat j) = Z.of_nat j) by (apply Z.mod_small; lia).
  apply wp_bind. eapply wp_get_altp2m; [done..|].
  apply wp_bind. eapply wp_active_add; [done|].
  apply wp_bind, wp_vcpu_upd. rewrite Ej.
  set (d1 := d <| altp2m_p2m ::= _ |>).
  assert (E1 : evolves (fun n => if decide (i = n) then -1 else 0) d d1).
  { apply evolves_tab. intros p0 _. split; [keeps_tac | simpl; lia]. }
  assert (V1 : vcpus d1 = vcpus d) by done. clearbody d1.
  set (d2 := d1 <| vcpus ::= _ |>).
  assert (E2 : evolves no_delta d1 d2) by apply evolves_vcpus.
  assert (V2 : vcpus d2 = <[k := v <| p2midx := Z.of_nat j |>]> (vcpus d)).
  { unfold d2. rewrite (vcpus_insert _ _ v); by rewrite V1. } clearbody d2.
  pose proof (evolves_trans _ _ _ _ _ _ E1 E2) as E12.
  destruct (proj2 (ev_tabs _ _ _ _ E12) _ _ Hq) as (q' & Hq' & _ & _).
  apply wp_bind. eapply (wp_get_altp2m _ _ (v <| p2midx := Z.of_nat j |>) j); [|reflexivity|done|done|].
  { rewrite V2. apply list_lookup_insert_eq. by eapply lookup_lt_Some. }
  eapply wp_active_add; [done|]. apply HQ; [|exact V2].
  eapply evolves_ext; [|eapply evolves_trans; [exact E12|]].
  2:{ apply (evolves_tab _ _ _ _ 1). intros p0 _. split; [keeps_tac | simpl; lia]. }
  intros n. cbv beta. unfold moving, in_view, no_delta. simpl. rewrite Ei.
  repeat case_decide; zcases; lia.
Qed.

(** Replacing one vCPU keeps the invariant. *)
Lemma inv_vcpu d d' k v v' :
  altp2m_inv d -> vcpus d !! k = Some v ->
  evolves (fun n => if altp2m_active d then moving v v' n else 0) d d' ->
  vcpus d' = <[k := v']> (vcpus d) -> vcpu_common plat v' ->
  (altp2m_active d = true -> vcpu_active d v') ->
  (altp2m_active d = false -> vcpu_inactive v') ->
  altp2m_inv d'.
Proof.
  intros [S C N A I] Hv E V C' A' I'. pose proof (evolves_shape _ _ _ _ S E) as S'.
  assert (Hlook : forall j w, vcpus d' !! j = Some w -> w = v' \/ vcpus d !! j = Some w).
  { intros j w. rewrite V. intros Hw. apply list_lookup_insert_Some in Hw as [(_&<-&_)|(_&?)]; auto. }
  split; [done| | | |]; rewrite ?(ev_active _ _ _ _ E).
  - intros j w Hw. destruct (Hlook _ _ Hw) as [->|]; eauto.
  - intros i p' Hp'.
    destruct (tabs_keep_inv _ _ _ _ S (ev_tabs _ _ _ _ E) _ _ Hp') as (p & Hp & _ & Ha).
    rewrite Ha, (N _ _ Hp), V. destruct (altp2m_active d); [|done].
    rewrite (cnt_insert _ _ _ _ _ Hv). unfold moving. lia.
  - intros Hact j w Hw.
    assert (Hd : vcpu_active d w) by (destruct (Hlook _ _ Hw) as [->|]; eauto).
    destruct Hd as [(i & Ei & Li) (j' & Hj) Hs Hve]. split.
    + exists i. split; [done|]. by apply (evolves_live _ _ _ _ _ E).
    + exists j'. by apply (evolves_view _ _ _ _ _ _ E).
    + intros Hd. apply (evolves_view _ _ _ _ _ _ E). auto.
    + done.
  - intros Hact. destruct (I Hact) as [I1 I2]. split.
    + intros j w Hw. destruct (Hlook _ _ Hw) as [->|]; eauto.
    + intros i Hl. apply (I2 i). by apply (evolves_live _ _ _ _ _ E).
Qed.

(** ** Finding the view of an EPT pointer *)

Lemma eptp_of_tab d i p e : shape d -> tab d i = Some p ->
  altp2m_eptp d !! i = Some e -> e <> INVALID_MFN -> ept_get_eptp p = e.
Proof.
  intros S Hp He Hne. destruct (sh_view _ _ S _ _ _ Hp He Hne) as [Ee Ea].
  rewrite (ept_get_eptp_canon plat); [done | by eapply sh_canon | done].
Qed.

Lemma wp_find_from d j e Q : shape d -> view_eptp d j e -> forall ids,
  (forall i, i ∈ ids -> exists n, i = Z.of_nat n /\ (n < 39)%nat) ->
  Z.of_nat j ∈ ids -> Q (Z.of_nat j) d -> wp (find_eptp_from ids e) Q d.
Proof.
  intros S Vj. induction ids as [|i ids IH]; intros Hids Hin HQ.
  { by apply not_elem_of_nil in Hin. }
  destruct (Hids i) as (n & -> & Hn); [constructor|].
  destruct (eptp_lookup plat d n S Hn) as [en Hen].
  simpl. apply wp_bind. eapply wp_eptp_get; [by rewrite Nat2Z.id|].
  assert (Hrest : j <> n -> wp (find_eptp_from ids e) Q d).
  { intros Hjn. apply IH; [|apply elem_of_cons in Hin as [?|?]; [lia | done] |done]. intros i Hi. apply Hids. by constructor. }
  case_if E; zbool; subst.
  { apply Hrest. intros ->. destruct Vj as [[_ (?&?&?)] ?]. congruence. }
  destruct (sh_tab _ _ S n Hn) as [p Hp].
  apply wp_bind. eapply wp_p2m_get; [by rewrite Nat2Z.id|].
  rewrite (eptp_of_tab d n p en) by done.
  case_if Ee; zbool.
  - apply wp_ret. subst en. replace n with j; [done|].
    eapply view_eptp_inj; [done..|]. split; [|done]. split; [done|]. eauto.
  - apply Hrest. intros ->. destruct Vj as [_ ?]. congruence.
Qed.

Lemma wp_find_eptp d j e Q :
  shape d -> view_eptp d j e -> Q (Z.of_nat j) d -> wp (p2m_find_altp2m_by_eptp e) Q d.
Proof.
  intros S Vj HQ. apply (wp_find_from d j); [done..| | |done].
  - intros i Hi. apply list_elem_of_lookup in Hi as [n Hn].
    apply iota_lookup_Some in Hn as [-> Hn]. exists n. split; [done|].
    unfold MAX_ALTP2M in Hn. lia.
  - apply list_elem_of_lookup. exists j. apply iota_lookup.
    destruct Vj as [[? _] _]. unfold MAX_ALTP2M. lia.
Qed.

(** ** VM exit *)

(** With VMFUNC off or the domain inactive, the check does nothing. *)
Lemma wp_sync_noop d k v Q :
  vcpus d !! k = Some v -> altp2m_active d = false \/ vmfunc_on v = false ->
  Q tt d -> wp (vmexit_sync_eptp k) Q d.
Proof.
  intros Hv Hoff HQ. apply wp_bind, wp_gets, wp_bind. eapply wp_vcpu_get; [done|].
  apply wp_when; [|done]. rewrite vmfunc_flag, negb_involutive. fold (vmfunc_on v).
  destruct Hoff as [->| ->]; [done|]. by rewrite andb_false_r.
Qed.

(** Otherwise the recorded view becomes the one the processor is in. *)
Lemma wp_sync d k v i Q :
  shape d -> altp2m_active d = true -> vcpus d !! k = Some v -> ve_on v = false ->
  vmfunc_on v = true -> p2midx v = Z.of_nat i -> (i < 39)%nat ->
  (exists j, view_eptp d j (EPT_POINTER v)) ->
  (forall d' j, let v' := v <| p2midx := Z.of_nat j |> in
     view_eptp d j (EPT_POINTER v) ->
     evolves (moving v v') d d' -> vcpus d' = <[k := v']> (vcpus d) -> Q tt d') ->
  wp (vmexit_sync_eptp k) Q d.
Proof.
  intros S Hact Hv Hve Hvm Ei Hi [j Vj] HQ.
  assert (Hj : (j < 39)%nat) by apply Vj.
  apply wp_bind, wp_gets, wp_bind. eapply wp_vcpu_get; [done|].
  rewrite vmfunc_flag, negb_involutive. fold (vmfunc_on v). rewrite Hvm, Hact.
  rewrite ve_flag, negb_involutive. fold (ve_on v). rewrite Hve. simpl.
  apply wp_bind, wp_bind. apply (wp_find_eptp d j); [done..|].
  apply wp_bind, wp_when.
  { unfold INVALID_ALTP2M. intros E. zbool. lia. }
  intros _. apply wp_ret, wp_when; intros E; zbool.
  - apply wp_bind, wp_bug_on. { apply Z.leb_gt. unfold MAX_ALTP2M. lia. }
    eapply wp_move_vcpu; [done..|]. intros d' v' E' V'. eapply HQ; [done..| |]; eauto.
  - apply (HQ d j); [done| |].
    + eapply evolves_ext; [|apply evolves_refl]. intros n.
      symmetry. by apply moving_same.
    + symmetry. apply list_insert_id. rewrite Hv, E. by destruct v.
Qed.

(** A step that keeps the invariant and, for each vCPU, the EPT pointer, the
    VMFUNC control and (outside vCPU exits) the place. *)
Record settles (d d' : D) : Prop := {
  st_inv : altp2m_inv d';
  st_eptp : altp2m_eptp d' = altp2m_eptp d;
  st_active : altp2m_active d' = altp2m_active d;
  st_len : length (vcpus d') = length (vcpus d);
  st_vcpu : forall k v v', vcpus d !! k = Some v -> vcpus d' !! k = Some v' ->
    EPT_POINTER v' = EPT_POINTER v /\ vmfunc_on v' = vmfunc_on v /\
    (in_guest v = false -> in_guest v' = false /\ p2midx v' = p2midx v)
}.

Lemma settles_refl d : altp2m_inv d -> settles d d.
Proof. intros I. split; [done..|]. intros. simplify_eq. done. Qed.

Lemma settles_trans d d' d'' : settles d d' -> settles d' d'' -> settles d d''.
Proof.
  intros [I1 E1 A1 L1 V1] [I2 E2 A2 L2 V2]. split; [done|congruence..|].
  intros k v v'' Hv Hv''.
  destruct (lookup_lt_is_Some_2 (vcpus d') k) as [v' Hv'].
  { rewrite L1. by eapply lookup_lt_Some. }
  destruct (V1 _ _ _ Hv Hv') as (P1 & F1 & G1), (V2 _ _ _ Hv' Hv'') as (P2 & F2 & G2).
  split; [congruence|]. split; [congruence|]. intros Hg.
  destruct (G1 Hg) as [Hg' X]. destruct (G2 Hg'). split; [done | congruence].
Qed.

(** One vCPU replaced. *)
Lemma settles_vcpu d d' k v v' :
  altp2m_inv d' -> vcpus d !! k = Some v -> vcpus d' = <[k := v']> (vcpus d) ->
  altp2m_eptp d' = altp2m_eptp d -> altp2m_active d' = altp2m_active d ->
  EPT_POINTER v' = EPT_POINTER v -> vmfunc_on v' = vmfunc_on v ->
  (in_guest v = false -> in_guest v' = false /\ p2midx v' = p2midx v) ->
  settles d d'.
Proof.
  intros I Hv V E A P F G. split; [done..| |].
  - by rewrite V, length_insert.
  - intros j w w' Hw. rewrite V. intros Hw'.
    apply list_lookup_insert_Some in Hw' as [(-> & <- & _)|(_ & Hw')]; simplify_eq; done.
Qed.

Lemma inv_common_of d k v : altp2m_inv d -> vcpus d !! k = Some v -> vcpu_common plat v.
Proof. intros [_ C _ _ _]. apply C. Qed.

(** A vCPU with other bookkeeping (pause count) only. *)
Lemma inv_cosmetic d k v f :
  altp2m_inv d -> vcpus d !! k = Some v -> same_place v (f v) ->
  secondary_exec_control (f v) = secondary_exec_control v ->
  settles d (d <| vcpus ::= alter f k |>).
Proof.
  intros I Hv [P1 P2 P3 P4] C.
  assert (F : vmfunc_on (f v) = vmfunc_on v) by (unfold vmfunc_on; by rewrite C).
  eapply (settles_vcpu _ _ k v (f v)); try done; [|by apply vcpus_insert|].
  2:{ intros. split; congruence. }
  eapply (inv_vcpu _ _ k v (f v)); [done..| |by apply vcpus_insert| | |].
  - eapply evolves_ext; [|apply evolves_vcpus]. intros n. destruct (altp2m_active d); [|done].
    symmetry. by apply moving_same.
  - destruct (inv_common_of _ _ _ I Hv). split; [unfold ve_on; by rewrite C | by rewrite F].
  - intros Hact. destruct (inv_active _ _ I Hact _ _ Hv) as [Ai Ah As Ag].
    split; rewrite ?P1, ?P2, ?P3, ?P4, ?F; done.
  - intros Hact. destruct (proj1 (inv_inactive _ _ I Hact) _ _ Hv) as [Ai Av].
    split; rewrite ?P1, ?F; done.
Qed.

Definition out_of_guest d (k : nat) : Prop :=
  forall v, vcpus d !! k = Some v -> in_guest v = false.

Lemma settles_exit d d' k v i :
  altp2m_inv d -> vcpus d !! k = Some v ->
  let v' := v <| in_guest := false |> <| p2midx := i |> in
  vcpus d' = <[k := v']> (vcpus d) ->
  evolves (fun n => if altp2m_active d then moving v v' n else 0) d d' ->
  (altp2m_active d = true -> 0 <= i /\ view_eptp d (Z.to_nat i) (EPT_POINTER v)) ->
  (altp2m_active d = false \/ in_guest v = false -> i = p2midx v) ->
  settles d d' /\ out_of_guest d' k.
Proof.
  intros I Hv v' V E A Hi. split.
  - eapply (settles_vcpu _ _ k v v'); try done; [|by destruct E|by destruct E|].
    2:{ intros G. split; [done|]. apply Hi. by right. }
    eapply (inv_vcpu _ _ k v v'); try done.
    + destruct (inv_common_of _ _ _ I Hv). by split.
    + intros Ha. destruct (A Ha) as [Hnn Vw]. destruct (inv_active _ _ I Ha _ _ Hv).
      split; [|by exists (Z.to_nat i)|done|done].
      exists (Z.to_nat i). split; [simpl; lia | apply Vw].
    + intros Ha. destruct (proj1 (inv_inactive _ _ I Ha) _ _ Hv). split; [|done].
      simpl. rewrite Hi; auto.
  - intros w. rewrite V, list_lookup_insert_eq by (by eapply lookup_lt_Some).
    by intros [= <-].
Qed.

(** The VM exit of a vCPU keeps the invariant. *)
Lemma wp_vmexit d k v Q :
  altp2m_inv d -> vcpus d !! k = Some v ->
  (forall d', settles d d' -> out_of_guest d' k -> Q tt d') ->
  wp (vmexit k) Q d.
Proof.
  intros I Hv HQ. apply wp_bind, wp_vcpu_upd.
  set (v1 := v <| in_guest := false |>). set (d1 := d <| vcpus ::= _ |>).
  assert (V1 : vcpus d1 = <[k := v1]> (vcpus d)) by (by apply vcpus_insert).
  assert (E1 : evolves no_delta d d1) by apply evolves_vcpus. clearbody d1.
  assert (L1 : vcpus d1 !! k = Some v1).
  { rewrite V1. apply list_lookup_insert_eq. by eapply lookup_lt_Some. }
  destruct (altp2m_active d && vmfunc_on v) eqn:Hon; [zbool|].
  - destruct (inv_active _ _ I ltac:(done) _ _ Hv) as [(i & Ei & Li) (j & Vj) As Ag].
    eapply (wp_sync d1 k v1 i); try done.
    + eapply evolves_shape; [apply I | done].
    + by rewrite (ev_active _ _ _ _ E1).
    + by apply (inv_common_of _ _ _ I Hv).
    + apply Li.
    + exists j. by apply (evolves_view _ _ _ _ _ _ E1).
    + intros d' j' v' Vj' E' V'. apply (evolves_view _ _ _ _ _ _ E1) in Vj'.
      rewrite V1, list_insert_insert_eq in V'.
      destruct (settles_exit d d' k v (Z.of_nat j')) as [St Out]; try done; eauto.
      * eapply evolves_ext; [|by eapply evolves_trans].
        intros n. cbv beta. rewrite H1. by unfold no_delta.
      * intros _. rewrite Nat2Z.id. split; [lia | done].
      * intros [?|Hg]; [congruence|]. rewrite Ei. f_equal.
        specialize (As (or_introl Hg)). rewrite Ei, Nat2Z.id in As.
        eapply view_eptp_inj; [apply I | done..].
  - apply (wp_sync_noop d1 k v1); [done| |].
    { rewrite (ev_active _ _ _ _ E1). by apply andb_false_iff in Hon. }
    destruct (settles_exit d d1 k v (p2midx v)) as [St Out]; try done; eauto.
    + eapply evolves_ext; [|done]. intros n. destruct (altp2m_active d); [|done].
      unfold no_delta. symmetry. by apply moving_same.
    + intros Ha. rewrite Ha in Hon. simpl in Hon.
      destruct (inv_active _ _ I Ha _ _ Hv) as [(i & Ei & Li) _ As Ag].
      split; [lia|]. apply As. by right.
Qed.

(** ** Pausing *)

Lemma wp_sleep_sync d k v Q :
  altp2m_inv d -> vcpus d !! k = Some v ->
  (forall d', settles d d' -> out_of_guest d' k -> Q tt d') ->
  wp (vcpu_sleep_sync k) Q d.
Proof.
  intros I Hv HQ. apply wp_bind. eapply wp_vcpu_get; [done|].
  apply wp_when; intros G; [by eapply wp_vmexit|].
  apply HQ; [by apply settles_refl|]. intros w Hw. by simplify_eq.
Qed.

Lemma wp_pause d k v Q :
  altp2m_inv d -> vcpus d !! k = Some v ->
  (forall d', settles d d' -> out_of_guest d' k -> Q tt d') ->
  wp (vcpu_pause k) Q d.
Proof.
  intros I Hv HQ. apply wp_bind, wp_vcpu_upd.
  assert (St : settles d (d <| vcpus ::= alter (fun v => v <| pause_count ::= Z.add 1 |>) k |>))
    by (by apply (inv_cosmetic d k v)).
  eapply wp_sleep_sync; [apply St| |].
  - simpl. rewrite lookup_alter_case, decide_True, Hv by done. done.
  - intros d' St' O. apply HQ; [by eapply settles_trans | done].
Qed.

Lemma wp_unpause d k v Q :
  altp2m_inv d -> vcpus d !! k = Some v ->
  (forall d', settles d d' -> Q tt d') -> wp (vcpu_unpause k) Q d.
Proof. intros I Hv HQ. apply wp_vcpu_upd, HQ. by apply (inv_cosmetic d k v). Qed.

(** A body that settles and brings vCPU [k] out of the guest, for every vCPU. *)
Lemma wp_each_vcpu d body (P : D -> nat -> Prop) Q :
  altp2m_inv d ->
  (forall d1 d2 k, settles d1 d2 -> P d1 k -> P d2 k) ->
  (forall d1 k v, altp2m_inv d1 -> vcpus d1 !! k = Some v -> settles d d1 ->
     wp (body k) (fun _ d2 => settles d1 d2 /\ P d2 k) d1) ->
  (forall d', settles d d' -> (forall k, (k < length (vcpus d))%nat -> P d' k) -> Q tt d') ->
  wp (for_each_vcpu body) Q d.
Proof.
  intros I HP Hbody HQ. apply wp_bind, wp_gets.
  apply (wp_for_each _ _ (fun n d1 => settles d d1 /\ forall k, (k < n)%nat -> P d1 k)).
  - split; [by apply settles_refl | lia].
  - intros n k d1 Hk [St Hn]. apply lookup_seq in Hk as [-> Hk].
    destruct (lookup_lt_is_Some_2 (vcpus d1) n) as [v Hv]; [rewrite (st_len _ _ St); lia|].
    eapply wp_mono; [eapply Hbody; [apply St | done..]|].
    intros _ d2 [St2 P2]. split; [by eapply settles_trans|].
    intros k Hkn. destruct (decide (k = n)) as [->|]; [done|].
    apply (HP _ _ _ St2), Hn. lia.
  - intros d' [St Hn]. rewrite length_seq in Hn. by apply HQ.
Qed.

Lemma out_stable d1 d2 k : settles d1 d2 -> out_of_guest d1 k -> out_of_guest d2 k.
Proof.
  intros St O v2 Hv2. destruct (lookup_lt_is_Some_2 (vcpus d1) k) as [v1 Hv1].
  { rewrite <- (st_len _ _ St). by eapply lookup_lt_Some. }
  destruct (st_vcpu _ _ St _ _ _ Hv1 Hv2) as (_ & _ & G). apply G. by apply O.
Qed.

(** No vCPU runs in the guest. *)
Definition calm d : Prop := forall k, out_of_guest d k.

Lemma calm_of_lt d : (forall k, (k < length (vcpus d))%nat -> out_of_guest d k) -> calm d.
Proof. intros Hk k v Hv. apply (Hk k); [by eapply lookup_lt_Some | done]. Qed.

(** The caller is in the hypervisor. *)
Definition cur_out d : Prop := forall c, cur = Some c -> out_of_guest d c.

Lemma wp_pause_except_self d Q :
  altp2m_inv d -> cur_out d ->
  (forall d', settles d d' -> calm d' -> Q tt d') ->
  wp (domain_pause_except_self cur) Q d.
Proof.
  intros I Hc HQ. unfold domain_pause_except_self. destruct cur as [c|] eqn:Ec.
  - eapply (wp_each_vcpu _ _ out_of_guest); [done | apply out_stable | |].
    + intros d1 k v I1 Hv St. apply wp_when; unfold is_current; intros E.
      * eapply wp_pause; eauto.
      * apply negb_false_iff, bool_decide_eq_true in E. injection E as ->.
        split; [by apply settles_refl|]. eapply out_stable; [done|]. by apply Hc.
    + intros d' St O. apply HQ; [done|]. apply calm_of_lt. by rewrite (st_len _ _ St).
  - apply wp_bind, wp_modify. set (d1 := d <| dom_pause_count ::= _ |>).
    assert (I1 : altp2m_inv d1) by (eapply inv_evolves; [done | apply evolves_pause | done]).
    assert (St1 : settles d d1).
    { split; [done..|]. intros k v v' Hv Hv'. simpl in Hv'. by simplify_eq. }
    eapply (wp_each_vcpu _ _ out_of_guest); [done | apply out_stable | |].
    + intros d2 k v I2 Hv St. eapply wp_sleep_sync; eauto.
    + intros d' St O. apply HQ; [by eapply settles_trans|].
      apply calm_of_lt. by rewrite (st_len _ _ St).
Qed.

Lemma wp_unpause_except_self d Q :
  altp2m_inv d -> (forall d', settles d d' -> Q tt d') ->
  wp (domain_unpause_except_self cur) Q d.
Proof.
  intros I HQ. unfold domain_unpause_except_self. destruct cur as [c|] eqn:Ec.
  - eapply (wp_each_vcpu _ _ (fun _ _ => True)); [done..| |by auto].
    intros d1 k v I1 Hv St. apply wp_when; intros _.
    + eapply wp_unpause; eauto.
    + split; [by apply settles_refl | done].
  - apply wp_modify, HQ. split; [|done..|].
    + eapply inv_evolves; [done | apply evolves_pause | done].
    + intros k v v' Hv Hv'. simpl in Hv'. by simplify_eq.
Qed.
End Switch.
