(* ===== verification/Altp2mInv.v ===== *)
(** * Every altp2m operation keeps the invariant

    The operations of Altp2m.v that create, destroy and switch views and that
    turn the feature on and off, each with its functional behaviour and with
    the preservation of [altp2m_inv]; then a transition system in which guest
    VMFUNC instructions, VM exits and hypercalls interleave. *)

From S2P Require Import Prelude Monad P2m Altp2m Altp2mProofs Altp2mSwitch.

Section Ops.
Context {T : Type} `{P2MTableLaws T}.
Context (cfg : p2m_config) (plat : platform).
Context (mem_sharing_unshare_page : T -> Z -> T) (zero : T) (cur : option nat).
Context (mask_ok : Z -> bool).
(** The VMX function table is installed. *)
Hypothesis hooks : altp2m_hooks plat = true.

Local Abbreviation D := (domain T).
Local Abbreviation shape := (shape plat).
Local Abbreviation evolves := (evolves plat).
Local Abbreviation keeps := (keeps plat).
Local Abbreviation settles := (settles plat).
Local Abbreviation altp2m_inv := (altp2m_inv plat).

Implicit Types d : D.

(** ** Steps that replace vCPU [k] by [w] *)

Record at_k d (k : nat) (delta : nat -> Z) (w : vcpu) d' : Prop := {
  ak_ev : evolves delta d d';
  ak_vcpus : vcpus d' = <[k := w]> (vcpus d)
}.

Lemma at_k_trans d k f w d' g w' d'' v :
  vcpus d !! k = Some v ->
  at_k d k f w d' -> at_k d' k g w' d'' -> at_k d k (fun n => f n + g n) w' d''.
Proof.
  intros Hv [E1 V1] [E2 V2]. split; [by eapply evolves_trans|].
  by rewrite V2, V1, list_insert_insert_eq.
Qed.

Lemma at_k_ext d k f g w d' : (forall n, f n = g n) -> at_k d k f w d' -> at_k d k g w d'.
Proof. intros E [E1 V1]. split; [by eapply evolves_ext | done]. Qed.

Lemma at_k_trans0 d k f w d' w' d'' v :
  vcpus d !! k = Some v ->
  at_k d k f w d' -> at_k d' k no_delta w' d'' -> at_k d k f w' d''.
Proof.
  intros Hv A1 A2. eapply at_k_ext; [|by eapply at_k_trans].
  intros n. unfold no_delta. simpl. lia.
Qed.

Lemma at_k_lookup d k f w d' v :
  vcpus d !! k = Some v -> at_k d k f w d' -> vcpus d' !! k = Some w.
Proof. intros Hv [_ ->]. apply list_lookup_insert_eq. by eapply lookup_lt_Some. Qed.

Lemma at_k_upd d k v f :
  vcpus d !! k = Some v -> at_k d k no_delta (f v) (d <| vcpus ::= alter f k |>).
Proof. intros Hv. split; [apply evolves_vcpus | by apply vcpus_insert]. Qed.

Lemma at_k_refl d k v : vcpus d !! k = Some v -> at_k d k no_delta v d.
Proof. intros Hv. split; [apply evolves_refl | symmetry; by apply list_insert_id]. Qed.

(** Pausing a vCPU whose VM exit check has nothing to do. *)
Definition parked (v : vcpu) (b : bool) : vcpu :=
  v <| pause_count ::= Z.add 1 |> <| in_guest := b |>.

Lemma wp_pause_noop d k v Q :
  vcpus d !! k = Some v -> altp2m_active d = false \/ vmfunc_on v = false ->
  (forall d', at_k d k no_delta (parked v false) d' -> Q tt d') ->
  wp (vcpu_pause k) Q d.
Proof.
  intros Hv Hoff HQ. apply wp_bind, wp_vcpu_upd.
  pose proof (at_k_upd d k v (fun v => v <| pause_count ::= Z.add 1 |>) Hv) as A1.
  pose proof (at_k_lookup _ _ _ _ _ _ Hv A1) as L1.
  set (d1 := d <| vcpus ::= _ |>) in *. clearbody d1.
  apply wp_bind. eapply wp_vcpu_get; [done|]. apply wp_when; simpl; intros G.
  - apply wp_bind, wp_vcpu_upd. pose proof (at_k_upd d1 k _ (fun v => v <| in_guest := false |>) L1) as A2.
    pose proof (at_k_lookup _ _ _ _ _ _ L1 A2) as L2.
    eapply wp_sync_noop; [done| |].
    { simpl. by rewrite (ev_active _ _ _ _ (ak_ev _ _ _ _ _ A1)). }
    apply HQ. by eapply at_k_trans0.
  - apply HQ. replace (parked v false) with (v <| pause_count ::= Z.add 1 |>); [done|].
    unfold parked. destruct v. simpl in *. by subst.
Qed.

Lemma wp_update_p2m d k Q :
  wp (vmx_vcpu_update_eptp k) Q d -> wp (altp2m_vcpu_update_p2m plat k) Q d.
Proof. intros Hw. unfold altp2m_vcpu_update_p2m. by rewrite hooks. Qed.

Lemma wp_update_vmfunc d k Q :
  wp (vmx_vcpu_update_vmfunc_ve cfg plat mem_sharing_unshare_page k) Q d ->
  wp (altp2m_vcpu_update_vmfunc_ve cfg plat mem_sharing_unshare_page k) Q d.
Proof. intros Hw. unfold altp2m_vcpu_update_vmfunc_ve. by rewrite hooks. Qed.

(** ** Switching *)

(** vCPU [k] is recorded in, and runs on, view [j]. *)
Definition on_view d (k j : nat) : Prop :=
  forall v, vcpus d !! k = Some v ->
    p2midx v = Z.of_nat j /\ view_eptp d j (EPT_POINTER v).

(** The domain after a switch of some vCPUs. *)
Record switched d d' : Prop := {
  sw_inv : altp2m_inv d';
  sw_eptp : altp2m_eptp d' = altp2m_eptp d;
  sw_active : altp2m_active d' = altp2m_active d;
  sw_len : length (vcpus d') = length (vcpus d);
  sw_calm : forall k, out_of_guest d k -> out_of_guest d' k
}.

Lemma switched_refl d : altp2m_inv d -> switched d d.
Proof. by split. Qed.

Lemma switched_trans d d' d'' : switched d d' -> switched d' d'' -> switched d d''.
Proof. intros [] []. split; [done|congruence..|auto]. Qed.

Lemma settles_switched d d' : settles d d' -> switched d d'.
Proof. intros St. split; try apply St. intros k. by apply (out_stable plat). Qed.

Definition switch_one (k : nat) (idx : Z) : M D unit :=
  bind (vcpu_get k) (fun v =>
    when (negb (idx =? p2midx v))
      (bind (move_vcpu k idx) (fun _ => altp2m_vcpu_update_p2m plat k))).

Lemma wp_switch_one d k v j Q :
  altp2m_inv d -> altp2m_active d = true -> vcpus d !! k = Some v ->
  out_of_guest d k -> live d j ->
  (forall d', switched d d' -> on_view d' k j ->
     (forall n, n <> k -> vcpus d' !! n = vcpus d !! n) -> Q tt d') ->
  wp (switch_one k (Z.of_nat j)) Q d.
Proof.
  intros I Hact Hv Out L HQ.
  destruct (inv_active _ _ I Hact _ _ Hv) as [(i & Ei & Li) Ah As Ag].
  pose proof (inv_common_of _ _ _ _ I Hv) as [Cve Cvm].
  apply wp_bind. eapply wp_vcpu_get; [done|]. apply wp_when; intros E; zbool.
  - apply wp_bind. eapply (wp_move_vcpu plat d k v i j); [apply I | done.. | apply Li | apply L |].
    intros d1 v1 E1 V1. apply wp_update_p2m.
    assert (L1 : vcpus d1 !! k = Some v1).
    { rewrite V1. apply list_lookup_insert_eq. by eapply lookup_lt_Some. }
    eapply (wp_update_eptp_active plat d1 k v1 j); [eapply evolves_shape; [apply I|done] | | done.. | | done |].
    { by rewrite (ev_active _ _ _ _ E1). } { by apply (evolves_live _ _ _ _ _ E1). }
    intros d2 e E2 Ve V2. rewrite V1, list_insert_insert_eq in V2.
    apply (evolves_view _ _ _ _ _ _ E1) in Ve.
    pose proof (evolves_trans _ _ _ _ _ _ E1 E2) as E12.
    assert (I2 : altp2m_inv d2).
    { eapply (inv_vcpu _ _ _ k v); [done..| |done|done| |congruence].
      - eapply evolves_ext; [|done]. intros n. cbv beta. rewrite Hact.
        transitivity (moving v v1 n); [unfold no_delta; lia | done].
      - intros _. split; [by exists j | by exists j | | done].
        intros _. simpl. by rewrite Nat2Z.id. }
    apply HQ.
    + split; [done | apply E12 | apply E12 | by rewrite V2, length_insert |].
      intros n On w. rewrite V2. intros Hw.
      apply list_lookup_insert_Some in Hw as [(-> & <- & _)|(_ & Hw)]; [|by apply On].
      simpl. by apply Out.
    + intros w. rewrite V2, list_lookup_insert_eq by (by eapply lookup_lt_Some).
      intros [= <-]. split; [done|]. by apply (evolves_view _ _ _ _ _ _ E12).
    + intros n Hn. rewrite V2. by apply list_lookup_insert_ne.
  - apply HQ; [by apply switched_refl| |done]. intros w Hw. simplify_eq.
    split; [done|]. rewrite <- (Nat2Z.id j), E. apply As. left. by apply Out.
Qed.

Lemma on_view_stable d d' k j :
  switched d d' -> vcpus d' !! k = vcpus d !! k -> on_view d k j -> on_view d' k j.
Proof.
  intros Sw V O v. rewrite V. intros Hv. destruct (O v Hv) as [? Hw]. split; [done|].
  revert Hw. unfold view_eptp, live. by rewrite (sw_eptp _ _ Sw).
Qed.

Lemma on_view_settles d d' k j :
  settles d d' -> out_of_guest d k -> on_view d k j -> on_view d' k j.
Proof.
  intros St Out O v' Hv'. destruct (lookup_lt_is_Some_2 (vcpus d) k) as [v Hv].
  { rewrite <- (st_len _ _ _ St). by eapply lookup_lt_Some. }
  destruct (O v Hv) as [Ei Hw]. destruct (st_vcpu _ _ _ St _ _ _ Hv Hv') as (P & _ & G).
  destruct (G (Out v Hv)) as [_ Gi]. split; [congruence|].
  rewrite P. revert Hw. unfold view_eptp, live. by rewrite (st_eptp _ _ _ St).
Qed.

Lemma live_dec d j : live d j \/ ~ live d j.
Proof.
  unfold live. destruct (decide (j < 39)%nat); [|by right; intros [? _]].
  destruct (altp2m_eptp d !! j) as [e|] eqn:E.
  - destruct (decide (e = INVALID_MFN)); [right | left; eauto].
    intros [_ (e' & ? & ?)]. congruence.
  - right. intros [_ (e' & ? & ?)]. congruence.
Qed.

(** Reading slot [idx] of the EPTP list tells whether the view is live. *)
Lemma wp_eptp_live {A} d idx (k : Z -> M D A) (Q : A -> D -> Prop) :
  shape d -> 0 <= idx < 39 ->
  (forall e, (e <> INVALID_MFN <-> live d (Z.to_nat idx)) ->
     altp2m_eptp d !! Z.to_nat idx = Some e -> wp (k e) Q d) ->
  wp (bind (eptp_get idx) k) Q d.
Proof.
  intros S Hr Hk. destruct (eptp_lookup plat d (Z.to_nat idx) S) as [e He]; [lia|].
  apply wp_bind. eapply wp_eptp_get; [done|]. apply Hk; [|done]. split.
  - intros Hne. split; [lia|]. eauto.
  - intros [_ (e' & ? & ?)]. congruence.
Qed.

Lemma wp_switch_vcpu d k v idx Q :
  altp2m_inv d -> altp2m_active d = true -> vcpus d !! k = Some v ->
  out_of_guest d k -> 0 <= idx ->
  (forall d' ok, switched d d' ->
     (forall n, n <> k -> vcpus d' !! n = vcpus d !! n) ->
     (live d (Z.to_nat idx) -> ok = true /\ on_view d' k (Z.to_nat idx)) ->
     (~ live d (Z.to_nat idx) -> ok = false /\ d' = d) -> Q ok d') ->
  wp (p2m_switch_vcpu_altp2m_by_id plat k idx) Q d.
Proof.
  intros I Hact Hv Out Hnn HQ. unfold p2m_switch_vcpu_altp2m_by_id.
  case_if E; unfold MAX_ALTP2M in E; zbool.
  { apply wp_ret, HQ; [by apply switched_refl | done | | done]. intros [? _]. lia. }
  apply wp_eptp_live; [apply I | lia |]. intros e Hl He. case_if Ee; zbool.
  - apply wp_bind.
    assert (L : live d (Z.to_nat idx)) by (by apply Hl).
    pose proof (wp_switch_one d k v (Z.to_nat idx)
      (fun _ d' => Q true d') I Hact Hv Out L) as W.
    rewrite Z2Nat.id in W by lia.
    assert (W' : wp (switch_one k idx) (fun _ d' => Q true d') d).
    { apply W. intros d' Sw O V. apply HQ; [done..|auto|]. intros N. by destruct N. }
    revert W'. unfold switch_one, wp, bind, vcpu_get, deref, ret. rewrite Hv.
    by destruct (when _ _ d) as [[[] ?]|].
  - apply wp_ret, HQ; [by apply switched_refl | done | | done].
    intros L. apply Hl in L. congruence.
Qed.

(** The loop over the vCPUs, all of them out of the guest. *)
Lemma wp_switch_all d j Q :
  altp2m_inv d -> altp2m_active d = true -> calm d -> live d j ->
  (forall d', switched d d' -> (forall k, on_view d' k j) -> Q tt d') ->
  wp (for_each_vcpu (fun k => switch_one k (Z.of_nat j))) Q d.
Proof.
  intros I Hact C L HQ. apply wp_bind, wp_gets.
  apply (wp_for_each _ _ (fun n d' => switched d d' /\
           forall k, (k < n)%nat -> on_view d' k j)).
  - split; [by apply switched_refl | lia].
  - intros n k d2 Hk [Sw Hn]. apply lookup_seq in Hk as [-> Hk].
    destruct (lookup_lt_is_Some_2 (vcpus d2) n) as [v Hv]; [rewrite (sw_len _ _ Sw); lia|].
    eapply wp_switch_one; [apply Sw | | done | by apply Sw | |].
    + by rewrite (sw_active _ _ Sw).
    + revert L. unfold live. by rewrite (sw_eptp _ _ Sw).
    + intros d3 Sw3 O3 V3. split; [by eapply switched_trans|].
      intros k Hkn. destruct (decide (k = n)) as [->|]; [done|].
      eapply on_view_stable; [done | by apply V3 |]. apply Hn. lia.
  - intros d2 [Sw Hn]. rewrite length_seq in Hn. apply HQ; [done|]. intros k v Hv.
    apply (Hn k); [|done]. rewrite <- (sw_len _ _ Sw). by eapply lookup_lt_Some.
Qed.

Lemma wp_switch_domain d idx Q :
  altp2m_inv d -> altp2m_active d = true -> cur_out cur d -> 0 <= idx ->
  (forall d' rc, switched d d' ->
     (live d (Z.to_nat idx) -> rc = 0 /\ forall k, on_view d' k (Z.to_nat idx)) ->
     (~ live d (Z.to_nat idx) -> rc = - EINVAL /\ settles d d') -> Q rc d') ->
  wp (p2m_switch_domain_altp2m_by_id plat cur idx) Q d.
Proof.
  intros I Hact Hc Hnn HQ. unfold p2m_switch_domain_altp2m_by_id.
  case_if E; unfold MAX_ALTP2M in E; zbool.
  { apply wp_ret, HQ; [by apply switched_refl | intros [? _]; lia |].
    intros _. split; [done | by apply settles_refl]. }
  apply wp_bind. apply (wp_pause_except_self plat); [done..|]. intros d1 St1 C1.
  assert (Ll : forall j, live d1 j <-> live d j).
  { intros j. unfold live. by rewrite (st_eptp _ _ _ St1). }
  apply wp_eptp_live; [apply (st_inv _ _ _ St1) | lia |]. intros e Hl He.
  apply wp_bind. case_if Ee; zbool.
  - apply wp_bind. pose proof (wp_switch_all d1 (Z.to_nat idx)) as W.
    rewrite Z2Nat.id in W by lia. apply W; clear W; [apply St1 | | done | by apply Hl |].
    { by rewrite (st_active _ _ _ St1). }
    intros d2 Sw O. apply wp_ret.
    apply wp_bind, (wp_unpause_except_self plat); [apply Sw|]. intros d3 St3. apply wp_ret, HQ.
    + eapply switched_trans; [by apply settles_switched|].
      eapply switched_trans; [done | by apply settles_switched].
    + intros _. split; [done|]. intros k.
      eapply on_view_settles; [done | apply Sw, C1 | done].
    + rewrite <- Ll. intros N. destruct N. by apply Hl.
  - apply wp_ret, wp_bind, (wp_unpause_except_self plat); [apply St1|]. intros d2 St2.
    pose proof (settles_trans _ _ _ _ St1 St2) as St. apply wp_ret, HQ.
    + by apply settles_switched.
    + rewrite <- Ll. intros L. apply Hl in L. congruence.
    + done.
Qed.

(** ** Creating and destroying *)

(** Slot [i] of the EPTP list becomes [e]. *)
Record relist d d' (i : nat) (e : Z) : Prop := {
  rl_shape : shape d';
  rl_tabs : tabs_keep plat no_delta d d';
  rl_eptp : altp2m_eptp d' = <[i := e]> (altp2m_eptp d);
  rl_vcpus : vcpus d' = vcpus d;
  rl_active : altp2m_active d' = altp2m_active d
}.

Lemma relist_lookup d d' i e j : shape d -> (i < 39)%nat -> relist d d' i e ->
  altp2m_eptp d' !! j = if decide (i = j) then Some e else altp2m_eptp d !! j.
Proof.
  intros S Hi R. rewrite (rl_eptp _ _ _ _ R). case_decide as E; [subst j|].
  - apply list_lookup_insert_eq. rewrite (sh_eptp_len _ _ S). lia.
  - by apply list_lookup_insert_ne.
Qed.

Lemma relist_live d d' i e j : shape d -> (i < 39)%nat -> relist d d' i e ->
  live d' j <-> if decide (i = j) then e <> INVALID_MFN else live d j.
Proof.
  intros S Hi R. unfold live. rewrite (relist_lookup _ _ _ _ j S Hi R).
  case_decide as E; [subst j|done]. split; [intros [_ (?&?&?)]; congruence | eauto].
Qed.

Lemma relist_view d d' i e j x : shape d -> (i < 39)%nat -> relist d d' i e ->
  i <> j -> view_eptp d j x -> view_eptp d' j x.
Proof.
  intros S Hi R Hij [L E]. split.
  - apply (relist_live _ _ _ _ j S Hi R). by rewrite decide_False.
  - by rewrite (relist_lookup _ _ _ _ j S Hi R), decide_False.
Qed.

(** A table update followed by a store into the EPTP list. *)
Lemma relist_intro d i f e p :
  shape d -> tab d i = Some p -> keeps p (f p) -> active_vcpus (f p) = active_vcpus p ->
  (e <> INVALID_MFN -> e = eptp_of plat (phys_table p) /\ ept_asr (f p) = phys_table p) ->
  relist d (d <| altp2m_p2m ::= alter (fmap f) i |> <| altp2m_eptp ::= <[i := e]> |>) i e.
Proof.
  intros S Hp Hk Ha He. pose proof (tab_lt _ _ _ _ S Hp) as Hi.
  set (d1 := d <| altp2m_p2m ::= alter (fmap f) i |>).
  assert (E1 : evolves no_delta d d1).
  { apply evolves_tab0. intros q Hq. by simplify_eq. }
  pose proof (evolves_shape _ _ _ _ S E1) as S1.
  assert (Ht : tab d1 i = Some (f p)).
  { unfold d1. rewrite tab_alter, decide_True, Hp by done. done. }
  split; [|apply E1|done..]. clearbody d1.
  destruct S1 as [S1 S2 S3 S4 S5 S6 S7 S8]. split; try done.
  - simpl. by rewrite length_insert.
  - intros j q x Hq Hx Hne. simpl in Hx. change (tab _ j) with (tab d1 j) in Hq.
    apply list_lookup_insert_Some in Hx as [(-> & <- & _)|(_ & Hx)]; [|by eapply S7].
    simplify_eq. destruct (He Hne) as [He1 He2]. destruct Hk as [Hk _].
    split; congruence.
  - intros j x Hj Hx. simpl in Hx.
    apply list_lookup_insert_Some in Hx as [(-> & <- & _)|(_ & Hx)]; [lia | by eapply S8].
Qed.

Lemma wp_init_helper d i Q :
  shape d -> (i < 39)%nat ->
  (forall d' e, relist d d' i e -> e <> INVALID_MFN -> Q tt d') ->
  wp (p2m_init_altp2m_helper (Z.of_nat i)) Q d.
Proof.
  intros S Hi HQ. destruct (sh_tab _ _ S i Hi) as [p Hp].
  destruct (eptp_lookup plat d i S Hi) as [e He].
  pose proof (sh_canon _ _ S _ _ Hp) as Cp.
  apply wp_bind. eapply wp_p2m_upd; [by rewrite Nat2Z.id|]. rewrite Nat2Z.id.
  apply wp_bind. eapply wp_p2m_get.
  { rewrite tab_alter, Nat2Z.id, decide_True, Hp by done. done. }
  eapply wp_eptp_set; [by rewrite Nat2Z.id|]. rewrite Nat2Z.id.
  rewrite (ept_get_eptp_canon plat) by (by destruct Cp as (?&?&?&?)).
  eapply HQ; [eapply (relist_intro d i _ _ p); [done..| | |] |].
  - split; [done|]. split; [by right|]. by intros (?&?&?&?).
  - done.
  - done.
  - apply eptp_of_valid. apply Cp.
Qed.

(** The vCPUs of an active domain are served by [d'] as they were by [d]. *)
Lemma vcpu_active_mono d d' v :
  (forall j, (exists x, view_eptp d j x) ->
     j = Z.to_nat (p2midx v) \/ view_eptp d j (EPT_POINTER v) ->
     live d' j /\ forall x, view_eptp d j x -> view_eptp d' j x) ->
  vcpu_active d v -> vcpu_active d' v.
Proof.
  intros Hm [(i & Ei & Li) (j & Vj) As Ag].
  assert (Hi : exists x, view_eptp d i x).
  { destruct Li as [? (x & Ex & Nx)]. exists x. split; [|done]. split; [done|]. eauto. }
  split; [| |intros Hd; specialize (As Hd)|done].
  - exists i. split; [done|]. apply Hm; [done|]. left. rewrite Ei. lia.
  - exists j. apply Hm; eauto.
  - rewrite Ei, Nat2Z.id in *. apply Hm; eauto.
Qed.

(** An invariant-preserving change of one slot. *)
Lemma inv_relist d d' i e :
  altp2m_inv d -> altp2m_active d = true -> (i < 39)%nat -> relist d d' i e ->
  (forall k v, vcpus d !! k = Some v ->
     i <> Z.to_nat (p2midx v) /\ ~ view_eptp d i (EPT_POINTER v)) ->
  altp2m_inv d'.
Proof.
  intros I Hact Hi R Hfree. pose proof (inv_shape _ _ I) as S. split.
  - apply R.
  - rewrite (rl_vcpus _ _ _ _ R). apply I.
  - intros j p' Hp'. rewrite (rl_active _ _ _ _ R), (rl_vcpus _ _ _ _ R).
    destruct (tabs_keep_inv _ _ _ _ S (rl_tabs _ _ _ _ R) _ _ Hp') as (p & Hp & _ & Ha).
    rewrite Ha, <- (inv_count _ _ I _ _ Hp). unfold no_delta. lia.
  - intros _ k v. rewrite (rl_vcpus _ _ _ _ R). intros Hv.
    apply (vcpu_active_mono d); [|by eapply inv_active].
    destruct (Hfree _ _ Hv) as [F1 F2]. intros j [x Vx] Hj.
    assert (Hij : i <> j) by (destruct Hj; congruence).
    split; [|intros ?; by eapply relist_view].
    by apply (relist_view _ _ _ _ _ _ S Hi R Hij) in Vx as [? _].
  - rewrite (rl_active _ _ _ _ R). congruence.
Qed.

Lemma inv_create d d' i e :
  altp2m_inv d -> altp2m_active d = true -> (i < 39)%nat -> ~ live d i ->
  relist d d' i e -> altp2m_inv d'.
Proof.
  intros I Hact Hi Nl R. eapply inv_relist; [done..|]. intros k v Hv.
  destruct (inv_active _ _ I Hact _ _ Hv) as [(j & Ej & Lj) _ _ _]. split.
  - rewrite Ej, Nat2Z.id. intros ->. done.
  - intros [L _]. done.
Qed.

Lemma wp_init_next_from d (ns : list nat) Q :
  shape d -> (forall n, n ∈ ns -> (n < 39)%nat) ->
  (forall l1 i l2 d' e, ns = l1 ++ i :: l2 -> (forall n, n ∈ l1 -> live d n) ->
     ~ live d i -> relist d d' i e -> e <> INVALID_MFN -> Q (0, Some (Z.of_nat i)) d') ->
  ((forall n, n ∈ ns -> live d n) -> Q (- EINVAL, None) d) ->
  wp (init_next_from (Z.of_nat <$> ns)) Q d.
Proof.
  intros S. induction ns as [|n ns IH]; intros Hlt Hnew Hfull.
  { apply wp_ret, Hfull. intros n Hn. by apply not_elem_of_nil in Hn. }
  simpl. assert (Hn : (n < 39)%nat) by (apply Hlt; constructor).
  apply wp_eptp_live; [done | lia |]. rewrite Nat2Z.id. intros e Hl He.
  case_if E; zbool.
  - assert (L : live d n) by (by apply Hl). apply IH.
    + intros m Hm. apply Hlt. by constructor.
    + intros l1 i l2 d' e' -> Hl1. intros Ni R Hne. eapply (Hnew (n :: l1)); [done| |done..].
      intros m [->|Hm]%elem_of_cons; auto.
    + intros Hall. apply Hfull. intros m [->|Hm]%elem_of_cons; auto.
  - apply wp_bind. apply wp_init_helper; [done..|]. intros d' e' R Hne. apply wp_ret.
    eapply (Hnew [] n ns); [done | | | done..].
    + intros m Hm. by apply not_elem_of_nil in Hm.
    + rewrite <- Hl. intros X. by apply X.
Qed.

Lemma seq_split_first n l1 i l2 : seq 0 n = l1 ++ i :: l2 ->
  (i < n)%nat /\ forall j, (j < i)%nat -> j ∈ l1.
Proof.
  intros E. assert (Hi : seq 0 n !! length l1 = Some i).
  { rewrite E. by apply list_lookup_middle. }
  apply lookup_seq in Hi as [-> Hlt]. split; [lia|]. intros j Hj. simpl in Hj.
  assert (Hl : seq 0 n !! j = Some j) by (apply lookup_seq; lia).
  rewrite E, lookup_app_l in Hl by done. by eapply list_elem_of_lookup_2.
Qed.

(** Creation takes the first free slot, or fails when there is none. *)
Lemma wp_init_next d Q :
  altp2m_inv d -> altp2m_active d = true ->
  (forall i d' e, (i < 39)%nat -> ~ live d i -> (forall j, (j < i)%nat -> live d j) ->
     altp2m_inv d' -> relist d d' i e -> e <> INVALID_MFN -> Q (0, Some (Z.of_nat i)) d') ->
  ((forall j, (j < 39)%nat -> live d j) -> Q (- EINVAL, None) d) ->
  wp p2m_init_next_altp2m Q d.
Proof.
  intros I Hact Hnew Hfull. apply wp_init_next_from; [apply I | | |].
  - intros n Hn. apply elem_of_seq in Hn. unfold MAX_ALTP2M in Hn. lia.
  - intros l1 i l2 d' e E Hl Ni R Hne. apply seq_split_first in E as [Hi Hfirst].
    unfold MAX_ALTP2M in Hi. eapply Hnew; [lia | done | auto | | done..].
    eapply inv_create; [done..| |done|done]. lia.
  - intros Hall. apply Hfull. intros j Hj. apply Hall, elem_of_seq.
    unfold MAX_ALTP2M. lia.
Qed.

Lemma keeps_flush_reinit b (p : p2m_domain T) : keeps p (flush_reinit plat zero b p).
Proof.
  unfold flush_reinit, ept_p2m_init, p2m_flush_table.
  destruct (np2m_base p =? _), (cpu_has_vmx_pml plat) eqn:Hp, b; simpl;
    (split; [done | split; [by left | intros (?&?&Ha&?)]]);
    rewrite Hp in Ha; (split; [done | split; [done | split; simpl; [by rewrite Hp | done]]]).
Qed.

Lemma count_flush_reinit b (p : p2m_domain T) :
  active_vcpus (flush_reinit plat zero b p) = active_vcpus p.
Proof.
  unfold flush_reinit, ept_p2m_init, p2m_flush_table.
  by destruct (np2m_base p =? _), (cpu_has_vmx_pml plat), b.
Qed.

(** Flushing table [i] and clearing its slot. *)
Lemma wp_drop_view d i Q :
  shape d -> (i < 39)%nat ->
  (forall d', relist d d' i INVALID_MFN -> Q tt d') ->
  wp (bind (p2m_upd (Z.of_nat i) (flush_reinit plat zero (mask_ok (Z.of_nat i))))
        (fun _ => eptp_set (Z.of_nat i) INVALID_MFN)) Q d.
Proof.
  intros S Hi HQ. destruct (sh_tab _ _ S i Hi) as [p Hp].
  destruct (eptp_lookup plat d i S Hi) as [e He].
  apply wp_bind. eapply wp_p2m_upd; [by rewrite Nat2Z.id|]. rewrite Nat2Z.id.
  eapply wp_eptp_set; [by rewrite Nat2Z.id|]. rewrite Nat2Z.id. apply HQ.
  eapply (relist_intro d i _ _ p); [done..| | |done].
  - apply keeps_flush_reinit.
  - apply count_flush_reinit.
Qed.

(** No vCPU runs on view [i]. *)
Definition unused d (i : nat) : Prop :=
  forall k v, vcpus d !! k = Some v -> ~ view_eptp d i (EPT_POINTER v).

(** With every vCPU out of the guest, the counter of a live view is zero
    exactly when no EPT pointer designates it. *)
Lemma calm_unused d i p :
  altp2m_inv d -> altp2m_active d = true -> calm d -> tab d i = Some p ->
  active_vcpus p = 0 <-> unused d i.
Proof.
  intros I Hact C Hp. rewrite (inv_count _ _ I _ _ Hp), Hact.
  pose proof (fun k v => inv_active _ _ I Hact k v) as A. split.
  - intros Hc k v Hv Vi. destruct (A _ _ Hv) as [(j & Ej & Lj) _ As _].
    specialize (As (or_introl (C k v Hv))). rewrite Ej, Nat2Z.id in As.
    rewrite (view_eptp_inj _ _ _ _ _ (inv_shape _ _ I) Vi As) in Hc.
    pose proof (cnt_pos _ _ _ _ Hv Ej). lia.
  - intros Hv. apply cnt_none. intros v Hin Ei.
    apply list_elem_of_lookup in Hin as [k Hk]. apply (Hv _ _ Hk).
    destruct (A _ _ Hk) as [_ _ As _]. specialize (As (or_introl (C k v Hk))).
    by rewrite Ei, Nat2Z.id in As.
Qed.

Lemma settles_view d d' i x : settles d d' -> view_eptp d' i x <-> view_eptp d i x.
Proof. intros St. unfold view_eptp, live. by rewrite (st_eptp _ _ _ St). Qed.

Lemma settles_unused d d' i : settles d d' -> unused d' i <-> unused d i.
Proof.
  intros St. unfold unused. pose proof (st_len _ _ _ St) as L.
  split; intros U k v Hv.
  - destruct (lookup_lt_is_Some_2 (vcpus d') k) as [v' Hv'].
    { rewrite L. by eapply lookup_lt_Some. }
    destruct (st_vcpu _ _ _ St _ _ _ Hv Hv') as [<- _].
    rewrite <- (settles_view _ _ _ _ St). by eapply U.
  - destruct (lookup_lt_is_Some_2 (vcpus d) k) as [w Hw].
    { rewrite <- L. by eapply lookup_lt_Some. }
    destruct (st_vcpu _ _ _ St _ _ _ Hw Hv) as [-> _].
    rewrite (settles_view _ _ _ _ St). by eapply U.
Qed.

(** What [p2m_destroy_altp2m_by_id] returns and does. *)
Definition destroy_post d idx rc d' : Prop :=
  altp2m_inv d' /\ altp2m_active d' = altp2m_active d /\
  (rc = 0 \/ rc = - EBUSY) /\
  (rc = 0 <-> idx <> 0 /\ live d (Z.to_nat idx) /\ unused d (Z.to_nat idx)) /\
  (forall j, live d' j <-> live d j /\ (rc = 0 -> j <> Z.to_nat idx)).

Lemma destroy_refused d d' idx :
  settles d d' -> ~ (idx <> 0 /\ live d (Z.to_nat idx) /\ unused d (Z.to_nat idx)) ->
  destroy_post d idx (- EBUSY) d'.
Proof.
  intros St N. split; [apply St|]. split; [apply St|]. split; [by right|].
  split; [split; [done | intros X; by destruct N]|].
  intros j. unfold live. rewrite (st_eptp _ _ _ St).
  split; [intros X; by split | by intros [? _]].
Qed.

Lemma destroy_done d d1 d2 d3 idx :
  settles d d1 -> relist d1 d2 (Z.to_nat idx) INVALID_MFN -> settles d2 d3 ->
  0 < idx < 39 -> live d1 (Z.to_nat idx) -> unused d1 (Z.to_nat idx) ->
  destroy_post d idx 0 d3.
Proof.
  intros St1 R St3 Hr L U. pose proof (inv_shape _ _ (st_inv _ _ _ St1)) as S1.
  assert (Ll : forall j, live d1 j <-> live d j).
  { intros j. unfold live. by rewrite (st_eptp _ _ _ St1). }
  split; [apply St3|]. split.
  { by rewrite (st_active _ _ _ St3), (rl_active _ _ _ _ R), (st_active _ _ _ St1). }
  split; [by left|]. split.
  { split; [intros _ | done]. split; [lia|]. split; [by apply Ll|].
    by apply (settles_unused _ _ _ St1). }
  intros j. transitivity (live d2 j); [unfold live; by rewrite (st_eptp _ _ _ St3)|].
  assert (Hi : (Z.to_nat idx < 39)%nat) by lia.
  rewrite (relist_live d1 d2 _ _ j S1 Hi R), <- Ll.
  case_decide as Ej; [subst j|]; split; [done | | by intros; split; auto |by intros [? _]].
  intros [_ X]. by destruct X.
Qed.

Lemma inv_drop d d' i :
  altp2m_inv d -> altp2m_active d = true -> calm d -> (i < 39)%nat -> unused d i ->
  relist d d' i INVALID_MFN -> altp2m_inv d'.
Proof.
  intros I Hact C Hi U R. eapply inv_relist; [done..|].
  intros k v Hv. split; [|by eapply U].
  intros Ei. apply (U _ _ Hv). destruct (inv_active _ _ I Hact _ _ Hv) as [_ _ As _].
  rewrite Ei. apply As. left. by apply (C k).
Qed.

Lemma wp_destroy d idx :
  altp2m_inv d -> altp2m_active d = true -> cur_out cur d -> 0 <= idx ->
  wp (p2m_destroy_altp2m_by_id plat zero cur mask_ok idx) (destroy_post d idx) d.
Proof.
  intros I Hact Hc Hnn. unfold p2m_destroy_altp2m_by_id. case_if E.
  { apply wp_ret, destroy_refused; [by apply settles_refl|].
    apply orb_true_iff in E as [E|E]; unfold MAX_ALTP2M in E; zbool.
    - by intros [? _].
    - intros (_ & [? _] & _). lia. }
  unfold MAX_ALTP2M in E. zbool.
  apply wp_bind. apply (wp_pause_except_self plat); [done..|]. intros d1 St1 C1.
  pose proof (st_inv _ _ _ St1) as I1. pose proof (inv_shape _ _ I1) as S1.
  assert (Ll : forall j, live d1 j <-> live d j).
  { intros j. unfold live. by rewrite (st_eptp _ _ _ St1). }
  assert (Busy : ~ (idx <> 0 /\ live d (Z.to_nat idx) /\ unused d (Z.to_nat idx)) ->
    wp (bind (domain_unpause_except_self cur) (fun _ => ret (- EBUSY)))
       (destroy_post d idx) d1).
  { intros N. apply wp_bind, (wp_unpause_except_self plat); [done|]. intros d2 St2.
    apply wp_ret, destroy_refused; [by eapply settles_trans | done]. }
  apply wp_eptp_live; [done | lia |]. intros e Hl He. apply wp_bind. case_if Ee; zbool.
  2:{ apply wp_ret, Busy. intros (_ & L & _). apply Ll, Hl in L. done. }
  destruct (sh_tab _ _ S1 (Z.to_nat idx)) as [p Hp]; [lia|].
  assert (Hact1 : altp2m_active d1 = true) by (by rewrite (st_active _ _ _ St1)).
  pose proof (calm_unused d1 _ p I1 Hact1 C1 Hp) as Hu.
  apply wp_bind. eapply wp_p2m_get; [done|]. case_if Ez; zbool.
  2:{ apply wp_ret, Busy. intros (_ & _ & U). apply Ez, Hu.
      by apply (settles_unused _ _ _ St1). }
  apply Hu in Ez. apply wp_seq2.
  pose proof (wp_drop_view d1 (Z.to_nat idx)) as W. rewrite Z2Nat.id in W by lia.
  apply W; [done | lia |]. intros d2 R. apply wp_ret.
  apply wp_bind, (wp_unpause_except_self plat).
  { eapply (inv_drop d1); [done..| |done|done]. lia. }
  intros d3 St3. apply wp_ret. eapply destroy_done; [done..|lia| |done]. by apply Hl.
Qed.

(** ** Turning the feature on and off *)

(** The fields the two loops look at. *)
Definition same_but_pause (v v' : vcpu) : Prop :=
  p2midx v' = p2midx v /\ veinfo_gfn v' = veinfo_gfn v /\
  secondary_exec_control v' = secondary_exec_control v /\ EPT_POINTER v' = EPT_POINTER v.

Lemma same_but_pause_flags v v' : same_but_pause v v' ->
  vmfunc_on v' = vmfunc_on v /\ ve_on v' = ve_on v /\ (vcpu_common plat v -> vcpu_common plat v').
Proof.
  intros (_ & _ & E & _). unfold vmfunc_on, ve_on. rewrite E. split; [done|]. split; [done|].
  intros [C1 C2]. split; unfold ve_on, vmfunc_on in *; by rewrite E.
Qed.

Lemma wp_pause_other d k v Q :
  vcpus d !! k = Some v -> altp2m_active d = false \/ vmfunc_on v = false ->
  (forall d' v', at_k d k no_delta v' d' -> same_but_pause v v' -> Q tt d') ->
  wp (when (negb (is_current cur k)) (vcpu_pause k)) Q d.
Proof.
  intros Hv Hoff HQ. apply wp_when; intros _.
  - eapply wp_pause_noop; [done..|]. intros d' A. by eapply HQ.
  - by apply (HQ d v); [apply at_k_refl|].
Qed.

Lemma wp_unpause_other d k v Q :
  vcpus d !! k = Some v ->
  (forall d' v', at_k d k no_delta v' d' -> same_but_pause v v' -> Q tt d') ->
  wp (when (negb (is_current cur k)) (vcpu_unpause k)) Q d.
Proof.
  intros Hv HQ. apply wp_when; intros _.
  - apply wp_vcpu_upd. eapply HQ; [by apply at_k_upd | done].
  - by apply (HQ d v); [apply at_k_refl|].
Qed.

Lemma at_k_shape d k f w d' : shape d -> at_k d k f w d' -> shape d'.
Proof. intros S A. eapply evolves_shape; [done | apply A]. Qed.

Lemma at_k_active d k f w d' : at_k d k f w d' -> altp2m_active d' = altp2m_active d.
Proof. intros A. apply A. Qed.

(** The counter of the view a vCPU leaves. *)
Lemma wp_leave_view d k v Q :
  shape d -> vcpus d !! k = Some v ->
  (exists i, p2midx v = Z.of_nat i /\ (i < 39)%nat) ->
  (forall d', at_k d k (fun n => - in_view (Z.of_nat n) v) v d' -> Q tt d') ->
  wp (bind (p2m_get_altp2m k) (fun p =>
        match p with Some _ => active_vcpus_add p (-1) | None => ret tt end)) Q d.
Proof.
  intros S Hv (i & Ei & Hi) HQ. destruct (sh_tab _ _ S i Hi) as [p Hp].
  apply wp_bind. eapply wp_get_altp2m; [done..|]. eapply wp_active_add; [done|]. apply HQ.
  split; [|simpl; symmetry; by apply list_insert_id].
  eapply evolves_ext; [|apply (evolves_tab _ _ _ _ (-1)); intros q _; split; [keeps_tac | simpl; lia]].
  intros n. cbv beta. unfold in_view. rewrite Ei. case_decide; zcases; lia.
Qed.

Lemma wp_vcpu_destroy d k v Q :
  shape d -> altp2m_active d = false -> vcpus d !! k = Some v -> vcpu_common plat v ->
  (exists i, p2midx v = Z.of_nat i /\ (i < 39)%nat) ->
  (forall d' v', at_k d k (fun n => - in_view (Z.of_nat n) v) v' d' ->
     p2midx v' = INVALID_ALTP2M -> vmfunc_on v' = false -> vcpu_common plat v' -> Q tt d') ->
  wp (altp2m_vcpu_destroy cfg plat mem_sharing_unshare_page cur k) Q d.
Proof.
  intros S Hact Hv C Hi HQ. apply wp_bind. eapply wp_pause_other; [done | by left |].
  intros d1 v1 A1 P1. pose proof (at_k_lookup _ _ _ _ _ _ Hv A1) as L1.
  destruct (same_but_pause_flags _ _ P1) as (F1 & F2 & FC). destruct P1 as (Pi & _).
  match goal with |- wp (bind ?m (fun p => bind (@?f p) (fun _ => ?r))) ?Q' ?d0 =>
    assert (W : wp (bind m f) (fun _ d' => wp r Q' d') d0);
    [| revert W; unfold wp, bind; destruct (m d0) as [[p dp]|]; [|done];
       by destruct (f p dp) as [[[] ?]|]] end.
  eapply wp_leave_view; [by eapply at_k_shape | done | by rewrite Pi |]. intros d2 A2.
  pose proof (at_k_lookup _ _ _ _ _ _ L1 A2) as L2.
  pose proof (at_k_trans _ _ _ _ _ _ _ _ _ Hv A1 A2) as A12.
  apply wp_bind, wp_vcpu_upd.
  pose proof (at_k_upd d2 k v1 (fun v => v <| p2midx := INVALID_ALTP2M |> <| veinfo_gfn := INVALID_GFN |>) L2) as A3.
  pose proof (at_k_lookup _ _ _ _ _ _ L2 A3) as L3.
  pose proof (at_k_trans0 _ _ _ _ _ _ _ _ Hv A12 A3) as A13.
  set (d3 := d2 <| vcpus ::= _ |>) in *. clearbody d3.
  apply wp_bind, wp_update_p2m. eapply wp_update_eptp_inactive;
    [by eapply at_k_shape | by rewrite (at_k_active _ _ _ _ _ A13) | done | |].
  { simpl. unfold ve_on. simpl. by apply FC. }
  intros d4 e E4 V4. pose proof (Build_at_k _ _ _ _ _ E4 V4) as A4.
  pose proof (at_k_lookup _ _ _ _ _ _ L3 A4) as L4.
  pose proof (at_k_trans0 _ _ _ _ _ _ _ _ Hv A13 A4) as A14.
  apply wp_bind, wp_update_vmfunc. eapply wp_update_vmfunc_ve;
    [by eapply at_k_shape | done | | done |].
  { destruct (FC C). by split. }
  intros d5 v5 E5 V5 [SP VC Off _]. pose proof (Build_at_k _ _ _ _ _ E5 V5) as A5.
  pose proof (at_k_lookup _ _ _ _ _ _ L4 A5) as L5.
  pose proof (at_k_trans0 _ _ _ _ _ _ _ _ Hv A14 A5) as A15.
  eapply wp_unpause_other; [done|]. intros d6 v6 A6 P6.
  destruct (same_but_pause_flags _ _ P6) as (G1 & _ & GC). destruct P6 as (Qi & _).
  eapply HQ.
  - eapply at_k_ext; [|exact (at_k_trans0 _ _ _ _ _ _ _ _ Hv A15 A6)].
    intros n. unfold no_delta, in_view. rewrite Pi. lia.
  - rewrite Qi, (sp_idx _ _ SP). done.
  - rewrite G1. apply Off. by rewrite (at_k_active _ _ _ _ _ A14).
  - auto.
Qed.

Lemma wp_vcpu_initialise d k v Q :
  shape d -> altp2m_active d = true -> vcpus d !! k = Some v -> vcpu_common plat v ->
  vmfunc_on v = false -> live d 0 ->
  (forall d' v', at_k d k (fun n => in_view (Z.of_nat n) v') v' d' ->
     p2midx v' = 0 -> vmfunc_on v' = false -> vcpu_common plat v' -> vcpu_active d v' ->
     Q tt d') ->
  wp (altp2m_vcpu_initialise plat cur k) Q d.
Proof.
  intros S Hact Hv C Hoff L0 HQ. apply wp_bind. eapply wp_pause_other; [done | by right |].
  intros d1 v1 A1 P1. pose proof (at_k_lookup _ _ _ _ _ _ Hv A1) as L1.
  destruct (same_but_pause_flags _ _ P1) as (F1 & F2 & FC).
  apply wp_bind, wp_vcpu_upd, wp_bind, wp_vcpu_upd.
  set (v2 := v1 <| p2midx := INVALID_ALTP2M |> <| veinfo_gfn := INVALID_GFN |> <| p2midx := 0 |>).
  set (d2 := d1 <| vcpus ::= _ |> <| vcpus ::= _ |>).
  assert (A2 : at_k d1 k no_delta v2 d2).
  { split; [eapply evolves_trans0; apply evolves_vcpus | by apply (vcpus_insert2 d1 k v1)]. }
  clearbody d2. pose proof (at_k_lookup _ _ _ _ _ _ L1 A2) as L2.
  pose proof (at_k_trans0 _ _ _ _ _ _ _ _ Hv A1 A2) as A12.
  pose proof (at_k_shape _ _ _ _ _ S A12) as S2.
  destruct (sh_tab _ _ S2 0%nat) as [p Hp]; [lia|].
  apply wp_bind. eapply (wp_get_altp2m _ _ v2 0); [done | done | lia | done |].
  apply wp_bind. eapply wp_active_add; [done|].
  set (d3 := d2 <| altp2m_p2m ::= _ |>).
  assert (A3 : at_k d2 k (fun n => in_view (Z.of_nat n) v2) v2 d3).
  { split; [|simpl; symmetry; by apply list_insert_id].
    eapply evolves_ext; [|apply (evolves_tab _ _ _ _ 1); intros q _; split; [keeps_tac | simpl; lia]].
    intros n. cbv beta. unfold in_view. replace (p2midx v2) with 0 by done.
    case_decide; zcases; lia. }
  clearbody d3. pose proof (at_k_lookup _ _ _ _ _ _ L2 A3) as L3.
  pose proof (at_k_trans _ _ _ _ _ _ _ _ _ Hv A12 A3) as A13.
  apply wp_bind, wp_update_p2m.
  eapply (wp_update_eptp_active plat d3 k v2 0);
    [by eapply at_k_shape | by rewrite (at_k_active _ _ _ _ _ A13) | done | done | | |].
  { by apply (evolves_live _ _ _ _ _ (ak_ev _ _ _ _ _ A13)). }
  { unfold ve_on. simpl. by apply FC. }
  intros d4 e E4 Ve V4. pose proof (Build_at_k _ _ _ _ _ E4 V4) as A4.
  apply (evolves_view _ _ _ _ _ _ (ak_ev _ _ _ _ _ A13)) in Ve.
  pose proof (at_k_lookup _ _ _ _ _ _ L3 A4) as L4.
  pose proof (at_k_trans0 _ _ _ _ _ _ _ _ Hv A13 A4) as A14.
  eapply wp_unpause_other; [done|]. intros d5 v5 A5 P5.
  destruct (same_but_pause_flags _ _ P5) as (G1 & _ & GC).
  destruct P5 as (Qi & Qg & Qc & Qp).
  assert (Ei : p2midx v5 = 0) by (by rewrite Qi).
  eapply (HQ d5 v5); [| done | | |].
  - eapply at_k_ext; [|exact (at_k_trans0 _ _ _ _ _ _ _ _ Hv A14 A5)].
    intros n. unfold no_delta, in_view. by rewrite Ei.
  - rewrite G1. unfold vmfunc_on. simpl. by rewrite <- Hoff, <- F1.
  - apply GC. destruct (FC C). by split.
  - split; [by exists 0%nat | exists 0%nat; by rewrite Qp | | by rewrite Qg].
    intros _. by rewrite Ei, Qp.
Qed.

(** Between clearing altp2m_active and flushing: the first [n] vCPUs are out
    of the feature, and the counters count the others. *)
Record leaving d (n : nat) d' : Prop := {
  lv_shape : shape d';
  lv_active : altp2m_active d' = false;
  lv_len : length (vcpus d') = length (vcpus d);
  lv_common : forall k v, vcpus d' !! k = Some v -> vcpu_common plat v;
  lv_count : forall i p, tab d' i = Some p -> active_vcpus p = cnt (vcpus d') (Z.of_nat i);
  lv_done : forall k v, (k < n)%nat -> vcpus d' !! k = Some v ->
    p2midx v = INVALID_ALTP2M /\ vmfunc_on v = false;
  lv_todo : forall k v, (n <= k)%nat -> vcpus d' !! k = Some v ->
    exists i, p2midx v = Z.of_nat i /\ (i < 39)%nat
}.

Lemma leaving_step d n d1 v d2 v' :
  leaving d n d1 -> vcpus d1 !! n = Some v ->
  at_k d1 n (fun i => - in_view (Z.of_nat i) v) v' d2 ->
  p2midx v' = INVALID_ALTP2M -> vmfunc_on v' = false -> vcpu_common plat v' ->
  leaving d (S n) d2.
Proof.
  intros [Sh Ac Le Co Cn Dn Td] Hv A Ei Hoff C. pose proof (ak_vcpus _ _ _ _ _ A) as V.
  assert (Hl : forall k w, vcpus d2 !! k = Some w ->
    (k = n /\ w = v') \/ (k <> n /\ vcpus d1 !! k = Some w)).
  { intros k w. rewrite V. intros Hw.
    apply list_lookup_insert_Some in Hw as [(<- & <- & _)|(? & ?)]; [left | right]; auto. }
  split.
  - by eapply at_k_shape.
  - by rewrite (at_k_active _ _ _ _ _ A).
  - by rewrite V, length_insert.
  - intros k w Hw. destruct (Hl _ _ Hw) as [[-> ->]|[? ?]]; eauto.
  - intros i p' Hp'. pose proof (ak_ev _ _ _ _ _ A) as E.
    destruct (tabs_keep_inv _ _ _ _ Sh (ev_tabs _ _ _ _ E) _ _ Hp') as (p & Hp & _ & Ha).
    pose proof (tab_lt _ _ _ _ Sh Hp).
    rewrite Ha, (Cn _ _ Hp), V, (cnt_insert _ _ _ _ _ Hv).
    assert (in_view (Z.of_nat i) v' = 0); [|lia].
    unfold in_view. rewrite Ei. unfold INVALID_ALTP2M. zcases; lia.
  - intros k w Hk Hw. destruct (Hl _ _ Hw) as [[-> ->]|[? ?]]; [done|]. eapply Dn; [|done]. lia.
  - intros k w Hk Hw. destruct (Hl _ _ Hw) as [[-> ->]|[? ?]]; [lia|]. eapply Td; [|done]. lia.
Qed.

(** After the flush of the views below [n]. *)
Record flushed d (n : nat) d' : Prop := {
  fl_shape : shape d';
  fl_active : altp2m_active d' = altp2m_active d;
  fl_vcpus : vcpus d' = vcpus d;
  fl_tabs : tabs_keep plat no_delta d d';
  fl_live : forall j, live d' j -> live d j /\ (n <= j)%nat
}.

Lemma wp_flush d Q :
  shape d -> (forall d', flushed d 39 d' -> Q tt d') ->
  wp (p2m_flush_altp2m plat zero mask_ok) Q d.
Proof.
  intros S HQ. apply (wp_for_each _ _ (flushed d)).
  - split; [done..| |]; [by apply tabs_keep_same|]. intros j L. split; [done | lia].
  - intros n i d1 Hn F. apply iota_lookup_Some in Hn as [-> Hn]. unfold MAX_ALTP2M in Hn.
    destruct F as [F1 F2 F3 F4 F5]. apply wp_drop_view; [done | lia |]. intros d2 R. split.
    + apply R.
    + by rewrite (rl_active _ _ _ _ R).
    + by rewrite (rl_vcpus _ _ _ _ R).
    + eapply tabs_keep_ext; [|eapply tabs_keep_trans; [exact F4 | apply R]]. done.
    + intros j. rewrite (relist_live d1 d2 n _ j F1 ltac:(lia) R).
      case_decide; [done|]. intros L. destruct (F5 j L). split; [done | lia].
  - intros d' F. apply HQ. rewrite iota_length in F. done.
Qed.

Lemma leaving_flushed d d1 d2 :
  leaving d (length (vcpus d)) d1 -> flushed d1 39 d2 ->
  altp2m_inv d2 /\ altp2m_active d2 = false /\ length (vcpus d2) = length (vcpus d).
Proof.
  intros [Sh Ac Le Co Cn Dn Td] [F1 F2 F3 F4 F5].
  assert (A2 : altp2m_active d2 = false) by congruence.
  assert (Dn' : forall k v, vcpus d2 !! k = Some v -> p2midx v = INVALID_ALTP2M /\ vmfunc_on v = false).
  { intros k v. rewrite F3. intros Hv. eapply Dn; [|done].
    rewrite <- Le. by eapply lookup_lt_Some. }
  split; [|split; [done | by rewrite F3]]. split; rewrite ?A2, ?F3; try done.
  - intros i p' Hp'. destruct (tabs_keep_inv _ _ _ _ Sh F4 _ _ Hp') as (p & Hp & _ & Ha).
    rewrite Ha, (Cn _ _ Hp), cnt_none; [done|]. intros v Hin Ei.
    apply list_elem_of_lookup in Hin as [k Hk]. rewrite <- F3 in Hk.
    destruct (Dn' _ _ Hk) as [E _]. pose proof (tab_lt _ _ _ _ Sh Hp).
    unfold INVALID_ALTP2M in E. lia.
  - intros _. split.
    + intros k v Hv. rewrite <- F3 in Hv. destruct (Dn' _ _ Hv). split; auto.
    + intros i L. destruct (F5 i L) as [[? _] ?]. lia.
Qed.

(** Between setting altp2m_active and the end of the loop: the first [n]
    vCPUs are in view 0. *)
Record entering d (n : nat) d' : Prop := {
  en_shape : shape d';
  en_active : altp2m_active d' = true;
  en_len : length (vcpus d') = length (vcpus d);
  en_live : live d' 0;
  en_common : forall k v, vcpus d' !! k = Some v -> vcpu_common plat v /\ vmfunc_on v = false;
  en_count : forall i p, tab d' i = Some p ->
    active_vcpus p = if decide (i = 0%nat) then Z.of_nat n else 0;
  en_done : forall k v, (k < n)%nat -> vcpus d' !! k = Some v ->
    p2midx v = 0 /\ vcpu_active d' v
}.

Lemma entering_step d n d1 v d2 v' :
  entering d n d1 -> vcpus d1 !! n = Some v ->
  at_k d1 n (fun i => in_view (Z.of_nat i) v') v' d2 ->
  p2midx v' = 0 -> vmfunc_on v' = false -> vcpu_common plat v' -> vcpu_active d1 v' ->
  entering d (S n) d2.
Proof.
  intros [Sh Ac Le Li Co Cn Dn] Hv A Ei Hoff C Va. pose proof (ak_vcpus _ _ _ _ _ A) as V.
  pose proof (ak_ev _ _ _ _ _ A) as E.
  assert (Hl : forall k w, vcpus d2 !! k = Some w ->
    (k = n /\ w = v') \/ (k <> n /\ vcpus d1 !! k = Some w)).
  { intros k w. rewrite V. intros Hw.
    apply list_lookup_insert_Some in Hw as [(<- & <- & _)|(? & ?)]; [left | right]; auto. }
  assert (Mono : forall w, vcpu_active d1 w -> vcpu_active d2 w).
  { intros w. apply vcpu_active_mono. intros j [x Vx] _.
    split; [apply (evolves_live _ _ _ _ _ E), Vx|].
    intros y. apply (evolves_view _ _ _ _ _ _ E). }
  split.
  - by eapply at_k_shape.
  - by rewrite (at_k_active _ _ _ _ _ A).
  - by rewrite V, length_insert.
  - by apply (evolves_live _ _ _ _ _ E).
  - intros k w Hw. destruct (Hl _ _ Hw) as [[-> ->]|[? ?]]; eauto.
  - intros i p' Hp'.
    destruct (tabs_keep_inv _ _ _ _ Sh (ev_tabs _ _ _ _ E) _ _ Hp') as (p & Hp & _ & Ha).
    rewrite Ha, (Cn _ _ Hp). unfold in_view. rewrite Ei. case_decide; zcases; lia.
  - intros k w Hk Hw. destruct (Hl _ _ Hw) as [[-> ->]|[? ?]]; [by auto|].
    destruct (Dn k w) as [? ?]; [lia | done |]. auto.
Qed.

Lemma entering_inv d d' : entering d (length (vcpus d)) d' -> altp2m_inv d'.
Proof.
  intros [Sh Ac Le Li Co Cn Dn].
  assert (Dn' : forall k v, vcpus d' !! k = Some v -> p2midx v = 0 /\ vcpu_active d' v).
  { intros k v Hv. apply (Dn k); [|done]. rewrite <- Le. by eapply lookup_lt_Some. }
  split; try done.
  - intros k v Hv. by apply (Co k).
  - intros i p Hp. rewrite Ac, (Cn _ _ Hp).
    assert (Hz : forall v, v ∈ vcpus d' -> p2midx v = 0).
    { intros v Hin. apply list_elem_of_lookup in Hin as [k Hk]. by apply (Dn' k). }
    case_decide as Ei; [subst i|].
    + rewrite cnt_all by done. lia.
    + rewrite cnt_none; [done|]. intros v Hin. rewrite (Hz v Hin). lia.
  - intros _ k v Hv. by apply (Dn' k).
  - congruence.
Qed.

(** What HVMOP_altp2m_set_domain_state returns and does. *)
Definition set_state_post d state rc d' : Prop :=
  (altp2m_inv d' /\ length (vcpus d') = length (vcpus d)) /\
  if (param_altp2m d =? 0) || nestedhvm_enabled d
  then rc = - EINVAL /\ d' = d
  else
    rc = 0 /\ altp2m_active d' = negb (state =? 0) /\
    (altp2m_active d = true -> altp2m_active d' = false -> forall i, ~ live d' i) /\
    (altp2m_active d = false -> altp2m_active d' = true ->
       (forall k, on_view d' k 0) /\ forall i, live d' i <-> i = 0%nat).

Lemma wp_turn_off d Q :
  altp2m_inv d -> altp2m_active d = true ->
  (forall d', altp2m_inv d' -> altp2m_active d' = false ->
     length (vcpus d') = length (vcpus d) -> Q tt d') ->
  wp (bind (for_each_vcpu (altp2m_vcpu_destroy cfg plat mem_sharing_unshare_page cur))
        (fun _ => p2m_flush_altp2m plat zero mask_ok)) Q (d <| altp2m_active := false |>).
Proof.
  intros I Hact HQ. apply wp_bind, wp_bind, wp_gets.
  set (d0 := d <| altp2m_active := false |>).
  apply (wp_for_each _ _ (leaving d0)).
  - split; try done.
    + destruct I as [[] _ _ _ _]. by split.
    + apply I.
    + intros i p Hp. rewrite (inv_count _ _ I i p Hp), Hact. done.
    + intros k v Hk. lia.
    + intros k v _ Hv. destruct (inv_active _ _ I Hact _ _ Hv) as [(i & Ei & Li) _ _ _].
      exists i. split; [done | apply Li].
  - intros n k d1 Hk L. apply lookup_seq in Hk as [-> Hk].
    destruct (lookup_lt_is_Some_2 (vcpus d1) n) as [v Hv]; [rewrite (lv_len _ _ _ L); lia|].
    eapply wp_vcpu_destroy; [apply L | apply L | done | by eapply lv_common | by eapply lv_todo |].
    intros d2 v2 A E2 O2 C2. by eapply leaving_step.
  - intros d1 L. rewrite length_seq in L. apply wp_flush; [apply L|]. intros d2 F.
    destruct (leaving_flushed _ _ _ L F) as (? & ? & ?). by apply HQ.
Qed.

Lemma wp_turn_on d d0 e Q :
  altp2m_inv d -> altp2m_active d = false ->
  relist (d <| altp2m_active := true |>) d0 0 e -> e <> INVALID_MFN ->
  (forall d', entering d0 (length (vcpus d0)) d' -> altp2m_eptp d' = altp2m_eptp d0 -> Q tt d') ->
  wp (for_each_vcpu (altp2m_vcpu_initialise plat cur)) Q d0.
Proof.
  intros I Hact R Hne HQ. apply wp_bind, wp_gets.
  destruct (inv_inactive _ _ I Hact) as [Iv Il].
  set (d1 := d <| altp2m_active := true |>) in *.
  assert (S1 : shape d1) by (destruct I as [[] _ _ _ _]; by split).
  apply (wp_for_each _ _ (fun n d' => entering d0 n d' /\ altp2m_eptp d' = altp2m_eptp d0)).
  - split; [|done]. split.
    + apply R.
    + by rewrite (rl_active _ _ _ _ R).
    + done.
    + apply (relist_live d1 d0 0 e 0 S1 ltac:(lia) R). by rewrite decide_True.
    + intros k v. rewrite (rl_vcpus _ _ _ _ R). intros Hv. split; [by apply (inv_common _ _ I k)|].
      by apply (Iv k).
    + intros i p' Hp'. destruct (tabs_keep_inv _ _ _ _ S1 (rl_tabs _ _ _ _ R) _ _ Hp') as (p & Hp & _ & Ha).
      pose proof (inv_count _ _ I i p Hp) as Hc. rewrite Hact in Hc.
      rewrite Ha, Hc. unfold no_delta. by case_decide.
    + intros k v Hk. lia.
  - intros n k d2 Hk [En Ee]. apply lookup_seq in Hk as [-> Hk].
    destruct (lookup_lt_is_Some_2 (vcpus d2) n) as [v Hv]; [rewrite (en_len _ _ _ En); lia|].
    destruct (en_common _ _ _ En _ _ Hv) as [C Hoff].
    eapply wp_vcpu_initialise; [apply En | apply En | done.. | apply En |].
    intros d3 v3 A E3 O3 C3 Va. split; [by eapply entering_step|].
    rewrite <- Ee. apply (ak_ev _ _ _ _ _ A).
  - intros d2 [En Ee]. rewrite length_seq in En. by apply HQ.
Qed.

Lemma wp_set_domain_state d state :
  altp2m_inv d ->
  wp (set_domain_state cfg plat mem_sharing_unshare_page zero cur mask_ok state)
     (set_state_post d state) d.
Proof.
  intros I. apply wp_bind, wp_gets. unfold set_state_post.
  case_if E. { by apply wp_ret. }
  apply wp_bind, wp_modify. destruct (altp2m_active d) eqn:Hact, (state =? 0) eqn:Es; simpl.
  - apply wp_bind, wp_ret. apply wp_bind. simpl.
    apply (wp_turn_off d); [done..|]. intros d' I' A' L'. apply wp_ret.
    rewrite A'. split; [done|]. split; [done|]. split; [done|]. split; [|done].
    intros _ _. by apply (inv_inactive _ _ I').
  - apply wp_ret.
    replace (d <| altp2m_active := true |>) with d by (destruct d; simpl in *; by subst).
    rewrite Hact. done.
  - apply wp_ret.
    replace (d <| altp2m_active := false |>) with d by (destruct d; simpl in *; by subst).
    rewrite Hact. done.
  - apply wp_bind.
    set (d1 := d <| altp2m_active := true |>).
    assert (S1 : shape d1) by (destruct I as [[] _ _ _ _]; by split).
    destruct (inv_inactive _ _ I Hact) as [_ Il].
    unfold p2m_init_altp2m_by_id. change (MAX_ALTP2M <=? 0) with false. cbv iota.
    apply wp_eptp_live; [done | lia |]. intros e Hl He.
    case_if Ez; zbool; [|exfalso; apply (Il 0%nat); by apply Hl].
    apply wp_bind. apply (wp_init_helper d1 0); [done | lia |]. intros d2 e2 R Hne.
    apply wp_ret, wp_bind. simpl. apply wp_bind.
    eapply (wp_turn_on d d2 e2); [done..|]. intros d3 En Ee. apply wp_ret. cbn. apply wp_ret.
    pose proof (entering_inv _ _ En) as I3. pose proof (en_active _ _ _ En) as A3.
    rewrite A3. split; [split; [done|]|].
    { by rewrite (en_len _ _ _ En), (rl_vcpus _ _ _ _ R). }
    split; [done|]. split; [done|]. split; [done|]. intros _ _. split.
    + intros k v Hv. destruct (en_done _ _ _ En k v) as [Ei Va]; [|done|].
      { rewrite <- (en_len _ _ _ En). by eapply lookup_lt_Some. }
      split; [done|]. destruct Va as [_ _ As _]. rewrite Ei in As. apply As. right.
      by apply (en_common _ _ _ En k).
    + intros i. transitivity (live d2 i); [unfold live; by rewrite Ee|].
      rewrite (relist_live d1 d2 0 _ i S1 ltac:(lia) R). case_decide as Ei; [by subst|].
      split; [intros L; exfalso; by apply (Il i) | by intros ->].
Qed.
End Ops.
