(* ===== verification/Altp2mTables.v ===== *)
(** * Operations on the tables of the views

    [quiet]: an operation that changes no vCPU, no EPT pointer and no
    counter.  The operations that read and fill the tables are quiet, so they
    keep the invariant; [do_altp2m_op] and the interleaving of hypercalls with
    the guest follow. *)

From S2P Require Import Prelude Monad P2m Altp2m Altp2mProofs Altp2mSwitch Altp2mInv.

Create HintDb quiet.

Section Quiet.
Context {T : Type} `{P2MTableLaws T}.
Context (cfg : p2m_config) (plat : platform).
Context (mem_sharing_unshare_page : T -> Z -> T) (zero : T) (cur : option nat).
Context (mask_ok : Z -> bool).

Local Abbreviation D := (domain T).
Local Abbreviation shape := (shape plat).
Local Abbreviation evolves := (evolves plat).
Local Abbreviation altp2m_inv := (altp2m_inv plat).
Implicit Types d : D.

Definition quiet d d' : Prop := evolves no_delta d d' /\ vcpus d' = vcpus d.

Lemma quiet_refl d : quiet d d.
Proof. split; [apply evolves_refl | done]. Qed.

Lemma quiet_trans d d' d'' : quiet d d' -> quiet d' d'' -> quiet d d''.
Proof. intros [E1 V1] [E2 V2]. split; [by eapply evolves_trans0 | congruence]. Qed.

Lemma quiet_shape d d' : shape d -> quiet d d' -> shape d'.
Proof. intros S [E _]. by eapply evolves_shape. Qed.

Lemma quiet_inv d d' : altp2m_inv d -> quiet d d' -> altp2m_inv d'.
Proof. intros I [E V]. by eapply inv_evolves. Qed.

(** An operation that is quiet from every well-shaped domain. *)
Definition Quiet {A} (m : M D A) : Prop :=
  forall d, shape d -> wp m (fun _ d' => quiet d d') d.

Lemma Quiet_ret {A} (a : A) : Quiet (ret a).
Proof. intros d _. apply wp_ret, quiet_refl. Qed.

Lemma Quiet_bind {A B} (m : M D A) (k : A -> M D B) :
  Quiet m -> (forall a, Quiet (k a)) -> Quiet (bind m k).
Proof.
  intros Hm Hk d S. apply wp_bind. eapply wp_mono; [exact (Hm d S)|].
  intros a d' Q. eapply wp_mono; [exact (Hk a d' (quiet_shape _ _ S Q))|].
  intros b d'' Q'. exact (quiet_trans _ _ _ Q Q').
Qed.

Lemma Quiet_gets {A} (f : D -> A) : Quiet (gets f).
Proof. intros d _. apply wp_gets, quiet_refl. Qed.

Lemma Quiet_when b (m : M D unit) : Quiet m -> Quiet (when b m).
Proof. intros Hm. destruct b; [done | apply Quiet_ret]. Qed.

Lemma Quiet_crash : Quiet domain_crash.
Proof. intros d _. apply wp_modify. split; [apply evolves_crash | done]. Qed.

Lemma Quiet_m2p m : Quiet (modify (fun d : D => d <| m2p := m |>)).
Proof. intros d _. apply wp_modify. split; [apply evolves_m2p | done]. Qed.

Lemma Quiet_p2m_get i : 0 <= i < 39 -> Quiet (p2m_get i).
Proof.
  intros Hi d S. destruct (sh_tab _ _ S (Z.to_nat i)) as [p Hp]; [lia|].
  eapply wp_p2m_get; [done | apply quiet_refl].
Qed.

Lemma Quiet_p2m_upd i f : 0 <= i < 39 ->
  (forall p : p2m_domain T, keeps plat p (f p) /\ active_vcpus (f p) = active_vcpus p) ->
  Quiet (p2m_upd i f).
Proof.
  intros Hi Hf d S. destruct (sh_tab _ _ S (Z.to_nat i)) as [p Hp]; [lia|].
  eapply wp_p2m_upd; [done|]. split; [|done]. by apply evolves_tab0.
Qed.

Lemma Quiet_host_get : Quiet host_get.
Proof.
  intros d S. destruct (sh_host _ _ S) as [h Hh].
  eapply wp_host_get; [done | apply quiet_refl].
Qed.

Lemma Quiet_host_upd f : Quiet (host_upd f).
Proof.
  intros d S. destruct (sh_host _ _ S) as [h Hh].
  eapply wp_host_upd; [done|]. split; [apply evolves_host | done].
Qed.

Lemma Quiet_eptp_get i : 0 <= i < 39 -> Quiet (eptp_get i).
Proof.
  intros Hi d S. destruct (eptp_lookup plat d (Z.to_nat i) S) as [e He]; [lia|].
  eapply wp_eptp_get; [done | apply quiet_refl].
Qed.

Lemma Quiet_deref {A B} (a : A) (k : A -> M D B) :
  Quiet (k a) -> Quiet (bind (deref (fun _ : D => Some a)) k).
Proof. intros Hk d S. apply wp_bind. eapply wp_deref; [done | exact (Hk d S)]. Qed.

(** Table-only updates. *)
Ltac table_only :=
  intros; split; [split; [done | split; [by left | by intros (?&?&?&?)]] | done].

Ltac quiet_step :=
  match goal with
  | |- Quiet (bind (deref (fun _ => Some _)) _) => apply Quiet_deref
  | |- Quiet (bind _ _) => apply Quiet_bind; [|intros ?]
  | |- Quiet (ret _) => apply Quiet_ret
  | |- Quiet (gets _) => apply Quiet_gets
  | |- Quiet (when _ _) => apply Quiet_when
  | |- Quiet domain_crash => apply Quiet_crash
  | |- Quiet (modify _) => apply Quiet_m2p
  | |- Quiet (p2m_get _) => apply Quiet_p2m_get; lia
  | |- Quiet host_get => apply Quiet_host_get
  | |- Quiet (host_upd _) => apply Quiet_host_upd
  | |- Quiet (eptp_get _) => apply Quiet_eptp_get; lia
  | |- Quiet (p2m_upd _ _) => apply Quiet_p2m_upd; [lia | table_only]
  | |- Quiet (if ?b then _ else _) => destruct b eqn:?
  | |- Quiet (match ?x with _ => _ end) => destruct x eqn:?
  end.
Ltac quiet_tac := repeat first [solve [eauto with quiet] | quiet_step].

Lemma Quiet_get_gfn_host gfn q : Quiet (get_gfn_host cfg mem_sharing_unshare_page gfn q).
Proof. unfold get_gfn_host. quiet_tac. Qed.

Lemma Quiet_get_gfn_alt i gfn q : 0 <= i < 39 ->
  Quiet (get_gfn_alt cfg mem_sharing_unshare_page (Some i) gfn q).
Proof. intros Hi. unfold get_gfn_alt. quiet_tac. Qed.

Lemma Quiet_alt_get_entry i gfn q : 0 <= i < 39 -> Quiet (alt_get_entry i gfn q).
Proof. intros Hi. unfold alt_get_entry. quiet_tac. Qed.

Lemma Quiet_host_get_entry gfn q : Quiet (host_get_entry gfn q).
Proof. unfold host_get_entry. quiet_tac. Qed.

Lemma Quiet_alt_set_entry i gfn mfn o ty a sve : 0 <= i < 39 ->
  Quiet (alt_set_entry i gfn mfn o ty a sve).
Proof. intros Hi. unfold alt_set_entry. quiet_tac. Qed.

Lemma Quiet_alt_p2m_set_entry i gfn mfn o ty a : 0 <= i < 39 ->
  Quiet (alt_p2m_set_entry cfg i gfn mfn o ty a).
Proof. intros Hi. unfold alt_p2m_set_entry. quiet_tac. Qed.

Lemma Quiet_reset i : 0 <= i < 39 -> Quiet (p2m_reset_altp2m plat zero mask_ok i).
Proof.
  intros Hi. apply Quiet_p2m_upd; [done|]. intros p.
  destruct (keeps_flush_reinit plat zero (mask_ok i) p) as (K1 & K2 & K3).
  split; [|apply (count_flush_reinit plat zero)]. split; [done|]. split; [done|].
  intros C. by destruct (K3 C) as (?&?&?&?).
Qed.
Hint Resolve Quiet_get_gfn_host Quiet_get_gfn_alt Quiet_alt_get_entry
  Quiet_host_get_entry Quiet_alt_set_entry Quiet_alt_p2m_set_entry Quiet_reset : quiet.

Lemma Quiet_for_each {A} (l : list A) (body : A -> M D unit) :
  (forall a, a ∈ l -> Quiet (body a)) -> Quiet (for_each l body).
Proof.
  induction l as [|a l IH]; intros Hl; simpl; [apply Quiet_ret|].
  apply Quiet_bind; [apply Hl; constructor|]. intros _. apply IH.
  intros b Hb. apply Hl. by constructor.
Qed.

Lemma iota_range (i : Z) : i ∈ iota (Z.to_nat MAX_ALTP2M) -> 0 <= i < 39.
Proof.
  intros Hi. apply list_elem_of_lookup in Hi as [n Hn].
  apply iota_lookup_Some in Hn as [-> Hn]. unfold MAX_ALTP2M in Hn. lia.
Qed.

Lemma Quiet_reset_others last : Quiet (reset_others plat zero mask_ok last).
Proof.
  apply Quiet_for_each. intros i Hi. apply iota_range in Hi. quiet_tac.
Qed.
Hint Resolve Quiet_reset_others : quiet.

Lemma Quiet_propagate_from gfn mfn o ty a : forall ids rc last,
  (forall i, i ∈ ids -> 0 <= i < 39) ->
  Quiet (propagate_from cfg plat mem_sharing_unshare_page zero mask_ok
           ids gfn mfn o ty a rc last).
Proof.
  induction ids as [|i ids IH]; intros rc last Hids; simpl; [apply Quiet_ret|].
  assert (Hi : 0 <= i < 39) by (apply Hids; constructor).
  assert (Hr : forall rc last, Quiet (propagate_from cfg plat mem_sharing_unshare_page
                 zero mask_ok ids gfn mfn o ty a rc last)).
  { intros. apply IH. intros j Hj. apply Hids. by constructor. }
  quiet_tac.
Qed.

Lemma Quiet_propagate gfn mfn o ty a :
  Quiet (p2m_altp2m_propagate_change cfg plat mem_sharing_unshare_page zero mask_ok
           gfn mfn o ty a).
Proof.
  apply Quiet_bind; [apply Quiet_gets|]. intros b. apply Quiet_when.
  apply Quiet_propagate_from, iota_range.
Qed.

Lemma Quiet_set_mem_access idx gfn access : 0 <= idx ->
  Quiet (p2m_set_altp2m_mem_access cfg cur idx gfn access).
Proof.
  intros Hi. unfold p2m_set_altp2m_mem_access.
  case_if E; [apply Quiet_ret|]. unfold MAX_ALTP2M in E. zbool. quiet_tac.
Qed.

Lemma Quiet_remove_page i gfn mfn o : 0 <= i < 39 -> Quiet (alt_remove_page cfg i gfn mfn o).
Proof.
  intros Hi d S. destruct (sh_tab _ _ S (Z.to_nat i)) as [p Hp]; [lia|].
  apply wp_bind. eapply wp_p2m_get; [done|]. apply wp_bind, wp_gets.
  destruct (p2m_remove_page cfg p gfn mfn o (m2p d)) as [[rc p'] m'] eqn:E.
  assert (Hk : keeps plat p p' /\ active_vcpus p' = active_vcpus p).
  { revert E. unfold p2m_remove_page. destruct (negb _); [|destruct (p2m_set_entry _ _ _ _ _ _ _)];
      intros; simplify_eq/=; (split; [split; [done | split; [by left | by intros (?&?&?&?)]] | done]). }
  apply wp_bind. eapply wp_p2m_upd; [done|]. apply wp_bind, wp_modify, wp_ret.
  split; [|done]. eapply evolves_trans0; [|apply evolves_m2p].
  apply evolves_tab0. intros q Hq. by simplify_eq.
Qed.
Hint Resolve Quiet_remove_page : quiet.

Lemma Quiet_change_gfn idx old new : 0 <= idx ->
  Quiet (p2m_change_altp2m_gfn cfg cur idx old new).
Proof.
  intros Hi. unfold p2m_change_altp2m_gfn.
  case_if E; [apply Quiet_ret|]. unfold MAX_ALTP2M in E. zbool. quiet_tac.
  - apply Quiet_p2m_upd; [lia|]. intros p. destruct (_ <? _); table_only.
  - apply Quiet_p2m_upd; [lia|]. intros p. destruct (_ <? _); table_only.
Qed.

Lemma wp_lazy_copy_quiet d k v i gpa :
  shape d -> vcpus d !! k = Some v -> p2midx v = Z.of_nat i -> (i < 39)%nat ->
  wp (p2m_altp2m_lazy_copy cfg mem_sharing_unshare_page k gpa)
     (fun _ d' => quiet d d') d.
Proof.
  intros S Hv Ei Hi. destruct (sh_tab _ _ S i Hi) as [p Hp].
  apply wp_bind. eapply wp_get_altp2m; [done..|].
  assert (Hr : 0 <= Z.of_nat i < 39) by lia.
  match goal with |- wp ?m _ _ => assert (Q : Quiet m) by (cbv zeta; quiet_tac) end.
  exact (Q d S).
Qed.
End Quiet.
