(* ===== verification/Altp2mSystem.v ===== *)
(** * The altp2m hypercall and the guest, interleaved

    [step] is one action on a domain: a vCPU enters the guest, executes
    VMFUNC, takes a VM exit; a hypercall runs; a handler of the hypervisor
    switches a vCPU, fills a table or propagates a host change.  From a domain
    prepared by [hap_enable] every reachable domain satisfies [altp2m_inv] and
    no action brings the hypervisor down. *)

From S2P Require Import Prelude Monad P2m Altp2m Altp2mProofs Altp2mSwitch Altp2mInv.
From S2P Require Import Altp2mTables.

Section System.
Context {T : Type} `{P2MTableLaws T}.
Context (cfg : p2m_config) (plat : platform).
Context (mem_sharing_unshare_page : T -> Z -> T) (zero : T).
Hypothesis hooks : altp2m_hooks plat = true.

Local Abbreviation D := (domain T).
Local Abbreviation altp2m_inv := (altp2m_inv plat).
Implicit Types d : D.

(** The caller: a vCPU of this domain that is out of the guest, or a vCPU of
    another domain. *)
Definition caller_ok d (cur : option nat) : Prop :=
  forall c, cur = Some c -> exists v, vcpus d !! c = Some v /\ in_guest v = false.

(** The fields of the hypercall argument are unsigned. *)
Definition args_ok (a : xen_hvm_altp2m_op) : Prop :=
  0 <= vw_view a /\ 0 <= ma_view a /\ 0 <= cg_view a.

Lemma caller_cur_out d cur : caller_ok d cur -> cur_out cur d.
Proof. intros Hc c Ec v Hv. destruct (Hc c Ec) as (w & Hw & Hg). by simplify_eq. Qed.

(** Loading the VMFUNC controls of one vCPU of an active domain. *)
Lemma wp_enable_notify d k v Q :
  altp2m_inv d -> altp2m_active d = true -> vcpus d !! k = Some v ->
  view_eptp d (Z.to_nat (p2midx v)) (EPT_POINTER v) ->
  (forall d' v', altp2m_inv d' -> evolves plat no_delta d d' ->
     vcpus d' = <[k := v']> (vcpus d) -> vmfunc_loaded plat d v v' -> Q tt d') ->
  wp (altp2m_vcpu_update_vmfunc_ve cfg plat mem_sharing_unshare_page k) Q d.
Proof.
  intros I Hact Hv Hg HQ. apply wp_update_vmfunc; [done|].
  destruct (inv_active _ _ I Hact _ _ Hv) as [Ai Ah As Ag].
  eapply wp_update_vmfunc_ve; [apply I | done | by eapply inv_common_of | done |].
  intros d' v' E V L. apply (HQ d' v'); [|done..].
  destruct (vl_place _ _ _ _ L) as [P1 P2 P3 P4].
  eapply (inv_vcpu _ _ _ k v v'); [done..| |done|apply L| |congruence].
  - eapply evolves_ext; [|done]. intros n. rewrite Hact. symmetry. by apply moving_same.
  - intros _. split; rewrite ?P1, ?P2, ?P3, ?P4; try done.
Qed.

(** ** The hypercall *)

(** HVMOP_altp2m_set_domain_state and the queries work on any domain; the
    other commands need an active one. *)
Definition needs_active (cmd : Z) : bool :=
  negb (cmd =? HVMOP_altp2m_get_domain_state) && negb (cmd =? HVMOP_altp2m_set_domain_state).

Lemma wp_op_switch d cur mask_ok env a :
  altp2m_inv d -> caller_ok d cur -> args_ok a ->
  (op_cmd a = HVMOP_altp2m_vcpu_enable_notify -> cur <> None) ->
  (needs_active (op_cmd a) = true -> altp2m_active d = true) ->
  wp (altp2m_op_switch cfg plat mem_sharing_unshare_page zero cur mask_ok env a)
     (fun _ d' => altp2m_inv d') d.
Proof.
  intros I Hc (Av & Am & Ac) Hcur Hact. pose proof (caller_cur_out _ _ Hc) as Ho.
  unfold altp2m_op_switch, needs_active in *.
  destruct (op_cmd a =? HVMOP_altp2m_get_domain_state) eqn:E1.
  { apply wp_bind, wp_gets. case_if E; apply wp_ret; done. }
  destruct (op_cmd a =? HVMOP_altp2m_set_domain_state) eqn:E2.
  { apply wp_bind. eapply wp_mono; [by apply wp_set_domain_state|].
    intros rc d' [[I' _] _]. by apply wp_ret. }
  specialize (Hact eq_refl).
  destruct (op_cmd a =? HVMOP_altp2m_vcpu_enable_notify) eqn:E3.
  { zbool. destruct cur as [c|] eqn:Ec; [|by destruct Hcur].
    destruct (Hc c eq_refl) as (v & Hv & Hg).
    apply wp_bind. eapply wp_deref; [done|]. apply wp_bind.
    eapply wp_enable_notify; [done..| |].
    - apply (inv_active _ _ I Hact _ _ Hv). by left.
    - intros d' v' I' _ _ _. by apply wp_ret. }
  destruct (op_cmd a =? HVMOP_altp2m_create_p2m) eqn:E4.
  { apply wp_bind. eapply (wp_init_next plat); [done..| |].
    - intros i d' e _ _ _ I' _ _. cbn. by apply wp_ret.
    - intros _. cbn. by apply wp_ret. }
  destruct (op_cmd a =? HVMOP_altp2m_destroy_p2m) eqn:E5.
  { apply wp_bind. eapply wp_mono; [by apply wp_destroy|]. intros rc d' [I' _]. by apply wp_ret. }
  destruct (op_cmd a =? HVMOP_altp2m_switch_p2m) eqn:E6.
  { apply wp_bind. apply wp_switch_domain; [done..|]. intros d' rc Sw _ _. apply wp_ret, Sw. }
  destruct (op_cmd a =? HVMOP_altp2m_set_mem_access) eqn:E7.
  { case_if E; [by apply wp_ret|]. apply wp_bind.
    eapply wp_mono; [apply (Quiet_set_mem_access cfg plat cur); [done | apply I]|].
    intros rc d' Q. apply wp_ret. by eapply quiet_inv. }
  destruct (op_cmd a =? HVMOP_altp2m_change_gfn) eqn:E8; [|by apply wp_ret].
  case_if E; [by apply wp_ret|]. apply wp_bind.
  eapply wp_mono; [apply (Quiet_change_gfn cfg plat cur); [done | apply I]|].
  intros rc d' Q. apply wp_ret. by eapply quiet_inv.
Qed.

Lemma wp_do_altp2m_op d cur mask_ok env a :
  altp2m_inv d -> caller_ok d cur -> args_ok a ->
  (op_cmd a = HVMOP_altp2m_vcpu_enable_notify -> cur <> None) ->
  wp (do_altp2m_op cfg plat mem_sharing_unshare_page zero cur mask_ok env a)
     (fun _ d' => altp2m_inv d') d.
Proof.
  intros I Hc Ha Hcur. unfold do_altp2m_op.
  do 4 (match goal with |- wp (if ?b then _ else _) _ _ =>
          destruct b; [by apply wp_ret|] end).
  apply wp_bind, wp_gets. case_if E1; [by apply wp_ret|].
  case_if E2; [by apply wp_ret|]. case_if E3; [by apply wp_ret|].
  apply wp_op_switch; [done..|]. unfold needs_active. intros Hn.
  rewrite Hn in E2. simpl in E2. by apply negb_false_iff in E2.
Qed.

(** ** The transition system *)

(** The processor executes VMFUNC(EPTP switching) with ECX = [ecx] on vCPU
    [v]: it loads entry [ecx] of the EPTP list, if that is a valid pointer,
    and records the index when the virtualisation exception is enabled. *)
Definition cpu_vmfunc (ecx e : Z) (v : vcpu) : vcpu :=
  let v := v <| EPT_POINTER := e |> in
  if ve_on v then v <| EPTP_INDEX := ecx |> else v.

Inductive step : D -> option D -> Prop :=
  | step_vmenter d k v :
      vcpus d !! k = Some v -> pause_count v = 0 -> dom_pause_count d = 0 ->
      step d (Some (d <| vcpus ::= alter (fun v => v <| in_guest := true |>) k |>))
  | step_vmfunc d k v ecx e :
      vcpus d !! k = Some v -> in_guest v = true -> vmfunc_on v = true ->
      0 <= ecx < MAX_EPTP -> altp2m_eptp d !! Z.to_nat ecx = Some e -> e <> INVALID_MFN ->
      step d (Some (d <| vcpus ::= alter (cpu_vmfunc ecx e) k |>))
  | step_vmexit d k v :
      vcpus d !! k = Some v -> in_guest v = true ->
      step d (snd <$> vmexit k d)
  | step_hypercall d cur mask_ok env a :
      caller_ok d cur -> args_ok a ->
      (op_cmd a = HVMOP_altp2m_vcpu_enable_notify -> cur <> None) ->
      step d (snd <$> do_altp2m_op cfg plat mem_sharing_unshare_page zero cur mask_ok env a d)
  | step_check d k v idx :
      vcpus d !! k = Some v -> in_guest v = false -> 0 <= idx ->
      step d (snd <$> p2m_altp2m_check plat k idx d)
  | step_emulate_vmfunc d k v eax ecx :
      vcpus d !! k = Some v -> in_guest v = false -> 0 <= ecx ->
      step d (snd <$> vmx_vcpu_emulate_vmfunc plat k eax ecx d)
  | step_lazy_copy d k v gpa :
      vcpus d !! k = Some v -> altp2m_active d = true ->
      step d (snd <$> p2m_altp2m_lazy_copy cfg mem_sharing_unshare_page k gpa d)
  | step_propagate d mask_ok gfn mfn o ty a :
      step d (snd <$> p2m_altp2m_propagate_change cfg plat mem_sharing_unshare_page zero
                        mask_ok gfn mfn o ty a d).

Inductive reachable (d0 : D) : D -> Prop :=
  | reach_refl : reachable d0 d0
  | reach_step d d' : reachable d0 d -> step d (Some d') -> reachable d0 d'.

(** From a wp to the outcome of a step. *)
Lemma wp_outcome {A} (m : M D A) d :
  wp m (fun _ d' => altp2m_inv d') d ->
  exists d', snd <$> m d = Some d' /\ altp2m_inv d'.
Proof. intros W. apply wp_run in W as (a & d' & -> & I). by exists d'. Qed.

Lemma inv_vmenter d k v :
  altp2m_inv d -> vcpus d !! k = Some v ->
  altp2m_inv (d <| vcpus ::= alter (fun v => v <| in_guest := true |>) k |>).
Proof.
  intros I Hv. eapply (inv_vcpu _ _ _ k v (v <| in_guest := true |>)); [done..| | | | |].
  - eapply evolves_ext; [|apply evolves_vcpus]. intros n. destruct (altp2m_active d); [|done].
    symmetry. by apply moving_same.
  - by apply vcpus_insert.
  - destruct (inv_common_of _ _ _ _ I Hv). by split.
  - intros Ha. destruct (inv_active _ _ I Ha _ _ Hv) as [Ai Ah As Ag].
    split; [done..| |done]. intros [?|Hoff]; [done|]. apply As. by right.
  - intros Ha. destruct (proj1 (inv_inactive _ _ I Ha) _ _ Hv). by split.
Qed.

(** The EPTP list only offers live views to the processor. *)
Lemma eptp_entry_live d i e :
  altp2m_inv d -> altp2m_eptp d !! i = Some e -> e <> INVALID_MFN -> view_eptp d i e.
Proof.
  intros I He Hne. split; [|done]. split; [|by exists e].
  destruct (decide (i < 39)%nat); [done|]. exfalso. apply Hne.
  eapply (sh_high _ _ (inv_shape _ _ I) i); [lia | done].
Qed.

Lemma inv_vmfunc d k v ecx e :
  altp2m_inv d -> vcpus d !! k = Some v -> in_guest v = true -> vmfunc_on v = true ->
  altp2m_eptp d !! Z.to_nat ecx = Some e -> e <> INVALID_MFN ->
  altp2m_inv (d <| vcpus ::= alter (cpu_vmfunc ecx e) k |>).
Proof.
  intros I Hv Hg Hon He Hne. pose proof (inv_common_of _ _ _ _ I Hv) as [Cve Cvm].
  pose proof (eptp_entry_live _ _ _ I He Hne) as Vw.
  assert (Ev : cpu_vmfunc ecx e v = v <| EPT_POINTER := e |>).
  { unfold cpu_vmfunc. change (ve_on (v <| EPT_POINTER := e |>)) with (ve_on v).
    by rewrite Cve. }
  eapply (inv_vcpu _ _ _ k v (v <| EPT_POINTER := e |>)); [done..| | | | |].
  - eapply evolves_ext; [|apply evolves_vcpus]. intros n. destruct (altp2m_active d); [|done].
    symmetry. by apply moving_same.
  - rewrite <- Ev. by apply vcpus_insert.
  - by split.
  - intros Ha. destruct (inv_active _ _ I Ha _ _ Hv) as [Ai Ah As Ag].
    split; [done | by eexists | | done]. simpl. intros [?|Hoff]; [congruence|].
    unfold vmfunc_on in *. simpl in Hoff. congruence.
  - intros Ha. destruct (proj1 (inv_inactive _ _ I Ha) _ _ Hv). congruence.
Qed.

Lemma step_inv d o : altp2m_inv d -> step d o -> exists d', o = Some d' /\ altp2m_inv d'.
Proof.
  intros I St. destruct St as
    [d k v Hv _ _ | d k v ecx e Hv Hg Hon Hr He Hne | d k v Hv Hg | d cur mask_ok env a Hc Ha Hcur
    | d k v idx Hv Hg Hi | d k v eax ecx Hv Hg Hi | d k v gpa Hv Hact | d mask_ok gfn mfn o ty a].
  - eexists. split; [done|]. by eapply inv_vmenter.
  - eexists. split; [done|]. by eapply inv_vmfunc.
  - apply wp_outcome. eapply (wp_vmexit plat); [done..|]. intros d' S _. apply S.
  - by apply wp_outcome, wp_do_altp2m_op.
  - apply wp_outcome, wp_bind, wp_gets, wp_when; intros Ha; [|done].
    apply wp_bind. eapply wp_switch_vcpu; [done..| | |].
    + intros w Hw. by simplify_eq.
    + done.
    + intros d' ok Sw _ _ _. apply wp_ret, Sw.
  - apply wp_outcome, wp_bind, wp_gets. destruct (_ && _ && _) eqn:E; [|by apply wp_ret].
    zbool. apply wp_bind. eapply wp_switch_vcpu; [done..| | |].
    + intros w Hw. by simplify_eq.
    + done.
    + intros d' ok Sw _ _ _. apply wp_ret, Sw.
  - destruct (inv_active _ _ I Hact _ _ Hv) as [(i & Ei & Li) _ _ _].
    apply wp_outcome. eapply wp_mono.
    { eapply (wp_lazy_copy_quiet cfg plat); [apply I | done | done | apply Li]. }
    intros r d' Q. by eapply quiet_inv.
  - apply wp_outcome. eapply wp_mono; [apply (Quiet_propagate cfg plat), I|].
    intros [] d' Q. by eapply quiet_inv.
Qed.

End System.
