(* ===== verification/Altp2mHap.v ===== *)
(** * hap_enable() prepares the views

    The tables come from [p2m_init_one] (see P2mInit.v); [hap_enable]
    allocates their roots and the EPTP list.  When it returns 0 the domain
    satisfies the invariant of Altp2mProofs.v. *)

From S2P Require Import Prelude Monad P2m P2mProofs Altp2m Altp2mProofs.

Section Hap.
Context {T : Type} `{P2MTableLaws T}.
Context (cfg : p2m_config) (plat : platform).
Local Abbreviation D := (domain T).
Local Abbreviation shape := (shape plat).
Local Abbreviation altp2m_inv := (altp2m_inv plat).
Implicit Types d : D.

(** A table as p2m_init_altp2m() leaves it. *)
Definition fresh_table (p : p2m_domain T) : Prop :=
  p2m_class p = p2m_alternate /\ phys_table p = 0 /\ active_vcpus p = 0 /\
  ept_mt p = EPT_DEFAULT_MT /\ ept_wl p = 3 /\
  ept_ad p = (if cpu_has_vmx_pml plat then 1 else 0).

(** A table with its root. *)
Definition rooted (m : Z) (p : p2m_domain T) : Prop :=
  phys_table p = m /\ active_vcpus p = 0 /\
  ept_mt p = EPT_DEFAULT_MT /\ ept_wl p = 3 /\
  ept_ad p = (if cpu_has_vmx_pml plat then 1 else 0).

Lemma alloc_table_rooted pages m p p' :
  fresh_table p -> p2m_alloc_table cfg pages (Some m) p = (0, p') -> rooted m p'.
Proof.
  intros (Hc & Hp & Ha & F) E. unfold p2m_alloc_table in E.
  rewrite Hc, Hp in E. simpl in E.
  destruct (p2m_set_entry _ _ _ _ _ _ _) as [rc t]. by simplify_eq/=.
Qed.

Lemma alloc_table_ok_top pages top p p' :
  p2m_alloc_table cfg pages top p = (0, p') -> is_Some top.
Proof.
  unfold p2m_alloc_table. destruct top; [eauto|].
  destruct (_ && _); [done|]. by destruct (negb _).
Qed.

(** The loop of hap_enable() over an array of tables. *)
Lemma wp_alloc_tables get upd top pages (I : nat -> D -> Prop) : forall ids d,
  I 0%nat d ->
  (forall n i d, ids !! n = Some i -> I n d -> exists p, get i d = Some (p, d) /\
     forall rv p', p2m_alloc_table cfg pages (top i) p = (rv, p') ->
       exists d', upd i (fun _ => p') d = Some (tt, d') /\ (rv = 0 -> I (S n) d')) ->
  wp (alloc_tables cfg get upd top pages ids)
     (fun rv d' => rv = 0 -> I (length ids) d') d.
Proof.
  intros ids. revert I. induction ids as [|i ids IH]; intros I d HI Hs; simpl; [by apply wp_ret|].
  destruct (Hs 0%nat i d eq_refl HI) as (p & Hg & Hu).
  unfold wp, bind. rewrite Hg.
  destruct (p2m_alloc_table cfg pages (top i) p) as [rv p'] eqn:E.
  destruct (Hu rv p' eq_refl) as (d' & Hd & Hi). rewrite Hd.
  destruct (rv =? 0) eqn:Ez; zbool; simpl.
  - subst rv. apply (IH (fun n => I (S n))); [by apply Hi|].
    intros n j d1 Hj. apply (Hs (S n)). done.
  - done.
Qed.

(** A domain built by p2m_init() with vCPUs whose VMCS construct_vmcs() made. *)
Record fresh_domain d : Prop := {
  fd_len : length (altp2m_p2m d) = 39%nat;
  fd_tab : forall i, (i < 39)%nat -> exists p, tab d i = Some p /\ fresh_table p;
  fd_host : is_Some (hostp2m d);
  fd_nested : forall i, (i < 10)%nat -> is_Some (mjoin (nested_p2m d !! i));
  fd_vcpus : forall k v, vcpus d !! k = Some v ->
    p2midx v = 0 /\ vmfunc_on v = false /\ ve_on v = false
}.

(** The altp2m part of a domain is not touched. *)
Definition same_alt d d' : Prop :=
  altp2m_p2m d' = altp2m_p2m d /\ vcpus d' = vcpus d /\ is_Some (hostp2m d').

Lemma wp_alloc_host d al pages :
  is_Some (hostp2m d) ->
  wp (alloc_tables cfg (fun _ => host_get) (fun _ => host_upd)
        (fun _ => host_top al) pages [0])
     (fun rv d' => rv = 0 -> same_alt d d' /\ nested_p2m d' = nested_p2m d) d.
Proof.
  intros Hh. eapply wp_mono.
  { apply (wp_alloc_tables _ _ _ _ (fun _ d' => same_alt d d' /\ nested_p2m d' = nested_p2m d)).
    - done.
    - intros n i d1 _ [(E1 & E2 & [h Hh1]) E3]. exists h. split.
      { unfold host_get, deref. by rewrite Hh1. }
      intros rv p' _. eexists. split.
      { unfold host_upd, host_get, bind, deref, modify. by rewrite Hh1. }
      intros _. split; [|done]. split; [done|]. split; [done|]. simpl. rewrite Hh1. eauto. }
  done.
Qed.

Lemma wp_alloc_nested d top pages :
  is_Some (hostp2m d) -> (forall i, (i < 10)%nat -> is_Some (mjoin (nested_p2m d !! i))) ->
  wp (alloc_tables cfg nested_get nested_upd top pages (iota (Z.to_nat MAX_NESTEDP2M)))
     (fun rv d' => rv = 0 -> same_alt d d') d.
Proof.
  intros Hh Hn. eapply wp_mono.
  { apply (wp_alloc_tables _ _ _ _ (fun _ d' => same_alt d d' /\
      forall i, (i < 10)%nat -> is_Some (mjoin (nested_p2m d' !! i)))).
    - done.
    - intros n i d1 Hi [(E1 & E2 & E3) Hn1]. apply iota_lookup_Some in Hi as [-> Hi].
      unfold MAX_NESTEDP2M in Hi.
      destruct (Hn1 n ltac:(lia)) as [p Hp]. exists p. split.
      { unfold nested_get, deref. rewrite Nat2Z.id. by rewrite Hp. }
      intros rv p' _. eexists. split.
      { unfold nested_upd, nested_get, bind, deref, modify. rewrite Nat2Z.id. by rewrite Hp. }
      intros _. split; [done|]. simpl. intros j Hj. rewrite lookup_alter_case.
      case_decide; [|by apply Hn1]. destruct (Hn1 j Hj) as [q Hq].
      destruct (nested_p2m d1 !! j) as [o|]; [|done]. simpl in *. subst o. simpl. eauto. }
  intros rv d' K Hr. by apply K.
Qed.

(** The frames handed out for the roots of the views. *)
Definition good_tops (top : Z -> option Z) : Prop :=
  (forall i m, top i = Some m -> 0 <= m < 2 ^ 40) /\
  (forall i j m, top i = Some m -> top j = Some m -> i = j).

Lemma wp_alloc_alt d top pages :
  length (altp2m_p2m d) = 39%nat ->
  (forall i, (i < 39)%nat -> exists p, tab d i = Some p /\ fresh_table p) ->
  wp (alloc_tables cfg p2m_get p2m_upd top pages (iota (Z.to_nat MAX_ALTP2M)))
     (fun rv d' => rv = 0 ->
        (length (altp2m_p2m d') = 39%nat /\ vcpus d' = vcpus d /\ hostp2m d' = hostp2m d /\
         altp2m_eptp d' = altp2m_eptp d) /\
        forall i, (i < 39)%nat -> exists p m,
          tab d' i = Some p /\ top (Z.of_nat i) = Some m /\ rooted m p) d.
Proof.
  intros Hl Ht. eapply wp_mono.
  { apply (wp_alloc_tables _ _ _ _ (fun n d' =>
      (length (altp2m_p2m d') = 39%nat /\ vcpus d' = vcpus d /\ hostp2m d' = hostp2m d /\
       altp2m_eptp d' = altp2m_eptp d) /\
      (forall i, (n <= i < 39)%nat -> exists p, tab d' i = Some p /\ fresh_table p) /\
      (forall i, (i < n)%nat -> exists p m,
         tab d' i = Some p /\ top (Z.of_nat i) = Some m /\ rooted m p))).
    - split; [done|]. split; [intros; apply Ht; lia | lia].
    - intros n i d1 Hi ((E1 & E2 & E3 & E4) & F & R). apply iota_lookup_Some in Hi as [-> Hi].
      unfold MAX_ALTP2M in Hi. destruct (F n ltac:(lia)) as (p & Hp & Fp).
      exists p. split; [unfold p2m_get, deref; rewrite Nat2Z.id; by unfold tab in Hp; rewrite Hp|].
      intros rv p' Ea. eexists. split.
      { unfold p2m_upd, p2m_get, bind, deref, modify. rewrite Nat2Z.id.
        unfold tab in Hp. by rewrite Hp. }
      intros ->. split; [split; [simpl; by rewrite length_alter | done]|]. split.
      + intros j Hj. rewrite tab_alter, decide_False by lia. apply F. lia.
      + intros j Hj. rewrite tab_alter. case_decide as En; [subst j|apply R; lia].
        rewrite Hp. destruct (alloc_table_ok_top _ _ _ _ Ea) as [m Hm].
        exists p', m. split; [done|]. split; [done|]. rewrite Hm in Ea.
        by eapply alloc_table_rooted. }
  intros rv d' K Hr. specialize (K Hr). rewrite iota_length in K.
  destruct K as (K1 & _ & K3). split; [done|]. intros i Hi. apply K3. unfold MAX_ALTP2M. lia.
Qed.

(** The state hap_enable() leaves. *)
Lemma inv_prepared d top :
  good_tops top -> length (altp2m_p2m d) = 39%nat -> is_Some (hostp2m d) ->
  altp2m_eptp d = replicate 512 INVALID_MFN -> altp2m_active d = false ->
  (forall k v, vcpus d !! k = Some v -> p2midx v = 0 /\ vmfunc_on v = false /\ ve_on v = false) ->
  (forall i, (i < 39)%nat -> exists p m,
     tab d i = Some p /\ top (Z.of_nat i) = Some m /\ rooted m p) ->
  altp2m_inv d.
Proof.
  intros [G1 G2] Hl Hh He Ha Hv Ht.
  assert (Hlt : forall i p, tab d i = Some p -> (i < 39)%nat).
  { intros i p. unfold tab. rewrite <- Hl. destruct (altp2m_p2m d !! i) eqn:E; [|done].
    intros _. by apply lookup_lt_Some in E. }
  assert (Hi : forall i e, altp2m_eptp d !! i = Some e -> e = INVALID_MFN).
  { intros i e. rewrite He. intros X. by apply lookup_replicate in X as [-> _]. }
  assert (Hr : forall i p, tab d i = Some p -> exists m, top (Z.of_nat i) = Some m /\ rooted m p).
  { intros i p Hp. destruct (Ht i (Hlt _ _ Hp)) as (q & m & Hq & Hm & R).
    simplify_eq. eauto. }
  split.
  - split; try done.
    + intros i Hil. destruct (Ht i Hil) as (p & m & ? & _). eauto.
    + by rewrite He.
    + intros i p Hp. destruct (Hr _ _ Hp) as (m & Hm & (Rp & _ & ? & ? & ?)).
      unfold canon. rewrite Rp. repeat split; try done; by apply (G1 _ _ Hm).
    + intros i j p q Hp Hq E. destruct (Hr _ _ Hp) as (m & Hm & (R1 & _)).
      destruct (Hr _ _ Hq) as (m' & Hm' & (R2 & _)).
      assert (Z.of_nat i = Z.of_nat j); [|lia]. apply (G2 _ _ m); congruence.
    + intros i p e Hp X Hne. by apply Hi in X.
    + intros i e _ X. by apply Hi in X.
  - intros k v Hk. destruct (Hv k v Hk) as (_ & F1 & F2). split; [done | congruence].
  - intros i p Hp. rewrite Ha. destruct (Hr _ _ Hp) as (m & _ & R). apply R.
  - congruence.
  - intros _. split.
    + intros k v Hk. destruct (Hv k v Hk) as (? & ? & _). split; auto.
    + intros i [_ (e & X & Hne)]. by apply Hi in X.
Qed.

Lemma wp_hap_enable d al old_pages translate :
  altp2m_supported plat = true -> fresh_domain d -> good_tops (alt_top al) ->
  wp (hap_enable cfg plat al old_pages translate)
     (fun rv d' => rv = 0 -> altp2m_inv d' /\ altp2m_active d' = false) d.
Proof.
  intros Hs [Fl Ft Fh Fn Fv] Gt. unfold hap_enable. case_if E0; [by apply wp_ret|].
  apply wp_bind.
  assert (W1 : wp (if translate then alloc_tables cfg (fun _ => host_get) (fun _ => host_upd)
                     (fun _ => host_top al) (dom_has_pages al) [0] else ret 0)
     (fun rv d' => rv = 0 -> same_alt d d' /\ nested_p2m d' = nested_p2m d) d).
  { destruct translate; [by apply wp_alloc_host | by apply wp_ret]. }
  eapply wp_mono; [exact W1|]. intros rv1 d1 K1.
  destruct (rv1 =? 0) eqn:E1; zbool; simpl; [|by apply wp_ret].
  destruct (K1 E1) as [(A1 & V1 & H1) N1].
  apply wp_bind. eapply wp_mono; [apply wp_alloc_nested; [done | by rewrite N1]|].
  intros rv2 d2 K2. destruct (rv2 =? 0) eqn:E2; zbool; simpl; [|by apply wp_ret].
  destruct (K2 E2) as (A2 & V2 & H2). rewrite Hs.
  destruct (eptp_page al) as [maddr|]; [|apply wp_bind, wp_modify; by apply wp_ret].
  apply wp_bind, wp_modify, wp_bind. eapply wp_mono; [apply wp_alloc_alt|].
  - simpl. congruence.
  - unfold tab. simpl. rewrite A2, A1. exact Ft.
  - intros rv3 d3 K3. destruct (rv3 =? 0) eqn:E3; zbool; simpl; [|by apply wp_ret].
    destruct (K3 E3) as ((L3 & V3 & H3 & P3) & R3). simpl in *.
    apply wp_bind, wp_modify, wp_ret. intros _. split; [|done].
    apply (inv_prepared _ (alt_top al)); simpl; try done.
    + by rewrite H3.
    + rewrite V3, V2, V1. exact Fv.
Qed.
(** C25. [hap_enable] on a new HVM domain of a machine that supports altp2m:
    it never faults, and when it returns 0 every view has its own root table,
    the EPTP list is empty and the domain satisfies [altp2m_inv], the starting
    point of the altp2m operations. *)
Theorem hap_enable_prepares d al old_pages translate :
  altp2m_supported plat = true -> fresh_domain d -> good_tops (alt_top al) ->
  wp (hap_enable cfg plat al old_pages translate)
     (fun rv d' => rv = 0 -> altp2m_inv d' /\ altp2m_active d' = false) d.
Proof. apply wp_hap_enable. Qed.
End Hap.
