(* ===== verification/Altp2mClaims.v ===== *)
(** * The promises of the altp2m operations

    The functional behaviour of the operations of Altp2m.v, stated on any
    domain that satisfies [altp2m_inv], with a concrete domain on which each
    statement is evaluated. *)

From S2P Require Import Prelude Monad P2m P2mProofs Altp2m Altp2mProofs Altp2mSwitch.
From S2P Require Import Altp2mInv Altp2mTables Altp2mSystem Altp2mHap.

Section Promises.
Context {T : Type} `{P2MTableLaws T}.
Context (cfg : p2m_config) (plat : platform).
Context (mem_sharing_unshare_page : T -> Z -> T) (zero : T) (cur : option nat).
Context (mask_ok : Z -> bool).
Hypothesis hooks : altp2m_hooks plat = true.

Local Abbreviation D := (domain T).
Local Abbreviation altp2m_inv := (altp2m_inv plat).
Implicit Types d : D.

(** C19. Destroying a view of an active domain never faults and returns 0
    exactly when the view exists, is not view 0, and no vCPU runs on it: not
    even a vCPU that switched to it by VMFUNC without the hypervisor having
    been told.  Only that view disappears; otherwise -EBUSY, and every view
    stays. *)
Theorem destroy_view_spec d idx :
  altp2m_inv d -> altp2m_active d = true -> cur_out cur d -> 0 <= idx ->
  wp (p2m_destroy_altp2m_by_id plat zero cur mask_ok idx)
     (fun rc d' =>
        altp2m_inv d' /\ altp2m_active d' = altp2m_active d /\
        (rc = 0 \/ rc = - EBUSY) /\
        (rc = 0 <-> idx <> 0 /\ live d (Z.to_nat idx) /\
           forall k v, vcpus d !! k = Some v -> ~ view_eptp d (Z.to_nat idx) (EPT_POINTER v)) /\
        (forall j, live d' j <-> live d j /\ (rc = 0 -> j <> Z.to_nat idx))) d.
Proof. apply wp_destroy. Qed.

(** C24. Creating a view takes the lowest free slot, makes exactly that view
    live and moves no vCPU; with all 39 slots taken it returns -EINVAL and
    changes nothing. *)
Theorem create_view_spec d :
  altp2m_inv d -> altp2m_active d = true ->
  wp p2m_init_next_altp2m
     (fun r d' =>
        altp2m_inv d' /\ vcpus d' = vcpus d /\
        ((exists i, (i < 39)%nat /\ r = (0, Some (Z.of_nat i)) /\ ~ live d i /\
            (forall j, (j < i)%nat -> live d j) /\
            forall j, live d' j <-> live d j \/ j = i) \/
         (r = (- EINVAL, None) /\ d' = d /\ forall j, (j < 39)%nat -> live d j))) d.
Proof.
  intros I Hact. apply (wp_init_next plat); [done..| |].
  - intros i d' e Hi Ni Hf I' R Hne. split; [done|]. split; [apply R|]. left. exists i.
    do 4 (split; [done|]). intros j.
    rewrite (relist_live plat d d' i e j (inv_shape _ _ I) Hi R).
    case_decide as E; [subst j; split; [by right | done]|]. split; [auto | intros [?|?]; [done | congruence]].
  - intros Hall. split; [done|]. split; [done|]. by right.
Qed.



Lemma wp_vmexit_after_vmfunc d k v ecx e :
  altp2m_inv d -> altp2m_active d = true -> vcpus d !! k = Some v ->
  in_guest v = true -> vmfunc_on v = true -> 0 <= ecx < MAX_EPTP ->
  altp2m_eptp d !! Z.to_nat ecx = Some e -> e <> INVALID_MFN ->
  wp (vmexit k)
     (fun _ d' => (altp2m_inv d' /\ altp2m_active d' = true) /\
        exists v', vcpus d' !! k = Some v' /\
        p2midx v' = ecx /\ EPT_POINTER v' = e /\ in_guest v' = false /\ vmfunc_on v' = true)
     (d <| vcpus ::= alter (cpu_vmfunc ecx e) k |>).
Proof.
  intros I Hact Hv Hg Hon Hr He Hne. set (d1 := d <| vcpus ::= _ |>).
  assert (I1 : altp2m_inv d1) by (by eapply inv_vmfunc).
  assert (Hv1 : vcpus d1 !! k = Some (cpu_vmfunc ecx e v)).
  { simpl. rewrite lookup_alter_case, decide_True, Hv by done. done. }
  eapply (wp_vmexit plat); [done..|]. intros d' St O.
  assert (A' : altp2m_active d' = true) by (by rewrite (st_active _ _ _ St)).
  split; [split; [apply St | done]|].
  destruct (lookup_lt_is_Some_2 (vcpus d') k) as [v' Hv'].
  { rewrite (st_len _ _ _ St). by eapply lookup_lt_Some. }
  exists v'. split; [done|]. destruct (st_vcpu _ _ _ St _ _ _ Hv1 Hv') as (P & F & _).
  assert (Pe : EPT_POINTER v' = e).
  { rewrite P. unfold cpu_vmfunc. by destruct (ve_on _). }
  destruct (inv_active _ _ (st_inv _ _ _ St) A' _ _ Hv') as [(i & Ei & Li) _ As _].
  specialize (As (or_introl (O v' Hv'))). rewrite Pe, Ei, Nat2Z.id in As.
  assert (Ve : view_eptp d' (Z.to_nat ecx) e).
  { eapply eptp_entry_live; [apply St | | done]. by rewrite (st_eptp _ _ _ St). }
  rewrite (view_eptp_inj _ _ _ _ _ (inv_shape _ _ (st_inv _ _ _ St)) As Ve) in Ei.
  split; [rewrite Ei; lia|]. split; [done|]. split; [by apply O|].
  rewrite F. unfold cpu_vmfunc. by destruct (ve_on _).
Qed.

(** C22. A guest that switches views by itself is tracked: after VMFUNC with
    ECX = [ecx] and the next VM exit, the recorded view of the vCPU is [ecx]
    and the counters agree, without any further load of the EPT pointer. *)
Theorem vmexit_follows_vmfunc d k v ecx e :
  altp2m_inv d -> altp2m_active d = true -> vcpus d !! k = Some v ->
  in_guest v = true -> vmfunc_on v = true -> 0 <= ecx < MAX_EPTP ->
  altp2m_eptp d !! Z.to_nat ecx = Some e -> e <> INVALID_MFN ->
  wp (vmexit k)
     (fun _ d' => altp2m_inv d' /\ exists v', vcpus d' !! k = Some v' /\
        p2midx v' = ecx /\ EPT_POINTER v' = e /\ in_guest v' = false)
     (d <| vcpus ::= alter (cpu_vmfunc ecx e) k |>).
Proof.
  intros I Hact Hv Hg Hon Hr He Hne. eapply wp_mono; [by eapply wp_vmexit_after_vmfunc|].
  intros [] d' [[I' _] (v' & ? & ? & ? & ? & _)]. split; [done|]. by exists v'.
Qed.

(** HVMOP_altp2m_vcpu_enable_notify with arguments the code calls invalid
    (a domain other than DOMID_SELF, say): the hypercall returns -EINVAL, but
    the VMFUNC controls of the calling vCPU are loaded all the same, so that
    it can switch views from then on. *)
Theorem enable_notify_invalid_still_loads d env a c v :
  altp2m_inv d -> altp2m_active d = true -> is_hvm d = true -> is_dying d = false ->
  altp2m_supported plat = true -> cpu_has_vmx_vmfunc plat = true ->
  copy_from_ok env = true -> xsm_rc env = 0 ->
  op_pad1 a = 0 -> op_pad2 a = 0 -> op_version a = HVMOP_ALTP2M_INTERFACE_VERSION ->
  op_cmd a = HVMOP_altp2m_vcpu_enable_notify -> op_domain a <> DOMID_SELF ->
  cur = Some c -> vcpus d !! c = Some v -> in_guest v = false ->
  wp (do_altp2m_op cfg plat mem_sharing_unshare_page zero cur mask_ok env a)
     (fun r d' => r.1 = - EINVAL /\ altp2m_inv d' /\
        exists v', vcpus d' !! c = Some v' /\ vmfunc_on v' = true /\
          VM_FUNCTION_CONTROL v' = VMX_VMFUNC_EPTP_SWITCHING /\
          EPTP_LIST_ADDR v' = eptp_maddr d) d.
Proof.
  intros I Hact Hhvm Hdy Hsup Hvm Hcp Hx P1 P2 Hver Hcmd Hdom Hc Hv Hg.
  unfold do_altp2m_op. rewrite Hsup, Hcp, P1, P2, Hver, Hcmd. simpl.
  apply wp_bind, wp_gets. rewrite Hhvm, Hact, Hx. simpl.
  unfold altp2m_op_switch. rewrite Hcmd. simpl. apply wp_bind.
  eapply wp_deref; [exact Hc|]. apply wp_bind.
  eapply wp_enable_notify; [done..| |].
  { apply (inv_active _ _ I Hact _ _ Hv). by left. }
  intros d' v' I' _ V' L. apply wp_ret.
  rewrite (proj2 (Z.eqb_neq (op_domain a) _)) by done. rewrite orb_true_r. simpl.
  split; [done|]. split; [done|]. exists v'. split.
  { rewrite V'. apply list_lookup_insert_eq. by eapply lookup_lt_Some. }
  destruct (vl_on _ _ _ _ L Hdy Hact Hvm) as (? & ? & ? & _). done.
Qed.
End Promises.

(** ** A concrete domain: two vCPUs, tables of P2mProofs.v *)

Definition demo_plat : platform := mkPlatform true true true true true true.
Definition demo_vcpu : vcpu := mkVcpu 0 0 0x82 0 0 0 0 0 0 0 false.
Definition demo_table : option (p2m_domain flat) :=
  (fun p => p <| p2m_class := p2m_alternate |>)
  <$> p2m_init_one flat_cfg demo_plat [] (mkAllocs true true true).
Definition demo_fresh : domain flat :=
  mkDomain [demo_vcpu; demo_vcpu] (replicate 39 demo_table) [] 0
    (p2m_init_one flat_cfg demo_plat [] (mkAllocs true true true))
    (replicate 10 demo_table) ∅ false false false true false 1 0.
Definition demo_allocs : hap_allocs :=
  mkHapAllocs true false (Some 500) (fun i => Some (600 + i))
    (fun i => if (0 <=? i) && (i <? 39) then Some (1000 + i) else None) (Some 0x7000).
Definition demo_unshare : flat -> Z -> flat := fun t _ => t.
Definition demo_mask : Z -> bool := fun _ => true.

(** The domain after an operation. *)
Definition after {A} (m : M (domain flat) A) (d : domain flat) : domain flat :=
  match m d with Some (_, d') => d' | None => d end.

Lemma after_wp {A} (m : M (domain flat) A) d (P : domain flat -> Prop) :
  wp m (fun _ d' => P d') d -> P (after m d).
Proof. unfold wp, after. by destruct (m d) as [[a d']|]. Qed.

Lemma after_wp_eq {A} (m : M (domain flat) A) d a (P : domain flat -> Prop) :
  wp m (fun r d' => r = a -> P d') d -> fst <$> m d = Some a -> P (after m d).
Proof. unfold wp, after. destruct (m d) as [[r d']|]; [|done]. simpl. intros W [= ->]. auto. Qed.

Lemma demo_tops : good_tops (alt_top demo_allocs).
Proof.
  split.
  - intros i m. simpl. destruct (_ && _) eqn:E; [|done]. zbool. intros [= <-]. lia.
  - intros i j m E1 E2. unfold demo_allocs, alt_top in E1, E2.
    destruct ((0 <=? i) && _); [|done]. destruct ((0 <=? j) && _); [|done].
    apply (inj Some) in E1, E2. lia.
Qed.

Lemma demo_fresh_ok : fresh_domain demo_plat demo_fresh.
Proof.
  split.
  - done.
  - intros i Hi. unfold tab. unfold demo_fresh, altp2m_p2m. rewrite lookup_replicate_2 by done.
    eexists. split; [reflexivity|]. by repeat split.
  - by eexists.
  - intros i Hi. unfold demo_fresh, nested_p2m. rewrite lookup_replicate_2 by done. by eexists.
  - intros [|[|k]] v Hv; simplify_eq/=; done.
Qed.

(** [hap_enable] with enough memory. *)
Lemma hap_enable_prepares_witness :
  (fst <$> hap_enable flat_cfg demo_plat demo_allocs 0 true demo_fresh) = Some 0 /\
  wp (hap_enable flat_cfg demo_plat demo_allocs 0 true)
     (fun rv d' => rv = 0 -> altp2m_inv demo_plat d' /\ altp2m_active d' = false) demo_fresh.
Proof.
  split; [vm_compute; reflexivity|].
  exact (hap_enable_prepares flat_cfg demo_plat demo_fresh demo_allocs 0 true
           eq_refl demo_fresh_ok demo_tops).
Defined.

(** The prepared domain, the active one (one view), one with views 0 to 2. *)
Definition demo_off := after (hap_enable flat_cfg demo_plat demo_allocs 0 true) demo_fresh.
Definition demo_on :=
  after (set_domain_state flat_cfg demo_plat demo_unshare [] None demo_mask 1) demo_off.
Definition demo_two := after p2m_init_next_altp2m demo_on.
Definition demo_views := after p2m_init_next_altp2m demo_two.

Lemma demo_off_inv : altp2m_inv demo_plat demo_off.
Proof.
  unfold demo_off. apply (after_wp_eq _ _ 0); [|vm_compute; reflexivity]. eapply wp_mono.
  - exact (wp_hap_enable flat_cfg demo_plat demo_fresh demo_allocs 0 true
             eq_refl demo_fresh_ok demo_tops).
  - intros rv d' W Hr. by apply W.
Qed.

Lemma demo_on_inv : altp2m_inv demo_plat demo_on.
Proof.
  unfold demo_on. apply after_wp. eapply wp_mono; [apply wp_set_domain_state; [done | apply demo_off_inv]|].
  by intros rc d' [[I _] _].
Qed.

Lemma demo_create_inv d :
  altp2m_inv demo_plat d -> altp2m_active d = true ->
  altp2m_inv demo_plat (after p2m_init_next_altp2m d).
Proof.
  intros I Ha. apply after_wp. by apply (wp_init_next demo_plat).
Qed.

Lemma demo_views_inv : altp2m_inv demo_plat demo_views.
Proof.
  unfold demo_views. apply demo_create_inv; [|vm_compute; reflexivity]. unfold demo_two.
  apply demo_create_inv; [apply demo_on_inv | vm_compute; reflexivity].
Qed.

Lemma no_caller (d : domain flat) : cur_out None d.
Proof. by intros c. Qed.

(** Destroying the unused view 2 and then asking for it again. *)
Lemma destroy_view_spec_witness :
  let m := p2m_destroy_altp2m_by_id demo_plat ([] : flat) None demo_mask 2 in
  (fst <$> m demo_views) = Some 0 /\ (fst <$> m (after m demo_views)) = Some (- EBUSY) /\
  wp m (fun rc d' => rc = 0 <-> 2 <> 0 /\ live demo_views 2 /\
          forall k v, vcpus demo_views !! k = Some v ->
            ~ view_eptp demo_views 2 (EPT_POINTER v)) demo_views.
Proof.
  split; [vm_compute; reflexivity|]. split; [vm_compute; reflexivity|].
  eapply wp_mono.
  - exact (destroy_view_spec demo_plat [] None demo_mask demo_views 2 demo_views_inv
             ltac:(vm_compute; reflexivity) (no_caller _) ltac:(lia)).
  - intros rc d' (_ & _ & _ & E & _). exact E.
Defined.

(** A second view takes slot 1. *)
Lemma create_view_spec_witness :
  (fst <$> p2m_init_next_altp2m demo_on) = Some (0, Some 1) /\
  wp p2m_init_next_altp2m (fun _ d' => vcpus d' = vcpus demo_on) demo_on.
Proof.
  split; [vm_compute; reflexivity|]. eapply wp_mono.
  - exact (create_view_spec demo_plat demo_on demo_on_inv ltac:(vm_compute; reflexivity)).
  - intros r d' (_ & V & _). exact V.
Defined.



(** vCPU 0 asks for VMFUNC with domain 1 instead of DOMID_SELF. *)
Definition demo_env : op_env := mkOpEnv true true true 0.
Definition demo_notify : xen_hvm_altp2m_op :=
  mkAltp2mOp 1 HVMOP_altp2m_vcpu_enable_notify 1 0 0 0 0 0 0 0 0 0 0 0 0 0 0 0 0.
Definition demo_notify_op :=
  do_altp2m_op flat_cfg demo_plat demo_unshare ([] : flat) (Some 0%nat) demo_mask
    demo_env demo_notify.

Lemma enable_notify_invalid_still_loads_witness :
  (fst <$> demo_notify_op demo_views) = Some (- EINVAL, None) /\
  (vmfunc_on <$> vcpus (after demo_notify_op demo_views)) = [true; false] /\
  wp demo_notify_op (fun r d' => r.1 = - EINVAL) demo_views.
Proof.
  split; [vm_compute; reflexivity|]. split; [vm_compute; reflexivity|]. eapply wp_mono.
  - refine (enable_notify_invalid_still_loads flat_cfg demo_plat demo_unshare [] (Some 0%nat)
      demo_mask eq_refl demo_views demo_env demo_notify 0 _ demo_views_inv
      _ _ _ eq_refl eq_refl eq_refl eq_refl eq_refl eq_refl eq_refl eq_refl _ eq_refl _ _);
      try (vm_compute; reflexivity). done.
  - intros r d' [E _]. exact E.
Defined.

(** vCPU 0 in the guest with VMFUNC enabled, about to switch to view 2. *)
Definition demo_ready : domain flat := after demo_notify_op demo_views.
Definition demo_guest : domain flat :=
  demo_ready <| vcpus ::= alter (fun v => v <| in_guest := true |>) 0%nat |>.
Definition vcpu0 (d : domain flat) : vcpu := default demo_vcpu (head (vcpus d)).

Lemma demo_ready_inv : altp2m_inv demo_plat demo_ready.
Proof.
  unfold demo_ready, demo_notify_op. apply after_wp, wp_do_altp2m_op.
  - reflexivity.
  - apply demo_views_inv.
  - intros c [= <-]. exists (vcpu0 demo_views). split; vm_compute; reflexivity.
  - vm_compute. repeat split; discriminate.
  - discriminate.
Qed.

Lemma demo_guest_inv : altp2m_inv demo_plat demo_guest.
Proof.
  apply (inv_vmenter demo_plat demo_ready 0 (vcpu0 demo_ready)); [apply demo_ready_inv|].
  vm_compute. reflexivity.
Qed.

Lemma vmexit_follows_vmfunc_witness :
  let d := demo_guest <| vcpus ::= alter (cpu_vmfunc 2 (eptp_of demo_plat 1002)) 0%nat |> in
  (p2midx <$> vcpus d) = [0; 0] /\ (p2midx <$> vcpus (after (vmexit 0) d)) = [2; 0] /\
  wp (vmexit 0) (fun _ d' => altp2m_inv demo_plat d') d.
Proof.
  split; [vm_compute; reflexivity|]. split; [vm_compute; reflexivity|]. eapply wp_mono.
  - refine (vmexit_follows_vmfunc demo_plat demo_guest 0 (vcpu0 demo_guest) 2
      (eptp_of demo_plat 1002) demo_guest_inv _ _ _ _ _ _ _);
      try (vm_compute; reflexivity); [vm_compute; split; [discriminate | reflexivity]|].
    vm_compute. discriminate.
  - intros r d' [I _]. exact I.
Defined.


(** ** Views are not emptied *)

(** [p2m_flush_table] is meant to reset a table to be empty. *)
Definition view_entry (d : domain flat) (i : nat) (g : Z) : Z * p2m_type * p2m_access :=
  look (from_option table [] (tab d i)) g.

(** A host that maps frame 5, and view 2 with frame 5 made read-only. *)
Definition demo_mapped : domain flat :=
  demo_views <| hostp2m ::= fmap (fun h => h <| table :=
    (set_entry (table h) 5 77 0 p2m_ram_rw p2m_access_rwx 0).2 |>) |>.
Definition demo_restricted : domain flat :=
  after (p2m_set_altp2m_mem_access flat_cfg None 2 5 1) demo_mapped.

(** Destroying a view and creating it again does not give an empty view:
    [p2m_flush_table] returns at once for a table that is not a nested one in
    use, which no view is, so the entries written before (here the read-only
    right on frame 5) are in force in the new view. *)
Theorem recreated_view_keeps_entries :
  let destroy := p2m_destroy_altp2m_by_id demo_plat ([] : flat) None demo_mask 2 in
  let d1 := after destroy demo_restricted in
  let d2 := after p2m_init_next_altp2m d1 in
  view_entry demo_mapped 2 5 = (INVALID_MFN, p2m_mmio_dm, p2m_access_n) /\
  (fst <$> destroy demo_restricted) = Some 0 /\
  (fst <$> p2m_init_next_altp2m d1) = Some (0, Some 2) /\
  view_entry d2 2 5 = (77, p2m_ram_rw, p2m_access_r).
Proof. repeat split; vm_compute; reflexivity. Qed.

(** View 2 with frame 5 remapped to frame 9, the M2P of both frames known. *)
Definition demo_remapped : domain flat :=
  after (p2m_change_altp2m_gfn flat_cfg None 2 5 9)
    (demo_mapped <| hostp2m ::= fmap (fun h => h <| table :=
       (set_entry (table h) 9 78 0 p2m_ram_rw p2m_access_rwx 0).2 |>) |>
     <| m2p := <[77 := 5]> (<[78 := 9]> ∅) |>).

(** Undoing a remapping in one view (change_gfn with INVALID_GFN) marks
    the machine frame as owned by no guest frame, although the host table
    still maps it: after remapping frame 5 to frame 9 and reverting, the M2P
    entry of frame 9's page is gone while the host entry is intact. *)
Theorem revert_clears_m2p_of_mapped_page :
  let d := after (p2m_change_altp2m_gfn flat_cfg None 2 5 INVALID_GFN) demo_remapped in
  view_entry demo_remapped 2 5 = (78, p2m_ram_rw, p2m_access_rwx) /\
  m2p demo_remapped !! 78 = Some 9 /\
  m2p d !! 78 = Some INVALID_M2P_ENTRY /\
  (fun h => look (table h) 9) <$> hostp2m d = Some (78, p2m_ram_rw, p2m_access_rwx).
Proof. repeat split; vm_compute; reflexivity. Qed.
