(* ===== verification/Altp2mFrame.v ===== *)
(** * What no altp2m operation changes

    The identity of a domain ([ident]): whether it is HVM, dying, nested,
    built for altp2m, and where its EPTP list is.  [Framed m] says that [m]
    preserves it; instances follow the structure of the code, so that the
    class search proves it for whole operations. *)

From S2P Require Import Prelude Monad P2m Altp2m.

Section Frame.
Context {T : Type}.
Local Abbreviation D := (domain T).

Definition ident (d : D) : bool * bool * bool * Z * Z :=
  (is_hvm d, is_dying d, nestedhvm_enabled d, param_altp2m d, eptp_maddr d).

Class Framed {A} (m : M D A) : Prop :=
  framed : forall d a d', m d = Some (a, d') -> ident d' = ident d.

#[export] Instance framed_ret {A} (a : A) : Framed (ret a).
Proof. by intros d b d' [= <- <-]. Qed.

#[export] Instance framed_bind {A B} (m : M D A) (k : A -> M D B) :
  Framed m -> (forall a, Framed (k a)) -> Framed (bind m k).
Proof.
  intros Hm Hk d b d'. unfold bind. destruct (m d) as [[a d1]|] eqn:E; [|done].
  intros E'. rewrite (Hk a _ _ _ E'). by eapply Hm.
Qed.

#[export] Instance framed_gets {A} (f : D -> A) : Framed (gets f).
Proof. by intros d b d' [= <- <-]. Qed.

#[export] Instance framed_deref {A} (f : D -> option A) : Framed (deref f).
Proof. intros d b d'. unfold deref. destruct (f d); [|done]. by intros [= <- <-]. Qed.

#[export] Instance framed_bug_on c : Framed (bug_on c).
Proof. intros d b d'. unfold bug_on. destruct c; [done|]. by intros [= <- <-]. Qed.

#[export] Instance framed_when c (m : M D unit) : Framed m -> Framed (when c m).
Proof. intros Hm. destruct c; [done | apply framed_ret]. Qed.

#[export] Instance framed_if {A} (c : bool) (m1 m2 : M D A) :
  Framed m1 -> Framed m2 -> Framed (if c then m1 else m2).
Proof. by destruct c. Qed.

#[export] Instance framed_for_each {A} (l : list A) (body : A -> M D unit) :
  (forall a, Framed (body a)) -> Framed (for_each l body).
Proof. intros Hb. induction l; simpl; [apply framed_ret | apply framed_bind; auto]. Qed.

Lemma framed_modify (f : D -> D) : (forall d, ident (f d) = ident d) -> Framed (modify f).
Proof. intros Hf d b d' [= _ <-]. apply Hf. Qed.

Lemma wp_framed {A} (m : M D A) Q d :
  Framed m -> wp m Q d -> wp m (fun a d' => Q a d' /\ ident d' = ident d) d.
Proof.
  intros F. unfold wp. destruct (m d) as [[a d']|] eqn:E; [|done].
  intros HQ. split; [done|]. by eapply F.
Qed.
End Frame.

(** A store into a field that is not part of the identity. *)
#[export] Hint Extern 2 (Framed (modify _)) =>
  apply framed_modify; intros; reflexivity : typeclass_instances.
(** Case analysis of the code. *)
#[export] Hint Extern 3 (Framed (match ?x with _ => _ end)) =>
  destruct x : typeclass_instances.

Section Ops.
Context {T : Type} `{P2MTable T}.
Context (cfg : p2m_config) (plat : platform).
Context (mem_sharing_unshare_page : T -> Z -> T) (zero : T) (cur : option nat).
Context (mask_ok : Z -> bool).

Ltac framed := intros; cbv zeta; typeclasses eauto.

#[export] Instance framed_vcpu_get k : Framed (T := T) (vcpu_get k) := _.
#[export] Instance framed_vcpu_upd k f : Framed (T := T) (vcpu_upd k f).
Proof. unfold vcpu_upd. framed. Qed.
#[export] Instance framed_p2m_get i : Framed (T := T) (p2m_get i) := _.
#[export] Instance framed_p2m_upd i f : Framed (T := T) (p2m_upd i f).
Proof. unfold p2m_upd. framed. Qed.
#[export] Instance framed_host_get : Framed (T := T) host_get := _.
#[export] Instance framed_host_upd f : Framed (T := T) (host_upd f).
Proof. unfold host_upd. framed. Qed.
#[export] Instance framed_eptp_get i : Framed (T := T) (eptp_get i) := _.
#[export] Instance framed_eptp_set i e : Framed (T := T) (eptp_set i e).
Proof. unfold eptp_set. framed. Qed.
#[export] Instance framed_crash : Framed (T := T) domain_crash.
Proof. unfold domain_crash. framed. Qed.
#[export] Instance framed_for_each_vcpu body :
  (forall k, Framed (T := T) (body k)) -> Framed (for_each_vcpu body).
Proof. intros. unfold for_each_vcpu. framed. Qed.
#[export] Instance framed_get_gfn_host gfn q :
  Framed (get_gfn_host cfg mem_sharing_unshare_page gfn q).
Proof. unfold get_gfn_host. framed. Qed.
#[export] Instance framed_get_altp2m k : Framed (T := T) (p2m_get_altp2m k).
Proof. unfold p2m_get_altp2m. framed. Qed.
#[export] Instance framed_active_add p n : Framed (T := T) (active_vcpus_add p n).
Proof. unfold active_vcpus_add. framed. Qed.
#[export] Instance framed_update_eptp k : Framed (T := T) (altp2m_vcpu_update_p2m plat k).
Proof. unfold altp2m_vcpu_update_p2m, vmx_vcpu_update_eptp. framed. Qed.
#[export] Instance framed_update_vmfunc k :
  Framed (altp2m_vcpu_update_vmfunc_ve cfg plat mem_sharing_unshare_page k).
Proof. unfold altp2m_vcpu_update_vmfunc_ve, vmx_vcpu_update_vmfunc_ve. framed. Qed.
#[export] Instance framed_find ids e : Framed (T := T) (find_eptp_from ids e).
Proof. induction ids; simpl; framed. Qed.
#[export] Instance framed_move k idx : Framed (T := T) (move_vcpu k idx).
Proof. unfold move_vcpu. framed. Qed.
#[export] Instance framed_vmexit k : Framed (T := T) (vmexit k).
Proof. unfold vmexit, vmexit_sync_eptp, p2m_find_altp2m_by_eptp. framed. Qed.
#[export] Instance framed_pause k : Framed (T := T) (vcpu_pause k).
Proof. unfold vcpu_pause, vcpu_sleep_sync. framed. Qed.
#[export] Instance framed_unpause k : Framed (T := T) (vcpu_unpause k).
Proof. unfold vcpu_unpause. framed. Qed.
#[export] Instance framed_initialise k : Framed (T := T) (altp2m_vcpu_initialise plat cur k).
Proof. unfold altp2m_vcpu_initialise, altp2m_vcpu_reset. framed. Qed.
#[export] Instance framed_destroy k :
  Framed (altp2m_vcpu_destroy cfg plat mem_sharing_unshare_page cur k).
Proof. unfold altp2m_vcpu_destroy, altp2m_vcpu_reset. framed. Qed.
#[export] Instance framed_init_helper i : Framed (T := T) (p2m_init_altp2m_helper i).
Proof. unfold p2m_init_altp2m_helper. framed. Qed.
#[export] Instance framed_init_next_from ids : Framed (T := T) (init_next_from ids).
Proof. induction ids; simpl; framed. Qed.
#[export] Instance framed_init_next : Framed (T := T) p2m_init_next_altp2m.
Proof. unfold p2m_init_next_altp2m. framed. Qed.
#[export] Instance framed_flush : Framed (p2m_flush_altp2m plat zero mask_ok).
Proof. unfold p2m_flush_altp2m. framed. Qed.
#[export] Instance framed_set_domain_state state :
  Framed (set_domain_state cfg plat mem_sharing_unshare_page zero cur mask_ok state).
Proof. unfold set_domain_state, p2m_init_altp2m_by_id. framed. Qed.
End Ops.
