(* ===== verification/P2mInit.v ===== *)
(** * Life of a domain's p2m structures (xen/arch/x86/mm/p2m.c)

    p2m_init() allocates the structures of the host table, of the nested
    tables and of the alternate views when a domain is made;
    p2m_final_teardown() gives them back.  The state is the domain's pointers
    to them, the resources that are allocated, and the list that links the
    nested tables to the host's structure.  An access to a structure that has
    been given back, or a second free, sets [wild]; a NULL dereference is
    [None].  The outcomes of the allocations are input. *)

From S2P Require Import Prelude Monad P2m Altp2m.

(** What is allocated for one p2m structure. *)
Definition STRUCT : Z := 0.
Definition DIRTY_MASK : Z := 1.
Definition SYNCED_MASK : Z := 2.
Definition LOG_RANGES : Z := 3.

Record mstate := mkMs {
  outcomes : list bool;              (* of the next allocations *)
  next_id : Z;
  owned : gset (Z * Z);              (* structure, resource *)
  host_p2m : option Z;
  nested_p2ms : list (option Z);
  alt_p2ms : list (option Z);
  np2m_list : list Z;                (* behind the head in the host's structure *)
  np2m_head : Z;                     (* the structure with the list head *)
  wild : bool
}.
#[export] Instance eta_mstate : Eta mstate := fun x =>
  mkMs (outcomes x) (next_id x) (owned x) (host_p2m x) (nested_p2ms x) (alt_p2ms x)
    (np2m_list x) (np2m_head x) (wild x).

Section Init.
Local Open Scope monad_scope.
Context (ept : bool).                (* hap_enabled(d) && cpu_has_vmx *)

Definition alloc (id r : Z) : M mstate bool :=
  let! s := gets (fun s : mstate => s) in
  let ok := default false (head (outcomes s)) in
  modify (fun s : mstate => s <| outcomes ::= tail |>) ;;
  when ok (modify (fun s : mstate => s <| owned ::= fun o => {[(id, r)]} ∪ o |>)) ;;
  ret ok.

(** xfree(), free_cpumask_var(), rangeset_destroy() *)
Definition release (id r : Z) : M mstate unit :=
  modify (fun s : mstate => s <| wild := wild s || negb (bool_decide ((id, r) ∈ owned s)) |>
                              <| owned ::= fun o => o ∖ {[(id, r)]} |>).

(** A field of the structure is read or written. *)
Definition touch (id : Z) : M mstate unit :=
  modify (fun s : mstate => s <| wild := wild s || negb (bool_decide ((id, STRUCT) ∈ owned s)) |>).

(** p2m_init_one() with p2m_initialise() and ept_p2m_init(). *)
Definition init_one : M mstate (option Z) :=
  let! id := gets next_id in
  let! ok := alloc id STRUCT in
  if negb ok then ret None
  else
    let! ok := alloc id DIRTY_MASK in
    if negb ok then release id STRUCT ;; ret None
    else
      let! ok := if ept then alloc id SYNCED_MASK else ret true in
      if negb ok then release id DIRTY_MASK ;; release id STRUCT ;; ret None
      else
        modify (fun s : mstate => s <| next_id := id + 1 |>) ;;
        ret (Some id).

Definition p2m_free_one (id : Z) : M mstate unit :=
  touch id ;;
  when ept (release id SYNCED_MASK) ;;
  release id DIRTY_MASK ;;
  release id STRUCT.

Definition p2m_init_hostp2m : M mstate Z :=
  let! p := init_one in
  match p with
  | Some id =>
      let! ok := alloc id LOG_RANGES in
      if ok then
        modify (fun s : mstate => s <| host_p2m := Some id |> <| np2m_head := id |>) ;;
        ret 0
      else p2m_free_one id ;; ret (- ENOMEM)
  | None => ret (- ENOMEM)
  end.

Definition p2m_teardown_hostp2m : M mstate unit :=
  let! p := gets host_p2m in
  match p with
  | Some id =>
      touch id ;;
      release id LOG_RANGES ;;
      p2m_free_one id ;;
      modify (fun s : mstate => s <| host_p2m := None |>)
  | None => ret tt
  end.

(** list_add() behind the head; it writes the head and the old first node. *)
Definition np2m_list_add (id : Z) : M mstate unit :=
  let! h := deref host_p2m in
  let! s := gets (fun s : mstate => s) in
  touch h ;; touch (default h (head (np2m_list s))) ;; touch id ;;
  modify (fun s : mstate => s <| np2m_list ::= cons id |>).

(** The nodes before and behind [id]; the head stands at both ends. *)
Fixpoint neighbours (id prev h : Z) (l : list Z) : option (Z * Z) :=
  match l with
  | [] => None
  | x :: l' =>
      if x =? id then Some (prev, default h (head l')) else neighbours id x h l'
  end.

(** list_del(): it writes both neighbours. *)
Definition np2m_list_del (id : Z) : M mstate unit :=
  let! s := gets (fun s : mstate => s) in
  touch id ;;
  match neighbours id (np2m_head s) (np2m_head s) (np2m_list s) with
  | Some (p, n) =>
      touch p ;; touch n ;;
      modify (fun s : mstate => s <| np2m_list ::= filter (fun x => x <> id) |>)
  | None => ret tt
  end.

Definition teardown_nested_slot (i : Z) : M mstate unit :=
  let! s := gets (fun s : mstate => s) in
  match nested_p2ms s !! Z.to_nat i with
  | Some (Some id) =>
      np2m_list_del id ;;
      p2m_free_one id ;;
      modify (fun s : mstate => s <| nested_p2ms ::= <[Z.to_nat i := None]> |>)
  | _ => ret tt
  end.
Definition p2m_teardown_nestedp2m : M mstate unit :=
  for_each (iota (Z.to_nat MAX_NESTEDP2M)) teardown_nested_slot.

(** The loop over the nested tables; the result is whether it failed. *)
Fixpoint init_nested_from (n : nat) (i : nat) : M mstate bool :=
  match n with
  | O => ret true
  | S n' =>
      let! p := init_one in
      modify (fun s : mstate => s <| nested_p2ms ::= <[i := p]> |>) ;;
      match p with
      | None => ret false
      | Some id => np2m_list_add id ;; init_nested_from n' (S i)
      end
  end.
Definition p2m_init_nestedp2m : M mstate Z :=
  let! ok := init_nested_from (Z.to_nat MAX_NESTEDP2M) 0 in
  if ok then ret 0 else p2m_teardown_nestedp2m ;; ret (- ENOMEM).

Definition teardown_alt_slot (i : Z) : M mstate unit :=
  let! s := gets (fun s : mstate => s) in
  match alt_p2ms s !! Z.to_nat i with
  | Some (Some id) =>
      modify (fun s : mstate => s <| alt_p2ms ::= <[Z.to_nat i := None]> |>) ;;
      p2m_free_one id
  | _ => ret tt
  end.
Definition p2m_teardown_altp2m : M mstate unit :=
  for_each (iota (Z.to_nat MAX_ALTP2M)) teardown_alt_slot.

Fixpoint init_alt_from (n : nat) (i : nat) : M mstate bool :=
  match n with
  | O => ret true
  | S n' =>
      let! p := init_one in
      modify (fun s : mstate => s <| alt_p2ms ::= <[i := p]> |>) ;;
      match p with
      | None => ret false
      | Some id => touch id ;; init_alt_from n' (S i)
      end
  end.
Definition p2m_init_altp2m : M mstate Z :=
  let! ok := init_alt_from (Z.to_nat MAX_ALTP2M) 0 in
  if ok then ret 0 else p2m_teardown_altp2m ;; ret (- ENOMEM).

Definition p2m_init : M mstate Z :=
  let! rc := p2m_init_hostp2m in
  if negb (rc =? 0) then ret rc
  else
    let! rc := p2m_init_nestedp2m in
    if negb (rc =? 0) then p2m_teardown_hostp2m ;; ret rc
    else
      let! rc := p2m_init_altp2m in
      when (negb (rc =? 0)) (p2m_teardown_hostp2m ;; p2m_teardown_nestedp2m) ;;
      ret rc.

Definition p2m_final_teardown : M mstate unit :=
  p2m_teardown_nestedp2m ;;
  p2m_teardown_hostp2m.
End Init.
