(* ===== verification/P2mInitProofs.v ===== *)
(** * Making and destroying a domain's p2m structures (theorems about
    P2mInit.v) *)

From S2P Require Import Prelude Monad P2m Altp2m P2mInit.

#[local] Arguments union : simpl never.
#[local] Arguments difference : simpl never.
#[local] Arguments singleton : simpl never.

Lemma drop_new (x : Z * Z) (X : gset (Z * Z)) : x ∉ X -> ({[x]} ∪ X) ∖ {[x]} = X.
Proof. set_solver. Qed.
Lemma regroup2 (a b : Z * Z) (X : gset (Z * Z)) : {[b]} ∪ ({[a]} ∪ X) = {[a]} ∪ {[b]} ∪ ∅ ∪ X.
Proof. set_solver. Qed.
Lemma regroup3 (a b c : Z * Z) (X : gset (Z * Z)) :
  {[c]} ∪ ({[b]} ∪ ({[a]} ∪ X)) = {[a]} ∪ {[b]} ∪ {[c]} ∪ X.
Proof. set_solver. Qed.

Section Proofs.
Context (ept : bool).

(** What one structure owns, and what a list of them does. *)
Definition res (id : Z) : gset (Z * Z) :=
  {[(id, STRUCT)]} ∪ {[(id, DIRTY_MASK)]} ∪ (if ept then {[(id, SYNCED_MASK)]} else ∅).
Definition all_res (ids : list Z) : gset (Z * Z) := ⋃ (res <$> ids).

(** Identities are handed out in ascending order. *)
Definition fresh_ids (s : mstate) : Prop := forall id r, (id, r) ∈ owned s -> id < next_id s.

Lemma elem_of_res x id : x ∈ res id -> x.1 = id.
Proof. unfold res. destruct ept; set_solver. Qed.

Lemma log_not_in_res id : (id, LOG_RANGES) ∉ res id.
Proof. unfold res, LOG_RANGES, STRUCT, DIRTY_MASK, SYNCED_MASK. destruct ept; set_solver. Qed.

Lemma elem_of_all_res x ids : x ∈ all_res ids <-> exists id, id ∈ ids /\ x ∈ res id.
Proof.
  unfold all_res. rewrite elem_of_union_list. split.
  - intros (X & HX & Hx). apply list_elem_of_fmap in HX as (id & -> & Hid). by exists id.
  - intros (id & Hid & Hx). exists (res id). split; [|done]. apply list_elem_of_fmap. by exists id.
Qed.

Lemma all_res_cons id ids : all_res (id :: ids) = res id ∪ all_res ids.
Proof. done. Qed.
Lemma all_res_app a b : all_res (a ++ b) = all_res a ∪ all_res b.
Proof. unfold all_res. by rewrite fmap_app, union_list_app_L. Qed.

(** The state with other outcomes, identities and resources. *)
Definition with_res (s : mstate) (o : list bool) (n : Z) (X : gset (Z * Z)) : mstate :=
  mkMs o n X (host_p2m s) (nested_p2ms s) (alt_p2ms s) (np2m_list s) (np2m_head s) (wild s).

Lemma with_res_same s : with_res s (outcomes s) (next_id s) (owned s) = s.
Proof. by destruct s. Qed.

Lemma wp_alloc id r s o n X Q :
  (forall o', Q true (with_res s o' n ({[(id, r)]} ∪ X))) ->
  (forall o', Q false (with_res s o' n X)) ->
  wp (alloc id r) Q (with_res s o n X).
Proof.
  intros Ht Hf. unfold alloc. apply wp_bind, wp_gets. apply wp_bind, wp_modify.
  destruct (default false (head (outcomes (with_res s o n X)))); [exact (Ht _)|exact (Hf _)].
Qed.

Lemma wp_release id r s o n X Q :
  (id, r) ∈ X -> Q tt (with_res s o n (X ∖ {[(id, r)]})) -> wp (release id r) Q (with_res s o n X).
Proof.
  intros Hin HQ. unfold release. apply wp_modify.
  change (owned (with_res s o n X)) with X. rewrite bool_decide_true by done.
  change (wild (with_res s o n X)) with (wild s). simpl negb. rewrite orb_false_r. exact HQ.
Qed.

Lemma wp_touch id s Q : (id, STRUCT) ∈ owned s -> Q tt s -> wp (touch id) Q s.
Proof.
  intros Hin HQ. unfold touch. apply wp_modify. rewrite bool_decide_true by done. simpl negb.
  rewrite orb_false_r. destruct s. exact HQ.
Qed.

Lemma wp_init_one s o n X Q :
  (forall r, (n, r) ∉ X) ->
  (forall o', Q (Some n) (with_res s o' (n + 1) (res n ∪ X))) ->
  (forall o', Q None (with_res s o' n X)) ->
  wp (init_one ept) Q (with_res s o n X).
Proof.
  intros Hnew Hs Hn. unfold init_one. apply wp_bind, wp_gets.
  change (next_id (with_res s o n X)) with n.
  assert (Hin : forall x Y, x ∈ ({[x]} ∪ Y : gset (Z * Z))) by set_solver.
  apply wp_bind, wp_alloc; intros o1; [|by apply wp_ret].
  apply wp_bind, wp_alloc; intros o2; simpl negb; cbv iota.
  2: { apply wp_bind, wp_release; [apply Hin|]. rewrite drop_new by apply Hnew. by apply wp_ret. }
  assert (Hdone : forall o' Y, Y = res n ∪ X ->
    wp (bind (modify (fun s : mstate => s <| next_id := n + 1 |>)) (fun _ => ret (Some n))) Q
       (with_res s o' n Y)).
  { intros o' Y ->. apply wp_bind, wp_modify, wp_ret. exact (Hs o'). }
  apply wp_bind. unfold res in Hdone. destruct ept.
  - apply wp_alloc; intros o3; simpl negb; cbv iota; [apply Hdone, regroup3|].
    apply wp_bind, wp_release; [apply Hin|].
    rewrite drop_new by (rewrite elem_of_union, elem_of_singleton; intros [[=]|H]; by apply Hnew in H).
    apply wp_bind, wp_release; [apply Hin|]. rewrite drop_new by apply Hnew. by apply wp_ret.
  - apply wp_ret. simpl negb. cbv iota. apply Hdone, regroup2.
Qed.

Lemma wp_free_one id s o n X Q :
  res id ⊆ X -> Q tt (with_res s o n (X ∖ res id)) -> wp (p2m_free_one ept id) Q (with_res s o n X).
Proof.
  intros Hsub HQ. unfold res in *. unfold p2m_free_one.
  apply wp_bind, wp_touch; [simpl; destruct ept; set_solver|].
  apply wp_bind. destruct ept.
  - apply wp_release; [set_solver|]. apply wp_bind, wp_release; [set_solver|].
    apply wp_release; [set_solver|].
    replace ((X ∖ {[(id, SYNCED_MASK)]}) ∖ {[(id, DIRTY_MASK)]} ∖ {[(id, STRUCT)]}) with
      (X ∖ ({[(id, STRUCT)]} ∪ {[(id, DIRTY_MASK)]} ∪ {[(id, SYNCED_MASK)]})) by set_solver. exact HQ.
  - apply wp_ret. apply wp_bind, wp_release; [set_solver|]. apply wp_release; [set_solver|].
    replace (X ∖ {[(id, DIRTY_MASK)]} ∖ {[(id, STRUCT)]}) with
      (X ∖ ({[(id, STRUCT)]} ∪ {[(id, DIRTY_MASK)]} ∪ ∅)) by set_solver. exact HQ.
Qed.

(** ** The loops *)

Lemma insert_next {A} (l : list A) (x y : A) r i :
  i = length l -> <[i := y]> (l ++ x :: r) = l ++ y :: r.
Proof. intros ->. rewrite <- (Nat.add_0_r (length l)). by rewrite insert_app_r. Qed.

Lemma res_struct id : (id, STRUCT) ∈ res id.
Proof. unfold res. set_solver. Qed.

(** Identities below the next one. *)
Definition below (n : Z) (X : gset (Z * Z)) : Prop := forall id r, (id, r) ∈ X -> id < n.

Lemma below_new n X r : below n X -> (n, r) ∉ X.
Proof. intros Hb Hin. apply Hb in Hin. lia. Qed.

Lemma below_res n X : below n X -> below (n + 1) (res n ∪ X).
Proof.
  intros Hb id r [Hin|Hin]%elem_of_union; [apply elem_of_res in Hin; simpl in Hin; lia|].
  apply Hb in Hin. lia.
Qed.

Definition slots (ids : list Z) (k : nat) : list (option Z) := map Some ids ++ replicate k None.

Lemma slots_fill ids id k i :
  i = length ids -> <[i := Some id]> (slots ids (S k)) = slots (ids ++ [id]) k.
Proof.
  intros ->. unfold slots. simpl replicate. rewrite insert_next by by rewrite length_map.
  by rewrite map_app, <- app_assoc.
Qed.
Lemma slots_none ids k i : i = length ids -> <[i := None]> (slots ids (S k)) = slots ids (S k).
Proof. intros ->. unfold slots. simpl replicate. by rewrite insert_next by by rewrite length_map. Qed.

Lemma wp_init_nested n : forall i ids o nx X h alts w Q,
  i = length ids -> below nx X -> (h, STRUCT) ∈ X -> (forall id, id ∈ ids -> (id, STRUCT) ∈ X) ->
  (forall o' (m : nat), (m <= n)%nat ->
     let new := seqZ nx (Z.of_nat m) in
     Q (bool_decide (m = n))
       (mkMs o' (nx + Z.of_nat m) (all_res new ∪ X) (Some h) (slots (ids ++ new) (n - m)) alts
          (rev (ids ++ new)) h w)) ->
  wp (init_nested_from ept n i) Q (mkMs o nx X (Some h) (slots ids n) alts (rev ids) h w).
Proof.
  induction n as [|n IH]; intros i ids o nx X h alts w Q Hi Hb Hh Hids HQ.
  - apply wp_ret. specialize (HQ o 0%nat ltac:(lia)). simpl in HQ.
    rewrite app_nil_r, Z.add_0_r in HQ.
    unfold all_res in HQ. simpl in HQ. by rewrite (left_id_L ∅ (∪)) in HQ.
  - simpl. apply wp_bind.
    change (mkMs o nx X (Some h) (slots ids (S n)) alts (rev ids) h w) with
      (with_res (mkMs o nx X (Some h) (slots ids (S n)) alts (rev ids) h w) o nx X).
    apply wp_init_one; [intros r; by apply below_new| |]; intros o'.
    + apply wp_bind, wp_modify. unfold with_res, set. simpl. rewrite slots_fill by done.
      unfold np2m_list_add. apply wp_bind. apply wp_bind. eapply wp_deref; [reflexivity|].
      apply wp_bind, wp_gets. simpl np2m_list.
      apply wp_bind, wp_touch; [simpl; by apply elem_of_union_r|].
      apply wp_bind, wp_touch.
      { simpl. apply elem_of_union_r. destruct (rev ids) as [|x l] eqn:Er; simpl; [done|].
        apply Hids. rewrite <- (rev_involutive ids), Er. apply list_elem_of_In, in_rev. rewrite rev_involutive. by left. }
      apply wp_bind, wp_touch; [simpl; apply elem_of_union_l, res_struct|].
      apply wp_modify. unfold set. simpl.
      replace (nx :: rev ids) with (rev (ids ++ [nx])) by by rewrite rev_app_distr.
      apply IH.
      * rewrite length_app. simpl. lia.
      * by apply below_res.
      * by apply elem_of_union_r.
      * intros id [Hid|Hid]%elem_of_app; [apply elem_of_union_r; by apply Hids|].
        apply list_elem_of_singleton in Hid as ->. apply elem_of_union_l, res_struct.
      * intros o2 m Hm. cbv zeta. specialize (HQ o2 (S m) ltac:(lia)). cbv zeta in HQ.
        rewrite seqZ_cons in HQ by lia. replace (Z.pred (Z.of_nat (S m))) with (Z.of_nat m) in HQ by lia.
        replace (Z.succ nx) with (nx + 1) in HQ by lia. change (S n - S m)%nat with (n - m)%nat in HQ.
        rewrite all_res_cons in HQ. rewrite <- app_assoc. simpl.
        replace (nx + 1 + Z.of_nat m) with (nx + Z.of_nat (S m)) by lia.
        rewrite (assoc_L (∪)), (comm_L (∪) (all_res _) (res nx)).
        rewrite (bool_decide_ext (m = n) (S m = S n)) by lia. exact HQ.
    + apply wp_bind, wp_modify. unfold with_res, set. simpl. rewrite slots_none by done.
      apply wp_ret. specialize (HQ o' 0%nat ltac:(lia)). simpl in HQ.
      rewrite app_nil_r, Z.add_0_r in HQ. unfold all_res in HQ. simpl in HQ.
      rewrite (left_id_L ∅ (∪)) in HQ. exact HQ.
Qed.

Lemma wp_init_alt n : forall i ids o nx X hs ns l h w Q,
  i = length ids -> below nx X ->
  (forall o' (m : nat), (m <= n)%nat ->
     let new := seqZ nx (Z.of_nat m) in
     Q (bool_decide (m = n))
       (mkMs o' (nx + Z.of_nat m) (all_res new ∪ X) hs ns (slots (ids ++ new) (n - m)) l h w)) ->
  wp (init_alt_from ept n i) Q (mkMs o nx X hs ns (slots ids n) l h w).
Proof.
  induction n as [|n IH]; intros i ids o nx X hs ns l h w Q Hi Hb HQ.
  - apply wp_ret. specialize (HQ o 0%nat ltac:(lia)). simpl in HQ.
    rewrite app_nil_r, Z.add_0_r in HQ.
    unfold all_res in HQ. simpl in HQ. by rewrite (left_id_L ∅ (∪)) in HQ.
  - simpl. apply wp_bind.
    change (mkMs o nx X hs ns (slots ids (S n)) l h w) with
      (with_res (mkMs o nx X hs ns (slots ids (S n)) l h w) o nx X).
    apply wp_init_one; [intros r; by apply below_new| |]; intros o'.
    + apply wp_bind, wp_modify. unfold with_res, set. simpl. rewrite slots_fill by done.
      apply wp_bind, wp_touch; [simpl; apply elem_of_union_l, res_struct|]. apply IH.
      * rewrite length_app. simpl. lia.
      * by apply below_res.
      * intros o2 m Hm. cbv zeta. specialize (HQ o2 (S m) ltac:(lia)). cbv zeta in HQ.
        rewrite seqZ_cons in HQ by lia. replace (Z.pred (Z.of_nat (S m))) with (Z.of_nat m) in HQ by lia.
        replace (Z.succ nx) with (nx + 1) in HQ by lia. change (S n - S m)%nat with (n - m)%nat in HQ.
        rewrite all_res_cons in HQ. rewrite <- app_assoc. simpl.
        replace (nx + 1 + Z.of_nat m) with (nx + Z.of_nat (S m)) by lia.
        rewrite (assoc_L (∪)), (comm_L (∪) (all_res _) (res nx)).
        rewrite (bool_decide_ext (m = n) (S m = S n)) by lia. exact HQ.
    + apply wp_bind, wp_modify. unfold with_res, set. simpl. rewrite slots_none by done.
      apply wp_ret. specialize (HQ o' 0%nat ltac:(lia)). simpl in HQ.
      rewrite app_nil_r, Z.add_0_r in HQ. unfold all_res in HQ. simpl in HQ.
      rewrite (left_id_L ∅ (∪)) in HQ. exact HQ.
Qed.

(** Slots in the middle of a teardown: [i] are done. *)
Definition left_over (i : nat) (ids : list Z) (k : nat) : list (option Z) :=
  replicate i None ++ slots ids k.

Lemma left_over_lookup i ids k :
  left_over i ids k !! i = match ids with x :: _ => Some (Some x)
                           | [] => match k with O => None | S _ => Some None end end.
Proof.
  unfold left_over. rewrite lookup_app_r by (rewrite length_replicate; lia).
  rewrite length_replicate, Nat.sub_diag. destruct ids; [|done]. by destruct k.
Qed.
Lemma left_over_clear i x ids k : <[i := None]> (left_over i (x :: ids) k) = left_over (S i) ids k.
Proof.
  unfold left_over, slots.
  change (map Some (x :: ids) ++ replicate k None) with (Some x :: map Some ids ++ replicate k None).
  rewrite (insert_next (replicate i None)) by by rewrite length_replicate.
  rewrite replicate_S_end. by rewrite <- app_assoc.
Qed.
Lemma left_over_skip i k : left_over i [] (S k) = left_over (S i) [] k.
Proof.
  unfold left_over, slots. rewrite (replicate_S_end i), <- app_assoc. done.
Qed.

(** The order of the nested tables in the list is that of their creation,
    reversed: the first to go is the last, whose neighbour is the head. *)
Lemma neighbours_last x h l : forall p,
  x ∉ l -> neighbours x p h (l ++ [x]) = Some (default p (last l), h).
Proof.
  induction l as [|y l IH]; intros p Hx; simpl; [by rewrite Z.eqb_refl|].
  apply not_elem_of_cons in Hx as [Hne Hx]. rewrite (proj2 (Z.eqb_neq _ _)) by done.
  rewrite IH by done. f_equal. f_equal. destruct l as [|z l]; [done|].
  change (last (y :: z :: l)) with (last (z :: l)).
  destruct (last (z :: l)) eqn:E; [done|]. apply last_None in E. done.
Qed.

Lemma wp_touch_any id s Q :
  Q tt (s <| wild := wild s || negb (bool_decide ((id, STRUCT) ∈ owned s)) |>) -> wp (touch id) Q s.
Proof. done. Qed.

Definition gone (h : Z) (X : gset (Z * Z)) : bool := negb (bool_decide ((h, STRUCT) ∈ X)).

Lemma filter_last (x : Z) l : x ∉ l -> filter (fun y => y <> x) (l ++ [x]) = l.
Proof.
  induction l as [|y l IH]; intros Hx; simpl app.
  - rewrite filter_cons_False by (intros H; by apply H). done.
  - apply not_elem_of_cons in Hx as [Hne Hx]. rewrite filter_cons_True by done. by rewrite IH.
Qed.

(** Unlinking the structure that is last in the list. *)
Lemma wp_list_del_last x rest s Q :
  np2m_list s = rev rest ++ [x] -> x ∉ rest -> (x, STRUCT) ∈ owned s ->
  (forall y, y ∈ rest -> (y, STRUCT) ∈ owned s) ->
  Q tt (s <| np2m_list := rev rest |> <| wild := wild s || gone (np2m_head s) (owned s) |>) ->
  wp (np2m_list_del x) Q s.
Proof.
  intros Hl Hx Hin Hrest HQ. unfold np2m_list_del. apply wp_bind, wp_gets.
  assert (Hx' : x ∉ rev rest) by (rewrite list_elem_of_In, <- in_rev, <- list_elem_of_In; done).
  apply wp_bind, wp_touch; [done|]. rewrite Hl, neighbours_last by done.
  apply wp_bind, wp_touch_any. apply wp_bind, wp_touch_any. apply wp_modify.
  unfold set in *. simpl in *. rewrite Hl, filter_last by done.
  assert (Hp : wild s || negb (bool_decide ((default (np2m_head s) (last (rev rest)), STRUCT) ∈ owned s))
               || gone (np2m_head s) (owned s) = wild s || gone (np2m_head s) (owned s)).
  { destruct (last (rev rest)) as [y|] eqn:Ey; simpl.
    - rewrite bool_decide_true; [by rewrite orb_false_r|]. apply Hrest.
      apply last_Some in Ey as [l' Ey]. rewrite list_elem_of_In, in_rev, Ey, in_app_iff. by right; left.
    - fold (gone (np2m_head s) (owned s)). by rewrite <- orb_assoc, orb_diag. }
  unfold gone in *. rewrite Hp. exact HQ.
Qed.

Lemma all_res_nodup x ids X :
  x ∉ ids -> (forall id, id ∈ x :: ids -> res id ⊆ X) ->
  forall id, id ∈ ids -> res id ⊆ X ∖ res x.
Proof.
  intros Hx Hsub id Hid y Hy. apply elem_of_difference. split; [by apply (Hsub id); [right|]|].
  intros Hy2. apply elem_of_res in Hy, Hy2. congruence.
Qed.

Lemma diff_cons X x ids : X ∖ all_res (x :: ids) = X ∖ res x ∖ all_res ids.
Proof. rewrite all_res_cons. set_solver. Qed.
Lemma diff_nil X : X ∖ all_res [] = X.
Proof. unfold all_res. simpl. set_solver. Qed.

Lemma gone_res h x X : h <> x -> gone h (X ∖ res x) = gone h X.
Proof.
  intros Hne. unfold gone. f_equal. apply bool_decide_ext. rewrite elem_of_difference.
  split; [by intros [? _]|]. intros Hh. split; [done|]. intros H. by apply elem_of_res in H.
Qed.

Lemma left_over_end i k : left_over i [] k = replicate (i + k) None.
Proof. unfold left_over, slots. by rewrite replicate_add. Qed.

Lemma wp_teardown_nested_from m : forall i ids k o n X hs alts h w Q,
  m = (length ids + k)%nat -> NoDup ids -> (forall id, id ∈ ids -> res id ⊆ X) -> h ∉ ids ->
  Q tt (mkMs o n (X ∖ all_res ids) hs (replicate (i + m) None) alts [] h
          (w || (negb (bool_decide (ids = [])) && gone h X))) ->
  wp (for_each (Z.of_nat <$> seq i m) (teardown_nested_slot ept)) Q
     (mkMs o n X hs (left_over i ids k) alts (rev ids) h w).
Proof.
  induction m as [|m IH]; intros i ids k o n X hs alts h w Q Hm Hnd Hsub Hh HQ.
  - destruct ids; [|simpl in Hm; lia]. simpl in Hm. subst k. apply wp_ret.
    rewrite diff_nil in HQ. simpl in HQ. rewrite orb_false_r in HQ. by rewrite left_over_end.
  - simpl. apply wp_bind. unfold teardown_nested_slot at 1. apply wp_bind, wp_gets. simpl nested_p2ms.
    rewrite Nat2Z.id, left_over_lookup. destruct ids as [|x ids].
    + destruct k as [|k]; simpl in Hm; [lia|]. apply wp_ret. rewrite left_over_skip.
      apply (IH (S i) [] k); [simpl; lia|done|done|done|].
      rewrite diff_nil in HQ |- *. by rewrite Nat.add_succ_r in HQ.
    + apply NoDup_cons in Hnd as [Hx Hnd]. apply not_elem_of_cons in Hh as [Hhx Hh].
      apply wp_bind. apply (wp_list_del_last x ids).
      * done.
      * done.
      * apply (Hsub x); [left|apply res_struct].
      * intros y Hy. apply (Hsub y); [by right|apply res_struct].
      * unfold set. simpl. apply wp_bind.
        change (mkMs o n X hs (left_over i (x :: ids) k) alts (rev ids) h (w || gone h X)) with
          (with_res (mkMs o n X hs (left_over i (x :: ids) k) alts (rev ids) h (w || gone h X)) o n X).
        apply wp_free_one; [apply Hsub; left|]. apply wp_modify. unfold with_res, set. simpl.
        rewrite left_over_clear. apply (IH (S i) ids k); [simpl in Hm; lia|done| |done|].
        -- by apply all_res_nodup.
        -- rewrite diff_cons in HQ. rewrite Nat.add_succ_r in HQ. rewrite gone_res by done.
           rewrite (bool_decide_false (x :: ids = [])) in HQ by done. simpl in HQ |- *.
           replace (w || gone h X || negb (bool_decide (ids = [])) && gone h X) with (w || gone h X)
             by (destruct w, (gone h X), (bool_decide (ids = [])); done).
           exact HQ.
Qed.

Lemma wp_teardown_alt_from m : forall i ids k o n X hs ns l h w Q,
  m = (length ids + k)%nat -> NoDup ids -> (forall id, id ∈ ids -> res id ⊆ X) ->
  Q tt (mkMs o n (X ∖ all_res ids) hs ns (replicate (i + m) None) l h w) ->
  wp (for_each (Z.of_nat <$> seq i m) (teardown_alt_slot ept)) Q
     (mkMs o n X hs ns (left_over i ids k) l h w).
Proof.
  induction m as [|m IH]; intros i ids k o n X hs ns l h w Q Hm Hnd Hsub HQ.
  - destruct ids; [|simpl in Hm; lia]. simpl in Hm. subst k. apply wp_ret.
    rewrite diff_nil in HQ. by rewrite left_over_end.
  - simpl. apply wp_bind. unfold teardown_alt_slot at 1. apply wp_bind, wp_gets. simpl alt_p2ms.
    rewrite Nat2Z.id, left_over_lookup. destruct ids as [|x ids].
    + destruct k as [|k]; simpl in Hm; [lia|]. apply wp_ret. rewrite left_over_skip.
      apply (IH (S i) [] k); [simpl; lia|done|done|].
      rewrite diff_nil in HQ |- *. by rewrite Nat.add_succ_r in HQ.
    + apply NoDup_cons in Hnd as [Hx Hnd]. apply wp_bind, wp_modify. unfold set. simpl.
      rewrite left_over_clear.
      change (mkMs o n X hs ns (left_over (S i) ids k) l h w) with
        (with_res (mkMs o n X hs ns (left_over (S i) ids k) l h w) o n X).
      apply wp_free_one; [apply Hsub; left|]. unfold with_res. simpl.
      apply (IH (S i) ids k); [simpl in Hm; lia|done|by apply all_res_nodup|].
      rewrite diff_cons in HQ. by rewrite Nat.add_succ_r in HQ.
Qed.

(** ** The whole operations *)

Lemma wp_teardown_host h o n X ns als l hd w Q :
  (h, LOG_RANGES) ∈ X -> res h ⊆ X ->
  Q tt (mkMs o n (X ∖ {[(h, LOG_RANGES)]} ∖ res h) None ns als l hd w) ->
  wp (p2m_teardown_hostp2m ept) Q (mkMs o n X (Some h) ns als l hd w).
Proof.
  intros Hl Hr HQ. unfold p2m_teardown_hostp2m. apply wp_bind, wp_gets. simpl host_p2m. cbv iota.
  apply wp_bind, wp_touch; [apply Hr, res_struct|].
  change (mkMs o n X (Some h) ns als l hd w) with
    (with_res (mkMs o n X (Some h) ns als l hd w) o n X).
  apply wp_bind, wp_release; [done|]. apply wp_bind, wp_free_one.
  - intros x Hx. apply elem_of_difference. split; [by apply Hr|].
    intros ->%elem_of_singleton. by apply log_not_in_res in Hx.
  - apply wp_modify. exact HQ.
Qed.

Lemma sub_all_res id ids : id ∈ ids -> res id ⊆ all_res ids.
Proof. intros Hid x Hx. apply elem_of_all_res. by exists id. Qed.

Lemma diff_all_res ids X :
  (forall id r, id ∈ ids -> (id, r) ∉ X) -> (all_res ids ∪ X) ∖ all_res ids = X.
Proof.
  intros Hd. apply set_eq. intros [id r]. rewrite elem_of_difference, elem_of_union. split.
  - intros [[H|H] Hn]; done.
  - intros H. split; [by right|]. intros Hin. apply elem_of_all_res in Hin as (id' & Hid & Hr).
    apply elem_of_res in Hr. simpl in Hr. subst. by apply (Hd id' r).
Qed.

Lemma diff_host h X Y :
  below h X -> (forall r, (h, r) ∉ Y) ->
  (Y ∪ ({[(h, LOG_RANGES)]} ∪ (res h ∪ X))) ∖ {[(h, LOG_RANGES)]} ∖ res h = Y ∪ X.
Proof.
  intros Hb HY. apply set_eq. intros [id r].
  assert (HX : (h, r) ∉ X) by by apply below_new.
  rewrite !elem_of_difference, !elem_of_union, !elem_of_singleton. split.
  - intros [[[H|[H|[H|H]]] Hn1] Hn2]; try done; [by left|by right].
  - intros H. split; [split; [tauto|]|].
    + intros [= -> ->]. destruct H as [H|H]; [by apply (HY LOG_RANGES)|by apply (below_new h X LOG_RANGES)].
    + intros Hr. apply elem_of_res in Hr. simpl in Hr. subst id.
      destruct H as [H|H]; [by apply (HY r)|done].
Qed.

Lemma below_all_res n m X : below n X -> below (n + Z.of_nat m) (all_res (seqZ n (Z.of_nat m)) ∪ X).
Proof.
  intros Hb id r [H|H]%elem_of_union.
  - apply elem_of_all_res in H as (id' & Hid & Hr). apply elem_of_res in Hr. simpl in Hr. subst.
    apply elem_of_seqZ in Hid. lia.
  - apply Hb in H. lia.
Qed.

Lemma below_mono n m X : n <= m -> below n X -> below m X.
Proof. intros Hn Hb id r H. apply Hb in H. lia. Qed.

Lemma seqZ_fresh n m X id r : below n X -> id ∈ seqZ n m -> (id, r) ∉ X.
Proof. intros Hb Hid H. apply elem_of_seqZ in Hid. apply Hb in H. lia. Qed.

(** No structure yet. *)
Definition blank (s : mstate) : Prop :=
  host_p2m s = None /\ nested_p2ms s = replicate 10 None /\ alt_p2ms s = replicate 39 None /\
  np2m_list s = [].

(** A host table, ten nested tables and 39 views, each with its resources,
    linked as they should be, and nothing else. *)
Definition host_res (h : Z) : gset (Z * Z) := {[(h, LOG_RANGES)]} ∪ res h.
Definition built (s s' : mstate) : Prop :=
  let h := next_id s in let ns := seqZ (h + 1) 10 in let als := seqZ (h + 11) 39 in
  exists o, s' = mkMs o (h + 50) (all_res als ∪ (all_res ns ∪ (host_res h ∪ owned s)))
                   (Some h) (map Some ns) (map Some als) (rev ns) h (wild s).

Definition init_post (s : mstate) (rc : Z) (s' : mstate) : Prop :=
  (rc = 0 /\ built s s') \/
  (rc = - ENOMEM /\ owned s' = owned s /\ blank s' /\
   wild s' = wild s || (11 <=? next_id s' - next_id s)).

Lemma drop_res n X : below n X -> (res n ∪ X) ∖ res n = X.
Proof.
  intros Hb. apply set_eq. intros x. rewrite elem_of_difference, elem_of_union.
  split; [by intros [[H|H] H2]|]. intros H. split; [by right|]. intros Hr.
  apply elem_of_res in Hr. destruct x as [x r]. simpl in Hr. subst. by apply (below_new n X r).
Qed.

Lemma wp_init_host s Q :
  below (next_id s) (owned s) -> blank s ->
  (forall o, Q 0 (mkMs o (next_id s + 1) (host_res (next_id s) ∪ owned s) (Some (next_id s))
                    (replicate 10 None) (replicate 39 None) [] (next_id s) (wild s))) ->
  (forall o n, n <= next_id s + 1 -> Q (- ENOMEM) (mkMs o n (owned s) None
                    (replicate 10 None) (replicate 39 None) [] (np2m_head s) (wild s))) ->
  wp (p2m_init_hostp2m ept) Q s.
Proof.
  intros Hb (Bh & Bn & Ba & Bl) Hok Hfail. destruct s as [o nx X hs ns als l hd w].
  cbn [next_id owned host_p2m nested_p2ms alt_p2ms np2m_list np2m_head wild] in *. subst.
  unfold p2m_init_hostp2m. apply wp_bind.
  change (mkMs o nx X None (replicate 10 None) (replicate 39 None) [] hd w) with
    (with_res (mkMs o nx X None (replicate 10 None) (replicate 39 None) [] hd w) o nx X).
  apply wp_init_one; [intros r; exact (below_new nx X r Hb)| |]; intros o1; cbv iota.
  - apply wp_bind, wp_alloc; intros o2; cbv iota.
    + apply wp_bind, wp_modify, wp_ret. specialize (Hok o2). unfold host_res in Hok.
      rewrite <- (assoc_L (∪)) in Hok. exact Hok.
    + apply wp_bind, wp_free_one; [apply union_subseteq_l|]. apply wp_ret.
      rewrite drop_res by done. apply (Hfail o2). lia.
  - apply wp_ret. apply (Hfail o1). lia.
Qed.

Lemma below_host n X : below n X -> below (n + 1) (host_res n ∪ X).
Proof.
  intros Hb id r H. unfold host_res in H. rewrite !elem_of_union, elem_of_singleton in H.
  destruct H as [[[= -> ->]|H]|H]; [lia|apply elem_of_res in H; simpl in H; lia|].
  apply Hb in H. lia.
Qed.

Lemma host_res_sub h X : res h ⊆ host_res h ∪ X /\ (h, LOG_RANGES) ∈ host_res h ∪ X.
Proof. unfold host_res. set_solver. Qed.

Lemma seqZ_after n k m id : id ∈ seqZ (n + k) m -> n + k <= id.
Proof. intros H. apply elem_of_seqZ in H. lia. Qed.

(** Nested tables: all ten, or none is left. *)
Lemma wp_init_nestedp2m o nx X h w Q :
  below nx X -> (h, STRUCT) ∈ X ->
  (forall o', Q 0 (mkMs o' (nx + 10) (all_res (seqZ nx 10) ∪ X) (Some h) (map Some (seqZ nx 10))
                     (replicate 39 None) (rev (seqZ nx 10)) h w)) ->
  (forall o' n, n < nx + 10 ->
     Q (- ENOMEM) (mkMs o' n X (Some h) (replicate 10 None) (replicate 39 None) [] h w)) ->
  wp (p2m_init_nestedp2m ept) Q
     (mkMs o nx X (Some h) (replicate 10 None) (replicate 39 None) [] h w).
Proof.
  intros Hb Hh Hok Hfail. unfold p2m_init_nestedp2m. apply wp_bind.
  change (replicate 10 None) with (slots [] 10) at 1. change (@nil Z) with (rev (@nil Z)) at 2.
  change (Z.to_nat MAX_NESTEDP2M) with 10%nat.
  apply wp_init_nested; [done|done|done|by intros id H; apply elem_of_nil in H|].
  intros o' m Hm. cbv zeta. rewrite app_nil_l. case_bool_decide as Em.
  - subst m. change (10 - 10)%nat with 0%nat. unfold slots. rewrite app_nil_r. apply wp_ret, Hok.
  - apply wp_bind. unfold p2m_teardown_nestedp2m. change (Z.to_nat MAX_NESTEDP2M) with 10%nat.
    change (slots (seqZ nx (Z.of_nat m)) (10 - m))
      with (left_over 0 (seqZ nx (Z.of_nat m)) (10 - m)).
    apply (wp_teardown_nested_from 10 0 (seqZ nx (Z.of_nat m)) (10 - m)).
    + rewrite length_seqZ. lia.
    + apply NoDup_seqZ.
    + intros id Hid x Hx. apply elem_of_union_l. by apply (sub_all_res id _ Hid).
    + intros H. by apply (seqZ_fresh nx _ X h STRUCT Hb) in H.
    + apply wp_ret. rewrite diff_all_res by (intros id r Hid; exact (seqZ_fresh nx _ X id r Hb Hid)).
      replace (gone h (all_res (seqZ nx (Z.of_nat m)) ∪ X)) with false.
      * rewrite andb_false_r, orb_false_r. change (0 + 10)%nat with 10%nat. apply Hfail. lia.
      * symmetry. unfold gone. rewrite bool_decide_true; [done|]. by apply elem_of_union_r.
Qed.

(** Views: all 39, or none is left. *)
Lemma wp_init_altp2m o nx X hs ns l h w Q :
  below nx X ->
  (forall o', Q 0 (mkMs o' (nx + 39) (all_res (seqZ nx 39) ∪ X) hs ns (map Some (seqZ nx 39)) l h w)) ->
  (forall o' n, nx <= n -> Q (- ENOMEM) (mkMs o' n X hs ns (replicate 39 None) l h w)) ->
  wp (p2m_init_altp2m ept) Q (mkMs o nx X hs ns (replicate 39 None) l h w).
Proof.
  intros Hb Hok Hfail. unfold p2m_init_altp2m. apply wp_bind.
  change (replicate 39 None) with (slots [] 39). change (Z.to_nat MAX_ALTP2M) with 39%nat.
  apply wp_init_alt; [done|done|]. intros o' m Hm. cbv zeta. rewrite app_nil_l.
  case_bool_decide as Em.
  - subst m. change (39 - 39)%nat with 0%nat. unfold slots. rewrite app_nil_r. apply wp_ret, Hok.
  - apply wp_bind. unfold p2m_teardown_altp2m. change (Z.to_nat MAX_ALTP2M) with 39%nat.
    change (slots (seqZ nx (Z.of_nat m)) (39 - m))
      with (left_over 0 (seqZ nx (Z.of_nat m)) (39 - m)).
    apply (wp_teardown_alt_from 39 0 (seqZ nx (Z.of_nat m)) (39 - m)).
    + rewrite length_seqZ. lia.
    + apply NoDup_seqZ.
    + intros id Hid x Hx. apply elem_of_union_l. by apply (sub_all_res id _ Hid).
    + apply wp_ret. rewrite diff_all_res by (intros id r Hid; exact (seqZ_fresh nx _ X id r Hb Hid)).
      change (0 + 39)%nat with 39%nat. apply Hfail. lia.
Qed.

Lemma wp_teardown_nestedp2m ns o n X hs alts h w Q :
  length ns = 10%nat -> NoDup ns -> (forall id, id ∈ ns -> res id ⊆ X) -> h ∉ ns ->
  Q tt (mkMs o n (X ∖ all_res ns) hs (replicate 10 None) alts [] h (w || gone h X)) ->
  wp (p2m_teardown_nestedp2m ept) Q (mkMs o n X hs (map Some ns) alts (rev ns) h w).
Proof.
  intros Hl Hnd Hsub Hh HQ. unfold p2m_teardown_nestedp2m. change (Z.to_nat MAX_NESTEDP2M) with 10%nat.
  replace (map Some ns) with (left_over 0 ns 0) by (unfold left_over, slots; simpl; by rewrite app_nil_r).
  apply (wp_teardown_nested_from 10 0 ns 0); [lia|done|done|done|].
  rewrite bool_decide_false by (by intros ->). exact HQ.
Qed.

Lemma seqZ_not_head h k m : 0 < k -> h ∉ seqZ (h + k) m.
Proof. intros Hk H. apply elem_of_seqZ in H. lia. Qed.

Lemma not_in_all_res h k m r : 0 < k -> (h, r) ∉ all_res (seqZ (h + k) m).
Proof.
  intros Hk H. apply elem_of_all_res in H as (id & Hid & Hr). apply elem_of_res in Hr. simpl in Hr.
  subst id. by apply (seqZ_not_head h k m Hk).
Qed.

(** The host's resources leave, the others stay. *)
Lemma drop_host h X Y :
  below h X -> (forall r, (h, r) ∉ Y) ->
  (Y ∪ (host_res h ∪ X)) ∖ {[(h, LOG_RANGES)]} ∖ res h = Y ∪ X.
Proof. intros. unfold host_res. rewrite <- (assoc_L (∪) {[_]}). by apply diff_host. Qed.

Lemma gone_host h X Y : below h X -> (forall r, (h, r) ∉ Y) -> gone h (Y ∪ X) = true.
Proof.
  intros Hb HY. unfold gone. rewrite bool_decide_false; [done|].
  intros [H|H]%elem_of_union; [by apply (HY STRUCT)|by apply (below_new h X STRUCT)].
Qed.

(** A failure of the last stage: the host's structure is freed first, and
    unlinking the nested tables then writes to it. *)
Lemma wp_undo_host_first o n X h alts w Q :
  below h X ->
  Q tt (mkMs o n X None (replicate 10 None) alts [] h true) ->
  wp (bind (p2m_teardown_hostp2m ept) (fun _ => p2m_teardown_nestedp2m ept)) Q
     (mkMs o n (all_res (seqZ (h + 1) 10) ∪ (host_res h ∪ X)) (Some h) (map Some (seqZ (h + 1) 10))
        alts (rev (seqZ (h + 1) 10)) h w).
Proof.
  intros Hb HQ. destruct (host_res_sub h X) as [Hs Hl].
  pose proof (fun r => not_in_all_res h 1 10 r ltac:(lia)) as Hn.
  apply wp_bind, wp_teardown_host; [by apply elem_of_union_r|by apply union_subseteq_r'|].
  rewrite drop_host by done.
  apply wp_teardown_nestedp2m; [done|apply NoDup_seqZ| |apply seqZ_not_head; lia|].
  - intros id Hid. apply union_subseteq_l', sub_all_res, Hid.
  - rewrite gone_host by done. rewrite orb_true_r.
    rewrite diff_all_res; [exact HQ|]. intros id r Hid.
    apply (seqZ_fresh (h + 1) 10); [|done]. apply (below_mono h); [lia|done].
Qed.

Lemma blank_none o n X hd w :
  blank (mkMs o n X None (replicate 10 None) (replicate 39 None) [] hd w).
Proof. done. Qed.

Lemma wp_p2m_init s :
  below (next_id s) (owned s) -> blank s -> wp (p2m_init ept) (init_post s) s.
Proof.
  intros Hb Hbl. unfold p2m_init. apply wp_bind, wp_init_host; [done|done| |].
  2: { intros o n Hn. apply wp_ret. right. split_and!; [done|done|apply blank_none|]. simpl.
       rewrite (proj2 (Z.leb_gt _ _)) by lia. by rewrite orb_false_r. }
  intros o. simpl negb. cbv iota. pose proof (below_host _ _ Hb) as Hb1.
  destruct (host_res_sub (next_id s) (owned s)) as [Hs Hl].
  apply wp_bind, wp_init_nestedp2m; [done|apply Hs, res_struct| |].
  2: { intros o' n Hn. apply wp_bind, wp_teardown_host; [done|done|]. apply wp_ret. right.
       pose proof (drop_host (next_id s) (owned s) ∅ Hb ltac:(set_solver)) as E.
       rewrite !(left_id_L ∅ (∪)) in E. rewrite E.
       split_and!; [done|done|apply blank_none|]. simpl.
       rewrite (proj2 (Z.leb_gt _ _)) by lia. by rewrite orb_false_r. }
  intros o'. simpl negb. cbv iota. apply wp_bind, wp_init_altp2m.
  - replace (next_id s + 1 + 10) with (next_id s + 1 + Z.of_nat 10) by lia.
    exact (below_all_res (next_id s + 1) 10 _ Hb1).
  - intros o2. apply wp_bind, wp_ret, wp_ret. left. split; [done|]. exists o2.
    replace (next_id s + 50) with (next_id s + 1 + 10 + 39) by lia.
    replace (next_id s + 11) with (next_id s + 1 + 10) by lia. reflexivity.
  - intros o2 n Hn. apply wp_bind, wp_undo_host_first; [done|]. apply wp_ret. right.
    split_and!; [done|done|apply blank_none|]. simpl.
    rewrite (proj2 (Z.leb_le _ _)) by lia. by rewrite orb_true_r.
Qed.
End Proofs.

(** ** Claims *)

Lemma union_swap3 (A B C : gset (Z * Z)) : A ∪ (B ∪ C) = B ∪ (A ∪ C).
Proof. set_solver. Qed.

(** C26. p2m_init() is all or nothing, whatever allocation fails: it returns 0
    with the host table, the ten nested tables and the 39 views allocated,
    each in its slot and the nested ones linked to the host's structure, or
    it returns -ENOMEM with every resource it took given back and no pointer
    left.  It never dereferences NULL and frees nothing twice, but when it
    fails after the eleventh structure, i.e. among the views, it frees the
    host's structure before it unlinks the nested tables from the list whose
    head lies in that structure, and so writes to freed memory. *)
Theorem p2m_init_all_or_nothing (ept : bool) (s : mstate)
    (Hids : below (next_id s) (owned s)) (Hblank : blank s) :
  exists rc s', p2m_init ept s = Some (rc, s') /\ init_post ept s rc s'.
Proof. by apply wp_run, wp_p2m_init. Qed.

(** The 55th allocation fails: the third resource of the seventh view, after
    the host's four and the nested tables' thirty. *)
Definition demo_ms : mstate :=
  mkMs (replicate 54 true ++ [false]) 1 ∅ None (replicate 10 None) (replicate 39 None) [] 0 false.

Lemma p2m_init_all_or_nothing_witness :
  exists rc s', p2m_init true demo_ms = Some (rc, s') /\ init_post true demo_ms rc s'.
Proof.
  apply (p2m_init_all_or_nothing true demo_ms).
  - intros id r H. exfalso. revert H. apply not_elem_of_empty.
  - repeat split.
Defined.

Example demo_ms_fails :
  match p2m_init true demo_ms with
  | Some (rc, s') => rc = - ENOMEM /\ elements (owned s') = [] /\ wild s' = true
  | None => False
  end.
Proof. vm_compute. done. Qed.

(** What p2m_init() builds, p2m_final_teardown() does not take apart: it
    frees the nested tables and the host table without touching freed memory,
    and leaves the structures and CPU masks of all 39 views allocated and
    their pointers in place. *)
Theorem final_teardown_leaks_views (ept : bool) (s s' : mstate)
    (Hids : below (next_id s) (owned s)) (Hbuilt : built ept s s') :
  exists s'', p2m_final_teardown ept s' = Some (tt, s'') /\
    owned s'' = all_res ept (seqZ (next_id s + 11) 39) ∪ owned s /\
    host_p2m s'' = None /\ nested_p2ms s'' = replicate 10 None /\
    alt_p2ms s'' = map Some (seqZ (next_id s + 11) 39) /\ wild s'' = wild s.
Proof.
  enough (H : wp (p2m_final_teardown ept) (fun _ s'' =>
    owned s'' = all_res ept (seqZ (next_id s + 11) 39) ∪ owned s /\
    host_p2m s'' = None /\ nested_p2ms s'' = replicate 10 None /\
    alt_p2ms s'' = map Some (seqZ (next_id s + 11) 39) /\ wild s'' = wild s) s').
  { apply wp_run in H as ([] & s'' & E & H). eauto. }
  destruct Hbuilt as [o ->]. generalize dependent s. intros s Hids.
  pose proof (fun k m r => not_in_all_res ept (next_id s) k m r) as Hn.
  destruct (host_res_sub ept (next_id s) (owned s)) as [Hs Hl].
  unfold p2m_final_teardown. rewrite (union_swap3 (all_res ept (seqZ (next_id s + 11) 39))).
  apply wp_bind, wp_teardown_nestedp2m; [done|apply NoDup_seqZ| |apply seqZ_not_head; lia|].
  { intros id Hid. apply union_subseteq_l', sub_all_res, Hid. }
  rewrite diff_all_res.
  2: { intros id r Hid Hin. apply elem_of_seqZ in Hid. apply elem_of_union in Hin as [Hin|Hin].
       - apply elem_of_all_res in Hin as (id' & Hid' & Hr). apply elem_of_res in Hr. simpl in Hr.
         apply elem_of_seqZ in Hid'. lia.
       - apply (below_host ept _ _ Hids) in Hin. lia. }
  assert (Hg : forall Y, gone (next_id s) (Y ∪ (all_res ept (seqZ (next_id s + 11) 39) ∪
                 (host_res ept (next_id s) ∪ owned s))) = false).
  { intros Y. unfold gone. rewrite bool_decide_true; [done|]. do 2 apply elem_of_union_r.
    apply Hs, res_struct. }
  rewrite Hg, orb_false_r. apply wp_teardown_host; [by apply elem_of_union_r|by apply union_subseteq_r'|].
  rewrite drop_host by (try done; intros r; apply Hn; lia). done.
Qed.

Lemma final_teardown_leaks_views_witness :
  exists s'', p2m_final_teardown true
    (mkMs [] 51 (all_res true (seqZ 12 39) ∪ (all_res true (seqZ 2 10) ∪ (host_res true 1 ∪ ∅)))
       (Some 1) (map Some (seqZ 2 10)) (map Some (seqZ 12 39)) (rev (seqZ 2 10)) 1 false)
    = Some (tt, s'') /\ owned s'' = all_res true (seqZ 12 39) ∪ ∅ /\ wild s'' = false.
Proof.
  destruct (final_teardown_leaks_views true
    (mkMs [] 1 ∅ None (replicate 10 None) (replicate 39 None) [] 0 false)
    (mkMs [] 51 (all_res true (seqZ 12 39) ∪ (all_res true (seqZ 2 10) ∪ (host_res true 1 ∪ ∅)))
       (Some 1) (map Some (seqZ 2 10)) (map Some (seqZ 12 39)) (rev (seqZ 2 10)) 1 false))
    as (s'' & E & Ho & _ & _ & _ & Hw).
  - intros id r H. exfalso. revert H. apply not_elem_of_empty.
  - exists []. reflexivity.
  - exists s''. exact (conj E (conj Ho Hw)).
Defined.
