(* ===== verification/VmEvent.v ===== *)
(** * VM event rings (xen/common/vm_event.c, xen/common/wait.c,
      xen/arch/x86/vm_event.c, xen/include/public/io/ring.h)

    How Xen sends events of a guest to a helper in another domain: a shared
    page with a ring in which requests and responses share slots.  A slot is
    claimed before a request is put; a guest vCPU that finds no slot sleeps on
    a wait queue, and one that leaves the ring too full is paused until there
    is room again.

    The state is one domain (its altp2m part is Altp2m.v's) with one ring; the
    three rings of a domain differ in their [vm_event_domain] only and are put
    together in MemAccess.v.  Definitions are the bodies of the sections under
    the ring lock or the wait-queue lock.  d->vcpu[] is the list of vCPUs, and
    NULL from there to [max_vcpus].  An access to the shared page when it is
    not mapped is the fatal outcome. *)

From S2P Require Import Prelude Monad P2m Altp2m.

Definition VM_EVENT_INTERFACE_VERSION : Z := 1.
Definition VM_EVENT_FLAG_VCPU_PAUSED : Z := Z.shiftl 1 0.
Definition VM_EVENT_FLAG_FOREIGN : Z := Z.shiftl 1 1.
Definition VM_EVENT_FLAG_EMULATE : Z := Z.shiftl 1 2.
Definition VM_EVENT_FLAG_EMULATE_NOWRITE : Z := Z.shiftl 1 3.
Definition VM_EVENT_FLAG_TOGGLE_SINGLESTEP : Z := Z.shiftl 1 4.
Definition VM_EVENT_FLAG_SET_EMUL_READ_DATA : Z := Z.shiftl 1 5.
Definition VM_EVENT_FLAG_DENY : Z := Z.shiftl 1 6.
Definition VM_EVENT_FLAG_ALTERNATE_P2M : Z := Z.shiftl 1 7.

(** vm_event_request_t and vm_event_response_t; the members of the unions are
    separate fields, as each reason reads only its own. *)
Record vm_event := mkEv {
  version : Z; flags : Z; reason : Z; vcpu_id : Z; altp2m_idx : Z;
  ma_req_gfn : Z; ma_req_offset : Z; ma_req_gla : Z; ma_req_flags : Z;  (* u.mem_access *)
  pg_flags : Z; pg_p2mt : Z;                               (* u.mem_paging.flags, .p2mt *)
  cr_index : Z; cr_new : Z; cr_old : Z;                    (* u.write_ctrlreg *)
  msr_index : Z; msr_value : Z;                            (* u.mov_to_msr *)
  dbg_gfn : Z;                                             (* u.software_breakpoint *)
  ev_data : Z                                              (* data, as one value *)
}.
#[export] Instance eta_vm_event : Eta vm_event := fun x =>
  mkEv (version x) (flags x) (reason x) (vcpu_id x) (altp2m_idx x)
    (ma_req_gfn x) (ma_req_offset x) (ma_req_gla x) (ma_req_flags x) (pg_flags x) (pg_p2mt x)
    (cr_index x) (cr_new x) (cr_old x) (msr_index x) (msr_value x) (dbg_gfn x)
    (ev_data x).
#[export] Instance vm_event_eq_dec : EqDecision vm_event.
Proof. solve_decision. Defined.
Definition no_event : vm_event := mkEv 0 0 0 0 0 0 0 0 0 0 0 0 0 0 0 0 0 0.

(** struct vm_event_sring: the shared page. *)
Record sring := mkSring {
  req_prod : Z; req_event : Z; rsp_prod : Z; rsp_event : Z;
  slots : list vm_event
}.
#[export] Instance eta_sring : Eta sring := fun x =>
  mkSring (req_prod x) (req_event x) (rsp_prod x) (rsp_event x) (slots x).

(** struct vm_event_domain, with the front ring's private part. *)
Record vm_event_domain := mkVed {
  foreign_producers : Z; target_producers : Z;     (* unsigned char *)
  ring_page : option sring;
  req_prod_pvt : Z; rsp_cons : Z; nr_ents : Z;     (* unsigned int *)
  xen_port : Z;
  pause_flag : Z;
  wq : list nat;                                   (* wq.list: vCPUs, first first *)
  blocked : Z; last_vcpu_wake_up : Z               (* unsigned int *)
}.
#[export] Instance eta_ved : Eta vm_event_domain := fun x =>
  mkVed (foreign_producers x) (target_producers x) (ring_page x) (req_prod_pvt x)
    (rsp_cons x) (nr_ents x) (xen_port x) (pause_flag x) (wq x) (blocked x)
    (last_vcpu_wake_up x).

(** struct monitor_write_data: which writes are still to be done. *)
Record write_data := mkWd { do_msr : bool; do_cr0 : bool; do_cr3 : bool; do_cr4 : bool }.
#[export] Instance eta_wd : Eta write_data := fun x =>
  mkWd (do_msr x) (do_cr0 x) (do_cr3 x) (do_cr4 x).

(** The fields of struct vcpu that events use. *)
Record vcpu_ev := mkVe {
  pause_flags : Z;
  vm_event_pause_count : Z;
  emulate_flags : Z; ev_gpa : Z; ev_eip : Z;
  emul_read_data : option Z;
  single_step : bool
}.
#[export] Instance eta_vcpu_ev : Eta vcpu_ev := fun x =>
  mkVe (pause_flags x) (vm_event_pause_count x) (emulate_flags x) (ev_gpa x)
    (ev_eip x) (emul_read_data x) (single_step x).

Record vst (T : Type) := mkVst {
  dm : domain T;
  max_vcpus : Z;
  evs : list vcpu_ev;
  ved : vm_event_domain;
  event_write_data : option (list write_data);
  open_ports : gset Z;                             (* Xen's event channels *)
  notified : Z;                                    (* notifications sent *)
  refcnt : Z                                       (* references to the domain *)
}.
Arguments mkVst {T}. Arguments dm {T}. Arguments max_vcpus {T}. Arguments evs {T}.
Arguments ved {T}. Arguments event_write_data {T}. Arguments open_ports {T}.
Arguments notified {T}. Arguments refcnt {T}.
#[export] Instance eta_vst {T} : Eta (vst T) := fun x =>
  mkVst (dm x) (max_vcpus x) (evs x) (ved x) (event_write_data x) (open_ports x)
    (notified x) (refcnt x).

(** ** public/io/ring.h *)

(** __RD2 to __RD32: round down to a power of two. *)
Definition RD2 (x : Z) : Z := if Z.land x 2 =? 0 then Z.land x 1 else 2.
Definition RD4 (x : Z) : Z := if Z.land x 0xc =? 0 then RD2 x else Z.shiftl (RD2 (Z.shiftr x 2)) 2.
Definition RD8 (x : Z) : Z := if Z.land x 0xf0 =? 0 then RD4 x else Z.shiftl (RD4 (Z.shiftr x 4)) 4.
Definition RD16 (x : Z) : Z :=
  if Z.land x 0xff00 =? 0 then RD8 x else Z.shiftl (RD8 (Z.shiftr x 8)) 8.
Definition RD32 (x : Z) : Z :=
  if Z.land x 0xffff0000 =? 0 then RD16 x else Z.shiftl (RD16 (Z.shiftr x 16)) 16.

(** sizeof(vm_event_request_t): the header with its padding, the largest member
    of the first union (mem_access), and the registers. *)
Definition SIZEOF_VM_EVENT : Z := (4 * 4 + 2 + 3 * 2) + (3 * 8 + 2 * 4) + (31 * 8 + 2 * 4).
(** offsetof(struct vm_event_sring, ring) *)
Definition RING_OFFSET : Z := 4 * 4 + 4 + 44.
(** __RING_SIZE(s, sz) *)
Definition RING_SIZE_OF (sz : Z) : Z := RD32 ((sz - RING_OFFSET) / SIZEOF_VM_EVENT).

Definition FRONT_RING_INIT (p : sring) (sz : Z) (v : vm_event_domain) : vm_event_domain :=
  v <| req_prod_pvt := 0 |> <| rsp_cons := 0 |> <| nr_ents := RING_SIZE_OF sz |>.
Definition RING_FREE_REQUESTS (v : vm_event_domain) : Z :=
  u32 (nr_ents v - u32 (req_prod_pvt v - rsp_cons v)).
Definition RING_HAS_UNCONSUMED_RESPONSES (p : sring) (v : vm_event_domain) : bool :=
  negb (u32 (rsp_prod p - rsp_cons v) =? 0).
(** The index of RING_GET_REQUEST and RING_GET_RESPONSE. *)
Definition ring_slot (v : vm_event_domain) (idx : Z) : nat :=
  Z.to_nat (Z.land idx (nr_ents v - 1)).

Section Ring.
Local Open Scope monad_scope.
Context {T : Type}.
(** [Some k] when [current] is vCPU [k] of the domain, else [None]. *)
Context (cur : option nat).
Local Abbreviation S_ := (vst T).

Definition ved_upd (f : vm_event_domain -> vm_event_domain) : M S_ unit :=
  modify (fun s => s <| ved ::= f |>).
Definition ev_get (k : nat) : M S_ vcpu_ev := deref (fun s => evs s !! k).
Definition ev_upd (k : nat) (f : vcpu_ev -> vcpu_ev) : M S_ unit :=
  modify (fun s => s <| evs ::= alter f k |>).
(** The shared page through front_ring.sring. *)
Definition page_get : M S_ sring := deref (fun s => ring_page (ved s)).
Definition page_upd (f : sring -> sring) : M S_ unit :=
  page_get ;; ved_upd (fun v => v <| ring_page ::= fmap f |>).
(** An operation of Altp2m.v on the domain. *)
Definition on_dom {A} (m : M (domain T) A) : M S_ A := fun s =>
  match m (dm s) with Some (a, d) => Some (a, s <| dm := d |>) | None => None end.

Definition vcpu_pause_nosync (k : nat) : M S_ unit :=
  on_dom (vcpu_upd k (fun v => v <| pause_count ::= Z.add 1 |>)).
Definition vcpu_unpause_ev (k : nat) : M S_ unit := on_dom (vcpu_unpause k).
Definition ev_for_each (body : nat -> M S_ unit) : M S_ unit :=
  let! n := gets (fun s : S_ => length (evs s)) in
  for_each (seq 0 n) body.

(** test_and_clear_bit() and test_and_set_bit() on v->pause_flags. *)
Definition test_and_clear_flag (k : nat) (b : Z) : M S_ bool :=
  let! v := ev_get k in
  ev_upd k (fun v => v <| pause_flags ::= fun f => Z.clearbit f b |>) ;;
  ret (Z.testbit (pause_flags v) b).
Definition test_and_set_flag (k : nat) (b : Z) : M S_ bool :=
  let! v := ev_get k in
  ev_upd k (fun v => v <| pause_flags ::= fun f => Z.setbit f b |>) ;;
  ret (Z.testbit (pause_flags v) b).

(** ** wait.c: the wait queue *)

Definition init_waitqueue_head : M S_ unit := ved_upd (fun v => v <| wq := [] |>).

(** The loop over the first [nr] waiters. *)
Fixpoint wake_first (nr : nat) : M S_ unit :=
  match nr with
  | O => ret tt
  | S nr' =>
      let! q := gets (fun s : S_ => wq (ved s)) in
      match q with
      | [] => ret tt
      | k :: q' =>
          ved_upd (fun v => v <| wq := q' |>) ;;
          vcpu_unpause_ev k ;;
          modify (fun s : S_ => s <| refcnt ::= Z.add (-1) |>) ;;
          wake_first nr'
      end
  end.
(** wake_up_nr(); a queue is not longer than UINT_MAX. *)
Definition wake_up_nr (nr : Z) : M S_ unit :=
  let! q := gets (fun s : S_ => wq (ved s)) in
  wake_first (Nat.min (Z.to_nat nr) (length q)).
Definition wake_up_all : M S_ unit := wake_up_nr (2 ^ 32 - 1).
Definition destroy_waitqueue_head : M S_ unit := wake_up_all.

(** prepare_to_wait() by vCPU [k], but for its stack and its affinity. *)
Definition prepare_to_wait (k : nat) : M S_ unit :=
  let! q := gets (fun s : S_ => wq (ved s)) in
  bug_on (bool_decide (k ∈ q)) ;;
  ved_upd (fun v => v <| wq := q ++ [k] |>) ;;
  vcpu_pause_nosync k ;;
  modify (fun s : S_ => s <| refcnt ::= Z.add 1 |>).
Definition finish_wait (k : nat) : M S_ unit :=
  let! q := gets (fun s : S_ => wq (ved s)) in
  when (bool_decide (k ∈ q))
    (ved_upd (fun v => v <| wq := filter (fun j => j <> k) q |>) ;;
     vcpu_unpause_ev k ;;
     modify (fun s : S_ => s <| refcnt ::= Z.add (-1) |>)).

(** ** vm_event.c: slots *)

Definition vm_event_ring_available : M S_ Z :=
  let! v := gets ved in
  let avail_req := s32 (RING_FREE_REQUESTS v) in
  let avail_req := avail_req - target_producers v in
  let avail_req := avail_req - foreign_producers v in
  bug_on (avail_req <? 0) ;;
  ret avail_req.

(** for_each_vcpu: how many have the ring's flag. *)
Definition flagged (b : Z) (v : vcpu_ev) : bool := Z.testbit (pause_flags v) b.
Definition count_flagged (b : Z) (l : list vcpu_ev) : nat :=
  length (filter (fun v => flagged b v = true) l).

(** The loop of vm_event_wake_blocked() with [n] iterations left. *)
Fixpoint wake_blocked_loop (n : nat) (i online avail_req : Z) : M S_ unit :=
  match n with
  | O => ret tt
  | S n' =>
      let! s := gets (fun s : S_ => s) in
      let k := Z.to_nat (i mod max_vcpus s) in
      match evs s !! k with
      | None => wake_blocked_loop n' (i + 1) online avail_req
      | Some _ =>
          if (blocked (ved s) =? 0) || (avail_req <=? online) then ret tt
          else
            let! was := test_and_clear_flag k (pause_flag (ved s)) in
            if was then
              vcpu_unpause_ev k ;;
              ved_upd (fun v => v <| blocked ::= fun b => u32 (b - 1) |>
                                  <| last_vcpu_wake_up := Z.of_nat k |>) ;;
              wake_blocked_loop n' (i + 1) (online + 1) avail_req
            else wake_blocked_loop n' (i + 1) online avail_req
      end
  end.

Definition vm_event_wake_blocked : M S_ unit :=
  let! avail_req := vm_event_ring_available in
  let! s := gets (fun s : S_ => s) in
  let v := ved s in
  if (avail_req =? 0) || (blocked v =? 0) then ret tt
  else
    let online := max_vcpus s - Z.of_nat (count_flagged (pause_flag v) (evs s)) in
    bug_on (negb (u32 online =? u32 (max_vcpus s - blocked v))) ;;
    wake_blocked_loop (Z.to_nat (max_vcpus s)) (last_vcpu_wake_up v + 1) online avail_req.

Definition vm_event_wake_queued : M S_ unit :=
  let! avail_req := vm_event_ring_available in
  when (0 <? avail_req) (wake_up_nr avail_req).

Definition vm_event_wake : M S_ unit :=
  let! q := gets (fun s : S_ => wq (ved s)) in
  if bool_decide (q <> []) then vm_event_wake_queued else vm_event_wake_blocked.

Definition vm_event_release_slot : M S_ unit :=
  (if bool_decide (cur <> None)
   then ved_upd (fun v => v <| target_producers ::= fun n => u8 (n - 1) |>)
   else ved_upd (fun v => v <| foreign_producers ::= fun n => u8 (n - 1) |>)) ;;
  vm_event_wake.

Definition vm_event_mark_and_pause (k : nat) : M S_ unit :=
  let! v := gets ved in
  let! was := test_and_set_flag k (pause_flag v) in
  when (negb was)
    (vcpu_pause_nosync k ;;
     ved_upd (fun v => v <| blocked ::= fun b => u32 (b + 1) |>)).

(** The part of vm_event_put_request() before the slot is released. *)
Definition put_in_ring (req : vm_event) : M S_ unit :=
  let! v := gets ved in
  bug_on (s32 (RING_FREE_REQUESTS v) <=? 0) ;;
  page_upd (fun p => p <| slots ::= <[ring_slot v (req_prod_pvt v) := req]> |>) ;;
  let prod := u32 (req_prod_pvt v + 1) in
  ved_upd (fun v => v <| req_prod_pvt := prod |>) ;;
  page_upd (fun p => p <| req_prod := prod |>).

(** What vm_event_put_request() writes into the request. *)
Definition stamp (req : vm_event) : vm_event :=
  (if bool_decide (cur = None)
   then req <| flags ::= fun f => Z.lor f VM_EVENT_FLAG_FOREIGN |> else req)
    <| version := VM_EVENT_INTERFACE_VERSION |>.

Definition vm_event_put_request (req : vm_event) : M S_ unit :=
  put_in_ring (stamp req) ;;
  vm_event_release_slot ;;
  let! avail_req := vm_event_ring_available in
  let! m := gets max_vcpus in
  match cur with
  | Some k => when (avail_req <? m) (vm_event_mark_and_pause k)
  | None => ret tt
  end ;;
  modify (fun s : S_ => s <| notified ::= Z.add 1 |>).

(** The response, or [None] for the result 0. *)
Definition vm_event_get_response : M S_ (option vm_event) :=
  let! v := gets ved in
  let! p := page_get in
  if negb (RING_HAS_UNCONSUMED_RESPONSES p v) then ret None
  else
    let! rsp := deref (fun _ : S_ => slots p !! ring_slot v (rsp_cons v)) in
    let cons := u32 (rsp_cons v + 1) in
    ved_upd (fun v => v <| rsp_cons := cons |>) ;;
    page_upd (fun p => p <| rsp_event := u32 (cons + 1) |>) ;;
    vm_event_wake ;;
    ret (Some rsp).

Definition vm_event_cancel_slot : M S_ unit := vm_event_release_slot.

Definition vm_event_grab_slot (foreign : bool) : M S_ Z :=
  let! v := gets ved in
  if bool_decide (ring_page v = None) then ret (- ENOSYS)
  else
    let! avail_req := vm_event_ring_available in
    if avail_req =? 0 then ret (- EBUSY)
    else
      (if negb foreign
       then ved_upd (fun v => v <| target_producers ::= fun n => u8 (n + 1) |>)
       else ved_upd (fun v => v <| foreign_producers ::= fun n => u8 (n + 1) |>)) ;;
      ret 0.

(** vm_event_wait_slot() by vCPU [k], cut where it gives the processor away:
    [wait_slot_begin] runs from the call, [wait_slot_again] from the moment
    the vCPU runs again after being woken; [None] is asleep in wait(). *)
Definition wait_slot_again (k : nat) : M S_ (option Z) :=
  prepare_to_wait k ;;
  let! rc := vm_event_grab_slot false in
  if rc =? - EBUSY then ret None else finish_wait k ;; ret (Some rc).
Definition wait_slot_begin (k : nat) : M S_ (option Z) :=
  let! rc := vm_event_grab_slot false in
  if rc =? - EBUSY then wait_slot_again k else ret (Some rc).

Definition vm_event_check_ring : M S_ bool :=
  gets (fun s : S_ => bool_decide (ring_page (ved s) <> None)).

Definition __vm_event_claim_slot (allow_sleep : bool) : M S_ (option Z) :=
  match cur with
  | Some k =>
      if allow_sleep then wait_slot_begin k
      else let! rc := vm_event_grab_slot false in ret (Some rc)
  | None => let! rc := vm_event_grab_slot true in ret (Some rc)
  end.

(** ** arch/x86/vm_event.c *)

(** [wd_ok] and [rd_ok k] are the outcomes of the allocations. *)
Fixpoint alloc_read_data (ks : list nat) (rd_ok : nat -> bool) : M S_ Z :=
  match ks with
  | [] => ret 0
  | k :: ks' =>
      let! v := ev_get k in
      if bool_decide (emul_read_data v <> None) then alloc_read_data ks' rd_ok
      else if rd_ok k then
        ev_upd k (fun v => v <| emul_read_data := Some 0 |>) ;; alloc_read_data ks' rd_ok
      else ret (- ENOMEM)
  end.
Definition vm_event_init_domain (wd_ok : bool) (rd_ok : nat -> bool) : M S_ Z :=
  let! s := gets (fun s : S_ => s) in
  when (bool_decide (event_write_data s = None) && wd_ok)
    (modify (fun s : S_ => s <| event_write_data :=
       Some (replicate (Z.to_nat (max_vcpus s)) (mkWd false false false false)) |>)) ;;
  let! s := gets (fun s : S_ => s) in
  if bool_decide (event_write_data s = None) then ret (- ENOMEM)
  else alloc_read_data (seq 0 (length (evs s))) rd_ok.

Definition vm_event_cleanup_domain : M S_ unit :=
  modify (fun s : S_ => s <| event_write_data := None |>) ;;
  ev_for_each (fun k => ev_upd k (fun v => v <| emul_read_data := None |>)).

(** ** Setting a ring up and taking it down *)

Definition destroy_ring_for_helper : M S_ unit :=
  ved_upd (fun v => v <| ring_page := None |>).

(** What vm_event_enable() gets from its surroundings: the parameter with the
    ring's frame, the outcomes of the allocations, the page mapped by
    prepare_ring_for_helper() or its error, and the port or error of
    alloc_unbound_xen_event_channel(). *)
Record enable_env := mkEnEnv {
  ring_gfn : Z; wd_ok : bool; rd_ok : nat -> bool;
  helper_page : Z + sring; new_port : Z
}.

(** The result, and vec->port when it is stored. *)
Definition vm_event_enable (env : enable_env) (flag : Z) : M S_ (Z * option Z) :=
  let! v := gets ved in
  if bool_decide (ring_page v <> None) then ret (- EBUSY, None)
  else if ring_gfn env =? 0 then ret (- ENOSYS, None)
  else
    let! rc := vm_event_init_domain (wd_ok env) (rd_ok env) in
    if rc <? 0 then destroy_ring_for_helper ;; ret (rc, None)
    else
      match helper_page env with
      | inl rc => destroy_ring_for_helper ;; ret (rc, None)
      | inr p =>
          ved_upd (fun v => v <| ring_page := Some p |> <| blocked := 0 |>) ;;
          let rc := new_port env in
          if rc <? 0 then destroy_ring_for_helper ;; ret (rc, None)
          else
            modify (fun s : S_ => s <| open_ports ::= union {[rc]} |>) ;;
            ved_upd (fun v => FRONT_RING_INIT p PAGE_SIZE (v <| xen_port := rc |>)
                                <| pause_flag := flag |>) ;;
            init_waitqueue_head ;;
            ret (0, Some rc)
      end.

Definition vm_event_disable : M S_ Z :=
  let! v := gets ved in
  if bool_decide (ring_page v = None) then ret 0
  else if bool_decide (wq v <> []) then ret (- EBUSY)
  else
    modify (fun s : S_ => s <| open_ports ::= fun X => X ∖ {[xen_port v]} |>) ;;
    ev_for_each (fun k =>
      let! was := test_and_clear_flag k (pause_flag v) in
      when was
        (vcpu_unpause_ev k ;; ved_upd (fun v => v <| blocked ::= fun b => u32 (b - 1) |>))) ;;
    destroy_ring_for_helper ;;
    vm_event_cleanup_domain ;;
    ret 0.

(** vm_event_cleanup() on one of the rings. *)
Definition cleanup_ring : M S_ unit :=
  let! v := gets ved in
  when (bool_decide (ring_page v <> None))
    (destroy_waitqueue_head ;; vm_event_disable ;; ret tt).

(** ** Pausing a vCPU for its event *)

Definition vm_event_vcpu_pause (k : nat) : M S_ unit :=
  bug_on (negb (bool_decide (cur = Some k))) ;;
  ev_upd k (fun v => v <| vm_event_pause_count ::= Z.add 1 |>) ;;
  vcpu_pause_nosync k.

Definition vm_event_vcpu_unpause (k : nat) : M S_ unit :=
  let! v := ev_get k in
  let new := vm_event_pause_count v - 1 in
  if new <? 0 then ret tt
  else
    ev_upd k (fun v => v <| vm_event_pause_count := new |>) ;;
    vcpu_unpause_ev k.
End Ring.

#[global] Arguments count_flagged : simpl never.
#[global] Arguments flagged : simpl never.
#[global] Arguments RING_SIZE_OF : simpl never.
#[global] Arguments RING_FREE_REQUESTS : simpl never.
