(* ===== verification/VmEventProofs.v ===== *)
(** * Slots, wake-ups and pauses of a VM event ring (theorems about VmEvent.v)

    [slots_ok]: requests in the ring and claimed slots never exceed the size of
    the ring, and [blocked] counts the vCPUs paused for it.  What each
    operation does is stated as a weakest-precondition rule; VmEventSystem.v
    composes them. *)

From S2P Require Import Prelude Monad P2m Altp2m VmEvent.

(** ** The size of a ring *)

Lemma ring_size_page : RING_SIZE_OF PAGE_SIZE = 8.
Proof. reflexivity. Qed.

Section Slots.
Context {T : Type}.
Local Abbreviation S_ := (vst T).
Implicit Types (s : S_) (v : vm_event_domain).

(** Requests put and not yet answered, and slots that can be claimed. *)
Definition outstanding v : Z := u32 (req_prod_pvt v - rsp_cons v).
Definition avail v : Z := 8 - outstanding v - target_producers v - foreign_producers v.

Definition slots_ok v : Prop :=
  nr_ents v = 8 /\ 0 <= target_producers v /\ 0 <= foreign_producers v /\ 0 <= avail v.

Definition blocked_ok s : Prop :=
  blocked (ved s) = Z.of_nat (count_flagged (pause_flag (ved s)) (evs s)) /\
  Z.of_nat (length (evs s)) <= max_vcpus s < 2 ^ 31 /\ 0 <= last_vcpu_wake_up (ved s).

(** What waking changes in the ring: the queue and the count of the blocked. *)
Definition same_slots v v' : Prop :=
  v' = v <| wq := wq v' |> <| blocked := blocked v' |>
         <| last_vcpu_wake_up := last_vcpu_wake_up v' |>.

Lemma outstanding_range v : 0 <= outstanding v.
Proof. apply u32_range. Qed.

Lemma free_requests v : slots_ok v -> s32 (RING_FREE_REQUESTS v) = 8 - outstanding v.
Proof.
  intros (En & Ht & Hf & Ha). unfold RING_FREE_REQUESTS. fold (outstanding v). rewrite En.
  unfold avail in Ha. pose proof (outstanding_range v).
  rewrite u32_small by lia. apply s32_small. lia.
Qed.

Lemma wp_available s Q : slots_ok (ved s) -> Q (avail (ved s)) s -> wp vm_event_ring_available Q s.
Proof.
  intros Hs HQ. unfold vm_event_ring_available. apply wp_bind, wp_gets. cbv zeta.
  rewrite free_requests by done.
  change (8 - outstanding (ved s) - target_producers (ved s) - foreign_producers (ved s))
    with (avail (ved s)).
  apply wp_bind, wp_bug_on; [apply Z.ltb_ge; apply Hs|]. by apply wp_ret.
Qed.

(** ** Reading and writing one vCPU *)

Lemma wp_ev_get s k e Q : evs s !! k = Some e -> Q e s -> wp (ev_get k) Q s.
Proof. intros. by eapply wp_deref. Qed.

Lemma wp_on_dom {A} (m : M (domain T) A) s Q :
  wp m (fun a d => Q a (s <| dm := d |>)) (dm s) -> wp (on_dom m) Q s.
Proof. unfold wp, on_dom. by destruct (m (dm s)) as [[a d]|]. Qed.

(** Pausing and unpausing change the domain's part only. *)
Lemma wp_pause_nosync s k Q :
  (forall d, Q tt (s <| dm := d |>)) -> wp (vcpu_pause_nosync k) Q s.
Proof. intros HQ. apply wp_on_dom. unfold vcpu_upd. apply wp_modify, HQ. Qed.
Lemma wp_unpause_ev s k Q :
  (forall d, Q tt (s <| dm := d |>)) -> wp (vcpu_unpause_ev k) Q s.
Proof. intros HQ. apply wp_on_dom. unfold vcpu_unpause, vcpu_upd. apply wp_modify, HQ. Qed.

(** ** Counting flags *)

Definition clear_flag (b : Z) (e : vcpu_ev) : vcpu_ev :=
  e <| pause_flags ::= fun f => Z.clearbit f b |>.
Definition set_flag (b : Z) (e : vcpu_ev) : vcpu_ev :=
  e <| pause_flags ::= fun f => Z.setbit f b |>.

Lemma flagged_clear b e : flagged b (clear_flag b e) = false.
Proof. apply Z.clearbit_eq. Qed.
Lemma flagged_set b e : 0 <= b -> flagged b (set_flag b e) = true.
Proof. intros. by apply Z.setbit_eq. Qed.

Lemma count_cons b e l :
  count_flagged b (e :: l) = ((if flagged b e then 1 else 0) + count_flagged b l)%nat.
Proof. unfold count_flagged. rewrite filter_cons. by destruct (flagged b e). Qed.

Lemma count_alter b f : forall l k e, l !! k = Some e ->
  (count_flagged b (alter f k l) + (if flagged b e then 1 else 0) =
   count_flagged b l + (if flagged b (f e) then 1 else 0))%nat.
Proof.
  induction l as [|x l IH]; intros [|k] e Hk; simplify_eq/=.
  - change (alter f 0%nat (e :: l)) with (f e :: l). rewrite !count_cons. lia.
  - change (alter f (S k) (x :: l)) with (x :: alter f k l). rewrite !count_cons.
    specialize (IH k e Hk). lia.
Qed.

Lemma count_alter_same b f l k :
  (forall e, flagged b (f e) = flagged b e) -> count_flagged b (alter f k l) = count_flagged b l.
Proof.
  intros Hf. destruct (l !! k) as [e|] eqn:He.
  - pose proof (count_alter b f l k e He) as Hc. rewrite Hf in Hc. lia.
  - f_equal. apply list_eq. intros j. rewrite lookup_alter_case.
    case_decide; [subst; by rewrite He|done].
Qed.

Lemma count_zero b l : (forall k e, l !! k = Some e -> flagged b e = false) <-> count_flagged b l = 0%nat.
Proof.
  induction l as [|x l IH]; [split; [done|intros _ k e; by rewrite lookup_nil]|].
  rewrite count_cons. split.
  - intros H. rewrite (H 0%nat x) by done. apply IH. intros k e Hk. by apply (H (S k)).
  - intros H [|k] e Hk; simplify_eq/=; [by destruct (flagged b e)|].
    assert (count_flagged b l = 0%nat) as E by lia. by apply (proj2 IH E k).
Qed.

Lemma count_le b l : (count_flagged b l <= length l)%nat.
Proof. unfold count_flagged. apply length_filter. Qed.

Lemma wp_test_and_clear s k b e Q :
  evs s !! k = Some e ->
  Q (flagged b e) (s <| evs ::= alter (clear_flag b) k |>) ->
  wp (test_and_clear_flag k b) Q s.
Proof.
  intros He HQ. unfold test_and_clear_flag. apply wp_bind, (wp_ev_get _ _ _ _ He).
  apply wp_bind, wp_modify. by apply wp_ret.
Qed.
Lemma wp_test_and_set s k b e Q :
  evs s !! k = Some e ->
  Q (flagged b e) (s <| evs ::= alter (set_flag b) k |>) ->
  wp (test_and_set_flag k b) Q s.
Proof.
  intros He HQ. unfold test_and_set_flag. apply wp_bind, (wp_ev_get _ _ _ _ He).
  apply wp_bind, wp_modify. by apply wp_ret.
Qed.

(** ** Waking paused vCPUs *)

(** Some vCPUs lost the ring's flag; nothing else changed but the counts that
    go with it and the pause counts. *)
Definition woken s s' : Prop :=
  (exists d es b l, s' = s <| dm := d |> <| evs := es |>
     <| ved := (ved s) <| blocked := b |> <| last_vcpu_wake_up := l |> |>) /\
  length (evs s') = length (evs s) /\ blocked_ok s' /\
  (forall k e, evs s !! k = Some e -> flagged (pause_flag (ved s)) e = false ->
     exists e', evs s' !! k = Some e' /\ flagged (pause_flag (ved s)) e' = false).

Lemma woken_refl s : blocked_ok s -> woken s s.
Proof.
  intros Hb. split_and!; [|done|done|by eauto].
  exists (dm s), (evs s), (blocked (ved s)), (last_vcpu_wake_up (ved s)).
  by destruct s as [? ? ? [] ? ? ? ?].
Qed.

Lemma woken_trans s1 s2 s3 : woken s1 s2 -> woken s2 s3 -> woken s1 s3.
Proof.
  intros ((d & es & b & l & ->) & L2 & B2 & F2) ((d' & es' & b' & l' & ->) & L3 & B3 & F3).
  split_and!; [by exists d', es', b', l'|by rewrite L3|done|].
  intros k e He Hf. destruct (F2 k e He Hf) as (e2 & He2 & Hf2). exact (F3 k e2 He2 Hf2).
Qed.

(** Clearing the flag of one paused vCPU. *)
Lemma woken_one s k e d :
  blocked_ok s -> evs s !! k = Some e -> flagged (pause_flag (ved s)) e = true ->
  woken s (s <| evs ::= alter (clear_flag (pause_flag (ved s))) k |> <| dm := d |>
             <| ved ::= fun v => v <| blocked ::= fun b => u32 (b - 1) |>
                                   <| last_vcpu_wake_up := Z.of_nat k |> |>) /\
  u32 (blocked (ved s) - 1) = blocked (ved s) - 1.
Proof.
  intros (Hb & Hm & Hl) He Hf. set (F := pause_flag (ved s)) in *.
  pose proof (count_alter F (clear_flag F) _ _ _ He) as Hc.
  rewrite Hf, flagged_clear in Hc. pose proof (count_le F (evs s)) as Hle.
  assert (Hu : u32 (blocked (ved s) - 1) = blocked (ved s) - 1)
    by (rewrite u32_small; [done|]; rewrite Hb; lia).
  split; [|done]. split_and!.
  - eexists d, _, _, _. reflexivity.
  - cbn. by rewrite length_alter.
  - unfold blocked_ok. cbn. rewrite length_alter, Hu, Hb. fold F. lia.
  - intros j e' He' Hf'. cbn. rewrite lookup_alter_case. case_decide as Hd.
    + subst j. rewrite He'. eexists; split; [done|]. apply flagged_clear.
    + by exists e'.
Qed.

Lemma clear_flag_id b e : flagged b e = false -> clear_flag b e = e.
Proof.
  intros Hf. destruct e as [p c ef g ei rd ss]. 
  change (mkVe (Z.clearbit p b) c ef g ei rd ss = mkVe p c ef g ei rd ss). f_equal.
  change (Z.testbit p b = false) in Hf. apply Z.bits_inj'. intros n Hn. unfold Z.clearbit.
  rewrite Z.ldiff_spec, Z.shiftl_spec by done. destruct (decide (n = b)) as [->|Hne].
  - by rewrite Hf.
  - destruct (decide (n < b)) as [Hlt|Hlt].
    + rewrite (Z.testbit_neg_r 1 (n - b)) by lia. by rewrite andb_true_r.
    + rewrite (Z.bits_above_log2 1 (n - b)); [by rewrite andb_true_r|done|simpl; lia].
Qed.

Lemma clear_none s k e b : evs s !! k = Some e -> flagged b e = false ->
  s <| evs ::= alter (clear_flag b) k |> = s.
Proof.
  intros He Hf. destruct s as [d m es v w o n r]. cbn in He. unfold set. cbn. f_equal.
  apply list_eq. intros j. rewrite lookup_alter_case. case_decide as Hd; [|done].
  subst j. rewrite He. cbn. by rewrite clear_flag_id.
Qed.

(** The vCPUs visited by [n] iterations from [i] are not paused for the ring. *)
Definition visited s (F i : Z) (n : nat) : Prop :=
  forall j e, (j < n)%nat -> evs s !! Z.to_nat ((i + Z.of_nat j) mod max_vcpus s) = Some e ->
    flagged F e = false.

Lemma visited_S s F i n :
  (forall e, evs s !! Z.to_nat (i mod max_vcpus s) = Some e -> flagged F e = false) ->
  visited s F (i + 1) n -> visited s F i (S n).
Proof.
  intros H0 HS [|j] e Hj He; [apply H0; by rewrite Z.add_0_r in He|].
  apply (HS j); [lia|]. by replace (i + 1 + Z.of_nat j) with (i + Z.of_nat (S j)) by lia.
Qed.

Definition wake_end s A (F i : Z) (n : nat) : Prop :=
  blocked (ved s) = 0 \/ A <= max_vcpus s - blocked (ved s) \/ visited s F i n.

Lemma wake_end_S s s' A i n :
  woken s s' ->
  (forall e, evs s !! Z.to_nat (i mod max_vcpus s) = Some e ->
     flagged (pause_flag (ved s)) e = false) ->
  wake_end s' A (pause_flag (ved s)) (i + 1) n ->
  wake_end s' A (pause_flag (ved s)) i (S n).
Proof.
  intros ((d & es & b & l & ->) & L & _ & F) H0 [D|[D|D]]; [by left|by right; left|].
  right; right. apply visited_S; [|done]. cbn. intros e He.
  destruct (lookup_lt_is_Some_2 (evs s) (Z.to_nat (i mod max_vcpus s))) as [e0 He0].
  { apply lookup_lt_Some in He. cbn in L. lia. }
  destruct (F _ e0 He0 (H0 e0 He0)) as (e' & He' & Hf'). cbn in He'. by simplify_eq.
Qed.

Lemma wp_wake_blocked_loop A : forall n i s, blocked_ok s -> 0 <= i ->
  wp (wake_blocked_loop n i (max_vcpus s - blocked (ved s)) A)
     (fun _ s' => woken s s' /\ wake_end s' A (pause_flag (ved s)) i n) s.
Proof.
  induction n as [|n IH]; intros i s Hb Hi; simpl.
  { apply wp_ret. split; [by apply woken_refl|]. right; right. intros j e Hj. lia. }
  apply wp_bind, wp_gets. destruct (evs s !! Z.to_nat (i mod max_vcpus s)) as [e|] eqn:He.
  2: { eapply wp_mono; [apply IH; [done|lia]|]. intros _ s' (W & D). split; [done|].
    apply (wake_end_S s); [done| |done]. intros e He'. by rewrite He in He'. }
  destruct ((blocked (ved s) =? 0) || (A <=? max_vcpus s - blocked (ved s))) eqn:Ex.
  { apply wp_ret. split; [by apply woken_refl|].
    apply orb_true_iff in Ex as [Ex|Ex]; zbool; [by left|by right; left]. }
  apply wp_bind, (wp_test_and_clear _ _ _ _ _ He).
  destruct (flagged (pause_flag (ved s)) e) eqn:Hf.
  - apply wp_bind, wp_unpause_ev. intros d. apply wp_bind, wp_modify.
    destruct (woken_one s _ e d Hb He Hf) as (W1 & Hu).
    match type of W1 with woken _ ?x => set (s1 := x) in * end.
    replace (max_vcpus s - blocked (ved s) + 1) with (max_vcpus s1 - blocked (ved s1))
      by (unfold s1; cbn; rewrite Hu; lia).
    eapply wp_mono; [apply IH; [apply W1|lia]|]. intros _ s' (W & D).
    split; [by eapply woken_trans|].
    apply (wake_end_S s1); [done| |done]. unfold s1. cbn. intros e'.
    rewrite list_lookup_alter_eq, He. intros [= <-]. apply flagged_clear.
  - rewrite (clear_none s _ e) by done.
    eapply wp_mono; [apply IH; [done|lia]|]. intros _ s' (W & D). split; [done|].
    apply (wake_end_S s); [done| |done]. intros e' He'. by simplify_eq.
Qed.

(** The vCPUs that may run do not fall short of the free slots while others
    are paused. *)
Definition room_used s : Prop :=
  blocked (ved s) = 0 \/ avail (ved s) <= max_vcpus s - blocked (ved s).

Lemma visited_all s F i n :
  0 <= i -> Z.of_nat (length (evs s)) <= max_vcpus s -> n = Z.to_nat (max_vcpus s) ->
  visited s F i n -> count_flagged F (evs s) = 0%nat.
Proof.
  intros Hi Hm -> Hv. apply count_zero. intros k e Hk.
  pose proof (lookup_lt_Some _ _ _ Hk) as Hlt. set (m := max_vcpus s) in *.
  apply (Hv (Z.to_nat ((Z.of_nat k - i) mod m)) e).
  - pose proof (Z.mod_pos_bound (Z.of_nat k - i) m ltac:(lia)). lia.
  - rewrite Z2Nat.id by (apply Z.mod_pos_bound; lia). fold m.
    rewrite Zplus_mod_idemp_r. replace (i + (Z.of_nat k - i)) with (Z.of_nat k) by lia.
    rewrite Z.mod_small by lia. by rewrite Nat2Z.id.
Qed.

Lemma wp_wake_blocked s Q :
  slots_ok (ved s) -> blocked_ok s ->
  (forall s', woken s s' -> room_used s' -> Q tt s') ->
  wp vm_event_wake_blocked Q s.
Proof.
  intros Hs Hb HQ. pose proof Hb as (Ec & Hm & Hl). unfold vm_event_wake_blocked.
  apply wp_bind, wp_available; [done|]. apply wp_bind, wp_gets. cbv zeta.
  case_if Ex.
  { apply wp_ret, HQ; [by apply woken_refl|]. apply orb_true_iff in Ex as [Ex|Ex]; zbool; [|by left].
    right. rewrite Ex, Ec. pose proof (count_le (pause_flag (ved s)) (evs s)). lia. }
  rewrite <- Ec. apply wp_bind, wp_bug_on; [by rewrite Z.eqb_refl|].
  eapply wp_mono; [apply wp_wake_blocked_loop; [done|lia]|].
  intros [] s' (W & D). apply HQ; [done|]. pose proof W as ((d & es & b & l & ->) & L & B & _).
  destruct D as [D|[D|D]]; [by left|by right|]. left. destruct B as (Ec' & Hm' & _). rewrite Ec'.
  apply visited_all in D; [|lia|apply Hm'|done]. cbn in D |- *. by rewrite D.
Qed.

Lemma wp_wake_first Q : forall n s, (n <= length (wq (ved s)))%nat ->
  (forall d r, Q tt (s <| dm := d |> <| refcnt := r |>
                       <| ved ::= fun v => v <| wq := drop n (wq v) |> |>)) ->
  wp (wake_first n) Q s.
Proof.
  induction n as [|n IH]; intros s Hn HQ; simpl.
  - apply wp_ret. specialize (HQ (dm s) (refcnt s)). by destruct s as [? ? ? [] ? ? ? ?].
  - apply wp_bind, wp_gets. destruct (wq (ved s)) as [|k q] eqn:Eq; [simpl in Hn; lia|].
    apply wp_bind, wp_modify, wp_bind, wp_unpause_ev. intros d. apply wp_bind, wp_modify.
    apply IH; [simpl in *; lia|]. intros d' r'. specialize (HQ d' r').
    destruct s as [? ? ? [] ? ? ? ?]. cbn in Eq. subst. exact HQ.
Qed.

Lemma wp_wake_up_nr s nr Q :
  (forall d r, Q tt (s <| dm := d |> <| refcnt := r |>
                       <| ved ::= fun v => v <| wq := drop (Z.to_nat nr) (wq v) |> |>)) ->
  wp (wake_up_nr nr) Q s.
Proof.
  intros HQ. unfold wake_up_nr. apply wp_bind, wp_gets, wp_wake_first; [lia|].
  intros d r. specialize (HQ d r). destruct s as [? ? ? [fp tp pg rp rc ne xp pf q bl lw] ? ? ? ?]. cbn in *.
  assert (E : drop (Nat.min (Z.to_nat nr) (length q)) q = drop (Z.to_nat nr) q).
  { destruct (decide (Z.to_nat nr <= length q)%nat); [by rewrite Nat.min_l|].
    by rewrite !drop_ge by lia. }
  unfold set in *. cbn in *. by rewrite E.
Qed.

(** vm_event_wake(): as many waiters as there is room for, or else the vCPUs
    paused for the ring. *)
Lemma wp_wake s Q :
  slots_ok (ved s) -> blocked_ok s ->
  (wq (ved s) <> [] -> forall d r, Q tt (s <| dm := d |> <| refcnt := r |>
     <| ved ::= fun v => v <| wq := drop (Z.to_nat (avail (ved s))) (wq v) |> |>)) ->
  (wq (ved s) = [] -> forall s', woken s s' -> room_used s' -> Q tt s') ->
  wp vm_event_wake Q s.
Proof.
  intros Hs Hb Hq Hn. unfold vm_event_wake. apply wp_bind, wp_gets.
  case_bool_decide as Eq.
  - unfold vm_event_wake_queued. apply wp_bind, wp_available; [done|].
    apply wp_when; intros Ea; zbool; [by apply wp_wake_up_nr, Hq|].
    specialize (Hq Eq (dm s) (refcnt s)). replace (avail (ved s)) with 0 in Hq
      by (destruct Hs; lia).
    by destruct s as [? ? ? [] ? ? ? ?].
  - apply wp_wake_blocked; [done..|]. by apply Hn.
Qed.
End Slots.
