(* ===== verification/VmEventSystem.v ===== *)
(** * vCPUs, other domains and the helper on one VM event ring

    [step] is one critical section or one action of the helper.  A guest vCPU
    on its way through vm_event_wait_slot() is at one of the points [pc] where
    no lock is held; between them anything else may happen.  Every reachable
    system satisfies [inv], so no BUG_ON or ASSERT of the ring fails, and no
    wake-up is lost. *)

From S2P Require Import Prelude Monad P2m Altp2m VmEvent VmEventProofs.

(** Where a vCPU stands: not concerned; vm_event_grab_slot() returned -EBUSY;
    prepare_to_wait() done; descheduled by wait(); slot taken or ring gone but
    finish_wait() to come; slot claimed. *)
Inductive pc := Run | Busy | Prep | Asleep | Got | Back | Hold.
#[export] Instance pc_eq_dec : EqDecision pc.
Proof. solve_decision. Defined.

Definition holder (p : pc) : bool := match p with Got | Hold => true | _ => false end.
Definition holders (l : list pc) : nat := length (filter (fun p => holder p = true) l).

(** ** Ring indices are 32-bit counters *)

Lemma idx_succ a b : u32 (a - b) < 8 -> u32 (u32 (a + 1) - b) = u32 (a - b) + 1.
Proof. unfold u32. intros. dlia. Qed.
Lemma idx_pred a b : 0 < u32 (a - b) -> u32 (a - u32 (b + 1)) = u32 (a - b) - 1.
Proof. unfold u32. intros. dlia. Qed.
Lemma u32_left a b : u32 (u32 a - b) = u32 (a - b).
Proof. unfold u32. apply Zminus_mod_idemp_l. Qed.
Lemma u32_sub_self a : u32 (a - a) = 0.
Proof. by rewrite Z.sub_diag. Qed.

Lemma u32_strict a b c : u32 (a - c) <= u32 (b - c) -> u32 (b - a) <> 0 -> u32 (a - c) < u32 (b - c).
Proof. unfold u32. intros. dlia. Qed.

Section System.
Context {T : Type}.
(** The pause flag of the ring. *)
Context (F : Z) (HF : 0 <= F).
Local Abbreviation S_ := (vst T).
Implicit Types (v : S_) (l : list pc) (r : vm_event_domain).

Record sys := mkSys {
  vs : S_;
  pcs : list pc;
  fholds : nat;                    (* slots claimed by other domains *)
  hcons : Z                        (* requests the helper has read *)
}.

(** ** The invariant *)

(** The helper reads requests and answers each once, in order. *)
Record indices r (p : sring) (h : Z) : Prop := mkIdx {
  ix_slots : length (slots p) = 8%nat;
  ix_prod : req_prod p = req_prod_pvt r;
  ix_read : u32 (h - rsp_cons r) <= outstanding r;
  ix_answered : u32 (rsp_prod p - rsp_cons r) <= u32 (h - rsp_cons r)
}.

Definition awake r k (p : pc) : Prop :=
  match p with
  | Run | Back => False
  | Asleep => k ∉ wq r
  | _ => True
  end.

(** Something is under way that will wake others when it ends. *)
Definition under_way r l (fh : nat) : Prop :=
  0 < outstanding r \/ (0 < fh)%nat \/ exists k p, l !! k = Some p /\ awake r k p.

Definition live v l (fh : nat) : Prop :=
  (room_used v \/ under_way (ved v) l fh) /\
  (forall k, l !! k = Some Asleep -> k ∈ wq (ved v) -> under_way (ved v) l fh).

Record enabled v l (fh : nat) (h : Z) (p : sring) : Prop := mkOn {
  on_slots : slots_ok (ved v);
  on_flag : pause_flag (ved v) = F;
  on_blocked : blocked_ok v;
  on_idx : indices (ved v) p h;
  on_queue : forall k, k ∈ wq (ved v) -> l !! k <> Some Back;
  on_live : live v l fh
}.

Record inv (s : sys) : Prop := mkInv {
  i_len : length (pcs s) = length (evs (vs s));
  i_max : Z.of_nat (length (evs (vs s))) <= max_vcpus (vs s) < 2 ^ 31;
  i_last : 0 <= last_vcpu_wake_up (ved (vs s));
  i_nodup : NoDup (wq (ved (vs s)));
  i_queue : forall k, k ∈ wq (ved (vs s)) ->
    exists p, pcs s !! k = Some p /\ (p = Prep \/ p = Asleep \/ p = Got \/ p = Back);
  i_target : target_producers (ved (vs s)) = Z.of_nat (holders (pcs s));
  i_foreign : foreign_producers (ved (vs s)) = Z.of_nat (fholds s);
  i_on : forall p, ring_page (ved (vs s)) = Some p -> enabled (vs s) (pcs s) (fholds s) (hcons s) p;
  i_off : ring_page (ved (vs s)) = None ->
    count_flagged F (evs (vs s)) = 0%nat /\ holders (pcs s) = 0%nat /\ fholds s = 0%nat
}.

(** ** The steps *)

Definition run {A} (m : M S_ A) (s : sys) (k : A -> S_ -> sys) : option sys :=
  match m (vs s) with Some (a, v') => Some (k a v') | None => None end.

Definition at_pc (s : sys) (k : nat) (p : pc) (v' : S_) : sys :=
  mkSys v' (<[k := p]> (pcs s)) (fholds s) (hcons s).

Definition after_grab (rc : Z) (got busy gone : pc) : pc :=
  if rc =? 0 then got else if rc =? - EBUSY then busy else gone.

(** The helper writes a response into the next slot. *)
Definition answer (rsp : vm_event) (r : vm_event_domain) : vm_event_domain :=
  r <| ring_page ::= fmap (fun p => p
         <| slots ::= <[ring_slot r (rsp_prod p) := rsp]> |>
         <| rsp_prod ::= fun n => u32 (n + 1) |>) |>.

(** A page as the helper prepares it. *)
Definition clear_page (p : sring) : Prop :=
  length (slots p) = 8%nat /\ req_prod p = 0 /\ rsp_prod p = 0.

Inductive step (s : sys) : option sys -> Prop :=
  | step_claim k : pcs s !! k = Some Run ->
      step s (run (vm_event_grab_slot false) s
                (fun rc => at_pc s k (after_grab rc Hold Busy Run)))
  | step_claim_nosleep k : pcs s !! k = Some Run ->
      step s (run (vm_event_grab_slot false) s
                (fun rc => at_pc s k (after_grab rc Hold Run Run)))
  | step_prepare k :
      pcs s !! k = Some Busy \/ (pcs s !! k = Some Asleep /\ k ∉ wq (ved (vs s))) ->
      step s (run (prepare_to_wait k) s (fun _ => at_pc s k Prep))
  | step_again k : pcs s !! k = Some Prep ->
      step s (run (vm_event_grab_slot false) s
                (fun rc => at_pc s k (after_grab rc Got Asleep Back)))
  | step_finish k p : pcs s !! k = Some p -> p = Got \/ p = Back ->
      step s (run (finish_wait k) s
                (fun _ => at_pc s k (if bool_decide (p = Got) then Hold else Run)))
  | step_put k req : pcs s !! k = Some Hold ->
      step s (run (vm_event_put_request (Some k) req) s (fun _ => at_pc s k Run))
  | step_cancel k : pcs s !! k = Some Hold ->
      step s (run (vm_event_cancel_slot (Some k)) s (fun _ => at_pc s k Run))
  | step_foreign_claim :
      step s (run (vm_event_grab_slot true) s (fun rc v' =>
                mkSys v' (pcs s) (if rc =? 0 then S (fholds s) else fholds s) (hcons s)))
  | step_foreign_put req : (0 < fholds s)%nat ->
      step s (run (vm_event_put_request None req) s (fun _ v' =>
                mkSys v' (pcs s) (pred (fholds s)) (hcons s)))
  | step_foreign_cancel : (0 < fholds s)%nat ->
      step s (run (vm_event_cancel_slot None) s (fun _ v' =>
                mkSys v' (pcs s) (pred (fholds s)) (hcons s)))
  | step_read p : ring_page (ved (vs s)) = Some p -> u32 (req_prod p - hcons s) <> 0 ->
      step s (Some (mkSys (vs s) (pcs s) (fholds s) (u32 (hcons s + 1))))
  | step_answer p rsp : ring_page (ved (vs s)) = Some p -> u32 (hcons s - rsp_prod p) <> 0 ->
      step s (Some (mkSys ((vs s) <| ved ::= answer rsp |>) (pcs s) (fholds s) (hcons s)))
  | step_response : ring_page (ved (vs s)) <> None ->
      step s (run vm_event_get_response s (fun _ v' =>
                mkSys v' (pcs s) (fholds s) (hcons s)))
  | step_disable : holders (pcs s) = 0%nat -> fholds s = 0%nat ->
      step s (run vm_event_disable s (fun _ v' => mkSys v' (pcs s) (fholds s) (hcons s)))
  | step_enable env : wq (ved (vs s)) = [] ->
      match helper_page env with inl rc => rc < 0 | inr p => clear_page p end ->
      step s (run (vm_event_enable env F) s (fun res v' =>
                mkSys v' (pcs s) (fholds s) (if res.1 =? 0 then 0 else hcons s))).

Inductive reachable (s0 : sys) : sys -> Prop :=
  | reach_here : reachable s0 s0
  | reach_step s s' : reachable s0 s -> step s (Some s') -> reachable s0 s'.

(** A domain whose ring was never set up. *)
Record fresh_sys (s : sys) : Prop := mkFresh {
  fs_len : length (pcs s) = length (evs (vs s));
  fs_max : Z.of_nat (length (evs (vs s))) <= max_vcpus (vs s) < 2 ^ 31;
  fs_run : forall k p, pcs s !! k = Some p -> p = Run;
  fs_ved : exists n, ved (vs s) = mkVed 0 0 None 0 0 n 0 0 [] 0 0;
  fs_flags : forall k e, evs (vs s) !! k = Some e -> pause_flags e = 0;
  fs_holds : fholds s = 0%nat
}.

(** ** Lists of program points *)

Lemma holders_insert l k p q : l !! k = Some p ->
  Z.of_nat (holders (<[k := q]> l)) =
  Z.of_nat (holders l) + (if holder q then 1 else 0) - (if holder p then 1 else 0).
Proof.
  revert k. unfold holders. induction l as [|x l IH]; intros [|k] Hk; simplify_eq/=.
  - rewrite !filter_cons. destruct (holder p), (holder q); simpl; lia.
  - specialize (IH k Hk). rewrite !filter_cons. destruct (holder x); simpl in *; lia.
Qed.

Lemma holders_pos l : (0 < holders l)%nat -> exists k p, l !! k = Some p /\ holder p = true.
Proof.
  unfold holders. intros H. destruct (filter (fun p => holder p = true) l) as [|p q] eqn:E; [simpl in H; lia|].
  assert (Hp : p ∈ filter (fun p => holder p = true) l) by (rewrite E; left).
  apply list_elem_of_filter in Hp as [Hh Hp]. apply list_elem_of_lookup in Hp as [k Hk]. by exists k, p.
Qed.

(** A vCPU that is awake keeps things going. *)
Lemma live_at v l fh k p : l !! k = Some p -> awake (ved v) k p -> live v l fh.
Proof.
  intros Hk Ha. assert (under_way (ved v) l fh) by (right; right; by exists k, p).
  split; [by right|done].
Qed.
Lemma live_out v l fh : 0 < outstanding (ved v) -> live v l fh.
Proof. intros H. assert (under_way (ved v) l fh) by (by left). split; [by right|done]. Qed.
Lemma live_foreign v l fh : (0 < fh)%nat -> live v l fh.
Proof. intros H. assert (under_way (ved v) l fh) by (by right; left). split; [by right|done]. Qed.

(** A system in which one vCPU moves and a few fields of the ring change. *)
Lemma lookup_at l k p j : <[k := p]> l !! j = Some p \/ <[k := p]> l !! j = l !! j.
Proof.
  destruct (decide (k = j)) as [->|]; [|right; by apply list_lookup_insert_ne].
  destruct (decide (j < length l)%nat); [left; by apply list_lookup_insert_eq|].
  right. by rewrite list_insert_ge by lia.
Qed.

Lemma run_inv {A} (m : M S_ A) s (k : A -> S_ -> sys) :
  wp m (fun a v' => inv (k a v')) (vs s) -> exists s', run m s k = Some s' /\ inv s'.
Proof.
  unfold wp, run. destruct (m (vs s)) as [[a v']|]; [|done]. intros H. by exists (k a v').
Qed.

(** ** Claiming *)

Lemma wp_grab (s : sys) (foreign : bool) (Q : Z -> S_ -> Prop) :
  inv s ->
  (ring_page (ved (vs s)) = None -> Q (- ENOSYS) (vs s)) ->
  (forall p, ring_page (ved (vs s)) = Some p -> avail (ved (vs s)) = 0 -> Q (- EBUSY) (vs s)) ->
  (forall p, ring_page (ved (vs s)) = Some p -> 0 < avail (ved (vs s)) ->
     Q 0 ((vs s) <| ved ::= fun r =>
       if foreign then r <| foreign_producers ::= Z.add 1 |>
       else r <| target_producers ::= Z.add 1 |> |>)) ->
  wp (vm_event_grab_slot foreign) Q (vs s).
Proof.
  intros I Hoff Hfull Hok. unfold vm_event_grab_slot. apply wp_bind, wp_gets.
  case_bool_decide as Ep; [by apply wp_ret, Hoff|].
  destruct (ring_page (ved (vs s))) as [p|] eqn:Hp; [|done].
  pose proof (on_slots _ _ _ _ _ (i_on s I p Hp)) as Hs.
  apply wp_bind, wp_available; [done|]. case_if Ea; zbool; [by apply wp_ret, (Hfull p)|].
  destruct Hs as (En & Ht & Hf & Ha). specialize (Hok p eq_refl ltac:(lia)).
  assert (Hu : forall n, 0 <= n -> n <= 8 -> u8 (n + 1) = 1 + n)
    by (intros; unfold u8; rewrite Z.mod_small; lia).
  pose proof (outstanding_range (ved (vs s))). unfold avail in *.
  destruct foreign; simpl negb; cbv iota; apply wp_bind, wp_modify, wp_ret;
    destruct (vs s) as [? ? ? [] ? ? ? ?]; unfold set in *; cbn in *; by rewrite Hu by lia.
Qed.

(** One vCPU moves; the queue and the slots claimed by vCPUs may change. *)
Definition queueing (p : pc) : bool :=
  match p with Prep | Asleep | Got | Back => true | _ => false end.

Definition moved (v : S_) d rc q t : S_ :=
  v <| dm := d |> <| refcnt := rc |>
    <| ved ::= fun r => r <| wq := q |> <| target_producers := t |> |>.

Lemma inv_move s k p0 p1 d rc q t :
  inv s -> pcs s !! k = Some p0 ->
  t = target_producers (ved (vs s)) + (if holder p1 then 1 else 0) - (if holder p0 then 1 else 0) ->
  NoDup q ->
  (forall j, j ∈ q -> exists p, <[k := p1]> (pcs s) !! j = Some p /\ queueing p = true /\
     (ring_page (ved (vs s)) <> None -> p <> Back)) ->
  (ring_page (ved (vs s)) <> None ->
     0 <= avail (ved (vs s)) + target_producers (ved (vs s)) - t /\
     live (moved (vs s) d rc q t) (<[k := p1]> (pcs s)) (fholds s)) ->
  (ring_page (ved (vs s)) = None -> holder p1 = false) ->
  inv (at_pc s k p1 (moved (vs s) d rc q t)).
Proof.
  intros I Hk Ht Hq Hm Hon Hoff. pose proof (holders_insert _ _ _ p1 Hk) as Hh.
  pose proof (i_target s I) as Et.
  split; unfold at_pc, moved; cbn [vs pcs fholds hcons].
  - rewrite length_insert. apply I.
  - apply I.
  - apply I.
  - done.
  - intros j Hj. destruct (Hm j Hj) as (p & Hp & Hqp & _). exists p. split; [done|].
    destruct p; try done; auto.
  - cbn. lia.
  - apply I.
  - intros p Hp. change (ring_page (ved (vs s)) = Some p) in Hp.
    assert (Hne : ring_page (ved (vs s)) <> None) by congruence.
    destruct (i_on s I p Hp) as [(En & Ht0 & Hf0 & Ha) Of Ob Oi Oq _].
    destruct (Hon Hne) as (Hav & Hl). split; [|exact Of|exact Ob|by destruct Oi| |exact Hl].
    + unfold slots_ok, avail, outstanding in *. cbn. lia.
    + intros j Hj Hb. destruct (Hm j Hj) as (p' & Hp' & _ & Hnb).
      apply (Hnb Hne). cbn in Hb. congruence.
  - intros Hp. change (ring_page (ved (vs s)) = None) in Hp.
    destruct (i_off s I Hp) as (Hc & Hz & Hf). specialize (Hoff Hp). split_and!; [done| |done].
    rewrite Hoff in Hh. destruct (holder p0); lia.
Qed.

(** The queue and the pc of others are as they were. *)
Lemma inv_pc s k p0 p1 d rc t :
  inv s -> pcs s !! k = Some p0 ->
  t = target_producers (ved (vs s)) + (if holder p1 then 1 else 0) - (if holder p0 then 1 else 0) ->
  (k ∈ wq (ved (vs s)) -> queueing p1 = true /\ (p1 = Back -> ring_page (ved (vs s)) = None)) ->
  (ring_page (ved (vs s)) <> None ->
     0 <= avail (ved (vs s)) + target_producers (ved (vs s)) - t /\
     live (moved (vs s) d rc (wq (ved (vs s))) t) (<[k := p1]> (pcs s)) (fholds s)) ->
  (ring_page (ved (vs s)) = None -> holder p1 = false) ->
  inv (at_pc s k p1 (moved (vs s) d rc (wq (ved (vs s))) t)).
Proof.
  intros I Hk Ht Hq Hon Hoff. apply (inv_move s k p0); try done; [apply I|].
  intros j Hj. destruct (decide (j = k)) as [->|Hne].
  - rewrite list_lookup_insert_eq by (by eapply lookup_lt_Some). destruct (Hq Hj) as [Hqp Hb].
    exists p1. split_and!; [done..|]. intros Hn E. by apply Hn, Hb.
  - rewrite list_lookup_insert_ne by done. destruct (i_queue s I j Hj) as (p & Hp & Hc).
    exists p. split_and!; [done|destruct Hc as [-> |[-> |[-> | ->]]]; done|].
    intros Hn E. destruct (ring_page (ved (vs s))) as [pg|] eqn:Hpg; [|done].
    apply (on_queue _ _ _ _ _ (i_on s I pg Hpg) j Hj). congruence.
Qed.

Lemma moved_same (v : S_) : moved v (dm v) (refcnt v) (wq (ved v)) (target_producers (ved v)) = v.
Proof. by destruct v as [? ? ? [] ? ? ? ?]. Qed.

Lemma moved_claim (v : S_) :
  moved v (dm v) (refcnt v) (wq (ved v)) (1 + target_producers (ved v)) =
  v <| ved ::= fun r => r <| target_producers ::= Z.add 1 |> |>.
Proof. by destruct v as [? ? ? [] ? ? ? ?]. Qed.

(** When no slot is left, those who have them are under way. *)
Lemma live_full v l fh :
  avail (ved v) = 0 -> target_producers (ved v) = Z.of_nat (holders l) ->
  foreign_producers (ved v) = Z.of_nat fh -> live v l fh.
Proof.
  unfold avail. intros Ha Ht Hf. pose proof (outstanding_range (ved v)).
  destruct (decide (0 < outstanding (ved v))); [by apply live_out|].
  destruct (decide (0 < fh)%nat); [by apply live_foreign|].
  destruct (holders_pos l) as (k & p & Hk & Hp); [lia|].
  apply (live_at v l fh k p); [done|]. by destruct p.
Qed.

(** vm_event_grab_slot() by vCPU [k] at point [p0], which is not a holder. *)
Lemma inv_grab s k p0 got busy gone :
  inv s -> pcs s !! k = Some p0 -> holder p0 = false ->
  (k ∈ wq (ved (vs s)) -> queueing got = true /\ queueing busy = true /\ queueing gone = true) ->
  got = Hold \/ got = Got -> holder busy = false -> holder gone = false ->
  busy <> Back ->
  wp (vm_event_grab_slot false)
     (fun rc v' => inv (at_pc s k (after_grab rc got busy gone) v')) (vs s).
Proof.
  intros I Hk H0 Hq Hgot Hb Hg Hnb. apply wp_grab; [done|..].
  - intros Hp. change (after_grab (- ENOSYS) got busy gone) with gone.
    rewrite <- (moved_same (vs s)). apply (inv_pc s k p0); [done..| | | |done].
    + rewrite H0, Hg. lia.
    + intros Hw. by destruct (Hq Hw) as (_ & _ & ?).
    + by rewrite Hp.
  - intros p Hp Ha. change (after_grab (- EBUSY) got busy gone) with busy.
    rewrite <- (moved_same (vs s)). apply (inv_pc s k p0); [done..| | |  |].
    + rewrite H0, Hb. lia.
    + intros Hw. by destruct (Hq Hw) as (_ & ? & _).
    + intros _. rewrite moved_same. split; [lia|]. apply live_full; [done| |apply I].
      rewrite (holders_insert _ _ _ busy Hk), H0, Hb, (i_target s I). lia.
    + congruence.
  - intros p Hp Ha. change (after_grab 0 got busy gone) with got.
    rewrite <- moved_claim. apply (inv_pc s k p0); [done..| | | |].
    + destruct Hgot as [-> | ->]; rewrite H0; simpl; lia.
    + intros Hw. destruct (Hq Hw) as (? & _). split; [done|]. by destruct Hgot as [-> | ->].
    + intros _. split; [lia|]. apply (live_at _ _ _ k got).
      * apply list_lookup_insert_eq. by eapply lookup_lt_Some.
      * by destruct Hgot as [-> | ->].
    + congruence.
Qed.

(** ** The wait queue *)

Lemma when_on s : inv s -> ring_page (ved (vs s)) <> None ->
  exists p, ring_page (ved (vs s)) = Some p /\ enabled (vs s) (pcs s) (fholds s) (hcons s) p.
Proof.
  intros I Hn. destruct (ring_page (ved (vs s))) as [p|] eqn:Hp; [|done].
  exists p. split; [done|by apply I].
Qed.

Lemma avail_on s : inv s -> ring_page (ved (vs s)) <> None -> 0 <= avail (ved (vs s)).
Proof. intros I (p & _ & O)%when_on; [apply O|done]. Qed.

Lemma not_queued s k p : inv s -> pcs s !! k = Some p -> queueing p = false -> k ∉ wq (ved (vs s)).
Proof.
  intros I Hk Hq Hin. destruct (i_queue s I k Hin) as (p' & Hp & Hc). simplify_eq.
  destruct Hc as [-> |[-> |[-> | ->]]]; done.
Qed.

Lemma not_back s k : inv s -> ring_page (ved (vs s)) <> None -> k ∈ wq (ved (vs s)) ->
  pcs s !! k <> Some Back.
Proof.
  intros I Hn Hin. destruct (ring_page (ved (vs s))) as [pg|] eqn:Hpg; [|done].
  by apply (on_queue _ _ _ _ _ (i_on s I pg Hpg)).
Qed.

Lemma queue_others s k j p1 : inv s -> j ∈ wq (ved (vs s)) -> j <> k ->
  exists p, <[k := p1]> (pcs s) !! j = Some p /\ queueing p = true /\
    (ring_page (ved (vs s)) <> None -> p <> Back).
Proof.
  intros I Hj Hne. rewrite list_lookup_insert_ne by done.
  destruct (i_queue s I j Hj) as (p & Hp & Hc). exists p.
  split_and!; [done|destruct Hc as [-> |[-> |[-> | ->]]]; done|].
  intros Hn ->. by apply (not_back s j I Hn Hj).
Qed.

Lemma inv_prepare s k :
  inv s -> pcs s !! k = Some Busy \/ (pcs s !! k = Some Asleep /\ k ∉ wq (ved (vs s))) ->
  wp (prepare_to_wait k) (fun _ v' => inv (at_pc s k Prep v')) (vs s).
Proof.
  intros I Hp. assert (Hn : k ∉ wq (ved (vs s))).
  { destruct Hp as [Hp|[_ Hp]]; [by apply (not_queued s k Busy)|done]. }
  assert (exists p0, pcs s !! k = Some p0 /\ holder p0 = false) as (p0 & Hk & H0)
    by (destruct Hp as [Hp|[Hp _]]; by eauto).
  unfold prepare_to_wait. apply wp_bind, wp_gets. apply wp_bind, wp_bug_on.
  { by apply bool_decide_eq_false_2. }
  apply wp_bind, wp_modify, wp_bind, wp_pause_nosync. intros d. apply wp_modify.
  pose proof (inv_move s k p0 Prep d (1 + refcnt (vs s)) (wq (ved (vs s)) ++ [k])
    (target_producers (ved (vs s)))) as IM.
  destruct s as [[? ? ? [] ? ? ? ?] l fh h]. apply IM; [done..| | | | |done].
  - rewrite H0. cbn. lia.
  - apply NoDup_app. split_and!; [apply I| |apply NoDup_singleton].
    intros j Hj ->%list_elem_of_singleton. done.
  - intros j [Hj|Hj]%elem_of_app.
    + apply (queue_others _ k j Prep I Hj). intros ->. done.
    + apply list_elem_of_singleton in Hj as ->. exists Prep.
      rewrite list_lookup_insert_eq by (by eapply lookup_lt_Some). done.
  - intros Hon. pose proof (avail_on _ I Hon) as Ha. split; [cbn in *; lia|].
    apply (live_at _ _ _ k Prep); [|done]. apply list_lookup_insert_eq. by eapply lookup_lt_Some.
Qed.

(** Leaving the queue. *)
Lemma filter_absent (k : nat) (q : list nat) : k ∉ q -> filter (fun j => j <> k) q = q.
Proof.
  induction q as [|j q IH]; intros Hn; [done|]. apply not_elem_of_cons in Hn as [Hj Hq].
  rewrite filter_cons_True by done. by rewrite IH.
Qed.
Lemma under_way_run r l fh k :
  l !! k = Some Back -> under_way r l fh -> under_way r (<[k := Run]> l) fh.
Proof.
  intros Hk [H|[H|(j & p & Hj & Ha)]]; [by left|by right; left|]. right; right. exists j, p.
  split; [|done]. rewrite list_lookup_insert_ne; [done|]. intros ->. by simplify_eq.
Qed.
Lemma live_run v l fh k : l !! k = Some Back -> live v l fh -> live v (<[k := Run]> l) fh.
Proof.
  intros Hk (L1 & L2). split.
  - destruct L1 as [L1|L1]; [by left|right; by apply under_way_run].
  - intros j Hj Hw. apply under_way_run; [done|]. apply (L2 j); [|done].
    destruct (decide (j = k)) as [->|Hne]; [|by rewrite list_lookup_insert_ne in Hj].
    rewrite list_lookup_insert_eq in Hj by (by eapply lookup_lt_Some). done.
Qed.

Lemma inv_leave s k p d rc q :
  inv s -> pcs s !! k = Some p -> p = Got \/ p = Back ->
  q = filter (fun j => j <> k) (wq (ved (vs s))) ->
  inv (at_pc s k (if bool_decide (p = Got) then Hold else Run)
         (moved (vs s) d rc q (target_producers (ved (vs s))))).
Proof.
  intros I Hk Hp ->. apply (inv_move s k p); [done..| | | | |].
  - destruct Hp as [-> | ->]; simpl; lia.
  - apply NoDup_filter, I.
  - intros j [Hne Hj]%list_elem_of_filter. by apply queue_others.
  - intros Hon. pose proof (avail_on _ I Hon) as Ha. split; [lia|]. destruct Hp as [-> | ->]; simpl.
    + apply (live_at _ _ _ k Hold); [|done]. apply list_lookup_insert_eq. by eapply lookup_lt_Some.
    + destruct (when_on s I Hon) as (pg & Hpg & O).
      assert (E : filter (fun j => j <> k) (wq (ved (vs s))) = wq (ved (vs s))).
      { apply filter_absent. intros Hj. by apply (not_back s k I Hon Hj). }
      rewrite E. apply live_run; [done|]. apply O.
  - intros Hoff. destruct (i_off s I Hoff) as (_ & Hz & _).
    destruct Hp as [-> | ->]; [|done]. exfalso.
    pose proof (holders_insert _ _ _ Run Hk) as Hh. simpl in Hh. lia.
Qed.

Lemma inv_finish s k p :
  inv s -> pcs s !! k = Some p -> p = Got \/ p = Back ->
  wp (finish_wait k)
     (fun _ v' => inv (at_pc s k (if bool_decide (p = Got) then Hold else Run) v')) (vs s).
Proof.
  intros I Hk Hp. unfold finish_wait. apply wp_bind, wp_gets. apply wp_when; intros Hin.
  - apply wp_bind, wp_modify, wp_bind, wp_unpause_ev. intros d. apply wp_modify.
    pose proof (inv_leave s k p d (-1 + refcnt (vs s)) _ I Hk Hp eq_refl) as IL.
    destruct s as [[? ? ? [] ? ? ? ?] l fh h]. exact IL.
  - apply bool_decide_eq_false_1 in Hin. rewrite <- (moved_same (vs s)).
    apply inv_leave; [done..|]. by rewrite filter_absent.
Qed.

(** ** Giving slots back *)

(** The invariant of a ring in use, but for what waking up guarantees. *)
Record core (s : sys) (p : sring) : Prop := mkCore {
  c_page : ring_page (ved (vs s)) = Some p;
  c_len : length (pcs s) = length (evs (vs s));
  c_nodup : NoDup (wq (ved (vs s)));
  c_queue : forall k, k ∈ wq (ved (vs s)) ->
    exists q, pcs s !! k = Some q /\ (q = Prep \/ q = Asleep \/ q = Got);
  c_target : target_producers (ved (vs s)) = Z.of_nat (holders (pcs s));
  c_foreign : foreign_producers (ved (vs s)) = Z.of_nat (fholds s);
  c_avail : 0 <= avail (ved (vs s));
  c_ents : nr_ents (ved (vs s)) = 8;
  c_flag : pause_flag (ved (vs s)) = F;
  c_blocked : blocked_ok (vs s);
  c_idx : indices (ved (vs s)) p (hcons s)
}.

Lemma core_slots s p : core s p -> slots_ok (ved (vs s)).
Proof. intros C. split_and!; [apply C|rewrite (c_target s p C); lia|rewrite (c_foreign s p C); lia|apply C]. Qed.

Lemma inv_core s p : inv s -> ring_page (ved (vs s)) = Some p ->
  core s p /\ live (vs s) (pcs s) (fholds s).
Proof.
  intros I Hp. destruct (i_on s I p Hp) as [(En & Ht & Hf & Ha) Of Ob Oi Oq Ol]. split; [|done].
  split; try done; try apply I. intros k Hk. destruct (i_queue s I k Hk) as (q & Hq & Hc).
  exists q. split; [done|]. destruct Hc as [Hc|[Hc|[Hc| ->]]]; auto. by destruct (Oq k Hk).
Qed.

Lemma core_inv s p : core s p -> live (vs s) (pcs s) (fholds s) -> inv s.
Proof.
  intros C L. pose proof (core_slots s p C) as Hs. destruct C as [Cp Cl Cn Cq Ct Cf Ca Ce Cg Cb Ci].
  split; try done; [apply Cb|apply Cb| | |by rewrite Cp].
  - intros k Hk. destruct (Cq k Hk) as (q & Hq & Hc). exists q. split; [done|].
    destruct Hc as [Hc|[Hc|Hc]]; auto.
  - intros p' Hp'. simplify_eq. split; try done. intros k Hk. destruct (Cq k Hk) as (q & Hq & Hc).
    rewrite Hq. intros [= ->]. destruct Hc as [Hc|[Hc|Hc]]; done.
Qed.

(** Waking waiters shortens the queue. *)
Lemma core_dequeue s p d rc n :
  core s p ->
  core (mkSys ((vs s) <| dm := d |> <| refcnt := rc |>
                <| ved ::= fun r => r <| wq := drop n (wq r) |> |>) (pcs s) (fholds s) (hcons s)) p.
Proof.
  intros [Cp Cl Cn Cq Ct Cf Ca Ce Cg Cb Ci]. split; try done.
  - cbn. rewrite <- (take_drop n (wq (ved (vs s)))) in Cn. by apply NoDup_app in Cn as (_ & _ & ?).
  - cbn. intros k Hk. apply Cq. rewrite <- (take_drop n (wq (ved (vs s)))). apply elem_of_app. by right.
  - by destruct Ci.
Qed.

Lemma core_woken s p v' : core s p -> woken (vs s) v' -> core (mkSys v' (pcs s) (fholds s) (hcons s)) p.
Proof.
  intros [Cp Cl Cn Cq Ct Cf Ca Ce Cg Cb Ci] ((d & es & b & lw & ->) & L & B & _).
  split; try done; [cbn in L |- *; by rewrite L|by destruct Ci].
Qed.

(** vm_event_wake() with a free slot. *)
Lemma wp_wake_core s p Q :
  core s p ->
  (forall v', core (mkSys v' (pcs s) (fholds s) (hcons s)) p ->
     outstanding (ved v') = outstanding (ved (vs s)) -> max_vcpus v' = max_vcpus (vs s) ->
     (0 < avail (ved (vs s)) -> live v' (pcs s) (fholds s)) -> Q tt v') ->
  wp vm_event_wake Q (vs s).
Proof.
  intros C HQ. apply wp_wake; [by eapply core_slots|apply C|..].
  - intros Hne d rc. apply HQ; [by apply core_dequeue|done..|]. intros Ha.
    destruct (wq (ved (vs s))) as [|j q] eqn:Eq; [done|].
    destruct (c_queue s p C j) as (pj & Hj & Hc); [rewrite Eq; left|].
    apply (live_at _ _ _ j pj); [done|]. pose proof (c_nodup s p C) as Hnd.
    rewrite Eq in Hnd. apply NoDup_cons in Hnd as [Hnj _].
    destruct Hc as [-> |[-> | ->]]; [done| |done]. cbn. rewrite Eq.
    destruct (Z.to_nat (avail (ved (vs s)))) as [|n] eqn:En; [lia|]. simpl.
    intros Hin. apply Hnj. rewrite <- (take_drop n q). apply elem_of_app. by right.
  - intros Hnil v' W R. pose proof W as ((d & es & b & lw & ->) & _).
    apply HQ; [by apply core_woken|done..|]. intros _. split; [by left|].
    intros j _ Hj. cbn in Hj. rewrite Hnil in Hj. by apply elem_of_nil in Hj.
Qed.

Lemma u8_pred n : 1 <= n <= 8 -> u8 (n - 1) = n - 1.
Proof. intros. unfold u8. apply Z.mod_small. lia. Qed.

(** One claimed slot is given up, by vCPU [k] or by another domain. *)
Definition hand_back (cur : option nat) r : vm_event_domain :=
  match cur with
  | Some _ => r <| target_producers ::= fun n => n - 1 |>
  | None => r <| foreign_producers ::= fun n => n - 1 |>
  end.
Definition after_return (cur : option nat) (s : sys) (v' : S_) : sys :=
  match cur with
  | Some k => at_pc s k Run v'
  | None => mkSys v' (pcs s) (pred (fholds s)) (hcons s)
  end.
Definition may_return (cur : option nat) (s : sys) : Prop :=
  match cur with Some k => pcs s !! k = Some Hold | None => (0 < fholds s)%nat end.

Lemma holders_take l k : l !! k = Some Hold -> Z.of_nat (holders (<[k := Run]> l)) = Z.of_nat (holders l) - 1.
Proof. intros Hk. rewrite (holders_insert _ _ _ _ Hk). simpl. lia. Qed.

(** Between claiming and giving up, one of the ring's slots is reserved. *)
Lemma reserved cur s p : core s p -> may_return cur s ->
  (cur <> None -> 1 <= target_producers (ved (vs s)) <= 8) /\
  (cur = None -> 1 <= foreign_producers (ved (vs s)) <= 8) /\ outstanding (ved (vs s)) < 8.
Proof.
  intros C Hm. pose proof (c_avail s p C) as Ha. unfold avail in Ha.
  pose proof (outstanding_range (ved (vs s))). rewrite (c_target s p C), (c_foreign s p C) in *.
  destruct cur as [k|]; simpl in Hm; [|split_and!; [done|intros _; lia|lia]].
  pose proof (holders_take _ _ Hm). split_and!; [intros _; lia|done|lia].
Qed.

(** A ring whose producer may have moved, with one reservation less. *)
Definition handed_back (cur : option nat) (p' : sring) (n : Z) r : vm_event_domain :=
  hand_back cur (r <| ring_page := Some p' |> <| req_prod_pvt := n |>).

Lemma core_return cur s p p' n :
  core s p -> may_return cur s ->
  u32 (n - rsp_cons (ved (vs s))) <= 1 + outstanding (ved (vs s)) ->
  indices (handed_back cur p' n (ved (vs s))) p' (hcons s) ->
  core (after_return cur s ((vs s) <| ved ::= handed_back cur p' n |>)) p'.
Proof.
  intros C Hm Ho Hi. pose proof (reserved cur s p C Hm) as (Rt & Rf & Ro).
  destruct C as [Cp Cl Cn Cq Ct Cf Ca Ce Cg Cb Ci]. unfold avail, outstanding in *.
  destruct cur as [k|]; simpl in Hm |- *; unfold at_pc;
    (split; cbn [vs pcs fholds hcons]; [done|rewrite ?length_insert; exact Cl|..|exact Hi]);
    try done; unfold avail, outstanding; cbn; try lia.
  - intros j Hj. destruct (Cq j Hj) as (q & Hq & Hc). exists q. split; [|done].
    rewrite list_lookup_insert_ne; [done|]. intros ->. simplify_eq.
    destruct Hc as [Hc|[Hc|Hc]]; done.
  - rewrite holders_take by done. lia.
Qed.

Lemma vs_after cur s v' : vs (after_return cur s v') = v'.
Proof. by destruct cur. Qed.

Lemma wp_release_slot cur s p p' n (Q : unit -> S_ -> Prop) :
  core s p -> may_return cur s ->
  u32 (n - rsp_cons (ved (vs s))) <= 1 + outstanding (ved (vs s)) ->
  indices (handed_back cur p' n (ved (vs s))) p' (hcons s) ->
  (forall v', core (after_return cur s v') p' ->
     outstanding (ved v') = u32 (n - rsp_cons (ved (vs s))) -> max_vcpus v' = max_vcpus (vs s) ->
     (u32 (n - rsp_cons (ved (vs s))) = outstanding (ved (vs s)) -> inv (after_return cur s v')) ->
     Q tt v') ->
  wp (vm_event_release_slot cur) Q
     ((vs s) <| ved ::= fun r => r <| ring_page := Some p' |> <| req_prod_pvt := n |> |>).
Proof.
  intros C Hm Ho Hi HQ. pose proof (reserved cur s p C Hm) as (Rt & Rf & Ro).
  pose proof (core_return cur s p p' n C Hm Ho Hi) as C1.
  assert (W : wp vm_event_wake Q ((vs s) <| ved ::= handed_back cur p' n |>)).
  { rewrite <- (vs_after cur s (_ <| ved ::= _ |>)). apply (wp_wake_core _ p'); [exact C1|].
    rewrite vs_after. intros v' C2 E1 E2 L.
    assert (Ea : mkSys v' (pcs (after_return cur s ((vs s) <| ved ::= handed_back cur p' n |>)))
                   (fholds (after_return cur s ((vs s) <| ved ::= handed_back cur p' n |>)))
                   (hcons (after_return cur s ((vs s) <| ved ::= handed_back cur p' n |>)))
                 = after_return cur s v') by (by destruct cur).
    rewrite Ea in C2. apply HQ; [done|by destruct cur|done|].
    intros Eo. apply (core_inv _ p'); [done|]. rewrite vs_after.
    replace (pcs (after_return cur s v')) with
      (pcs (after_return cur s ((vs s) <| ved ::= handed_back cur p' n |>))) by (by destruct cur).
    replace (fholds (after_return cur s v')) with
      (fholds (after_return cur s ((vs s) <| ved ::= handed_back cur p' n |>))) by (by destruct cur).
    apply L. pose proof (c_avail s p C) as Ha. unfold avail, outstanding in *.
    destruct cur; cbn; lia. }
  unfold vm_event_release_slot. apply wp_bind.
  destruct cur as [k|]; [rewrite bool_decide_eq_true_2 by done|rewrite bool_decide_eq_false_2 by (intros []; done)];
    apply wp_modify; destruct (vs s) as [? ? ? [] ? ? ? ?]; unfold set in *; cbn in *;
    rewrite u8_pred by (apply Rt || apply Rf; done); exact W.
Qed.

Lemma inv_cancel cur s :
  inv s -> ring_page (ved (vs s)) <> None -> may_return cur s ->
  wp (vm_event_cancel_slot cur) (fun _ v' => inv (after_return cur s v')) (vs s).
Proof.
  intros I Hon Hm. destruct (when_on s I Hon) as (p & Hp & _).
  destruct (inv_core s p I Hp) as (C & _). unfold vm_event_cancel_slot.
  replace (vs s) with ((vs s) <| ved ::= fun r => r <| ring_page := Some p |>
                                   <| req_prod_pvt := req_prod_pvt (ved (vs s)) |> |>) at 1
    by (destruct (vs s) as [? ? ? [] ? ? ? ?]; unfold set; cbn in *; by subst).
  apply (wp_release_slot cur s p p); [done..|fold (outstanding (ved (vs s))); lia| |].
  - destruct (c_idx s p C). by destruct cur; split.
  - intros v' _ _ _ HI. by apply HI.
Qed.

(** Holding a reservation implies that the ring is there. *)
Lemma reserved_on cur s : inv s -> may_return cur s -> ring_page (ved (vs s)) <> None.
Proof.
  intros I Hm Hp. destruct (i_off s I Hp) as (_ & Hz & Hf). destruct cur as [k|]; simpl in Hm; [|lia].
  pose proof (holders_take _ _ Hm). lia.
Qed.

(** ** Putting a request *)

(** The page after a request. *)
Definition page_put r (req : vm_event) (p : sring) : sring :=
  p <| slots ::= <[ring_slot r (req_prod_pvt r) := req]> |> <| req_prod := u32 (req_prod_pvt r + 1) |>.

Lemma wp_put_in_ring s p req Q :
  core s p -> outstanding (ved (vs s)) < 8 ->
  Q tt ((vs s) <| ved ::= fun r => r <| ring_page := Some (page_put (ved (vs s)) req p) |>
                                     <| req_prod_pvt := u32 (req_prod_pvt (ved (vs s)) + 1) |> |>) ->
  wp (put_in_ring req) Q (vs s).
Proof.
  intros C Ho HQ. pose proof (core_slots s p C) as Hs. pose proof (c_page s p C) as Hp.
  unfold put_in_ring. apply wp_bind, wp_gets. apply wp_bind, wp_bug_on.
  { rewrite free_requests by done. apply Z.leb_gt. lia. }
  unfold page_upd, page_get, ved_upd.
  apply wp_bind, wp_bind. eapply wp_deref; [exact Hp|]. apply wp_modify.
  cbv zeta. apply wp_bind, wp_modify. apply wp_bind. eapply wp_deref.
  { cbn. by rewrite Hp. }
  apply wp_modify. destruct (vs s) as [? ? ? [] ? ? ? ?]. cbn in Hp. subst. exact HQ.
Qed.

Lemma wp_mark_and_pause s p k Q :
  core s p -> (k < length (pcs s))%nat ->
  (forall v', core (mkSys v' (pcs s) (fholds s) (hcons s)) p ->
     outstanding (ved v') = outstanding (ved (vs s)) -> Q tt v') ->
  wp (vm_event_mark_and_pause k) Q (vs s).
Proof.
  intros C Hk HQ. pose proof C as [Cp Cl Cn Cq Ct Cf Ca Ce Cg (Cb & Cm & Clw) Ci].
  destruct (lookup_lt_is_Some_2 (evs (vs s)) k) as [e He]; [lia|].
  unfold vm_event_mark_and_pause. apply wp_bind, wp_gets. apply wp_bind.
  apply (wp_test_and_set _ _ _ e); [done|].
  pose proof (count_alter F (set_flag F) _ _ _ He) as Hc. rewrite flagged_set in Hc by done.
  pose proof (count_le F (evs (vs s))) as Hle. rewrite Cg in *.
  apply wp_when; intros Hf; [apply negb_true_iff in Hf|apply negb_false_iff in Hf]; rewrite Hf in Hc.
  - apply wp_bind, wp_pause_nosync. intros d. apply wp_modify, HQ; [|done].
    split; try done; try (by destruct Ci); [cbn; by rewrite length_alter|].
    unfold blocked_ok. cbn. rewrite length_alter, u32_small, Cg by lia. lia.
  - apply HQ; [|done].
    split; try done; try (by destruct Ci); [cbn; by rewrite length_alter|].
    unfold blocked_ok. cbn. rewrite length_alter, Cg. lia.
Qed.

Lemma indices_put r p h req cur :
  nr_ents r = 8 -> indices r p h -> outstanding r < 8 ->
  indices (handed_back cur (page_put r req p) (u32 (req_prod_pvt r + 1)) r) (page_put r req p) h.
Proof.
  intros En [Is Ip Ir Ia] Ho. unfold outstanding in *.
  pose proof (idx_succ (req_prod_pvt r) (rsp_cons r) Ho).
  destruct cur; split; unfold outstanding; cbn; try done; try lia; by rewrite length_insert.
Qed.

Lemma wp_put cur s p req (Q : unit -> S_ -> Prop) :
  inv s -> ring_page (ved (vs s)) = Some p -> may_return cur s ->
  (forall v', inv (after_return cur s v') ->
     ring_page (ved v') = Some (page_put (ved (vs s)) (stamp cur req) p) ->
     nr_ents (ved v') = 8 -> Q tt v') ->
  wp (vm_event_put_request cur req) Q (vs s).
Proof.
  intros I Hp Hm HQ. destruct (inv_core s p I Hp) as (C & _).
  pose proof (reserved cur s p C Hm) as (_ & _ & Ro). set (req' := stamp cur req) in *.
  set (p' := page_put (ved (vs s)) req' p) in *.
  assert (Hu : u32 (u32 (req_prod_pvt (ved (vs s)) + 1) - rsp_cons (ved (vs s))) =
               1 + outstanding (ved (vs s))) by (rewrite idx_succ by done; unfold outstanding; lia).
  unfold vm_event_put_request. apply wp_bind, (wp_put_in_ring s p); [done..|].
  apply wp_bind, (wp_release_slot cur s p p'); [done..|lia| |].
  { apply indices_put; [apply C|by apply C|done]. }
  intros v1 C1 E1 M1 _. rewrite Hu in E1.
  assert (Hdone : forall v2, core (after_return cur s v2) p' ->
            outstanding (ved v2) = outstanding (ved v1) ->
            wp (modify (fun s : S_ => s <| notified ::= Z.add 1 |>)) Q v2).
  { intros v2 C2 E2. apply wp_modify. apply HQ.
    - apply (core_inv _ p'); [destruct cur, C2; by split|]. rewrite vs_after.
      apply live_out. cbn. rewrite E2, E1. pose proof (outstanding_range (ved (vs s))). lia.
    - pose proof (c_page _ _ C2) as E. by rewrite vs_after in E.
    - pose proof (c_ents _ _ C2) as E. by rewrite vs_after in E. }
  apply wp_bind, wp_available; [rewrite <- (vs_after cur s v1); by eapply core_slots|].
  apply wp_bind, wp_gets. apply wp_bind. destruct cur as [k|]; [|by apply wp_ret, Hdone].
  apply wp_when; intros _; [|by apply Hdone].
  apply (wp_mark_and_pause (after_return (Some k) s v1) p'); [done| |].
  - cbn. rewrite length_insert. by eapply lookup_lt_Some.
  - intros v2 C2 E2. by apply Hdone.
Qed.

(** ** Responses *)

Lemma wp_get_response s p (Q : option vm_event -> S_ -> Prop) :
  inv s -> ring_page (ved (vs s)) = Some p ->
  (u32 (rsp_prod p - rsp_cons (ved (vs s))) = 0 -> Q None (vs s)) ->
  (forall v' rsp, inv (mkSys v' (pcs s) (fholds s) (hcons s)) ->
     0 < u32 (rsp_prod p - rsp_cons (ved (vs s))) ->
     slots p !! ring_slot (ved (vs s)) (rsp_cons (ved (vs s))) = Some rsp ->
     outstanding (ved v') = outstanding (ved (vs s)) - 1 -> Q (Some rsp) v') ->
  wp vm_event_get_response Q (vs s).
Proof.
  intros I Hp Hnone Hsome. destruct (inv_core s p I Hp) as (C & _).
  unfold vm_event_get_response. apply wp_bind, wp_gets. apply wp_bind.
  unfold page_upd, page_get, ved_upd. eapply wp_deref; [exact Hp|].
  unfold RING_HAS_UNCONSUMED_RESPONSES. rewrite negb_involutive. case_if E; zbool.
  { by apply wp_ret, Hnone. }
  pose proof C as [Cp Cl Cn Cq Ct Cf Ca Ce Cg Cb [Is Ip Ir Ia]].
  pose proof (u32_range (rsp_prod p - rsp_cons (ved (vs s)))) as Hr.
  assert (Hlt : (ring_slot (ved (vs s)) (rsp_cons (ved (vs s))) < length (slots p))%nat).
  { rewrite Is. unfold ring_slot. rewrite Ce. change (8 - 1) with (Z.ones 3).
    rewrite Z.land_ones by done. pose proof (Z.mod_pos_bound (rsp_cons (ved (vs s))) (2 ^ 3) ltac:(done)). lia. }
  destruct (lookup_lt_is_Some_2 _ _ Hlt) as [rsp Hrsp].
  apply wp_bind. eapply wp_deref; [exact Hrsp|]. cbv zeta. apply wp_bind, wp_modify.
  apply wp_bind, wp_bind. eapply wp_deref; [exact Hp|]. apply wp_modify.
  set (cons := u32 (rsp_cons (ved (vs s)) + 1)).
  set (p' := p <| rsp_event := u32 (cons + 1) |>).
  assert (Hout : u32 (req_prod_pvt (ved (vs s)) - cons) = outstanding (ved (vs s)) - 1).
  { unfold cons, outstanding in *. apply idx_pred. lia. }
  match goal with |- wp _ _ ?x => set (v1 := x) end.
  assert (C1 : core (mkSys v1 (pcs s) (fholds s) (hcons s)) p').
  { split; try done.
    - cbn. by rewrite Hp.
    - unfold avail, outstanding in *. unfold v1. cbn. fold cons. lia.
    - unfold outstanding in *. split; unfold outstanding; cbn; try done; fold cons.
      + unfold cons in *. rewrite idx_pred; lia.
      + unfold cons. rewrite !idx_pred; lia. }
  apply wp_bind. apply (wp_wake_core (mkSys v1 (pcs s) (fholds s) (hcons s)) p'); [done|].
  intros v' C2 E2 M2 L. apply wp_ret. apply Hsome; [|lia|done|].
  - apply (core_inv _ p'); [done|]. apply L. unfold avail, outstanding in *. unfold v1. cbn.
    fold cons. lia.
  - rewrite E2. unfold outstanding in *. unfold v1. cbn. fold cons. exact Hout.
Qed.

(** ** The helper *)

Lemma inv_read s p :
  inv s -> ring_page (ved (vs s)) = Some p -> u32 (req_prod p - hcons s) <> 0 ->
  inv (mkSys (vs s) (pcs s) (fholds s) (u32 (hcons s + 1))).
Proof.
  intros I Hp Hne. destruct (inv_core s p I Hp) as (C & L). apply (core_inv _ p); [|done].
  pose proof (c_avail s p C) as Ha. pose proof (core_slots s p C) as (_ & Ht & Hf & _).
  destruct C as [Cp Cl Cn Cq Ct Cf Ca Ce Cg Cb [Is Ip Ir Ia]]. split; try done. cbn.
  unfold avail, outstanding in *. rewrite Ip in Hne.
  pose proof (u32_strict _ _ _ Ir Hne).
  split; unfold outstanding; try done; rewrite idx_succ by lia; lia.
Qed.

Lemma inv_answer s p rsp :
  inv s -> ring_page (ved (vs s)) = Some p -> u32 (hcons s - rsp_prod p) <> 0 ->
  inv (mkSys ((vs s) <| ved ::= answer rsp |>) (pcs s) (fholds s) (hcons s)).
Proof.
  intros I Hp Hne. destruct (inv_core s p I Hp) as (C & L).
  pose proof (c_avail s p C) as Ha. pose proof (core_slots s p C) as (_ & Ht & Hf & _).
  destruct C as [Cp Cl Cn Cq Ct Cf Ca Ce Cg Cb [Is Ip Ir Ia]].
  set (p' := p <| slots ::= <[ring_slot (ved (vs s)) (rsp_prod p) := rsp]> |>
               <| rsp_prod ::= fun n => u32 (n + 1) |>).
  unfold avail, outstanding in *. pose proof (u32_strict _ _ _ Ia Hne).
  apply (core_inv _ p'); [|exact L]. split; try done.
  - cbn. by rewrite Hp.
  - split; try done; cbn; [by rewrite length_insert|]. rewrite idx_succ by lia. lia.
Qed.

(** ** Claims by other domains *)

Lemma inv_foreign_claim s :
  inv s ->
  wp (vm_event_grab_slot true)
     (fun rc v' => inv (mkSys v' (pcs s) (if rc =? 0 then S (fholds s) else fholds s) (hcons s)))
     (vs s).
Proof.
  intros I. apply wp_grab; [done|..]; try (intros; by destruct s).
  intros p Hp Ha. destruct (inv_core s p I Hp) as (C & _). simpl Z.eqb. cbv iota.
  destruct C as [Cp Cl Cn Cq Ct Cf Ca Ce Cg Cb [Is Ip Ir Ia]].
  apply (core_inv _ p); [|by apply live_foreign; simpl; lia].
  split; try done; unfold avail, outstanding in *; cbn; try lia.
Qed.

(** ** Taking the ring down and setting it up *)

(** The loops of vm_event_disable() over the vCPUs: [es] in place of their
    event state. *)
Definition trimmed (v : S_) d es b : S_ :=
  v <| dm := d |> <| evs := es |> <| ved := (ved v) <| blocked := b |> |>.

Lemma wp_clear_all (v : S_) (fl : Z) Q :
  (forall d es b, length es = length (evs v) -> count_flagged fl es = 0%nat ->
     Q tt (trimmed v d es b)) ->
  wp (ev_for_each (fun k =>
        bind (test_and_clear_flag k fl) (fun was =>
        when was (bind (vcpu_unpause_ev k) (fun _ =>
          ved_upd (fun r => r <| blocked ::= fun b => u32 (b - 1) |>)))))) Q v.
Proof.
  intros HQ. unfold ev_for_each. apply wp_bind, wp_gets.
  apply (wp_for_each _ _ (fun n v' => exists d es b, v' = trimmed v d es b /\
    length es = length (evs v) /\
    forall j e, (j < n)%nat -> es !! j = Some e -> flagged fl e = false)).
  - exists (dm v), (evs v), (blocked (ved v)). split_and!; [by destruct v as [? ? ? [] ? ? ? ?]|done|lia].
  - intros n k v' Hn (d & es & b & -> & L & Hc). apply lookup_seq in Hn as [-> Hn]. simpl.
    destruct (lookup_lt_is_Some_2 es n) as [e He]; [lia|].
    apply wp_bind, (wp_test_and_clear _ _ _ e); [done|].
    set (es' := alter (clear_flag fl) n es).
    assert (Hpost : forall d' b', exists d es b, trimmed v d' es' b' = trimmed v d es b /\
      length es = length (evs v) /\
      forall j e, (j < S n)%nat -> es !! j = Some e -> flagged fl e = false).
    { intros d' b'. exists d', es', b'. unfold es'. split_and!; [done|by rewrite length_alter|].
      intros j x Hj Hx. rewrite lookup_alter_case in Hx. case_decide as Hd.
      - subst j. rewrite He in Hx. simplify_eq/=. apply flagged_clear.
      - apply (Hc j x); [lia|done]. }
    apply wp_when; intros _; [|exact (Hpost d b)].
    apply wp_bind, wp_unpause_ev. intros d'. apply wp_modify. exact (Hpost d' (u32 (b - 1))).
  - rewrite length_seq. intros v' (d & es & b & -> & L & Hc). apply HQ; [done|].
    apply count_zero. intros k e Hk. apply (Hc k e); [|done]. apply lookup_lt_Some in Hk. lia.
Qed.

(** Only the emulation data of the vCPUs is released. *)
Lemma wp_cleanup_domain (v : S_) Q :
  (forall es, length es = length (evs v) ->
     (forall F, count_flagged F es = count_flagged F (evs v)) ->
     Q tt (v <| event_write_data := None |> <| evs := es |>)) ->
  wp vm_event_cleanup_domain Q v.
Proof.
  intros HQ. unfold vm_event_cleanup_domain, ev_for_each. apply wp_bind, wp_modify.
  apply wp_bind, wp_gets.
  apply (wp_for_each _ _ (fun _ v' => exists es,
    v' = v <| event_write_data := None |> <| evs := es |> /\ length es = length (evs v) /\
    forall F, count_flagged F es = count_flagged F (evs v))).
  - exists (evs v). split_and!; [by destruct v|done..].
  - intros n k v' Hn (es & -> & L & Hc). apply wp_modify. cbn.
    exists (alter (fun e => e <| emul_read_data := None |>) k es).
    split_and!; [done|by rewrite length_alter|]. intros F'. rewrite <- Hc.
    by apply count_alter_same.
  - intros v' (es & -> & L & Hc). by apply HQ.
Qed.

Lemma inv_off s v' :
  inv s -> ring_page (ved v') = None -> max_vcpus v' = max_vcpus (vs s) ->
  length (evs v') = length (evs (vs s)) -> count_flagged F (evs v') = 0%nat ->
  holders (pcs s) = 0%nat -> fholds s = 0%nat ->
  (forall r, r = ved (vs s) -> last_vcpu_wake_up (ved v') = last_vcpu_wake_up r /\ wq (ved v') = wq r /\
     target_producers (ved v') = target_producers r /\ foreign_producers (ved v') = foreign_producers r) ->
  inv (mkSys v' (pcs s) (fholds s) (hcons s)).
Proof.
  intros I Hp Hm Hl Hc Hh Hf Hr. destruct (Hr _ eq_refl) as (R1 & R2 & R3 & R4).
  split; cbn [vs pcs fholds hcons]; rewrite ?Hl, ?Hm, ?R1, ?R2, ?R3, ?R4; try apply I; try done.
  by rewrite Hp.
Qed.

Lemma inv_disable s :
  inv s -> holders (pcs s) = 0%nat -> fholds s = 0%nat ->
  wp vm_event_disable (fun _ v' => inv (mkSys v' (pcs s) (fholds s) (hcons s))) (vs s).
Proof.
  intros I Hh Hf. assert (E0 : mkSys (vs s) (pcs s) (fholds s) (hcons s) = s) by (by destruct s).
  unfold vm_event_disable. apply wp_bind, wp_gets.
  case_bool_decide as Hp; [apply wp_ret; by rewrite E0|].
  case_bool_decide as Hq; [apply wp_ret; by rewrite E0|].
  destruct (when_on s I Hp) as (p & _ & O). pose proof (on_flag _ _ _ _ _ O) as Eflag.
  apply wp_bind, wp_modify. apply wp_bind, wp_clear_all. intros d es b L Hc.
  apply wp_bind, wp_modify, wp_bind, wp_cleanup_domain. intros es' L' Hc'. apply wp_ret.
  apply (inv_off s); try done; cbn in *; [congruence|rewrite Hc', <- Eflag; exact Hc|].
  by intros r ->.
Qed.

(** vm_event_init_domain() allocates; flags and ring stay. *)
Definition prepared (v : S_) w es : S_ := v <| event_write_data := w |> <| evs := es |>.
Definition same_flags (es es' : list vcpu_ev) : Prop :=
  length es' = length es /\ forall b, count_flagged b es' = count_flagged b es.

Lemma wp_alloc_read_data rd (Q : Z -> S_ -> Prop) : forall ks (v : S_),
  (forall k, k ∈ ks -> (k < length (evs v))%nat) ->
  (forall rc es, rc = 0 \/ rc < 0 -> same_flags (evs v) es -> Q rc (v <| evs := es |>)) ->
  wp (alloc_read_data ks rd) Q v.
Proof.
  induction ks as [|k ks IH]; intros v Hk HQ; simpl.
  { apply wp_ret. specialize (HQ 0 (evs v) (or_introl eq_refl)). destruct v. by apply HQ. }
  destruct (lookup_lt_is_Some_2 (evs v) k) as [e He]; [apply Hk; left|].
  apply wp_bind, (wp_ev_get _ _ _ _ He).
  case_bool_decide; [apply IH; [|done]; intros j Hj; apply Hk; by right|].
  destruct (rd k).
  - apply wp_bind, wp_modify, IH; cbn.
    + intros j Hj. rewrite length_alter. apply Hk. by right.
    + intros rc es Hrc (L & Hc). apply (HQ rc es Hrc). split.
      * by rewrite L, length_alter.
      * intros b. rewrite Hc. by apply count_alter_same.
  - apply wp_ret. specialize (HQ (- ENOMEM) (evs v) (or_intror eq_refl)). destruct v. by apply HQ.
Qed.

Lemma wp_init_domain (v : S_) w rd (Q : Z -> S_ -> Prop) :
  (forall rc wd es, rc = 0 \/ rc < 0 -> same_flags (evs v) es -> Q rc (prepared v wd es)) ->
  wp (vm_event_init_domain w rd) Q v.
Proof.
  intros HQ. unfold vm_event_init_domain. apply wp_bind, wp_gets. apply wp_bind.
  assert (Hrest : forall wd, wp (bind (gets (fun s : S_ => s)) (fun s0 =>
    if bool_decide (event_write_data s0 = None) then ret (- ENOMEM)
    else alloc_read_data (seq 0 (length (evs s0))) rd)) Q (v <| event_write_data := wd |>)).
  { intros wd. apply wp_bind, wp_gets. case_bool_decide.
    - apply wp_ret. specialize (HQ (- ENOMEM) wd (evs v) (or_intror eq_refl)). destruct v. by apply HQ.
    - apply wp_alloc_read_data; cbn.
      + intros k Hk. apply elem_of_seq in Hk. lia.
      + intros rc es Hrc Hs. by apply (HQ rc wd es). }
  apply wp_when; intros _; [apply wp_modify, Hrest|].
  specialize (Hrest (event_write_data v)). by destruct v.
Qed.

Lemma core_enabled s wd es p port (hp : sring) :
  inv s -> ring_page (ved (vs s)) = None -> clear_page p -> same_flags (evs (vs s)) es ->
  core (mkSys ((prepared (vs s) wd es)
    <| open_ports ::= union {[port]} |>
    <| ved ::= fun r => (FRONT_RING_INIT hp PAGE_SIZE
         ((r <| ring_page := Some p |> <| blocked := 0 |>) <| xen_port := port |>))
         <| pause_flag := F |> <| wq := [] |> |>) (pcs s) (fholds s) 0) p.
Proof.
  intros I Hp (Hl & Hr & Ha) (L & Hc). destruct (i_off s I Hp) as (H0 & Hh & Hf).
  pose proof (i_target s I) as It. pose proof (i_foreign s I) as If.
  split; cbn; try done; try lia.
  - rewrite L. exact (i_len s I).
  - constructor.
  - intros k Hk. by apply elem_of_nil in Hk.
  - unfold avail, outstanding. cbn. rewrite u32_sub_self. lia.
  - unfold blocked_ok. cbn. rewrite Hc, H0, L.
    split; [done|]. exact (conj (i_max s I) (i_last s I)).
  - split; try done; unfold outstanding; cbn; rewrite ?Ha, ?u32_sub_self; done.
Qed.

Lemma inv_enable s env :
  inv s -> wq (ved (vs s)) = [] ->
  match helper_page env with inl rc => rc < 0 | inr p => clear_page p end ->
  wp (vm_event_enable env F) (fun res v' =>
    inv (mkSys v' (pcs s) (fholds s) (if res.1 =? 0 then 0 else hcons s))) (vs s).
Proof.
  intros I Hq Hpg. assert (I0 : inv (mkSys (vs s) (pcs s) (fholds s) (hcons s))) by (by destruct s).
  unfold vm_event_enable. apply wp_bind, wp_gets.
  case_bool_decide as Hp; [apply wp_ret; exact I0|].
  assert (Hn : ring_page (ved (vs s)) = None) by (by destruct (ring_page (ved (vs s))); [destruct Hp|]).
  destruct (i_off s I Hn) as (H0 & Hh & Hf).
  assert (Hfail : forall rc wd es b, rc < 0 -> same_flags (evs (vs s)) es ->
    inv (mkSys ((prepared (vs s) wd es) <| ved ::= fun r => r <| blocked := b |> <| ring_page := None |> |>)
      (pcs s) (fholds s) (if rc =? 0 then 0 else hcons s))).
  { intros rc wd es b Hrc (L & Hc). replace (rc =? 0) with false by (symmetry; apply Z.eqb_neq; lia).
    apply inv_off; try done; cbn; [by rewrite Hc|]. by intros r ->. }
  case_if Eg; [apply wp_ret; exact I0|].
  apply wp_bind, wp_init_domain. intros rc wd es Hrc Hs.
  assert (Hsame : forall v' : S_, v' = prepared (vs s) wd es ->
    v' <| ved ::= fun r => r <| ring_page := None |> |> =
    (prepared (vs s) wd es) <| ved ::= fun r => r <| blocked := blocked (ved (vs s)) |> <| ring_page := None |> |>).
  { intros v' ->. by destruct (vs s) as [? ? ? [] ? ? ? ?]. }
  case_if Erc; zbool; [apply wp_bind, wp_modify, wp_ret; rewrite (Hsame _ eq_refl); by apply Hfail|].
  destruct (helper_page env) as [e|p].
  { apply wp_bind, wp_modify, wp_ret. rewrite (Hsame _ eq_refl). by apply Hfail. }
  apply wp_bind, wp_modify. case_if Ep; zbool.
  { apply wp_bind, wp_modify, wp_ret. apply (Hfail (new_port env) wd es 0 Ep Hs). }
  apply wp_bind, wp_modify, wp_bind, wp_modify, wp_bind, wp_modify, wp_ret.
  apply (core_inv _ p); [exact (core_enabled s wd es p (new_port env) p I Hn Hpg Hs)|].
  split; [left; by left|]. intros k _ Hk. by apply elem_of_nil in Hk.
Qed.

(** ** Every step keeps the invariant and none is fatal *)

Lemma ring_step_inv s o : inv s -> step s o -> exists s', o = Some s' /\ inv s'.
Proof.
  intros I Hs. destruct Hs as [k Hk|k Hk|k Hk|k Hk|k p Hk Hp|k req Hk|k Hk| |req Hf|Hf
    |p Hp Hne|p rsp Hp Hne|Hp|Hh Hf|env Hq He].
  - apply run_inv, (inv_grab s k Run); try done; [|by left].
    intros Hin. by apply (not_queued s k Run) in Hin.
  - apply run_inv, (inv_grab s k Run); try done; [|by left].
    intros Hin. by apply (not_queued s k Run) in Hin.
  - by apply run_inv, inv_prepare.
  - apply run_inv, (inv_grab s k Prep); try done. by right.
  - by apply run_inv, inv_finish.
  - apply run_inv. pose proof (reserved_on (Some k) s I Hk) as Hon.
    destruct (when_on s I Hon) as (p & Hp & _). by apply (wp_put (Some k) s p).
  - apply run_inv, (inv_cancel (Some k) s); try done. by apply (reserved_on (Some k)).
  - by apply run_inv, inv_foreign_claim.
  - apply run_inv. pose proof (reserved_on None s I Hf) as Hon.
    destruct (when_on s I Hon) as (p & Hp & _). by apply (wp_put None s p).
  - apply run_inv, (inv_cancel None s); try done. by apply (reserved_on None).
  - eexists. split; [done|]. by eapply inv_read.
  - eexists. split; [done|]. by eapply inv_answer.
  - apply run_inv. destruct (when_on s I Hp) as (p & Hpg & _).
    apply (wp_get_response s p); [done..| |]; [intros _; by destruct s|by intros].
  - by apply run_inv, inv_disable.
  - by apply run_inv, inv_enable.
Qed.

Lemma fresh_inv s : fresh_sys s -> inv s.
Proof.
  intros [Hl Hm Hr (n & Hv) Hf Hh].
  assert (H0 : holders (pcs s) = 0%nat).
  { destruct (holders (pcs s)) eqn:E; [done|]. destruct (holders_pos (pcs s)) as (k & p & Hk & Hp); [lia|].
    by rewrite (Hr k p Hk) in Hp. }
  split; rewrite ?Hv; cbn; try done; try lia.
  - constructor.
  - intros k Hk. by apply elem_of_nil in Hk.
  - intros _. split_and!; [|done..]. apply count_zero. intros k e Hk. unfold flagged.
    rewrite (Hf k e Hk). apply Z.bits_0.
Qed.

Lemma ring_reachable_inv s0 s : fresh_sys s0 -> reachable s0 s -> inv s.
Proof.
  intros Hf Hr. induction Hr as [|s s' Hr IH Hs]; [by apply fresh_inv|].
  destruct (ring_step_inv s (Some s') IH Hs) as (s'' & E & I). by simplify_eq.
Qed.
End System.
