(* ===== verification/VmEventFrame.v ===== *)
(** * What the ring operations leave alone

    Ring operations pause and unpause vCPUs; they change nothing else of the
    domain and of the vCPUs' event state, and every pause they add to a vCPU
    they account for: as the ring's pause flag, as a place on the wait queue,
    or as an event pause ([extra_at]). *)

From S2P Require Import Prelude Monad P2m P2mProofs Altp2m Altp2mProofs VmEvent VmEventProofs VmEventSystem.

Lemma fmap_alter_same {A B} (g : A -> B) f k (l : list A) :
  (forall x, g (f x) = g x) -> g <$> alter f k l = g <$> l.
Proof.
  intros E. revert k. induction l as [|x l IH]; intros [|k]; simpl; [done..| |].
  - by rewrite E.
  - change (list_fmap A B g ?x) with (g <$> x). f_equal. apply IH.
Qed.

Section Frame.
Context {T : Type}.
Local Abbreviation S_ := (vst T).
Implicit Types (v : S_) (r : vm_event_domain).

(** ** The parts that stay *)

Definition forget (c : vcpu) : vcpu := c <| pause_count := 0 |>.
Definition bare_dom (d : domain T) : domain T := d <| vcpus ::= fmap forget |>.
Definition bare_ev (e : vcpu_ev) : vcpu_ev := e <| pause_flags := 0 |>.
Definition outer v : domain T * list vcpu_ev * option (list write_data) * Z :=
  (bare_dom (dm v), bare_ev <$> evs v, event_write_data v, max_vcpus v).

Definition page_part v : option sring * Z := (ring_page (ved v), rsp_cons (ved v)).

(** The pauses of a vCPU that neither the ring nor an event accounts for. *)
Definition extra r (k : nat) (c : vcpu) (e : vcpu_ev) : Z :=
  pause_count c - vm_event_pause_count e - Z.b2z (flagged (pause_flag r) e)
    - Z.of_nat (count_occ Nat.eq_dec (wq r) k).
#[local] Arguments extra : simpl never.
Definition extra_at (k : nat) v : option Z :=
  match vcpus (dm v) !! k, evs v !! k with
  | Some c, Some e => Some (extra (ved v) k c e)
  | _, _ => None
  end.

Lemma keeps_on_dom {A X} (f : S_ -> X) (m : M (domain T) A) :
  (forall v d' a, m (dm v) = Some (a, d') -> f (v <| dm := d' |>) = f v) -> Keeps f (on_dom m).
Proof.
  intros Hm v a v' E. unfold on_dom in E. destruct (m (dm v)) as [[b d']|] eqn:E1; simplify_eq.
  by eapply Hm.
Qed.

Lemma outer_upd v k f g : (forall e, bare_ev (f e) = bare_ev e) -> (forall c, forget (g c) = forget c) ->
  outer (v <| evs ::= alter f k |> <| dm ::= fun d => d <| vcpus ::= alter g k |> |>) = outer v.
Proof.
  intros Hf Hg. unfold outer, bare_dom. cbn. unfold set. cbn. by rewrite !fmap_alter_same.
Qed.

(** The extra pauses when vCPU [k] and the ring change together. *)
Lemma extra_at_upd v j k f g r' :
  (forall c e, vcpus (dm v) !! k = Some c -> evs v !! k = Some e ->
     extra r' k (g c) (f e) = extra (ved v) k c e) ->
  (forall i c e, i <> k -> extra r' i c e = extra (ved v) i c e) ->
  extra_at j (v <| evs ::= alter f k |> <| dm ::= fun d => d <| vcpus ::= alter g k |> |>
                <| ved := r' |>) = extra_at j v.
Proof.
  intros Hk Hi. unfold extra_at. cbn. destruct (decide (j = k)) as [->|Hne].
  - rewrite !list_lookup_alter_eq. destruct (vcpus (dm v) !! k) as [c|] eqn:Ec; [|done].
    destruct (evs v !! k) as [e|] eqn:Ee; [|done]. cbn. by rewrite (Hk c e).
  - rewrite !list_lookup_alter_ne by done.
    destruct (vcpus (dm v) !! j), (evs v !! j); [|done..]. by rewrite Hi.
Qed.

(** ** vCPUs woken, marked and paused *)

Lemma keeps_ved_upd {X} (f : S_ -> X) g : (forall v, f (v <| ved ::= g |>) = f v) -> Keeps f (ved_upd g).
Proof. apply keeps_modify. Qed.

Lemma wake_first_eq n v k q : wq (ved v) = k :: q ->
  wake_first (S n) v = wake_first n
    ((v <| evs ::= alter id k |> <| dm ::= fun d => d <| vcpus ::= alter (fun c => c <| pause_count ::= Z.add (-1) |>) k |> |>
        <| ved := (ved v) <| wq := q |> |>) <| refcnt ::= Z.add (-1) |>).
Proof.
  intros E. destruct v as [d m es r w o n0 rc]. cbn in E. simpl wake_first.
  unfold bind, gets, ved_upd, vcpu_unpause_ev, vcpu_unpause, vcpu_upd, on_dom, modify. cbn. rewrite E. cbn.
  unfold set. cbn. f_equal. f_equal. by rewrite list_alter_id.
Qed.

(** What waking leaves: all of [outer], the extra pauses and the shared page. *)
Definition waking (j : nat) v := (outer v, extra_at j v, pause_flag (ved v), page_part v).

Definition unpaused (c : vcpu) : vcpu := c <| pause_count ::= Z.add (-1) |>.

Lemma waking_upd j v k f g r' rc :
  (forall e, bare_ev (f e) = bare_ev e) -> (forall c, forget (g c) = forget c) ->
  (forall c e, vcpus (dm v) !! k = Some c -> evs v !! k = Some e ->
     extra r' k (g c) (f e) = extra (ved v) k c e) ->
  (forall i c e, i <> k -> extra r' i c e = extra (ved v) i c e) ->
  pause_flag r' = pause_flag (ved v) ->
  ring_page r' = ring_page (ved v) -> rsp_cons r' = rsp_cons (ved v) ->
  waking j ((v <| evs ::= alter f k |> <| dm ::= fun d => d <| vcpus ::= alter g k |> |>
               <| ved := r' |>) <| refcnt := rc |>) = waking j v.
Proof.
  intros Hf Hg Hk Hi Ha Hp Hc. unfold waking. f_equal; [f_equal; [f_equal|]|].
  - exact (outer_upd v k f g Hf Hg).
  - exact (extra_at_upd v j k f g r' Hk Hi).
  - exact Ha.
  - unfold page_part. cbn. by rewrite Hp, Hc.
Qed.

Lemma keeps_wake_first j : forall n, Keeps (waking j) (wake_first n).
Proof.
  induction n as [|n IH]; [apply keeps_ret|]. intros v a v' E.
  destruct (wq (ved v)) as [|k q] eqn:Eq.
  - simpl wake_first in E. unfold bind, gets in E. rewrite Eq in E. unfold ret in E. by simplify_eq.
  - rewrite (wake_first_eq n v k q Eq) in E. apply IH in E. rewrite E.
    apply waking_upd; try done.
    + intros c e _ _. unfold extra. cbn. rewrite Eq, count_occ_cons_eq by done. lia.
    + intros i c e Hi. unfold extra. cbn. by rewrite Eq, count_occ_cons_neq.
Qed.

Lemma clear_unpause_eq n v k e i online avail_req :
  evs v !! k = Some e -> flagged (pause_flag (ved v)) e = true -> k = Z.to_nat (i mod max_vcpus v) ->
  (blocked (ved v) =? 0) || (avail_req <=? online) = false ->
  wake_blocked_loop (S n) i online avail_req v = wake_blocked_loop n (i + 1) (online + 1) avail_req
    ((v <| evs ::= alter (clear_flag (pause_flag (ved v))) k |>
        <| dm ::= fun d => d <| vcpus ::= alter unpaused k |> |>
        <| ved := (ved v) <| blocked ::= fun b => u32 (b - 1) |> <| last_vcpu_wake_up := Z.of_nat k |> |>)
        <| refcnt := refcnt v |>).
Proof.
  intros He Hf Ek Eb. simpl wake_blocked_loop. unfold bind at 1, gets. rewrite <- Ek, He, Eb.
  unfold test_and_clear_flag, bind, ev_get, deref. rewrite He. unfold flagged in Hf. rewrite Hf. by destruct v.
Qed.

Lemma keeps_wake_blocked_loop j : forall n i online avail_req,
  Keeps (waking j) (wake_blocked_loop n i online avail_req).
Proof.
  induction n as [|n IH]; intros i online avail_req; [apply keeps_ret|]. intros v a v' E.
  set (k := Z.to_nat (i mod max_vcpus v)). destruct (evs v !! k) as [e|] eqn:He.
  2: { simpl wake_blocked_loop in E. unfold bind at 1, gets in E. fold k in E. rewrite He in E. by eapply IH. }
  destruct ((blocked (ved v) =? 0) || (avail_req <=? online)) eqn:Eb.
  { simpl wake_blocked_loop in E. unfold bind at 1, gets in E. fold k in E. rewrite He, Eb in E.
    unfold ret in E. by simplify_eq. }
  destruct (flagged (pause_flag (ved v)) e) eqn:Hf.
  - rewrite (clear_unpause_eq n v k e i online avail_req He Hf eq_refl Eb) in E. apply IH in E. rewrite E.
    apply waking_upd; try done. intros c e0 _ He0. rewrite He in He0. simplify_eq.
    unfold extra. cbn [ved wq pause_flag set]. change (pause_flag (_ <| last_vcpu_wake_up := _ |>)) with (pause_flag (ved v)).
    rewrite flagged_clear, Hf. cbn. lia.
  - simpl wake_blocked_loop in E. unfold bind at 1, gets in E. fold k in E. rewrite He, Eb in E.
    unfold test_and_clear_flag in E. unfold bind at 1 in E. unfold bind at 1, ev_get, deref in E. rewrite He in E.
    unfold bind at 1, ev_upd, modify, ret in E. fold (clear_flag (pause_flag (ved v))) in E.
    change (fun v0 : vcpu_ev => v0 <| pause_flags ::= fun f => Z.clearbit f (pause_flag (ved v)) |>)
      with (clear_flag (pause_flag (ved v))) in E.
    rewrite (clear_none v k e _ He Hf) in E. unfold flagged in Hf. rewrite Hf in E. by eapply IH.
Qed.

Lemma keeps_available {X} (f : S_ -> X) : Keeps f vm_event_ring_available.
Proof. unfold vm_event_ring_available. frame_tac. Qed.
Hint Resolve keeps_available keeps_wake_first keeps_wake_blocked_loop : keeps.

Lemma keeps_wake j : Keeps (waking j) vm_event_wake.
Proof.
  unfold vm_event_wake, vm_event_wake_queued, vm_event_wake_blocked, wake_up_nr. frame_tac.
Qed.

Lemma keeps_page_of {A} (m : M S_ A) : (forall j, Keeps (waking j) m) -> Keeps page_part m.
Proof. intros Hm. exact (keeps_via _ snd m (Hm 0%nat)). Qed.

(** ** The operations on the ring *)

(** What the operations on the ring leave, the page aside. *)
Definition around (j : nat) v := (outer v, extra_at j v, pause_flag (ved v)).

Lemma keeps_around_of {A} j (m : M S_ A) : Keeps (waking j) m -> Keeps (around j) m.
Proof. exact (keeps_via _ fst m). Qed.

(** Changes of the ring that leave its pause flag and its queue. *)
Lemma around_ved j v g :
  pause_flag (g (ved v)) = pause_flag (ved v) -> wq (g (ved v)) = wq (ved v) ->
  around j (v <| ved ::= g |>) = around j v.
Proof. intros Hf Hw. unfold around, extra_at, extra. cbn. by rewrite Hf, Hw. Qed.

Lemma keeps_around_ved j g :
  (forall r, pause_flag (g r) = pause_flag r) -> (forall r, wq (g r) = wq r) ->
  Keeps (around j) (ved_upd g).
Proof. intros Hf Hw. apply keeps_modify. intros v. by apply around_ved. Qed.

Lemma keeps_page_upd j f : Keeps (around j) (page_upd f).
Proof. unfold page_upd, page_get. frame_tac. by apply keeps_around_ved. Qed.
Hint Resolve keeps_page_upd : keeps.

Lemma keeps_put_in_ring j req : Keeps (around j) (put_in_ring req).
Proof. unfold put_in_ring. frame_tac. by apply keeps_around_ved. Qed.

Lemma keeps_release_slot j cur : Keeps (around j) (vm_event_release_slot cur).
Proof.
  unfold vm_event_release_slot. apply keeps_bind; [|intros _; apply keeps_around_of, keeps_wake].
  case_bool_decide; by apply keeps_around_ved.
Qed.

Lemma setbit_id n b : 0 <= b -> Z.testbit n b = true -> Z.setbit n b = n.
Proof.
  intros Hb Ht. apply Z.bits_inj'. intros m Hm. rewrite Z.setbit_eqb by done.
  destruct (Z.eqb_spec b m) as [<-|]; [by rewrite Ht|done].
Qed.

Lemma mark_around j k v a v' : 0 <= pause_flag (ved v) ->
  vm_event_mark_and_pause k v = Some (a, v') -> around j v' = around j v.
Proof.
  intros Hp E. unfold vm_event_mark_and_pause, test_and_set_flag, bind at 1, gets in E.
  apply bind_inv in E as (was & v1 & E1 & E). apply bind_inv in E1 as (e & v2 & E2 & E1).
  unfold ev_get, deref in E2. destruct (evs v !! k) as [e0|] eqn:He; simplify_eq.
  unfold bind, ev_upd, modify, ret in E1. injection E1 as <- <-.
  destruct (Z.testbit (pause_flags e) (pause_flag (ved v2))) eqn:Et; cbn in E.
  - unfold ret in E. injection E as _ <-. replace (_ <| evs ::= _ |>) with v2; [done|].
    destruct v2 as [d m es r w o n rc]. cbn in He, Et. unfold set. cbn. f_equal.
    apply list_eq. intros i. rewrite lookup_alter_case. case_decide as Hd; [|done]. subst i. rewrite He. cbn.
    f_equal. destruct e as [pf c ef g ei rd ss]. unfold set. cbn in Et, Hp |- *. by rewrite setbit_id.
  - unfold when, negb in E. unfold bind, vcpu_pause_nosync, on_dom, vcpu_upd, modify, ved_upd in E. injection E as _ <-.
    pose proof (waking_upd j v2 k (set_flag (pause_flag (ved v2))) (fun c => c <| pause_count ::= Z.add 1 |>)
      ((ved v2) <| blocked ::= fun b => u32 (b + 1) |>) (refcnt v2)) as W.
    apply (f_equal fst) in W; [exact W|done|done| |done..].
    intros c e0 _ He0. rewrite He in He0. simplify_eq. unfold extra.
    change (pause_flag ((ved v2) <| blocked ::= _ |>)) with (pause_flag (ved v2)).
    rewrite flagged_set by done. unfold flagged. rewrite Et. cbn. lia.
Qed.

Lemma put_around cur j req v a v' : 0 <= pause_flag (ved v) ->
  vm_event_put_request cur req v = Some (a, v') -> around j v' = around j v.
Proof.
  intros Hp E. unfold vm_event_put_request in E.
  apply bind_inv in E as ([] & v1 & E1 & E). apply bind_inv in E as ([] & v2 & E2 & E).
  apply (keeps_put_in_ring j) in E1. apply (keeps_release_slot j) in E2. rewrite <- E1, <- E2.
  assert (Hp2 : 0 <= pause_flag (ved v2)).
  { assert (E3 : around j v2 = around j v) by congruence. apply (f_equal snd) in E3. change (pause_flag (ved v2) = pause_flag (ved v)) in E3. by rewrite E3. }
  apply bind_inv in E as (n & v3 & E3 & E). apply (keeps_available (fun v => v)) in E3. subst v3.
  apply bind_inv in E as (m & v4 & E4 & E). unfold gets in E4. injection E4 as _ <-.
  apply bind_inv in E as ([] & v5 & E5 & E). unfold modify in E. injection E as _ <-.
  change (around j v5 = around j v2). destruct cur as [k|]; [|unfold ret in E5; by injection E5 as <-].
  unfold when in E5. destruct (_ <? _); [by eapply mark_around|unfold ret in E5; by injection E5 as <-].
Qed.

Lemma get_response_frame j v p rsp v' :
  ring_page (ved v) = Some p -> vm_event_get_response v = Some (Some rsp, v') ->
  around j v' = around j v /\ rsp_cons (ved v') = u32 (rsp_cons (ved v) + 1) /\
  exists p', ring_page (ved v') = Some p' /\ slots p' = slots p /\ rsp_prod p' = rsp_prod p.
Proof.
  intros Hp E. unfold vm_event_get_response in E.
  apply bind_inv in E as (r & v1 & E1 & E). unfold gets in E1. injection E1 as <- <-.
  apply bind_inv in E as (p0 & v1 & E1 & E). unfold page_get, deref in E1. rewrite Hp in E1. injection E1 as <- <-.
  destruct (negb _); [unfold ret in E; simplify_eq|].
  apply bind_inv in E as (x & v1 & E1 & E). unfold deref in E1. destruct (slots p !! _); [|done]. injection E1 as <- <-.
  cbv zeta in E. apply bind_inv in E as ([] & v1 & E1 & E). unfold ved_upd, modify in E1. injection E1 as <-.
  apply bind_inv in E as ([] & v2 & E2 & E). apply bind_inv in E2 as (p2 & v3 & E3 & E2).
  unfold page_get, deref in E3. cbn in E3. rewrite Hp in E3. injection E3 as <- <-. unfold ved_upd, modify in E2. injection E2 as <-.
  apply bind_inv in E as ([] & v2 & E2 & E). unfold ret in E. injection E as _ <-.
  apply (keeps_wake j) in E2. pose proof (f_equal fst E2) as Ea. pose proof (f_equal snd E2) as Eb.
  change (around j v2 = around j (v <| ved ::= fun r => r <| rsp_cons := u32 (rsp_cons (ved v) + 1) |>
    <| ring_page ::= fmap (fun q => q <| rsp_event := u32 (u32 (rsp_cons (ved v) + 1) + 1) |>) |> |>)) in Ea.
  cbn in Eb. unfold page_part in Eb. cbn in Eb. rewrite Hp in Eb. injection Eb as Ep Ec.
  split; [by rewrite Ea, around_ved|]. split; [done|]. eexists. split; [exact Ep|done].
Qed.

(** ** Changes the invariants do not see *)

Lemma count_flagged_flags b (l : list vcpu_ev) :
  count_flagged b l = length (filter (fun f => Z.testbit f b = true) (pause_flags <$> l)).
Proof.
  unfold count_flagged, flagged. induction l as [|e l IH]; [done|].
  rewrite fmap_cons, !filter_cons. by repeat case_decide; simpl; rewrite <- ?IH.
Qed.

(** The ring's invariant depends on the ring and the pause flags. *)
Lemma ring_inv_ext F v v' l fh h :
  inv F (mkSys v l fh h) -> ved v' = ved v -> max_vcpus v' = max_vcpus v ->
  pause_flags <$> evs v' = pause_flags <$> evs v -> inv F (mkSys v' l fh h).
Proof.
  intros [Il Im Ila In Iq It If Ion Ioff] Ev Em Ee. cbn in *.
  assert (El : length (evs v') = length (evs v)) by (by rewrite <- !(length_fmap pause_flags), Ee).
  assert (Ec : forall b, count_flagged b (evs v') = count_flagged b (evs v))
    by (intros b; by rewrite !count_flagged_flags, Ee).
  split; cbn; rewrite ?Ev, ?Em, ?El, ?Ec; try done.
  intros p Hp. destruct (Ion p Hp) as [O1 O2 O3 O4 O5 O6]. split; rewrite ?Ev; try done.
  - unfold blocked_ok in *. by rewrite Ev, El, Em, Ec.
  - unfold live, room_used, under_way in *. by rewrite Ev, Em.
Qed.

Lemma cnt_forget (l : list vcpu) i : cnt (forget <$> l) i = cnt l i.
Proof. induction l as [|c l IH]; [done|]. rewrite fmap_cons. simpl. by rewrite IH. Qed.

(** The views' invariant does not depend on the pause counts. *)
Lemma inv_repaused plat (d d' : domain T) :
  altp2m_inv plat d -> bare_dom d' = bare_dom d -> altp2m_inv plat d'.
Proof.
  intros [S C N A I] E. destruct d as [vs ap ep em ho ne m2 ac dy cr hv nh pa dp].
  destruct d' as [vs' ap' ep' em' ho' ne' m2' ac' dy' cr' hv' nh' pa' dp']. unfold bare_dom, set in E. cbn in E.
  injection E as Ev -> -> -> -> -> -> -> -> -> -> -> -> ->. cbn in *.
  change (forget <$> vs' = forget <$> vs) in Ev.
  assert (Hl : forall k c', vs' !! k = Some c' -> exists c, vs !! k = Some c /\ forget c' = forget c).
  { intros k c' Hk. assert (El : (forget <$> vs') !! k = (forget <$> vs) !! k) by (by rewrite Ev).
    rewrite !list_lookup_fmap, Hk in El. destruct (vs !! k) as [c|]; [|done]. exists c. split; [done|]. exact (inj Some _ _ El). }
  split; cbn.
  - eapply (evolves_shape plat no_delta); [exact S|]. by split; [apply tabs_keep_same|..].
  - intros k c' Hk. destruct (Hl k c' Hk) as (c & Hc & Ec). destruct (C k c Hc) as [C1 C2].
    destruct c, c'. unfold forget, set in Ec. cbn in Ec. injection Ec as -> -> -> -> -> -> -> -> -> ->. by split.
  - intros i p Hp. rewrite (N i p Hp). destruct ac; [|done].
    rewrite <- (cnt_forget vs), <- (cnt_forget vs'). by rewrite Ev.
  - intros Hact k c' Hk. destruct (Hl k c' Hk) as (c & Hc & Ec). destruct (A Hact k c Hc) as [A1 A2 A3 A4].
    destruct c, c'. unfold forget, set in Ec. cbn in Ec. injection Ec as -> -> -> -> -> -> -> -> -> ->. by split.
  - intros Hact. destruct (I Hact) as [I1 I2]. split; [|exact I2].
    intros k c' Hk. destruct (Hl k c' Hk) as (c & Hc & Ec). destruct (I1 k c Hc) as [J1 J2].
    destruct c, c'. unfold forget, set in Ec. cbn in Ec. injection Ec as -> -> -> -> -> -> -> -> -> ->. by split.
Qed.
End Frame.
