(* ===== verification/VmEventClaims.v ===== *)
(** * The promises of a VM event ring

    Claims about VmEvent.v, from the system of VmEventSystem.v, with concrete
    systems on which they are evaluated. *)

From S2P Require Import Prelude Monad P2m P2mProofs Altp2m VmEvent VmEventProofs VmEventSystem.

Section Claims.
Context {T : Type}.
Context (F : Z) (HF : 0 <= F).
Local Abbreviation S_ := (vst T).
Implicit Types (s : @sys T) (r : vm_event_domain).

(** C7. Whatever vCPUs, other domains and a helper that answers each request
    once do, in any order, no BUG_ON or ASSERT of the event ring fails, and as
    long as the ring is there the requests in it and the slots claimed never
    exceed its size. *)
Theorem vm_event_ring_safe s0 s :
  fresh_sys s0 -> reachable F s0 s ->
  (forall o, step F s o -> o <> None) /\
  (ring_page (ved (vs s)) <> None ->
     outstanding (ved (vs s)) + target_producers (ved (vs s)) + foreign_producers (ved (vs s))
       <= nr_ents (ved (vs s)) /\
     blocked (ved (vs s)) = Z.of_nat (count_flagged F (evs (vs s)))).
Proof.
  intros Hf Hr. pose proof (ring_reachable_inv F HF s0 s Hf Hr) as I. split.
  - intros o Hs E. destruct (ring_step_inv F HF s o I Hs) as (s' & E' & _). congruence.
  - intros Hon. destruct (when_on F s I Hon) as (p & _ & O).
    destruct O as [(En & Ht & Hfp & Ha) Of (Ob & _) _ _ _]. rewrite En, Ob, Of.
    unfold avail in Ha. split; [lia|done].
Qed.

(** C8. No wake-up is lost: when all requests are answered, no slot is claimed
    and no vCPU is on its way to claim one, no vCPU sleeps on the wait queue,
    and, in a domain with no more vCPUs than the ring has slots, none is left
    paused for the ring. *)
Theorem idle_ring_wakes_all s0 s :
  fresh_sys s0 -> reachable F s0 s -> ring_page (ved (vs s)) <> None ->
  outstanding (ved (vs s)) = 0 -> fholds s = 0%nat ->
  (forall k p, pcs s !! k = Some p -> p = Run \/ (p = Asleep /\ k ∈ wq (ved (vs s)))) ->
  (forall k p, pcs s !! k = Some p -> p = Run) /\
  (max_vcpus (vs s) <= nr_ents (ved (vs s)) ->
   forall k e, evs (vs s) !! k = Some e -> flagged F e = false).
Proof.
  intros Hf Hr Hon Ho Hfh Hall. pose proof (ring_reachable_inv F HF s0 s Hf Hr) as I.
  destruct (when_on F s I Hon) as (p & Hp & _). destruct (inv_core F s p I Hp) as (C & L1 & L2).
  assert (Hno : ~ under_way (ved (vs s)) (pcs s) (fholds s)).
  { intros [H|[H|(k & q & Hk & Ha)]]; [lia|lia|].
    destruct (Hall k q Hk) as [-> |[-> Hw]]; [done|]. by apply Ha. }
  split.
  - intros k q Hk. destruct (Hall k q Hk) as [-> |[-> Hw]]; [done|]. by destruct (Hno (L2 k Hk Hw)).
  - intros Hm. destruct L1 as [R|]; [|done]. destruct (c_blocked F s p C) as (Eb & _).
    assert (H0 : holders (pcs s) = 0%nat).
    { destruct (holders (pcs s)) eqn:E; [done|].
      destruct (holders_pos (pcs s)) as (k & q & Hk & Hq); [lia|].
      destruct (Hall k q Hk) as [-> |[-> _]]; done. }
    pose proof (c_target F s p C) as Et. pose proof (c_foreign F s p C) as Ef.
    rewrite (c_ents F s p C) in Hm. rewrite (c_flag F s p C) in Eb.
    apply count_zero. unfold room_used, avail in R. lia.
Qed.

(** ** The ring is a queue *)

(** What the helper has not read yet, in the order it will read it. *)
Definition unread_requests r (p : sring) (h : Z) : list (option vm_event) :=
  (fun i => slots p !! ring_slot r (h + i)) <$> seqZ 0 (u32 (req_prod p - h)).

Lemma ring_slot_8 r i : nr_ents r = 8 -> ring_slot r i = Z.to_nat (i mod 8).
Proof.
  intros En. unfold ring_slot. rewrite En. change (8 - 1) with (Z.ones 3).
  by rewrite Z.land_ones by done.
Qed.

Lemma mod8_last n h : (h + u32 (n - h)) mod 8 = n mod 8.
Proof. unfold u32. dlia. Qed.
Lemma mod8_other n h i : u32 (n - h) < 8 -> 0 <= i < u32 (n - h) -> (h + i) mod 8 <> n mod 8.
Proof. unfold u32. intros. dlia. Qed.

Lemma unread_put r r' p h req :
  nr_ents r = 8 -> nr_ents r' = 8 -> length (slots p) = 8%nat -> req_prod p = req_prod_pvt r ->
  u32 (req_prod_pvt r - h) < 8 ->
  unread_requests r' (page_put r req p) h = unread_requests r p h ++ [Some req].
Proof.
  intros En En' Hl Hp Hlt. unfold unread_requests. cbn. rewrite Hp.
  rewrite idx_succ by done. pose proof (u32_range (req_prod_pvt r - h)).
  rewrite seqZ_app by lia. rewrite fmap_app. change (seqZ (0 + u32 (req_prod_pvt r - h)) 1) with [0 + u32 (req_prod_pvt r - h)].
  cbn [fmap list_fmap]. f_equal.
  - apply list_fmap_ext. intros j i Hi. apply lookup_seqZ in Hi as [-> Hi].
    rewrite !ring_slot_8 by done. rewrite list_lookup_insert_ne; [done|].
    pose proof (mod8_other (req_prod_pvt r) h (0 + Z.of_nat j) Hlt ltac:(lia)). intros E.
    pose proof (Z.mod_pos_bound (req_prod_pvt r) 8 ltac:(done)).
    pose proof (Z.mod_pos_bound (h + (0 + Z.of_nat j)) 8 ltac:(done)). lia.
  - f_equal. rewrite !ring_slot_8 by done. rewrite Z.add_0_l, mod8_last.
    apply list_lookup_insert_eq. rewrite Hl.
    pose proof (Z.mod_pos_bound (req_prod_pvt r) 8 ltac:(done)). lia.
Qed.

Lemma behind_prod n h c : u32 (n - c) < 8 -> u32 (h - c) <= u32 (n - c) -> u32 (n - h) <= u32 (n - c).
Proof. unfold u32. intros. dlia. Qed.

(** C18. A request put into a reserved slot is appended, stamped with the
    interface version and with whether it is foreign, to what the helper has
    still to read; nothing the helper has not read is overwritten. *)
Theorem put_request_appends s0 s cur req p :
  fresh_sys s0 -> reachable F s0 s -> ring_page (ved (vs s)) = Some p -> may_return cur s ->
  exists v' p', vm_event_put_request cur req (vs s) = Some (tt, v') /\
    ring_page (ved v') = Some p' /\
    unread_requests (ved v') p' (hcons s) =
      unread_requests (ved (vs s)) p (hcons s) ++ [Some (stamp cur req)].
Proof.
  intros Hf Hr Hp Hm. pose proof (ring_reachable_inv F HF s0 s Hf Hr) as I.
  destruct (inv_core F s p I Hp) as (C & _). pose proof (reserved F cur s p C Hm) as (_ & _ & Ro).
  assert (W : wp (vm_event_put_request cur req) (fun _ v' => exists p',
    ring_page (ved v') = Some p' /\
    unread_requests (ved v') p' (hcons s) =
      unread_requests (ved (vs s)) p (hcons s) ++ [Some (stamp cur req)]) (vs s)).
  { apply (wp_put F HF cur s p); [done..|]. intros v' _ Hp' En. eexists. split; [exact Hp'|].
    destruct (c_idx F s p C) as [Is Ip Ir Ia]. unfold outstanding in *.
    apply unread_put; [apply C|done..|].
    pose proof (behind_prod _ _ _ Ro Ir). lia. }
  apply wp_run in W as ([] & v' & E & p' & Hp' & Hu). by exists v', p'.
Qed.

(** ** Where the ring falls short *)

Lemma wake_loop_stops A : forall n i (v : S_) online, A <= online ->
  wake_blocked_loop n i online A v = Some (tt, v).
Proof.
  induction n as [|n IH]; intros i v online Ha; [done|]. simpl. unfold bind, gets.
  destruct (evs v !! Z.to_nat (i mod max_vcpus v)); [|by apply IH].
  replace (A <=? online) with true by (symmetry; by apply Z.leb_le). by rewrite orb_true_r.
Qed.

(** While as many vCPUs are not paused as the ring has slots, waking does
    nothing, even when the ring is empty: in a domain with more vCPUs than
    slots a vCPU paused after its event stays paused although the event has
    been answered. *)
Theorem extra_vcpus_stay_paused s0 s :
  fresh_sys s0 -> reachable F s0 s -> ring_page (ved (vs s)) <> None -> wq (ved (vs s)) = [] ->
  nr_ents (ved (vs s)) <= max_vcpus (vs s) - blocked (ved (vs s)) ->
  vm_event_wake (vs s) = Some (tt, vs s).
Proof.
  intros Hf Hr Hon Hq Hm. pose proof (ring_reachable_inv F HF s0 s Hf Hr) as I.
  destruct (when_on F s I Hon) as (p & _ & [Hs Of (Eb & _) _ _ _]).
  assert (W : wp vm_event_wake (fun _ v' => v' = vs s) (vs s)).
  { unfold vm_event_wake. apply wp_bind, wp_gets. rewrite Hq, bool_decide_eq_false_2 by (by intros []).
    unfold vm_event_wake_blocked. apply wp_bind, wp_available; [done|]. apply wp_bind, wp_gets. cbv zeta.
    case_if E; [by apply wp_ret|]. rewrite <- Eb. apply wp_bind, wp_bug_on; [by rewrite Z.eqb_refl|].
    unfold wp. rewrite wake_loop_stops; [done|]. destruct Hs as (En & Ht & Hfp & Ha).
    unfold avail. pose proof (outstanding_range (ved (vs s))). lia. }
  apply wp_run in W as ([] & v' & E & ->). done.
Qed.

(** vm_event_disable() looks for vCPUs on the wait queue but not for
    slots that are claimed: between a claim and the put of the request it
    succeeds and unmaps the page, and the put that follows, which needs no
    further check by its contract, accesses the unmapped page. *)
Theorem disable_between_claim_and_put s0 s cur req :
  fresh_sys s0 -> reachable F s0 s -> may_return cur s -> wq (ved (vs s)) = [] ->
  exists v', vm_event_disable (vs s) = Some (0, v') /\ vm_event_put_request cur req v' = None.
Proof.
  intros Hf Hr Hm Hq. pose proof (ring_reachable_inv F HF s0 s Hf Hr) as I.
  pose proof (reserved_on F cur s I Hm) as Hon.
  assert (W : wp vm_event_disable (fun rc v' => rc = 0 /\ ring_page (ved v') = None) (vs s)).
  { unfold vm_event_disable. apply wp_bind, wp_gets. rewrite bool_decide_eq_false_2 by done.
    rewrite Hq, bool_decide_eq_false_2 by (by intros []).
    apply wp_bind, wp_modify. apply wp_bind, wp_clear_all. intros d es b L Hc.
    apply wp_bind, wp_modify, wp_bind, wp_cleanup_domain. intros es' L' Hc'. by apply wp_ret. }
  apply wp_run in W as (rc & v' & E & -> & Hp). exists v'. split; [done|].
  assert (E' : put_in_ring (stamp cur req) v' = None).
  { unfold put_in_ring, bind, gets, bug_on. destruct (s32 (RING_FREE_REQUESTS (ved v')) <=? 0); [done|].
    unfold page_upd, page_get, bind, deref. by rewrite Hp. }
  unfold vm_event_put_request, bind at 1. by rewrite E'.
Qed.
End Claims.

(** ** A concrete system *)

Definition demo_page : sring := mkSring 0 1 0 1 (replicate 8 no_event).
Definition demo_env : enable_env := mkEnEnv 5 true (fun _ => true) (inr demo_page) 3.
Definition demo_domain : domain unit :=
  mkDomain [] [] [] 0 None [] ∅ false false false true false 0 0.
Definition demo_fresh (n : nat) : @sys unit :=
  mkSys (mkVst demo_domain (Z.of_nat n) (replicate n (mkVe 0 0 0 0 0 None false))
           (mkVed 0 0 None 0 0 0 0 0 [] 0 0) None ∅ 0 0)
    (replicate n Run) 0 0.

Lemma demo_is_fresh n : Z.of_nat n < 2 ^ 31 -> fresh_sys (demo_fresh n).
Proof.
  intros Hn. split; cbn; rewrite ?length_replicate; try done; [|by exists 0|].
  - intros k p Hk. by apply lookup_replicate in Hk as [-> _].
  - intros k e Hk. by apply lookup_replicate in Hk as [-> _].
Qed.

Definition is_some {A} (o : option A) : bool := match o with Some _ => true | None => false end.

Lemma reach_next {F T} (s0 s d : @sys T) o :
  reachable F s0 s -> step F s o -> is_some o = true -> reachable F s0 (default d o).
Proof. intros Hr Hs Ho. destruct o as [s'|]; [|done]. by eapply reach_step. Qed.

(** The ring is set up, vCPU 0 claims a slot, puts a request, and the helper
    answers. *)
Definition demo_on (n : nat) : @sys unit :=
  default (demo_fresh n) (run (vm_event_enable demo_env 5) (demo_fresh n)
    (fun res v' => mkSys v' (pcs (demo_fresh n)) (fholds (demo_fresh n))
       (if res.1 =? 0 then 0 else hcons (demo_fresh n)))).
Definition demo_claimed (n : nat) : @sys unit :=
  default (demo_fresh n) (run (vm_event_grab_slot false) (demo_on n)
    (fun rc => at_pc (demo_on n) 0 (after_grab rc Hold Busy Run))).
Definition demo_put (n : nat) : @sys unit :=
  default (demo_fresh n) (run (vm_event_put_request (Some 0%nat) no_event) (demo_claimed n)
    (fun _ => at_pc (demo_claimed n) 0 Run)).
Definition demo_read (n : nat) : @sys unit :=
  mkSys (vs (demo_put n)) (pcs (demo_put n)) (fholds (demo_put n)) (u32 (hcons (demo_put n) + 1)).
Definition demo_answered (n : nat) : @sys unit :=
  mkSys ((vs (demo_read n)) <| ved ::= answer no_event |>) (pcs (demo_read n))
    (fholds (demo_read n)) (hcons (demo_read n)).
Definition demo_done (n : nat) : @sys unit :=
  default (demo_fresh n) (run vm_event_get_response (demo_answered n)
    (fun _ v' => mkSys v' (pcs (demo_answered n)) (fholds (demo_answered n)) (hcons (demo_answered n)))).

(** The runs that end in these states. *)
Definition demo_runs (n : nat) : bool :=
  is_some (run (vm_event_enable demo_env 5) (demo_fresh n) (fun _ _ => demo_fresh n)) &&
  is_some (run (vm_event_grab_slot false) (demo_on n) (fun _ _ => demo_fresh n)) &&
  is_some (run (vm_event_put_request (Some 0%nat) no_event) (demo_claimed n) (fun _ _ => demo_fresh n)) &&
  is_some (run vm_event_get_response (demo_answered n) (fun _ _ => demo_fresh n)).

Lemma run_is_some {T A} (m : M (vst T) A) s k k' :
  is_some (run m s k) = true -> is_some (run m s k') = true.
Proof. unfold run. by destruct (m (vs s)) as [[a v']|]. Qed.

Lemma demo_reach_claimed n :
  demo_runs n = true -> pcs (demo_on n) !! 0%nat = Some Run ->
  reachable 5 (demo_fresh n) (demo_on n) /\ reachable 5 (demo_fresh n) (demo_claimed n).
Proof.
  intros (((H1 & H2)%andb_true_iff & H3)%andb_true_iff & H4)%andb_true_iff Hr.
  assert (R1 : reachable 5 (demo_fresh n) (demo_on n)).
  { apply (reach_next _ (demo_fresh n)); [constructor| |by eapply run_is_some].
    by apply (step_enable _ _ demo_env). }
  split; [done|]. apply (reach_next _ (demo_on n)); [done| |by eapply run_is_some].
  by apply step_claim.
Qed.

Definition page_holds (s : @sys unit) (f : sring -> bool) : bool :=
  match ring_page (ved (vs s)) with Some p => f p | None => false end.

Lemma demo_reach_done n :
  demo_runs n = true -> pcs (demo_on n) !! 0%nat = Some Run -> pcs (demo_claimed n) !! 0%nat = Some Hold ->
  page_holds (demo_put n) (fun p => negb (u32 (req_prod p - hcons (demo_put n)) =? 0)) = true ->
  page_holds (demo_read n) (fun p => negb (u32 (hcons (demo_read n) - rsp_prod p) =? 0)) = true ->
  page_holds (demo_answered n) (fun _ => true) = true ->
  reachable 5 (demo_fresh n) (demo_done n).
Proof.
  unfold page_holds. intros Hd Hr Hh H1 H2 Hon.
  destruct (ring_page (ved (vs (demo_put n)))) as [p1|] eqn:Hp1; [|done].
  destruct (ring_page (ved (vs (demo_read n)))) as [p2|] eqn:Hp2; [|done]. zbool.
  pose proof (demo_reach_claimed n Hd Hr) as (_ & R2).
  apply andb_true_iff in Hd as ((_ & H3)%andb_true_iff & H4).
  assert (R3 : reachable 5 (demo_fresh n) (demo_put n)).
  { apply (reach_next _ (demo_claimed n)); [done| |by eapply run_is_some]. by apply step_put. }
  assert (R4 : reachable 5 (demo_fresh n) (demo_read n)).
  { apply (reach_step _ _ (demo_put n)); [done|]. by apply (step_read _ _ p1). }
  assert (R5 : reachable 5 (demo_fresh n) (demo_answered n)).
  { apply (reach_step _ _ (demo_read n)); [done|]. by apply (step_answer _ _ p2). }
  apply (reach_next _ (demo_answered n)); [done| |by eapply run_is_some]. apply step_response.
  intros E. by rewrite E in Hon.
Qed.

Lemma demo_claimed_2 : reachable 5 (demo_fresh 2) (demo_claimed 2).
Proof. apply demo_reach_claimed; vm_compute; reflexivity. Qed.
Lemma demo_done_2 : reachable 5 (demo_fresh 2) (demo_done 2).
Proof. apply demo_reach_done; vm_compute; reflexivity. Qed.
Lemma demo_done_16 : reachable 5 (demo_fresh 16) (demo_done 16).
Proof. apply demo_reach_done; vm_compute; reflexivity. Qed.

Lemma vm_event_ring_safe_witness :
  (forall o, step 5 (demo_done 16) o -> o <> None) /\
  (ring_page (ved (vs (demo_done 16))) <> None ->
     outstanding (ved (vs (demo_done 16))) + target_producers (ved (vs (demo_done 16)))
       + foreign_producers (ved (vs (demo_done 16))) <= nr_ents (ved (vs (demo_done 16))) /\
     blocked (ved (vs (demo_done 16))) = Z.of_nat (count_flagged 5 (evs (vs (demo_done 16))))).
Proof.
  apply (vm_event_ring_safe 5 ltac:(done) (demo_fresh 16) (demo_done 16)
    (demo_is_fresh 16 ltac:(done)) demo_done_16).
Defined.

Lemma idle_ring_wakes_all_witness :
  max_vcpus (vs (demo_done 2)) = 2 /\
  forall k e, evs (vs (demo_done 2)) !! k = Some e -> flagged 5 e = false.
Proof.
  split; [reflexivity|].
  apply (idle_ring_wakes_all 5 ltac:(done) (demo_fresh 2) (demo_done 2)
    (demo_is_fresh 2 ltac:(done)) demo_done_2); [by vm_compute..| |by vm_compute].
  intros [|[|k]] p Hk; vm_compute in Hk; [left; congruence..|done].
Defined.

Lemma put_request_appends_witness :
  exists v' p', vm_event_put_request (Some 0%nat) no_event (vs (demo_claimed 2)) = Some (tt, v') /\
    ring_page (ved v') = Some p' /\
    unread_requests (ved v') p' 0 = [Some (no_event <| version := 1 |>)].
Proof.
  destruct (put_request_appends 5 ltac:(done) (demo_fresh 2) (demo_claimed 2) (Some 0%nat) no_event
    demo_page (demo_is_fresh 2 ltac:(done)) demo_claimed_2) as (v' & p' & E & Hp & Hu).
  - by vm_compute.
  - by vm_compute.
  - exists v', p'. split_and!; [done..|]. change (hcons (demo_claimed 2)) with 0 in Hu. rewrite Hu.
    by vm_compute.
Defined.

(** With 16 vCPUs, vCPU 0 is still paused when its event has been answered. *)
Lemma extra_vcpus_stay_paused_witness :
  (flagged 5 <$> evs (vs (demo_done 16)) !! 0%nat) = Some true /\
  outstanding (ved (vs (demo_done 16))) = 0 /\
  vm_event_wake (vs (demo_done 16)) = Some (tt, vs (demo_done 16)).
Proof.
  split; [by vm_compute|]. split; [by vm_compute|].
  apply (extra_vcpus_stay_paused 5 ltac:(done) (demo_fresh 16) (demo_done 16)
    (demo_is_fresh 16 ltac:(done)) demo_done_16); by vm_compute.
Defined.

Lemma disable_between_claim_and_put_witness :
  exists v', vm_event_disable (vs (demo_claimed 2)) = Some (0, v') /\
    vm_event_put_request (Some 0%nat) no_event v' = None.
Proof.
  apply (disable_between_claim_and_put 5 ltac:(done) (demo_fresh 2) (demo_claimed 2) (Some 0%nat)
    no_event (demo_is_fresh 2 ltac:(done)) demo_claimed_2); by vm_compute.
Defined.
