(* ===== verification/MemAccess.v ===== *)
(** * Memory-access events and the answers to events
      (xen/arch/x86/mm/p2m.c, xen/common/mem_access.c, xen/common/vm_event.c,
      xen/arch/x86/hvm/hvm.c)

    A helper restricts the access to guest frames; a guest access against the
    restriction becomes a request on the monitor ring, the vCPU is paused, and
    the helper's response says how it goes on: with the instruction emulated,
    in another view, single-stepped.  The tables are those of Altp2m.v; the
    host table's set_entry() is followed by the propagation to the views, as in
    ept_set_entry().

    The ring of [vst] is the monitor ring but in [vm_event_resume], which all
    rings share, and in the operations on the three rings at the end. *)

From S2P Require Import Prelude Monad P2m Altp2m VmEvent.

Definition VM_EVENT_REASON_MEM_ACCESS : Z := 1.
Definition VM_EVENT_REASON_MEM_PAGING : Z := 3.
Definition VM_EVENT_REASON_WRITE_CTRLREG : Z := 4.
Definition VM_EVENT_REASON_MOV_TO_MSR : Z := 5.
Definition VM_EVENT_X86_CR0 : Z := 0.
Definition VM_EVENT_X86_CR3 : Z := 1.
Definition VM_EVENT_X86_CR4 : Z := 2.
Definition MEM_ACCESS_R : Z := Z.shiftl 1 0.
Definition MEM_ACCESS_W : Z := Z.shiftl 1 1.
Definition MEM_ACCESS_X : Z := Z.shiftl 1 2.
Definition MEM_ACCESS_RWX : Z := Z.lor MEM_ACCESS_R (Z.lor MEM_ACCESS_W MEM_ACCESS_X).
Definition MEM_ACCESS_RW : Z := Z.lor MEM_ACCESS_R MEM_ACCESS_W.
Definition MEM_ACCESS_RX : Z := Z.lor MEM_ACCESS_R MEM_ACCESS_X.
Definition MEM_ACCESS_WX : Z := Z.lor MEM_ACCESS_W MEM_ACCESS_X.
Definition MEM_ACCESS_GLA_VALID : Z := Z.shiftl 1 3.
Definition MEM_ACCESS_FAULT_WITH_GLA : Z := Z.shiftl 1 4.
Definition MEM_ACCESS_FAULT_IN_GPT : Z := Z.shiftl 1 5.
Definition MEM_PAGING_DROP_PAGE : Z := Z.shiftl 1 0.
Definition MEMOP_CMD_MASK : Z := Z.shiftl 1 6 - 1.
Definition XENMEM_access_op_set_access : Z := 0.
Definition XENMEM_access_op_get_access : Z := 1.
Definition XENMEM_access_op_enable_emulate : Z := 2.
Definition XENMEM_access_op_disable_emulate : Z := 3.
Definition ERANGE : Z := 34.
Definition EMLINK : Z := 31.
Definition EXDEV : Z := 18.

(** enum xenmem_access_t: the two tables called memaccess[]. *)
Definition memaccess_to_p2m : list p2m_access :=
  [p2m_access_n; p2m_access_r; p2m_access_w; p2m_access_rw; p2m_access_x;
   p2m_access_rx; p2m_access_wx; p2m_access_rwx; p2m_access_rx2rw; p2m_access_n2rwx].
Definition memaccess_of_p2m (a : p2m_access) : Z :=
  match a with
  | p2m_access_n => 0 | p2m_access_r => 1 | p2m_access_w => 2 | p2m_access_rw => 3
  | p2m_access_x => 4 | p2m_access_rx => 5 | p2m_access_wx => 6 | p2m_access_rwx => 7
  | p2m_access_rx2rw => 8 | p2m_access_n2rwx => 9
  end.

(** struct npfec *)
Record npfec := mkNpfec {
  read_access : bool; write_access : bool; insn_fetch : bool; gla_valid : bool;
  kind : Z                                 (* npfec_kind_t *)
}.
Definition npfec_kind_in_gpt : Z := 1.
Definition npfec_kind_with_gla : Z := 2.

Inductive emul_kind := EMUL_KIND_NORMAL | EMUL_KIND_NOWRITE | EMUL_KIND_SET_CONTEXT.

Section MemAccess.
Local Open Scope monad_scope.
Context {T : Type} `{P2MTable T}.
Context (cfg : p2m_config) (plat : platform).
Context (mem_sharing_unshare_page : T -> Z -> T) (zero : T) (mask_ok : Z -> bool).
Context (cur : option nat).
(** p2m->access_required of the host table ([None]) and of the views. *)
Context (access_required : option Z -> bool).
(** hvm_is_singlestep_supported() *)
Context (singlestep_supported : bool).
Local Abbreviation D := (domain T).
Local Abbreviation S_ := (vst T).

(** ** Entries of the host table and of a view *)

(** ept_set_entry() on the host table ends with the propagation. *)
Definition host_set_entry (gfn mfn order : Z) (ty : p2m_type) (a : p2m_access) (sve : Z) : M D Z :=
  let! h := host_get in
  let '(rc, t) := set_entry (table h) gfn mfn order ty a sve in
  host_upd (fun h => h <| table := t |>) ;;
  when (rc =? 0)
    (p2m_altp2m_propagate_change cfg plat mem_sharing_unshare_page zero mask_ok gfn mfn order ty a) ;;
  ret rc.

(** [None] is the host table. *)
Definition sel_get_entry (p : option Z) (gfn : Z) : M D p2m_ent :=
  match p with None => host_get_entry gfn 0 | Some i => alt_get_entry i gfn 0 end.
Definition sel_set_entry (p : option Z) (gfn mfn : Z) (ty : p2m_type) (a : p2m_access) : M D Z :=
  match p with
  | None => host_set_entry gfn mfn PAGE_ORDER_4K ty a (-1)
  | Some i => alt_set_entry i gfn mfn PAGE_ORDER_4K ty a (-1)
  end.

(** ** p2m.c: access rights of the host table *)

(** The result, and the value of [*access]. *)
Definition p2m_get_mem_access (gfn : Z) : M D (Z * Z) :=
  let! h := host_get in
  if gfn =? INVALID_GFN then ret (0, memaccess_of_p2m (default_access h))
  else
    let! e := host_get_entry gfn 0 in
    if e_mfn e =? INVALID_MFN then ret (- ESRCH, 0)
    else ret (0, memaccess_of_p2m (e_access e)).

(** The loop of p2m_set_mem_access() with [n] = nr - start frames left;
    [preempt start] is hypercall_preempt_check(). *)
Fixpoint set_access_loop (n : nat) (gfn_l start nr mask : Z) (a : p2m_access)
    (preempt : Z -> bool) : M D Z :=
  match n with
  | O => ret 0
  | S n' =>
      let! e := host_get_entry gfn_l 0 in
      let! rc := host_set_entry gfn_l (e_mfn e) PAGE_ORDER_4K (e_type e) a (-1) in
      if negb (rc =? 0) then ret rc
      else
        let start := start + 1 in
        if (start <? nr) && (Z.land start mask =? 0) && preempt start then ret start
        else set_access_loop n' (u64 (gfn_l + 1)) start nr mask a preempt
  end.

(** The access right asked for, [None] for the default of the switch. *)
Definition requested_access (h : p2m_domain T) (access : Z) : option p2m_access :=
  if (0 <=? access) && (access <? Z.of_nat (length memaccess_to_p2m))
  then memaccess_to_p2m !! Z.to_nat access
  else if access =? XENMEM_access_default then Some (default_access h) else None.

Definition p2m_set_mem_access (gfn nr start mask access : Z) (preempt : Z -> bool) : M D Z :=
  let! h := host_get in
  match requested_access h access with
  | None => ret (- EINVAL)
  | Some a =>
      if gfn =? INVALID_GFN then
        host_upd (fun h => h <| default_access := a |>) ;; ret 0
      else set_access_loop (Z.to_nat (nr - start)) (u64 (gfn + start)) start nr mask a preempt
  end.

(** ** common/mem_access.c *)

Record xen_mem_access_op := mkMao { mao_op : Z; mao_access : Z; mao_nr : Z; mao_pfn : Z }.
Record memop_env := mkMemEnv {
  mo_copy_from_ok : bool; mo_copy_to_ok : bool;
  mo_lock_rc : Z;                          (* rcu_lock_live_remote_domain_by_id() *)
  mo_xsm_rc : Z;                           (* xsm_mem_access() *)
  mo_max_gpfn : Z                          (* domain_get_maximum_gpfn() *)
}.

(** What mem_access_memop() ends with: a result, with the access right copied
    back when there is one, or a continuation of the hypercall. *)
Inductive memop_end := Done (rc : Z) (access : option Z) | Continue (cmd : Z).
Definition XENMEM_access_op : Z := 21.

(** d->arch.mem_access_emulate_enabled is passed and returned. *)
Definition mem_access_memop (env : memop_env) (preempt : Z -> bool) (emulate : bool)
    (cmd : Z) (mao : xen_mem_access_op) : M S_ (memop_end * bool) :=
  let start_iter := Z.ldiff cmd MEMOP_CMD_MASK in
  let fin rc := ret (Done rc None, emulate) in
  if negb (mo_copy_from_ok env) then fin (- EFAULT)
  else if negb (mo_lock_rc env =? 0) then fin (mo_lock_rc env)
  else
    let! s := gets (fun s : S_ => s) in
    if negb (is_hvm (dm s) && cpu_has_vmx plat && hap_enabled cfg) then fin (- EINVAL)
    else if negb (mo_xsm_rc env =? 0) then fin (mo_xsm_rc env)
    else if bool_decide (ring_page (ved s) = None) then fin (- ENODEV)
    else if mao_op mao =? XENMEM_access_op_set_access then
      let last := u64 (mao_pfn mao + mao_nr mao - 1) in
      if negb (mao_pfn mao =? 2 ^ 64 - 1)
         && ((mao_nr mao <? start_iter) || (last <? mao_pfn mao) || (mo_max_gpfn env <? last))
      then fin (- EINVAL)
      else
        let! rc := on_dom (p2m_set_mem_access (mao_pfn mao) (mao_nr mao) start_iter
                             MEMOP_CMD_MASK (mao_access mao) preempt) in
        if 0 <? rc then
          bug_on (negb (Z.land rc MEMOP_CMD_MASK =? 0)) ;;
          ret (Continue (Z.lor XENMEM_access_op rc), emulate)
        else fin rc
    else if mao_op mao =? XENMEM_access_op_get_access then
      if negb (start_iter =? 0) then fin (- ENOSYS)
      else if (mo_max_gpfn env <? mao_pfn mao) && negb (mao_pfn mao =? 2 ^ 64 - 1) then fin (- EINVAL)
      else
        let! r := on_dom (p2m_get_mem_access (mao_pfn mao)) in
        if negb (r.1 =? 0) then fin r.1
        else if mo_copy_to_ok env then ret (Done 0 (Some r.2), emulate) else fin (- EFAULT)
    else if mao_op mao =? XENMEM_access_op_enable_emulate then
      ret (if emulate then (Done (- EEXIST) None, true) else (Done 0 None, true))
    else if mao_op mao =? XENMEM_access_op_disable_emulate then
      ret (if emulate then (Done 0 None, false) else (Done (- EEXIST) None, false))
    else fin (- ENOSYS).

(** mem_access_send_req() up to the point where the vCPU goes to sleep
    ([None]), and from there. *)
Definition put_claimed (rc : option Z) (req : vm_event) : M S_ (option Z) :=
  match rc with
  | None => ret None
  | Some rc => if rc <? 0 then ret (Some rc) else vm_event_put_request cur req ;; ret (Some 0)
  end.
Definition mem_access_send_req (req : vm_event) : M S_ (option Z) :=
  let! rc := __vm_event_claim_slot cur true in put_claimed rc req.
Definition mem_access_send_req_again (k : nat) (req : vm_event) : M S_ (option Z) :=
  let! rc := wait_slot_again k in put_claimed rc req.

(** ** p2m.c: what a response says about the access *)

(** The switch of p2m_mem_access_emulate_check(): [data->flags] against the
    access right of the host table. *)
Definition emul_violation (access mflags : Z) : bool :=
  let test m := negb (Z.land mflags m =? 0) in
  if access =? 1 then test MEM_ACCESS_WX                             (* r *)
  else if access =? 2 then test MEM_ACCESS_RX                        (* w *)
  else if access =? 4 then test MEM_ACCESS_RW                        (* x *)
  else if (access =? 5) || (access =? 8) then test MEM_ACCESS_W      (* rx, rx2rw *)
  else if access =? 6 then test MEM_ACCESS_R                         (* wx *)
  else if access =? 3 then test MEM_ACCESS_X                         (* rw *)
  else if access =? 7 then false                                     (* rwx *)
  else test MEM_ACCESS_RWX.                                          (* n, n2rwx *)

Definition has_flag (f : Z) (e : vm_event) : bool := negb (Z.land (flags e) f =? 0).

Definition p2m_mem_access_emulate_check (k : nat) (rsp : vm_event) : M S_ unit :=
  when (has_flag VM_EVENT_FLAG_EMULATE rsp)
    (let! r := on_dom (p2m_get_mem_access (ma_req_gfn rsp)) in
     let violation := if r.1 =? 0 then emul_violation r.2 (ma_req_flags rsp) else true in
     ev_upd k (fun v => v <| emulate_flags := if violation then flags rsp else 0 |>) ;;
     let! v := ev_get k in
     when (has_flag VM_EVENT_FLAG_SET_EMUL_READ_DATA rsp && bool_decide (emul_read_data v <> None))
       (ev_upd k (fun v => v <| emul_read_data := Some (ev_data rsp) |>))).

(** p2m_mem_paging_resume(); [log_dirty] is paging_mode_log_dirty(). *)
Definition p2m_mem_paging_resume (log_dirty : bool) (rsp : vm_event) : M D unit :=
  when (Z.land (pg_flags rsp) MEM_PAGING_DROP_PAGE =? 0)
    (let gfn := ma_req_gfn rsp in
     let! e := host_get_entry gfn 0 in
     when (mfn_valid cfg (e_mfn e) && bool_decide (e_type e = p2m_ram_paging_in))
       (host_set_entry gfn (e_mfn e) PAGE_ORDER_4K
          (if log_dirty then p2m_ram_logdirty else p2m_ram_rw) (e_access e) (-1) ;;
        modify (fun d : D => d <| m2p ::= <[e_mfn e := gfn]> |>))).

(** ** arch/x86/vm_event.c *)

Definition vm_event_toggle_singlestep (k : nat) : M S_ unit :=
  let! s := gets (fun s : S_ => s) in
  let! v := ev_get k in
  if negb (is_hvm (dm s)) || (vm_event_pause_count v =? 0) then ret tt
  else
    let! c := on_dom (vcpu_get k) in
    bug_on (pause_count c =? 0) ;;
    when singlestep_supported (ev_upd k (fun v => v <| single_step ::= negb |>)).

Definition vm_event_register_write_resume (k : nat) (rsp : vm_event) : M S_ unit :=
  when (has_flag VM_EVENT_FLAG_DENY rsp)
    (let! s := gets (fun s : S_ => s) in
     let! w := deref event_write_data in
     let upd f := modify (fun s : S_ => s <| event_write_data := Some (alter f k w) |>) in
     if reason rsp =? VM_EVENT_REASON_MOV_TO_MSR then upd (fun x => x <| do_msr := false |>)
     else if reason rsp =? VM_EVENT_REASON_WRITE_CTRLREG then
       if cr_index rsp =? VM_EVENT_X86_CR0 then upd (fun x => x <| do_cr0 := false |>)
       else if cr_index rsp =? VM_EVENT_X86_CR3 then upd (fun x => x <| do_cr3 := false |>)
       else if cr_index rsp =? VM_EVENT_X86_CR4 then upd (fun x => x <| do_cr4 := false |>)
       else ret tt
     else ret tt).

(** ** vm_event.c: the responses *)

Context (log_dirty : bool).

(** The body of the loop of vm_event_resume() for one response. *)
Definition resume_one (rsp : vm_event) : M S_ unit :=
  let! s := gets (fun s : S_ => s) in
  let k := Z.to_nat (vcpu_id rsp) in
  if negb (version rsp =? VM_EVENT_INTERFACE_VERSION) then ret tt
  else if (max_vcpus s <=? vcpu_id rsp) || bool_decide (evs s !! k = None) then ret tt
  else
    (if (reason rsp =? VM_EVENT_REASON_MOV_TO_MSR)
        || (reason rsp =? VM_EVENT_REASON_WRITE_CTRLREG)
     then vm_event_register_write_resume k rsp
     else if reason rsp =? VM_EVENT_REASON_MEM_ACCESS then p2m_mem_access_emulate_check k rsp
     else if reason rsp =? VM_EVENT_REASON_MEM_PAGING then on_dom (p2m_mem_paging_resume log_dirty rsp)
     else ret tt) ;;
    when (has_flag VM_EVENT_FLAG_ALTERNATE_P2M rsp)
      (on_dom (p2m_altp2m_check plat k (altp2m_idx rsp))) ;;
    when (has_flag VM_EVENT_FLAG_VCPU_PAUSED rsp)
      (when (has_flag VM_EVENT_FLAG_TOGGLE_SINGLESTEP rsp) (vm_event_toggle_singlestep k) ;;
       vm_event_vcpu_unpause k).

(** The loop; every iteration but the last takes one response off the ring. *)
Fixpoint resume_loop (fuel : nat) : M S_ unit :=
  match fuel with
  | O => fun _ => None
  | S fuel' =>
      let! r := vm_event_get_response in
      match r with
      | None => ret tt
      | Some rsp => resume_one rsp ;; resume_loop fuel'
      end
  end.
Definition vm_event_resume : M S_ unit :=
  let! v := gets ved in
  let! p := page_get in
  resume_loop (S (Z.to_nat (u32 (rsp_prod p - rsp_cons v)))).

(** ** p2m.c: an access against the rights *)

(** The request p2m_mem_access_check() fills in; [regs] is what
    p2m_vm_event_fill_regs() stores. *)
Definition access_request (k : nat) (gpa gla : Z) (nf : npfec) (paused : bool)
    (view : option Z) (regs : Z) : vm_event :=
  let gla_flags :=
    if gla_valid nf then
      Z.lor MEM_ACCESS_GLA_VALID
        (if kind nf =? npfec_kind_with_gla then MEM_ACCESS_FAULT_WITH_GLA
         else if kind nf =? npfec_kind_in_gpt then MEM_ACCESS_FAULT_IN_GPT else 0)
    else 0 in
  no_event
    <| reason := VM_EVENT_REASON_MEM_ACCESS |>
    <| flags := Z.lor (if paused then VM_EVENT_FLAG_VCPU_PAUSED else 0)
                  (match view with Some _ => VM_EVENT_FLAG_ALTERNATE_P2M | None => 0 end) |>
    <| vcpu_id := Z.of_nat k |>
    <| altp2m_idx := default 0 view |>
    <| ma_req_gfn := Z.shiftr gpa PAGE_SHIFT |>
    <| ma_req_offset := Z.land gpa (Z.shiftl 1 PAGE_SHIFT - 1) |>
    <| ma_req_gla := if gla_valid nf then gla else 0 |>
    <| ma_req_flags :=
         Z.lor gla_flags
           (Z.lor (if read_access nf then MEM_ACCESS_R else 0)
              (Z.lor (if write_access nf then MEM_ACCESS_W else 0)
                 (if insn_fetch nf then MEM_ACCESS_X else 0))) |>
    <| ev_data := regs |>.

(** What the guest's registers and the allocator contribute. *)
Record check_env := mkChEnv { ce_eip : Z; ce_regs : Z; ce_alloc_ok : bool }.

(** The result of p2m_mem_access_check(): what is returned, [*req_ptr], and
    how the instruction was emulated, if it was. *)
Record check_result := mkCheck {
  promoted : bool; ck_req : option vm_event; ck_emulated : option emul_kind
}.

(** Its end: the instruction is emulated when the helper asked for it, else a
    request is filled in and the vCPU is paused, unless the rights were
    promoted ([n2rwx]). *)
Definition emulate_or_report (env : check_env) (k : nat) (gpa gla : Z) (nf : npfec) (n2rwx : bool)
  : M S_ check_result :=
  let! v := ev_get k in
  if negb (emulate_flags v =? 0) then
    let kd := if negb (Z.land (emulate_flags v) VM_EVENT_FLAG_SET_EMUL_READ_DATA =? 0)
              then EMUL_KIND_SET_CONTEXT
              else if negb (Z.land (emulate_flags v) VM_EVENT_FLAG_EMULATE_NOWRITE =? 0)
              then EMUL_KIND_NOWRITE else EMUL_KIND_NORMAL in
    ev_upd k (fun v => v <| emulate_flags := 0 |>) ;;
    ret (mkCheck true None (Some kd))
  else
    let! d := gets dm in
    let! c := on_dom (vcpu_get k) in
    let view := if altp2m_active d then Some (p2midx c) else None in
    let req := if ce_alloc_ok env
               then Some (access_request k gpa gla nf (negb n2rwx) view (ce_regs env)) else None in
    when (negb n2rwx) (vm_event_vcpu_pause cur k) ;;
    ret (mkCheck n2rwx req None).

(** p2m_mem_access_check() by vCPU [k], which is [current]; the pointer to the
    request is not NULL. *)
Definition p2m_mem_access_check (env : check_env) (k : nat) (gpa gla : Z) (nf : npfec)
  : M S_ check_result :=
  let gfn := Z.shiftr gpa PAGE_SHIFT in
  let! s := gets (fun s : S_ => s) in
  let! p2m := if altp2m_active (dm s) then on_dom (p2m_get_altp2m k) else ret None in
  let! e := on_dom (sel_get_entry p2m gfn) in
  if write_access nf && bool_decide (e_access e = p2m_access_rx2rw) then
    let! rc := on_dom (sel_set_entry p2m gfn (e_mfn e) (e_type e) p2m_access_rw) in
    bug_on (negb (rc =? 0)) ;;
    ret (mkCheck true None None)
  else
    let n2rwx := bool_decide (e_access e = p2m_access_n2rwx) in
    when n2rwx
      (bug_on (negb (write_access nf || read_access nf || insn_fetch nf)) ;;
       let! rc := on_dom (sel_set_entry p2m gfn (e_mfn e) (e_type e) p2m_access_rwx) in
       bug_on (negb (rc =? 0))) ;;
    let! ring := vm_event_check_ring in
    if negb ring then
      if access_required p2m then
        on_dom domain_crash ;; ret (mkCheck false None None)
      else
        let! e := on_dom (sel_get_entry p2m gfn) in
        when (negb (bool_decide (e_access e = p2m_access_n2rwx)))
          (let! rc := on_dom (sel_set_entry p2m gfn (e_mfn e) (e_type e) p2m_access_rwx) in
           bug_on (negb (rc =? 0))) ;;
        ret (mkCheck true None None)
    else
      let! v := ev_get k in
      when (negb (ev_gpa v =? gpa) || negb (ev_eip v =? ce_eip env))
        (ev_upd k (fun v => v <| emulate_flags := 0 |> <| ev_gpa := gpa |> <| ev_eip := ce_eip env |>)) ;;
      emulate_or_report env k gpa gla nf n2rwx.
End MemAccess.
