(* ===== verification/MemAccessProofs.v ===== *)
(** * Access rights of the host table (theorems about MemAccess.v)

    Setting the rights of a range, cut into several hypercalls by preemption,
    has the effect of one loop over the range; a later query reports what was
    set. *)

From S2P Require Import Prelude Monad P2m P2mProofs Altp2m Altp2mProofs Altp2mSwitch Altp2mInv.
From S2P Require Import Altp2mTables VmEvent VmEventProofs MemAccess.

Section Host.
Context {T : Type} `{P2MTableLaws T}.
Context (cfg : p2m_config) (plat : platform).
Context (mem_sharing_unshare_page : T -> Z -> T) (zero : T) (mask_ok : Z -> bool).

Local Abbreviation D := (domain T).
Local Abbreviation shape := (shape plat).
Local Abbreviation quiet := (quiet plat).
Local Abbreviation Quiet := (Quiet plat).
Local Abbreviation host_set_entry :=
  (host_set_entry cfg plat mem_sharing_unshare_page zero mask_ok).
Implicit Types d : D.

(** ** Operations on views touch neither the host table nor the rest of the domain *)

Definition host_part d : option (p2m_domain T) * bool * gmap Z Z * bool :=
  (hostp2m d, is_hvm d, m2p d, is_dying d).

Lemma keeps_p2m_upd i f : Keeps host_part (@p2m_upd T i f).
Proof. unfold p2m_upd, p2m_get. frame_tac. Qed.
Lemma keeps_p2m_get i : Keeps host_part (@p2m_get T i).
Proof. apply keeps_deref. Qed.
Lemma keeps_eptp_get i : Keeps host_part (@eptp_get T i).
Proof. apply keeps_deref. Qed.
Lemma keeps_crash : Keeps host_part (@domain_crash T).
Proof. by apply keeps_modify. Qed.
Hint Resolve keeps_p2m_upd keeps_p2m_get keeps_eptp_get keeps_crash : keeps.

Lemma keeps_get_gfn_alt i gfn q :
  Keeps host_part (get_gfn_alt cfg mem_sharing_unshare_page i gfn q).
Proof. unfold get_gfn_alt. frame_tac. Qed.
Hint Resolve keeps_get_gfn_alt : keeps.

Lemma keeps_propagate_from gfn mfn o ty a : forall ids rc last, Keeps host_part
  (propagate_from cfg plat mem_sharing_unshare_page zero mask_ok ids gfn mfn o ty a rc last).
Proof.
  induction ids as [|i ids IH]; intros rc last; simpl; [frame_tac|].
  unfold p2m_reset_altp2m, reset_others, alt_p2m_set_entry, p2m_reset_altp2m. frame_tac.
Qed.

Lemma keeps_propagate gfn mfn o ty a : Keeps host_part
  (p2m_altp2m_propagate_change cfg plat mem_sharing_unshare_page zero mask_ok gfn mfn o ty a).
Proof.
  apply keeps_bind; [apply keeps_gets|]. intros b. apply keeps_when, keeps_propagate_from.
Qed.

(** ** One entry of the host table *)

Lemma wp_host_get_entry d h gfn Q :
  hostp2m d = Some h -> Q (get_entry (table h) gfn 0).1 d -> wp (host_get_entry gfn 0) Q d.
Proof.
  intros Hh HQ. unfold host_get_entry. apply wp_bind. eapply wp_host_get; [done|].
  pose proof (get_entry_pure (table h) gfn) as Hp.
  destruct (get_entry (table h) gfn 0) as [e t]. simpl in *. subst t.
  apply wp_bind. eapply wp_host_upd; [done|]. apply wp_ret.
  destruct d. cbn in Hh. subst. destruct h. exact HQ.
Qed.

Lemma wp_host_set_entry_full d h gfn mfn o ty a sve Q :
  shape d -> hostp2m d = Some h ->
  (forall d' rc t, set_entry (table h) gfn mfn o ty a sve = (rc, t) -> quiet d d' ->
     host_part d' = (Some (h <| table := t |>), is_hvm d, m2p d, is_dying d) -> Q rc d') ->
  wp (host_set_entry gfn mfn o ty a sve) Q d.
Proof.
  intros S Hh HQ. unfold MemAccess.host_set_entry. apply wp_bind. eapply wp_host_get; [done|].
  destruct (set_entry (table h) gfn mfn o ty a sve) as [rc t] eqn:E.
  apply wp_bind. eapply wp_host_upd; [done|]. set (d1 := d <| hostp2m ::= _ |>).
  assert (Q1 : quiet d d1) by (split; [apply evolves_host|done]).
  assert (H1 : host_part d1 = (Some (h <| table := t |>), is_hvm d, m2p d, is_dying d))
    by (unfold d1, host_part; cbn; by rewrite Hh).
  apply wp_bind, wp_when; intros _; [|by apply wp_ret, (HQ _ _ t)].
  destruct (wp_run _ _ _ (Quiet_propagate cfg plat mem_sharing_unshare_page zero mask_ok gfn mfn o ty a
    d1 (quiet_shape plat _ _ S Q1))) as (u & d2 & E2 & Q2).
  unfold wp at 1. rewrite E2. apply keeps_propagate in E2.
  apply wp_ret, (HQ _ _ t); [done|by eapply quiet_trans|by rewrite E2].
Qed.

Lemma wp_host_set_entry d h gfn mfn o ty a sve Q :
  shape d -> hostp2m d = Some h ->
  (forall d' rc t, set_entry (table h) gfn mfn o ty a sve = (rc, t) -> quiet d d' ->
     hostp2m d' = Some (h <| table := t |>) -> is_hvm d' = is_hvm d -> Q rc d') ->
  wp (host_set_entry gfn mfn o ty a sve) Q d.
Proof.
  intros S Hh HQ. eapply wp_host_set_entry_full; [done..|]. intros d' rc t E Hq Hp.
  unfold host_part in Hp. simplify_eq. by eapply HQ.
Qed.

(** ** The loop over a range *)

(** What a query sees of a frame. *)
Definition seen (t : T) (g : Z) : p2m_ent := (get_entry t g 0).1.

(** [t'] is [t] with access right [a] on the frames of [P]. *)
Definition access_set (P : Z -> Prop) (a : p2m_access) (t t' : T) : Prop :=
  table_ok t' /\
  forall g, 0 <= g ->
    e_mfn (seen t' g) = e_mfn (seen t g) /\
    (e_mfn (seen t g) <> INVALID_MFN \/ ~ P g -> e_type (seen t' g) = e_type (seen t g)) /\
    (P g -> e_mfn (seen t g) <> INVALID_MFN -> e_access (seen t' g) = a) /\
    (~ P g -> e_access (seen t' g) = e_access (seen t g)).

Lemma access_set_none (P : Z -> Prop) a t :
  table_ok t -> (forall g, ~ P g) -> access_set P a t t.
Proof. intros Ht Hn. split; [done|]. intros g Hg. split_and!; try done. intros Hp. by apply Hn in Hp. Qed.

(** One frame after the frames of [P]. *)
Lemma access_set_one (P : Z -> Prop) a t0 t t' gfn :
  access_set P a t0 t -> ~ P gfn -> 0 <= gfn ->
  may_set (e_mfn (seen t0 gfn)) 0 (e_type (seen t0 gfn)) a ->
  set_entry t gfn (e_mfn (seen t gfn)) 0 (e_type (seen t gfn)) a (-1) = (0, t') ->
  access_set (fun g => P g \/ g = gfn) a t0 t'.
Proof.
  intros (Ht & Hall) Hn Hg Hmay E. destruct (Hall gfn Hg) as (Em & Et & _ & Ea).
  rewrite <- Em, <- (Et (or_intror Hn)) in Hmay. split.
  { by eapply set_entry_ok. }
  intros g Hg0. destruct (Hall g Hg0) as (Em' & Et' & Ep' & Ea').
  destruct (decide (g = gfn)) as [->|Hne].
  - assert (Hm : e_mfn (seen t' gfn) = e_mfn (seen t gfn) /\
      (e_mfn (seen t gfn) <> INVALID_MFN -> e_type (seen t' gfn) = e_type (seen t gfn) /\ e_access (seen t' gfn) = a)).
    { destruct (decide (e_mfn (seen t gfn) = INVALID_MFN)) as [Hi|Hi].
      - rewrite Hi in *. split; [|done]. by eapply set_entry_invalid.
      - destruct (set_entry_in _ _ _ _ _ _ _ _ gfn Ht Hmay Hg E) as (A1 & A2 & A3);
          try done; [by rewrite Z.mod_1_r..|unfold order_size; lia|].
        rewrite Z.sub_diag, Z.add_0_r in A1. done. }
    destruct Hm as (Hm & Hm2). rewrite Em in *. split_and!; [done| | |].
    + intros [Hv|Hv]; [|by destruct Hv; right]. destruct (Hm2 Hv) as [-> _]. by apply Et'; left.
    + intros _ Hv. by apply Hm2.
    + intros Hv. by destruct Hv; right.
  - destruct (set_entry_out _ _ _ _ _ _ _ _ _ g Ht Hmay Hg E) as (B1 & B2 & B3);
      [by rewrite Z.mod_1_r|done|unfold order_size; lia|].
    change (e_mfn (seen t' g) = e_mfn (seen t g)) in B1. change (e_type (seen t' g) = e_type (seen t g)) in B2.
    change (e_access (seen t' g) = e_access (seen t g)) in B3. rewrite B1, B2, B3.
    split_and!; [done| | |].
    + intros [Hv|Hv]; apply Et'; [by left|right; tauto].
    + intros [Hp|Hp]; [by apply Ep'|done].
    + intros Hv. apply Ea'. tauto.
Qed.

Lemma access_set_ext (P P' : Z -> Prop) a t t' :
  (forall g, P g <-> P' g) -> access_set P a t t' -> access_set P' a t t'.
Proof.
  intros E (Ht & Hall). split; [done|]. intros g Hg. destruct (Hall g Hg) as (H1 & H2 & H3 & H4).
  rewrite (E g) in *. done.
Qed.

(** Frames outside [P] look as before. *)
Definition same_outside (P : Z -> Prop) (t t' : T) : Prop :=
  table_ok t' /\ forall g, 0 <= g -> ~ P g ->
    e_mfn (seen t' g) = e_mfn (seen t g) /\ e_type (seen t' g) = e_type (seen t g) /\
    e_access (seen t' g) = e_access (seen t g).

Lemma access_set_outside (P P' : Z -> Prop) a t t' :
  access_set P a t t' -> (forall g, P g -> P' g) -> same_outside P' t t'.
Proof.
  intros (Ht & Hall) Hsub. split; [done|]. intros g Hg Hn. destruct (Hall g Hg) as (H1 & H2 & H3 & H4).
  assert (~ P g) by (intros Hp; by apply Hn, Hsub). auto.
Qed.

Section Range.
Context (gfn nr mask : Z) (a : p2m_access) (preempt : Z -> bool) (t0 : T).
Hypothesis gfn_nonneg : 0 <= gfn.
Hypothesis range_end : gfn + nr < 2 ^ 64.
Hypothesis range_may : forall g, gfn <= g < gfn + nr ->
  may_set (e_mfn (seen t0 g)) 0 (e_type (seen t0 g)) a.

(** The frames done when the count is [n]. *)
Definition done_to (n g : Z) : Prop := gfn <= g < gfn + n.

Definition loop_end (start rc : Z) (t' : T) : Prop :=
  (rc = 0 /\ access_set (done_to nr) a t0 t') \/
  (start < rc < nr /\ Z.land rc mask = 0 /\ access_set (done_to rc) a t0 t') \/
  (rc < 0 /\ same_outside (done_to nr) t0 t').

Lemma set_fails start t t' rc :
  access_set (done_to start) a t0 t -> 0 <= start < nr ->
  set_entry t (gfn + start) (e_mfn (seen t (gfn + start))) 0 (e_type (seen t (gfn + start))) a (-1) = (rc, t') ->
  rc <> 0 -> rc < 0 /\ same_outside (done_to nr) t0 t'.
Proof.
  intros Ha Hs E Hrc. assert (Hg0 : 0 <= gfn + start) by lia. pose proof Ha as (Ht & Hall). destruct (Hall (gfn + start)) as (Em & Et & _ & _); [lia|].
  assert (Hmay : may_set (e_mfn (seen t (gfn + start))) 0 (e_type (seen t (gfn + start))) a).
  { rewrite Em, Et by (right; unfold done_to; lia). apply range_may. lia. }
  split; [pose proof (set_entry_rc _ _ _ _ _ _ _ _ _ Ht Hmay Hg0 E); lia|].
  split; [exact (set_entry_ok _ _ _ _ _ _ _ _ _ Ht Hmay Hg0 E)|]. intros g Hg Hn.
  destruct (set_entry_out _ _ _ _ _ _ _ _ _ g Ht Hmay Hg0 E ltac:(by rewrite Z.mod_1_r) Hg)
    as (B1 & B2 & B3); [unfold order_size, done_to in *; lia|].
  destruct (access_set_outside _ (done_to nr) _ _ _ Ha) as [_ Ho]; [unfold done_to; lia|].
  destruct (Ho g Hg Hn) as (O1 & O2 & O3). unfold seen in *. split_and!; etransitivity; eauto.
Qed.

Lemma wp_set_access_loop : forall n start d h,
  n = Z.to_nat (nr - start) -> 0 <= start <= nr -> shape d -> hostp2m d = Some h ->
  access_set (done_to start) a t0 (table h) ->
  wp (set_access_loop cfg plat mem_sharing_unshare_page zero mask_ok n (u64 (gfn + start)) start nr mask a preempt)
    (fun rc d' => quiet d d' /\ is_hvm d' = is_hvm d /\ exists t', hostp2m d' = Some (h <| table := t' |>) /\ loop_end start rc t') d.
Proof.
  induction n as [|n IH]; intros start d h En Hs S Hh Ha; simpl.
  { apply wp_ret. split; [apply quiet_refl|]. split; [done|]. exists (table h). split; [by destruct h|]. left. split; [done|].
    by replace nr with start by lia. }
  rewrite (u64_small (gfn + start)) by lia. apply wp_bind. eapply wp_host_get_entry; [done|].
  apply wp_bind. eapply wp_host_set_entry; [done|done|]. intros d1 rc t1 E Q1 H1 V1.
  change ((get_entry (table h) (gfn + start) 0).1) with (seen (table h) (gfn + start)) in E.
  destruct (Z.eqb_spec rc 0) as [->|Hrc]; simpl.
  2: { apply wp_ret. split; [done|]. split; [done|]. exists t1. split; [done|]. right. right. eapply set_fails; eauto; lia. }
  assert (Ha1 : access_set (done_to (start + 1)) a t0 t1).
  { eapply access_set_ext; [|eapply access_set_one; [exact Ha| | | |exact E]];
      [unfold done_to; lia..|apply range_may; lia]. }
  destruct (_ && _ && _) eqn:Ep.
  { apply wp_ret. split; [done|]. split; [done|]. exists t1. split; [done|]. right. left. zbool. split_and!; lia || done. }
  rewrite u64_small by lia. rewrite <- (u64_small (gfn + start + 1)), <- Z.add_assoc by lia.
  eapply wp_mono; [apply (IH (start + 1) d1 (h <| table := t1 |>)); try done; [lia|lia|by eapply quiet_shape]|].
  intros rc d' (Q2 & V2 & t' & Hh' & He). split; [by eapply quiet_trans|]. split; [congruence|]. exists t'. split; [done|].
  destruct He as [He|[He|He]]; [by left|right; left|by right; right]. destruct He as (? & ?). split; [lia|done].
Qed.
End Range.

(** ** The hypercall and its continuations *)

Local Abbreviation memop := (mem_access_memop cfg plat mem_sharing_unshare_page zero mask_ok).

(** A call that ends in a continuation is made again with the command it left;
    [preempt fuel] are the preemption checks of one call. *)
Fixpoint access_op_calls (fuel : nat) (env : memop_env) (preempt : nat -> Z -> bool)
    (emulate : bool) (cmd : Z) (mao : xen_mem_access_op) : M (vst T) memop_end :=
  match fuel with
  | O => fun _ => None
  | Datatypes.S fuel' =>
      bind (memop env (preempt fuel) emulate cmd mao) (fun r =>
        match r.1 with
        | Continue cmd' => access_op_calls fuel' env preempt emulate cmd' mao
        | x => ret x
        end)
  end.

(** The answer of p2m_get_mem_access(), the state being as it is. *)
Definition query d (g : Z) : option (Z * Z) := fst <$> p2m_get_mem_access g d.

Lemma query_host d h g : hostp2m d = Some h -> g <> INVALID_GFN ->
  query d g = Some (if e_mfn (seen (table h) g) =? INVALID_MFN then (- ESRCH, 0)
                    else (0, memaccess_of_p2m (e_access (seen (table h) g)))).
Proof.
  intros Hh Hg. unfold query.
  assert (W : wp (p2m_get_mem_access g) (fun r _ => r = if e_mfn (seen (table h) g) =? INVALID_MFN then (- ESRCH, 0)
    else (0, memaccess_of_p2m (e_access (seen (table h) g)))) d).
  { unfold p2m_get_mem_access. apply wp_bind. eapply wp_host_get; [done|].
    rewrite (proj2 (Z.eqb_neq _ _)) by done. apply wp_bind. eapply wp_host_get_entry; [done|].
    fold (seen (table h) g). destruct (_ =? _); by apply wp_ret. }
  destruct (wp_run _ _ _ W) as (r & d' & E & ->). by rewrite E.
Qed.

Lemma command_index rc : Z.land rc MEMOP_CMD_MASK = 0 ->
  Z.ldiff (Z.lor XENMEM_access_op rc) MEMOP_CMD_MASK = rc.
Proof.
  intros E. apply Z.bits_inj'. intros n Hn. rewrite Z.ldiff_spec, Z.lor_spec.
  assert (E1 : Z.testbit rc n && Z.testbit MEMOP_CMD_MASK n = false)
    by (by rewrite <- Z.land_spec, E, Z.bits_0).
  assert (E2 : Z.testbit XENMEM_access_op n && negb (Z.testbit MEMOP_CMD_MASK n) = false)
    by (rewrite <- Z.ldiff_spec; apply Z.bits_0).
  destruct (Z.testbit rc n), (Z.testbit MEMOP_CMD_MASK n), (Z.testbit XENMEM_access_op n); done.
Qed.

Lemma requested_code (h : p2m_domain T) c a : requested_access h c = Some a ->
  memaccess_of_p2m a = if c =? XENMEM_access_default then memaccess_of_p2m (default_access h) else c.
Proof.
  unfold requested_access. change (Z.of_nat (length memaccess_to_p2m)) with 10.
  destruct (_ && _) eqn:Ec; [|destruct (_ =? _); intros; by simplify_eq].
  zbool. intros El. assert (Hc : c = 0 \/ c = 1 \/ c = 2 \/ c = 3 \/ c = 4 \/ c = 5 \/ c = 6 \/ c = 7 \/ c = 8 \/ c = 9) by lia.
  destruct Hc as [->|[->|[->|[->|[->|[->|[->|[->|[->| ->]]]]]]]]]; vm_compute in El; by simplify_eq.
Qed.

(** What the hypercall checks before it looks at the operation. *)
Record may_call (env : memop_env) (s : vst T) : Prop := mkMay {
  mc_copy : mo_copy_from_ok env = true;
  mc_lock : mo_lock_rc env = 0;
  mc_sanity : is_hvm (dm s) && cpu_has_vmx plat && hap_enabled cfg = true;
  mc_xsm : mo_xsm_rc env = 0;
  mc_ring : ring_page (ved s) <> None
}.

Lemma wp_may_call env preempt emulate cmd mao s Q :
  may_call env s -> mao_op mao = XENMEM_access_op_set_access ->
  0 <= mao_pfn mao -> 0 < mao_nr mao -> mao_pfn mao + mao_nr mao - 1 <= mo_max_gpfn env < 2 ^ 64 - 1 ->
  Z.ldiff cmd MEMOP_CMD_MASK <= mao_nr mao ->
  wp (p2m_set_mem_access cfg plat mem_sharing_unshare_page zero mask_ok (mao_pfn mao) (mao_nr mao)
        (Z.ldiff cmd MEMOP_CMD_MASK) MEMOP_CMD_MASK (mao_access mao) preempt)
    (fun rc d' =>
       if 0 <? rc then Z.land rc MEMOP_CMD_MASK = 0 /\ Q (Continue (Z.lor XENMEM_access_op rc), emulate) (s <| dm := d' |>)
       else Q (Done rc None, emulate) (s <| dm := d' |>)) (dm s) ->
  wp (memop env preempt emulate cmd mao) Q s.
Proof.
  intros [C1 C2 C3 C4 C5] Ho Hp Hn He Hc W. unfold mem_access_memop. rewrite C1, C2. simpl negb. cbv iota.
  apply wp_bind, wp_gets. rewrite C3, C4. simpl negb. cbv iota.
  rewrite bool_decide_false by done. rewrite Ho. simpl (XENMEM_access_op_set_access =? _). cbv iota zeta.
  rewrite u64_small by lia.
  rewrite (proj2 (Z.ltb_ge _ _) Hc), (proj2 (Z.ltb_ge (mao_pfn mao + mao_nr mao - 1) _)),
    (proj2 (Z.ltb_ge (mo_max_gpfn env) _)) by lia. simpl orb. rewrite andb_false_r. cbv iota.
  apply wp_bind, wp_on_dom. eapply wp_mono; [exact W|]. intros rc d'. cbv beta.
  destruct (0 <? rc); [|intros HQ; by apply wp_ret]. intros [El HQ].
  apply wp_bind, wp_bug_on; [by rewrite El|]. by apply wp_ret.
Qed.

Section Calls.
Context (env : memop_env) (preempt : nat -> Z -> bool) (emulate : bool) (mao : xen_mem_access_op).
Context (h : p2m_domain T) (a : p2m_access).
Local Abbreviation pfn := (mao_pfn mao).
Local Abbreviation nr := (mao_nr mao).
Hypothesis is_set : mao_op mao = XENMEM_access_op_set_access.
Hypothesis asked : requested_access h (mao_access mao) = Some a.
Hypothesis pfn_nonneg : 0 <= pfn.
Hypothesis nr_pos : 0 < nr.
Hypothesis in_memory : pfn + nr - 1 <= mo_max_gpfn env < 2 ^ 64 - 1.
Hypothesis frames_may : forall g, pfn <= g < pfn + nr ->
  may_set (e_mfn (seen (table h) g)) 0 (e_type (seen (table h) g)) a.

Definition calls_end (s : vst T) (r : memop_end) (s' : vst T) : Prop :=
  exists rc t', r = Done rc None /\ rc <= 0 /\ quiet (dm s) (dm s') /\ s' = s <| dm := dm s' |> /\
    hostp2m (dm s') = Some (h <| table := t' |>) /\ same_outside (done_to pfn nr) (table h) t' /\
    (rc = 0 -> access_set (done_to pfn nr) a (table h) t').

Lemma wp_access_op_calls : forall fuel cmd s t,
  let start := Z.ldiff cmd MEMOP_CMD_MASK in
  0 <= start <= nr -> nr - start < Z.of_nat fuel -> may_call env s -> shape (dm s) ->
  hostp2m (dm s) = Some (h <| table := t |>) -> access_set (done_to pfn start) a (table h) t ->
  wp (access_op_calls fuel env preempt emulate cmd mao) (calls_end s) s.
Proof.
  induction fuel as [|fuel IH]; intros cmd s t start Hs Hf Hc S Hh Ha; [lia|]. simpl.
  apply wp_bind, wp_may_call; try done; [lia|]. unfold p2m_set_mem_access. apply wp_bind.
  eapply wp_host_get; [done|]. replace (requested_access _ _) with (Some a) by (by rewrite <- asked).
  rewrite (proj2 (Z.eqb_neq pfn INVALID_GFN)) by (unfold INVALID_GFN; lia).
  eapply wp_mono; [apply (wp_set_access_loop pfn nr MEMOP_CMD_MASK a _ (table h)); try done; lia|].
  intros rc d' (Q1 & V1 & t' & Hh' & He). change (h <| table := t |> <| table := t' |>) with (h <| table := t' |>) in Hh'.
  destruct (Z.ltb_spec 0 rc) as [Hpos|Hneg].
  - destruct He as [[-> _]|[(Hr & El & Ha')|[? _]]]; [lia| |lia]. split; [done|].
    eapply wp_mono; [apply (IH _ (s <| dm := d' |>) t')|]; rewrite ?command_index by done; try done; [lia|lia| | |].
    + destruct Hc as [C1 C2 C3 C4 C5]. split; try done. cbn. by rewrite V1.
    + by eapply quiet_shape.
    + intros r s' (rc' & t'' & H1 & H2 & H3 & H4 & H5). exists rc', t''. split_and!; try apply H5; [done|done|by eapply quiet_trans|exact H4].
  - apply wp_ret. exists rc, t'. split_and!; try done.
    + destruct He as [[-> Ha']|[(Hr & El & Ha')|[? Ho]]]; [|lia|done]. by eapply access_set_outside.
    + intros ->. destruct He as [[_ Ha']|[(Hr & _)|[? _]]]; [done|lia|lia].
Qed.
End Calls.

(** C12. Setting access rights and asking for them: XENMEM_access_op for a
    range of frames, called again for each continuation wherever it was
    preempted, ends after at most nr calls with 0 or an error.  If it ends
    with 0, XENMEM_access_op_get_access answers on every frame of the range
    that has memory with the right that was asked for (for the default, with
    the domain's default right), and with the same error as before on the
    others.  Whatever it ends with, the answers outside the range are the same
    as before, and the views keep their invariant although every change was
    propagated to them. *)
Theorem set_access_roundtrip env preempt emulate (s : vst T) (h : p2m_domain T) mao :
  altp2m_inv plat (dm s) -> may_call env s ->
  hostp2m (dm s) = Some h -> table_ok (table h) ->
  mao_op mao = XENMEM_access_op_set_access -> requested_access h (mao_access mao) <> None ->
  0 <= mao_pfn mao -> 0 < mao_nr mao -> mao_pfn mao + mao_nr mao - 1 <= mo_max_gpfn env < 2 ^ 64 - 1 ->
  (forall g a, mao_pfn mao <= g < mao_pfn mao + mao_nr mao ->
     may_set (e_mfn (seen (table h) g)) 0 (e_type (seen (table h) g)) a) ->
  let code := if mao_access mao =? XENMEM_access_default
              then memaccess_of_p2m (default_access h) else mao_access mao in
  wp (access_op_calls (Z.to_nat (mao_nr mao) + 1) env preempt emulate XENMEM_access_op mao)
    (fun r s' => altp2m_inv plat (dm s') /\ exists rc, r = Done rc None /\ rc <= 0 /\
       forall g, 0 <= g < INVALID_GFN ->
         let inside := bool_decide (mao_pfn mao <= g < mao_pfn mao + mao_nr mao) in
         (inside = false -> query (dm s') g = query (dm s) g) /\
         (inside = true -> rc = 0 ->
            query (dm s') g = match query (dm s) g with Some (0, _) => Some (0, code) | x => x end)) s.
Proof.
  intros I Hc Hh Ht Ho Hreq Hp Hn He Hmay code. destruct (requested_access h (mao_access mao)) as [a|] eqn:Ea; [|done].
  eapply wp_mono; [eapply (wp_access_op_calls env preempt emulate mao h a) with (t := table h)|]; try done.
  - intros g Hg. by apply Hmay.
  - change (Z.ldiff XENMEM_access_op MEMOP_CMD_MASK) with 0. lia.
  - change (Z.ldiff XENMEM_access_op MEMOP_CMD_MASK) with 0. lia.
  - by apply inv_shape.
  - rewrite Hh. by destruct h.
  - apply access_set_none; [done|]. change (Z.ldiff XENMEM_access_op MEMOP_CMD_MASK) with 0. unfold done_to. lia.
  - intros r s' (rc & t' & -> & Hrc & Hq & _ & Hh' & (_ & Hout) & Hin). split; [by eapply quiet_inv|].
    exists rc. split_and!; [done|done|]. intros g Hg inside. unfold inside.
    rewrite !(query_host _ _ g Hh), !(query_host _ _ g Hh') by lia. cbn [table set].
    split; [intros Hb; apply bool_decide_eq_false in Hb|intros Hb ->; apply bool_decide_eq_true in Hb].
    + destruct (Hout g ltac:(lia) Hb) as (E1 & _ & E3). by rewrite E1, E3.
    + destruct (proj2 (Hin eq_refl) g ltac:(lia)) as (E1 & _ & E3 & _). rewrite E1.
      destruct (Z.eqb_spec (e_mfn (seen (table h) g)) INVALID_MFN) as [Hi|Hi]; [done|].
      by rewrite (E3 Hb Hi), (requested_code _ _ _ Ea).
Qed.
End Host.
