(* ===== verification/MemEvents.v ===== *)
(** * Responses of a helper (theorems about MemAccess.v)

    vm_event_resume() against the invariants of the ring (VmEventSystem.v) and
    of the views (Altp2mProofs.v). *)

From S2P Require Import Prelude Monad P2m P2mProofs Altp2m Altp2mProofs Altp2mSwitch Altp2mInv Altp2mTables.
From S2P Require Import VmEvent VmEventProofs VmEventSystem VmEventFrame MemAccess MemAccessProofs.

Section Resume.
Context {T : Type} `{P2MTableLaws T}.
Context (cfg : p2m_config) (plat : platform).
Context (mem_sharing_unshare_page : T -> Z -> T) (zero : T) (mask_ok : Z -> bool).
Context (singlestep_supported log_dirty : bool).
Context (F : Z) (HF : 0 <= F).
(** The processor functions for views are VT-x's. *)
Context (Hhooks : altp2m_hooks plat = true).
Local Abbreviation S_ := (vst T).
Local Abbreviation altp2m_inv := (altp2m_inv plat).
Implicit Types (v : S_) (d : domain T).

(** ** What handling one response leaves *)

Definition counts_ok v : Prop := forall k e, evs v !! k = Some e -> 0 <= vm_event_pause_count e.

Record same_ring v v' : Prop := mkSame {
  sr_ved : ved v' = ved v;
  sr_max : max_vcpus v' = max_vcpus v;
  sr_flags : pause_flags <$> evs v' = pause_flags <$> evs v;
  sr_len : length (vcpus (dm v')) = length (vcpus (dm v));
  sr_wd : is_Some (event_write_data v) -> is_Some (event_write_data v');
  sr_extra : forall j, extra_at j v' = extra_at j v;
  sr_out : forall k, out_of_guest (dm v) k -> out_of_guest (dm v') k;
  sr_counts : counts_ok v -> counts_ok v';
  sr_views : altp2m_inv (dm v) -> altp2m_inv (dm v')
}.

Lemma same_ring_refl v : same_ring v v.
Proof. by split. Qed.
Lemma same_ring_trans v v' v'' : same_ring v v' -> same_ring v' v'' -> same_ring v v''.
Proof.
  intros [A1 A2 A3 A4 A5 A6 A7 A8 A9] [B1 B2 B3 B4 B5 B6 B7 B8 B9].
  split; [congruence|congruence|congruence|congruence|auto|intros j; by rewrite B6|auto..].
Qed.

Lemma same_ring_evs v k f :
  (forall e, pause_flags (f e) = pause_flags e) ->
  (forall e, vm_event_pause_count (f e) = vm_event_pause_count e) ->
  same_ring v (v <| evs ::= alter f k |>).
Proof.
  intros Hf Hc. split; try done.
  - cbn. by apply fmap_alter_same.
  - intros j. unfold extra_at, extra, flagged. cbn. destruct (vcpus (dm v) !! j) as [c|]; [|done].
    rewrite lookup_alter_case. case_decide as Hd; [subst|done]. destruct (evs v !! j) as [e|]; [|done].
    cbn. by rewrite Hf, Hc.
  - intros Hv j e. cbn. rewrite lookup_alter_case. case_decide as Hd; [subst|by apply Hv].
    intros (e0 & He & ->)%fmap_Some. rewrite Hc. by apply (Hv j).
Qed.

Lemma same_ring_dom v d' :
  altp2m_inv d' -> pause_count <$> vcpus d' = pause_count <$> vcpus (dm v) ->
  (forall k, out_of_guest (dm v) k -> out_of_guest d' k) -> same_ring v (v <| dm := d' |>).
Proof.
  intros I Hp Ho. split; try done.
  - cbn. by rewrite <- !(length_fmap pause_count), Hp.
  - intros j. unfold extra_at. cbn. pose proof (f_equal (fun l => l !! j) Hp) as E. cbn in E.
    rewrite !list_lookup_fmap in E. destruct (vcpus d' !! j) as [c'|], (vcpus (dm v) !! j) as [c|]; try done.
    cbn in E. injection E as E. destruct (evs v !! j) as [e|]; [|done]. unfold extra. by rewrite E.
Qed.

Lemma same_ring_quiet v d' : altp2m_inv (dm v) -> quiet plat (dm v) d' -> same_ring v (v <| dm := d' |>).
Proof.
  intros I Q. apply same_ring_dom; [by eapply quiet_inv|by rewrite (proj2 Q)|].
  intros k. unfold out_of_guest. by rewrite (proj2 Q).
Qed.

(** ** The parts of a response *)

Lemma wp_write_resume v k rsp : is_Some (event_write_data v) ->
  wp (vm_event_register_write_resume k rsp) (fun _ v' => same_ring v v') v.
Proof.
  intros [w Hw]. unfold vm_event_register_write_resume. apply wp_when; intros _; [|apply same_ring_refl].
  apply wp_bind, wp_gets. apply wp_bind. eapply wp_deref; [done|].
  cbv zeta. repeat destruct (_ =? _); first [apply wp_modify|apply wp_ret, same_ring_refl];
    split; try done; intros _; by eexists.
Qed.

Lemma wp_get_mem_access d h gfn (Q : Z * Z -> domain T -> Prop) :
  hostp2m d = Some h -> (forall r, Q r d) -> wp (p2m_get_mem_access gfn) Q d.
Proof.
  intros Hh HQ. unfold p2m_get_mem_access. apply wp_bind. eapply wp_host_get; [done|].
  destruct (_ =? _); [by apply wp_ret|]. apply wp_bind. eapply wp_host_get_entry; [done|].
  destruct (_ =? _); by apply wp_ret.
Qed.

Lemma wp_emulate_check v k e rsp : shape plat (dm v) -> evs v !! k = Some e ->
  wp (p2m_mem_access_emulate_check k rsp) (fun _ v' => same_ring v v') v.
Proof.
  intros Sh He. destruct (sh_host _ _ Sh) as [h Hh]. unfold p2m_mem_access_emulate_check.
  apply wp_when; intros _; [|apply same_ring_refl]. apply wp_bind, wp_on_dom.
  eapply wp_get_mem_access; [done|]. intros r. replace (v <| dm := dm v |>) with v by (by destruct v).
  apply wp_bind, wp_modify. set (f := fun v0 : vcpu_ev => v0 <| emulate_flags := _ |>).
  assert (S1 : same_ring v (v <| evs ::= alter f k |>)) by (by apply same_ring_evs).
  apply wp_bind. eapply wp_ev_get; [cbn; by rewrite list_lookup_alter_eq, He|].
  apply wp_when; intros _; [|done]. apply wp_modify.
  eapply same_ring_trans; [exact S1|]. by apply same_ring_evs.
Qed.

Lemma Quiet_host_set_entry gfn mfn o ty a sve :
  Quiet plat (host_set_entry cfg plat mem_sharing_unshare_page zero mask_ok gfn mfn o ty a sve).
Proof.
  intros d Sh. destruct (sh_host _ _ Sh) as [h Hh]. eapply wp_host_set_entry; [done|done|]. by intros.
Qed.

Lemma wp_paging_resume v rsp : altp2m_inv (dm v) ->
  wp (on_dom (p2m_mem_paging_resume cfg plat mem_sharing_unshare_page zero mask_ok log_dirty rsp))
    (fun _ v' => same_ring v v') v.
Proof.
  intros I. apply wp_on_dom.
  assert (Q : Quiet plat (p2m_mem_paging_resume cfg plat mem_sharing_unshare_page zero mask_ok log_dirty rsp)).
  { unfold p2m_mem_paging_resume. cbv zeta. apply Quiet_when, Quiet_bind; [apply Quiet_host_get_entry|]. intros e.
    apply Quiet_when, Quiet_bind; [apply Quiet_host_set_entry|]. intros _ d _. apply wp_modify.
    split; [apply (evolves_m2p plat)|done]. }
  eapply wp_mono; [apply Q; apply I|]. intros [] d'. by apply same_ring_quiet.
Qed.

(** Switching a vCPU's view pauses nobody. *)
Definition pauses d : list Z := pause_count <$> vcpus d.

Lemma keeps_pauses_vcpu k f : (forall c, pause_count (f c) = pause_count c) -> Keeps pauses (@vcpu_upd T k f).
Proof. intros Hf. apply keeps_modify. intros d. unfold pauses. cbn. by apply fmap_alter_same. Qed.
Lemma keeps_pauses_p2m i f : Keeps pauses (@p2m_upd T i f).
Proof. unfold p2m_upd, p2m_get. frame_tac. Qed.
Lemma keeps_pauses_host f : Keeps pauses (@host_upd T f).
Proof. unfold host_upd, host_get. frame_tac. Qed.
Hint Resolve keeps_pauses_p2m keeps_pauses_host : keeps.

Lemma keeps_pauses_check k idx : Keeps pauses (p2m_altp2m_check (T := T) plat k idx).
Proof.
  unfold p2m_altp2m_check, p2m_switch_vcpu_altp2m_by_id, altp2m_vcpu_update_p2m, vmx_vcpu_update_eptp,
    move_vcpu, p2m_get_altp2m, active_vcpus_add, eptp_get, vcpu_get, p2m_get, host_get.
  repeat first [apply keeps_pauses_vcpu; done|progress frame_tac].
Qed.

Lemma wp_view_check v k rsp :
  altp2m_inv (dm v) -> is_Some (vcpus (dm v) !! k) -> out_of_guest (dm v) k -> 0 <= altp2m_idx rsp ->
  wp (on_dom (p2m_altp2m_check plat k (altp2m_idx rsp))) (fun _ v' => same_ring v v') v.
Proof.
  intros I [c Hc] Out Hi. apply wp_on_dom.
  assert (W : wp (p2m_altp2m_check plat k (altp2m_idx rsp))
    (fun _ d' => altp2m_inv d' /\ forall n, out_of_guest (dm v) n -> out_of_guest d' n) (dm v)).
  { unfold p2m_altp2m_check. apply wp_bind, wp_gets. apply wp_when; intros Ha; [|done].
    apply wp_bind. apply (wp_switch_vcpu plat Hhooks (dm v) k c); [exact I|exact Ha|exact Hc|exact Out|exact Hi|]. intros d' ok Sw _ _ _. apply wp_ret. split; apply Sw. }
  eapply wp_mono; [exact (wp_keeps _ _ _ _ (keeps_pauses_check k _) W)|].
  intros [] d' [[I' Ho] Hp]. by apply same_ring_dom.
Qed.

Lemma wp_toggle v k e : counts_ok v -> (forall x, extra_at k v = Some x -> 0 <= x) ->
  evs v !! k = Some e -> is_Some (vcpus (dm v) !! k) ->
  wp (vm_event_toggle_singlestep singlestep_supported k) (fun _ v' => same_ring v v') v.
Proof.
  intros Hn Hx He [c Hc]. unfold vm_event_toggle_singlestep. apply wp_bind, wp_gets.
  apply wp_bind. eapply wp_ev_get; [done|]. destruct (_ || _) eqn:E; [apply wp_ret, same_ring_refl|].
  apply orb_false_iff in E as [_ E]. zbool. apply wp_bind, wp_on_dom. eapply wp_deref; [done|].
  replace (v <| dm := dm v |>) with v by (by destruct v). apply wp_bind, wp_bug_on.
  - specialize (Hn k e He). specialize (Hx (extra (ved v) k c e)). unfold extra_at in Hx. rewrite Hc, He in Hx.
    specialize (Hx eq_refl). apply Z.eqb_neq. unfold extra in Hx. destruct (flagged (pause_flag (ved v)) e); cbn in Hx; lia.
  - apply wp_when; intros _; [|apply same_ring_refl]. apply wp_modify. by apply same_ring_evs.
Qed.

Lemma wp_unpause_event v k e : altp2m_inv (dm v) -> evs v !! k = Some e -> is_Some (vcpus (dm v) !! k) ->
  wp (vm_event_vcpu_unpause k) (fun _ v' => same_ring v v') v.
Proof.
  intros I He [c Hc]. unfold vm_event_vcpu_unpause. apply wp_bind. eapply wp_ev_get; [done|]. cbv zeta.
  destruct (Z.ltb_spec (vm_event_pause_count e - 1) 0) as [|Hge]; [apply wp_ret, same_ring_refl|].
  apply wp_bind, wp_modify, wp_on_dom, wp_modify. set (f := fun v0 : vcpu_ev => v0 <| vm_event_pause_count := _ |>).
  assert (Ho : forall n, out_of_guest (dm v) n ->
    out_of_guest ((dm v) <| vcpus ::= alter (fun c => c <| pause_count ::= Z.add (-1) |>) k |>) n).
  { intros n Ho c'. cbn. rewrite lookup_alter_case. case_decide as Hd; [subst|apply Ho].
    rewrite Hc. cbn. intros Ec. injection Ec as <-. cbn. by apply Ho. }
  split; try done.
  - cbn. by apply fmap_alter_same.
  - cbn. by rewrite length_alter.
  - intros j. pose proof (extra_at_upd v j k f (fun c => c <| pause_count ::= Z.add (-1) |>) (ved v)) as E.
    rewrite <- E; [done| |done].
    intros c0 e0 Hc0 He0. rewrite He in He0. simplify_eq. unfold extra, f, flagged. cbn. lia.
  - intros Hn j e'. cbn. rewrite lookup_alter_case. case_decide as Hd; [subst|by apply Hn].
    rewrite He. cbn. intros Ec. injection Ec as <-. cbn. lia.
  - intros _. apply (st_inv plat (dm v)). by apply (inv_cosmetic plat (dm v) k c).
Qed.

(** ** One response *)

(** The domain when responses arrive: the program points of the vCPUs are
    those of the system of VmEventSystem.v. *)
Record ready (l : list pc) (fh : nat) (h : Z) v : Prop := mkReady {
  rd_ring : inv F (mkSys v l fh h);
  rd_views : altp2m_inv (dm v);
  rd_len : length (vcpus (dm v)) = length (evs v);
  rd_wd : is_Some (event_write_data v);
  rd_extra : forall k x, extra_at k v = Some x -> 0 <= x;
  rd_counts : counts_ok v
}.

Lemma same_ring_length v v' : same_ring v v' -> length (evs v') = length (evs v).
Proof. intros Sm. by rewrite <- !(length_fmap pause_flags), (sr_flags _ _ Sm). Qed.

Lemma ready_same l fh h v v' : ready l fh h v -> same_ring v v' -> ready l fh h v'.
Proof.
  intros [R1 R2 R3 R4 R5 R6] Sm. split; try (by apply Sm).
  - by eapply ring_inv_ext; [done|apply Sm..].
  - by rewrite (sr_len _ _ Sm), (same_ring_length _ _ Sm).
  - intros k x. rewrite (sr_extra _ _ Sm). apply R5.
Qed.

Lemma vcpu_there l fh h v k e : ready l fh h v -> evs v !! k = Some e -> is_Some (vcpus (dm v) !! k).
Proof. intros R He. apply lookup_lt_is_Some. rewrite (rd_len _ _ _ _ R). by eapply lookup_lt_Some. Qed.

Lemma still_there v v' k e : same_ring v v' -> evs v !! k = Some e -> exists e', evs v' !! k = Some e'.
Proof. intros Sm He. apply lookup_lt_is_Some. rewrite (same_ring_length _ _ Sm). by eapply lookup_lt_Some. Qed.

Lemma wp_same_seq v (m1 m2 : M S_ unit) :
  wp m1 (fun _ v1 => same_ring v v1) v ->
  (forall v1, same_ring v v1 -> wp m2 (fun _ v2 => same_ring v1 v2) v1) ->
  wp (bind m1 (fun _ => m2)) (fun _ v2 => same_ring v v2) v.
Proof.
  intros W1 W2. apply wp_bind. eapply wp_mono; [exact W1|]. intros [] v1 S1.
  eapply wp_mono; [by apply W2|]. intros [] v2. by apply same_ring_trans.
Qed.

Local Abbreviation resume_one :=
  (resume_one cfg plat mem_sharing_unshare_page zero mask_ok singlestep_supported log_dirty).

(** A response that switches a view names a view and a vCPU that is not
    running guest code. *)
Definition switch_ok d rsp : Prop := has_flag VM_EVENT_FLAG_ALTERNATE_P2M rsp = true ->
  0 <= altp2m_idx rsp /\ out_of_guest d (Z.to_nat (vcpu_id rsp)).

Lemma wp_resume_one l fh h v rsp : ready l fh h v -> switch_ok (dm v) rsp ->
  wp (resume_one rsp) (fun _ v' => same_ring v v') v.
Proof.
  intros R Hs. unfold MemAccess.resume_one. apply wp_bind, wp_gets. cbv zeta.
  set (k := Z.to_nat (vcpu_id rsp)) in *. destruct (negb _); [apply wp_ret, same_ring_refl|].
  destruct (_ || _) eqn:Ek; [apply wp_ret, same_ring_refl|]. apply orb_false_iff in Ek as [_ Ek].
  apply bool_decide_eq_false in Ek. destruct (evs v !! k) as [e|] eqn:He; [|done].
  apply wp_same_seq; [|intros v1 S1; apply wp_same_seq; [|intros v2 S2]].
  - destruct (_ || _); [apply wp_write_resume, R|]. destruct (_ =? _); [eapply wp_emulate_check; [apply R|done]|].
    destruct (_ =? _); [apply wp_paging_resume, R|apply wp_ret, same_ring_refl].
  - pose proof (ready_same _ _ _ _ _ R S1) as R1. destruct (still_there _ _ _ _ S1 He) as [e1 He1].
    apply wp_when; intros Ha; [|apply same_ring_refl]. destruct (Hs Ha) as [Hi Ho].
    apply wp_view_check; [apply R1|by eapply vcpu_there|by apply S1|done].
  - pose proof (same_ring_trans _ _ _ S1 S2) as S12. pose proof (ready_same _ _ _ _ _ R S12) as R2.
    destruct (still_there _ _ _ _ S12 He) as [e2 He2].
    apply wp_when; intros _; [|apply same_ring_refl]. apply wp_same_seq; [|intros v3 S3].
    + apply wp_when; intros _; [|apply same_ring_refl].
      eapply wp_toggle; [apply R2|apply R2|done|by eapply vcpu_there].
    + pose proof (ready_same _ _ _ _ _ R2 S3) as R3. destruct (still_there _ _ _ _ S3 He2) as [e3 He3].
      eapply wp_unpause_event; [apply R3|done|by eapply vcpu_there].
Qed.

(** ** The loop *)

Lemma around_parts j v v1 : around j v1 = around j v ->
  bare_dom (dm v1) = bare_dom (dm v) /\ bare_ev <$> evs v1 = bare_ev <$> evs v /\
  event_write_data v1 = event_write_data v /\ extra_at j v1 = extra_at j v.
Proof.
  intros E. split_and!.
  - exact (f_equal (fun x => x.1.1.1.1.1) E).
  - exact (f_equal (fun x => x.1.1.1.1.2) E).
  - exact (f_equal (fun x => x.1.1.1.2) E).
  - exact (f_equal (fun x => x.1.2) E).
Qed.

Lemma bare_lookup d d' k c' : bare_dom d' = bare_dom d -> vcpus d' !! k = Some c' ->
  exists c, vcpus d !! k = Some c /\ forget c' = forget c.
Proof.
  intros E Hk. assert (El : (forget <$> vcpus d') !! k = (forget <$> vcpus d) !! k)
    by exact (f_equal (fun x => vcpus x !! k) E).
  rewrite !list_lookup_fmap, Hk in El. destruct (vcpus d !! k) as [c|]; [|done].
  exists c. split; [done|]. exact (inj Some _ _ El).
Qed.

Lemma out_of_bare d d' k : bare_dom d' = bare_dom d -> out_of_guest d k -> out_of_guest d' k.
Proof.
  intros E Ho c' Hk. destruct (bare_lookup _ _ _ _ E Hk) as (c & Hc & Ec).
  rewrite <- (Ho c Hc). exact (f_equal in_guest Ec).
Qed.

Lemma ready_around l fh h v v1 : ready l fh h v -> inv F (mkSys v1 l fh h) ->
  (forall j, around j v1 = around j v) -> ready l fh h v1.
Proof.
  intros [R1 R2 R3 R4 R5 R6] I E. destruct (around_parts 0 _ _ (E 0%nat)) as (Ed & Ee & Ew & _).
  pose proof (f_equal length Ee) as El. rewrite !length_fmap in El.
  split.
  - done.
  - by eapply inv_repaused.
  - rewrite El, <- R3. pose proof (f_equal (fun x => length (vcpus x)) Ed) as Ev. cbn in Ev.
    change (length (forget <$> vcpus (dm v1)) = length (forget <$> vcpus (dm v))) in Ev.
    by rewrite !length_fmap in Ev.
  - by rewrite Ew.
  - intros k x. destruct (around_parts k _ _ (E k)) as (_ & _ & _ & ->). apply R5.
  - intros k e He. pose proof (f_equal (fun l => l !! k) Ee) as Ek. cbn in Ek.
    rewrite !list_lookup_fmap, He in Ek. destruct (evs v !! k) as [e0|] eqn:He0; [|done].
    pose proof (inj Some _ _ Ek) as Eb. specialize (R6 k e0 He0).
    apply (f_equal vm_event_pause_count) in Eb. cbn in Eb. lia.
Qed.

Local Abbreviation resume_loop :=
  (resume_loop cfg plat mem_sharing_unshare_page zero mask_ok singlestep_supported log_dirty).

(** The responses not yet taken off the ring. *)
Definition pending (p : sring) (r : vm_event_domain) : Z := u32 (rsp_prod p - rsp_cons r).

Definition drained l fh h v p v' : Prop :=
  ready l fh h v' /\ (forall j, extra_at j v' = extra_at j v) /\
  exists p', ring_page (ved v') = Some p' /\ slots p' = slots p /\ rsp_prod p' = rsp_prod p /\
    pending p' (ved v') = 0.

Lemma wp_next_response l fh h v p (Q : option vm_event -> S_ -> Prop) :
  ready l fh h v -> ring_page (ved v) = Some p ->
  (pending p (ved v) = 0 -> Q None v) ->
  (forall v1 p1 rsp, ready l fh h v1 -> (forall j, around j v1 = around j v) ->
     ring_page (ved v1) = Some p1 -> slots p1 = slots p -> rsp_prod p1 = rsp_prod p ->
     rsp ∈ slots p -> 0 < pending p (ved v) -> pending p1 (ved v1) = pending p (ved v) - 1 ->
     Q (Some rsp) v1) ->
  wp vm_event_get_response Q v.
Proof.
  intros R Hp Hnone Hsome. set (s := mkSys v l fh h).
  destruct (wp_run _ _ _ (wp_get_response F s p (fun o v1 => match o with
    | None => pending p (ved v) = 0 /\ v1 = v
    | Some rsp => inv F (mkSys v1 l fh h) /\ 0 < pending p (ved v) /\ rsp ∈ slots p end)
    (rd_ring _ _ _ _ R) Hp ltac:(done)
    ltac:(intros v1 rsp I Hpos Hl _; split_and!; [exact I|exact Hpos|by eapply list_elem_of_lookup_2]))) as (o & v1 & E & Ho).
  unfold wp. change (vs s) with v in E. rewrite E. destruct o as [rsp|]; [|by destruct Ho as [? ->]; apply Hnone].
  destruct Ho as (I & Hpos & Hin).
  pose proof (fun j => get_response_frame j v p rsp v1 Hp E) as Fr.
  destruct (Fr 0%nat) as (_ & Ec & p1 & Hp1 & Hs & Hr).
  assert (Ha : forall j, around j v1 = around j v) by (intros j; apply Fr).
  apply (Hsome v1 p1 rsp); try done; [by eapply ready_around|].
  unfold pending in *. rewrite Hr, Ec. apply idx_pred. lia.
Qed.

Lemma wp_resume_loop l fh h : forall fuel v p,
  ready l fh h v -> ring_page (ved v) = Some p -> pending p (ved v) < Z.of_nat fuel ->
  (forall rsp, rsp ∈ slots p -> switch_ok (dm v) rsp) ->
  wp (resume_loop fuel) (fun _ v' => drained l fh h v p v') v.
Proof.
  induction fuel as [|fuel IH]; intros v p R Hp Hf Hsw.
  { unfold pending in Hf. pose proof (u32_range (rsp_prod p - rsp_cons (ved v))). lia. }
  simpl. apply wp_bind. apply (wp_next_response l fh h v p); [done|done| |].
  { intros Hz. apply wp_ret. split; [done|]. split; [done|]. by exists p. }
  intros v1 p1 rsp R1 Ha Hp1 Hs Hr Hin Hpos Hpend. apply wp_bind.
  destruct (around_parts 0 _ _ (Ha 0%nat)) as (Ed & _).
  assert (Hsw1 : forall rsp, rsp ∈ slots p -> switch_ok (dm v1) rsp).
  { intros x Hx Hal. destruct (Hsw x Hx Hal) as [? Ho]. split; [done|]. by eapply out_of_bare. }
  eapply wp_mono; [by eapply wp_resume_one; [exact R1|apply Hsw1]|]. intros [] v2 S2.
  eapply wp_mono; [apply (IH v2 p1); [by eapply ready_same|by rewrite (sr_ved _ _ S2)|rewrite (sr_ved _ _ S2); lia|]|].
  - rewrite Hs. intros x Hx Hal. destruct (Hsw1 x Hx Hal) as [? Ho]. split; [done|]. by apply S2.
  - intros [] v3 (D1 & D2 & p3 & D3 & D4 & D5 & D6). split; [done|]. split.
    + intros j. rewrite D2, (sr_extra _ _ S2). apply (around_parts j _ _ (Ha j)).
    + exists p3. split_and!; [done|congruence|congruence|done].
Qed.


(** Whether a response that asks for emulation is followed is decided by
    the rights of the host table alone: the vCPU's next fault at the same
    place is emulated if the frame is unmapped there or if those rights do not
    allow the access, and else the request to emulate is dropped.  So it is
    dropped for every access that only the vCPU's view forbids. *)
Theorem emulate_decided_by_host v k e rsp h :
  hostp2m (dm v) = Some h -> evs v !! k = Some e ->
  has_flag VM_EVENT_FLAG_EMULATE rsp = true -> ma_req_gfn rsp <> INVALID_GFN ->
  wp (p2m_mem_access_emulate_check k rsp) (fun _ v' => dm v' = dm v /\
    exists e', evs v' !! k = Some e' /\
      emulate_flags e' =
        match query (dm v) (ma_req_gfn rsp) with
        | Some (0, a) => if emul_violation a (ma_req_flags rsp) then flags rsp else 0
        | _ => flags rsp
        end) v.
Proof.
  intros Hh He Hf Hg. unfold p2m_mem_access_emulate_check. rewrite Hf. unfold when at 1.
  rewrite (query_host _ h) by done. apply wp_bind, wp_on_dom. unfold p2m_get_mem_access.
  apply wp_bind. eapply wp_host_get; [done|]. rewrite (proj2 (Z.eqb_neq _ _)) by done.
  apply wp_bind. eapply wp_host_get_entry; [done|]. fold (seen (table h) (ma_req_gfn rsp)).
  destruct (_ =? INVALID_MFN); apply wp_ret; replace (v <| dm := dm v |>) with v by (by destruct v);
    cbv zeta; cbn [fst snd]; apply wp_bind, wp_modify; apply wp_bind;
    (eapply wp_ev_get; [cbn; by rewrite list_lookup_alter_eq, He|]);
    (apply wp_when; intros _; [apply wp_modify|]); (split; [done|]); eexists;
    (split; [cbn; rewrite ?list_lookup_alter_eq, He; reflexivity|done]).
Qed.
End Resume.
