(* ===== verification/NestedFault.v ===== *)
(** * The EPT violation handler (xen/arch/x86/hvm/hvm.c)

    hvm_hap_nested_page_fault(): lazy copies into a view, the check of access
    rights with #VE and memory-access events, MMIO, sharing, log-dirty.  The
    nested and MMIO emulators, paging and the sharing of pages are what they
    return. *)

From S2P Require Import Prelude Monad P2m Altp2m VmEvent MemAccess.

(** What nestedhvm_hap_nested_page_fault() returns. *)
Inductive nested_rv :=
  | PAGEFAULT_DONE | PAGEFAULT_RETRY | PAGEFAULT_L1_ERROR | PAGEFAULT_INJECT | PAGEFAULT_MMIO
  | PAGEFAULT_L0_ERROR (gpa : Z).

Record fault_env := mkFaultEnv {
  fe_nested : option nested_rv;            (* in nested HAP mode *)
  fe_mmio_internal : bool;                 (* hvm_mmio_internal(), not in nested mode *)
  fe_mmio_ok : bool;                       (* handle_mmio_with_translation() *)
  fe_sve : bool;                           (* suppress_ve of the view's entry *)
  fe_ve_frame : option (ve_info * bool);   (* the page hvm_map_guest_frame_rw() maps *)
  fe_qual : Z;                             (* EXIT_QUALIFICATION *)
  fe_unshare_rc : Z; fe_notify_rc : Z;     (* mem_sharing_* *)
  fe_pvh : bool;
  fe_check : check_env
}.

(** The result with what the handler asked others to do. *)
Record fault_out := mkFaultOut {
  f_rc : Z;
  f_gp : bool;                             (* #GP injected *)
  f_ve : option ve_info;                   (* #VE delivered, and the page it wrote *)
  f_dirty : option Z;                      (* paging_mark_dirty() *)
  f_paged : bool;                          (* p2m_mem_paging_populate() *)
  f_emulated : option emul_kind;
  f_sent : option (option Z)               (* mem_access_send_req(), [Some None] asleep *)
}.

(** The type groups of the handler. *)
Definition p2m_is_ram (t : p2m_type) : bool :=
  match t with
  | p2m_ram_rw | p2m_ram_logdirty | p2m_ram_ro | p2m_ram_paging_out | p2m_ram_paged
  | p2m_ram_paging_in | p2m_ram_shared => true
  | _ => false
  end.
Definition p2m_is_discard_write (t : p2m_type) : bool :=
  match t with p2m_ram_ro | p2m_grant_map_ro => true | _ => false end.
Definition p2m_is_paged (t : p2m_type) : bool :=
  match t with p2m_ram_paged => true | _ => false end.

(** The switch on the access right. *)
Definition access_violation (a : p2m_access) (nf : npfec) : bool :=
  match a with
  | p2m_access_n | p2m_access_n2rwx => read_access nf || write_access nf || insn_fetch nf
  | p2m_access_r => write_access nf || insn_fetch nf
  | p2m_access_w => read_access nf || insn_fetch nf
  | p2m_access_x => read_access nf || write_access nf
  | p2m_access_rx | p2m_access_rx2rw => write_access nf
  | p2m_access_wx => read_access nf
  | p2m_access_rw => insn_fetch nf
  | p2m_access_rwx => false
  end.

Section Fault.
Local Open Scope monad_scope.
Context {T : Type} `{P2MTable T}.
Context (cfg : p2m_config) (plat : platform).
Context (mem_sharing_unshare_page : T -> Z -> T) (zero : T) (mask_ok : Z -> bool).
Context (access_required : option Z -> bool).
(** The vCPU that faulted. *)
Context (k : nat).
Local Abbreviation D := (domain T).
Local Abbreviation S_ := (vst T).

(** p2m_change_type_one() on the host table. *)
Definition p2m_change_type_one (gfn : Z) (ot nt : p2m_type) : M D Z :=
  bug_on (p2m_is_grant ot || p2m_is_grant nt) ;;
  bug_on (p2m_is_foreign ot || p2m_is_foreign nt) ;;
  let! h := host_get in
  let! e := host_get_entry gfn 0 in
  if bool_decide (e_type e = ot) then
    host_set_entry cfg plat mem_sharing_unshare_page zero mask_ok gfn (e_mfn e) PAGE_ORDER_4K nt
      (default_access h) (-1)
  else ret (- EBUSY).

(** The label out: the delayed actions. *)
Definition fault_end (env : fault_env) (paged sharing_enomem : bool) (req : option vm_event)
    (o : fault_out) : M S_ fault_out :=
  let rc := if sharing_enomem && (fe_notify_rc env <? 0) then 0 else f_rc o in
  let! sent := match req with
               | Some r => let! x := mem_access_send_req (Some k) r in ret (Some x)
               | None => ret None
               end in
  ret (mkFaultOut rc (f_gp o) (f_ve o) (f_dirty o) paged (f_emulated o) sent).

Definition out_rc (rc : Z) : fault_out := mkFaultOut rc false None None false None None.

(** What the permission check decides: the fault is dealt with, or the rights
    were promoted or not violated, with the request to send. *)
Inductive checked :=
  | Handled (o : fault_out) (req : option vm_event)
  | Go_on (fall_through : bool) (emulated : option emul_kind) (req : option vm_event).

Definition check_permissions (env : fault_env) (gpa gla : Z) (nf : npfec) (p2m : option Z)
    (e : p2m_ent) : M S_ checked :=
  if (e_mfn e =? INVALID_MFN) || negb (access_violation (e_access e) nf)
  then ret (Go_on false None None)
  else
    let! alt := match p2m with
                | Some i => let! p := on_dom (p2m_get i) in
                            ret (bool_decide (p2m_class p = p2m_alternate))
                | None => ret false
                end in
    let! v := on_dom (vcpu_get k) in
    let ve := if alt && negb (cpu_has_vmx_virt_exceptions plat) && negb (fe_sve env)
              then altp2m_vcpu_emulate_ve plat v (fe_ve_frame env) (fe_qual env) gla gpa
              else (false, None, false) in
    if ve.1.1 then ret (Handled (mkFaultOut 1 false ve.1.2 None false None None) None)
    else
      let! c := p2m_mem_access_check cfg plat mem_sharing_unshare_page zero mask_ok (Some k)
                  access_required (fe_check env) k gpa gla nf in
      ret (if promoted c then Go_on true (ck_emulated c) (ck_req c)
           else Handled (out_rc 1) (ck_req c)).

(** From the check of the type on. *)
Definition handle_type (env : fault_env) (gla : Z) (nf : npfec) (p2m : option Z) (gfn : Z)
    (e : p2m_ent) (fall_through : bool) (emulated : option emul_kind) (req : option vm_event)
  : M S_ fault_out :=
  let t := e_type e in
  let done_ rc gp dirty paged enomem :=
    fault_end env paged enomem req (mkFaultOut rc gp None dirty false emulated None) in
  if bool_decide (t = p2m_mmio_dm)
     || (write_access nf && (p2m_is_discard_write t || bool_decide (t = p2m_mmio_write_dm))) then
    if fe_pvh env then done_ 0 false None false false
    else done_ 1 (negb (fe_mmio_ok env)) None false false
  else
    let paged := p2m_is_paged t || bool_decide (t = p2m_ram_paging_out) in
    if write_access nf && bool_decide (t = p2m_ram_shared) then
      let! host := match p2m with
                   | Some i => let! p := on_dom (p2m_get i) in
                               ret (bool_decide (p2m_class p = p2m_host))
                   | None => ret true
                   end in
      bug_on (negb host) ;;
      on_dom (host_upd (fun h => h <| table := mem_sharing_unshare_page (table h) gfn |>)) ;;
      done_ 1 false None paged (fe_unshare_rc env <? 0)
    else if p2m_is_ram t then
      if write_access nf then
        on_dom (p2m_change_type_one gfn p2m_ram_logdirty p2m_ram_rw) ;;
        done_ 1 false (Some (e_mfn e)) paged false
      else done_ 1 false None paged false
    else done_ (if fall_through then 1 else 0) false None paged false.

(** From the lookup in the host table on. *)
Definition handle_fault (env : fault_env) (gpa gla : Z) (nf : npfec) : M S_ fault_out :=
  let gfn := Z.shiftr gpa PAGE_SHIFT in
  let! active := gets (fun s : S_ => altp2m_active (dm s)) in
  let! eh := on_dom (get_gfn_host cfg mem_sharing_unshare_page gfn
                       (Z.lor P2M_ALLOC (if write_access nf then P2M_UNSHARE else 0))) in
  let! (copied, p2m, e) :=
    if active then
      let! (copied, ap) := on_dom (p2m_altp2m_lazy_copy cfg mem_sharing_unshare_page k gpa) in
      if (copied : bool) then ret (true, ap, eh)
      else
        let! e := on_dom (get_gfn_alt cfg mem_sharing_unshare_page ap gfn 0) in
        ret (false, ap, e)
    else ret (false, None, eh) in
  if (copied : bool) then fault_end env false false None (out_rc 1)
  else
    let! c := check_permissions env gpa gla nf p2m e in
    match c with
    | Handled o req => fault_end env false false req o
    | Go_on ft em req => handle_type env gla nf p2m gfn e ft em req
    end.

Definition hvm_hap_nested_page_fault (env : fault_env) (gpa gla : Z) (nf : npfec) : M S_ fault_out :=
  let internal gpa :=
    if fe_mmio_internal env
    then fault_end env false false None
           (mkFaultOut 1 (negb (fe_mmio_ok env)) None None false None None)
    else handle_fault env gpa gla nf in
  match fe_nested env with
  | Some PAGEFAULT_DONE | Some PAGEFAULT_RETRY => ret (out_rc 1)
  | Some PAGEFAULT_L1_ERROR => ret (out_rc 0)
  | Some PAGEFAULT_INJECT => ret (out_rc (-1))
  | Some PAGEFAULT_MMIO => ret (mkFaultOut 1 (negb (fe_mmio_ok env)) None None false None None)
  | Some (PAGEFAULT_L0_ERROR gpa') => internal gpa'
  | None => internal gpa
  end.
End Fault.
