(* ===== verification/FaultEvents.v ===== *)
(** * From a fault to an event (theorems about NestedFault.v)

    An access against the rights of the vCPU's view, from the EPT violation to
    the request on the monitor ring. *)

From S2P Require Import Prelude Monad P2m P2mProofs Altp2m Altp2mProofs Altp2mSwitch Altp2mInv Altp2mTables.
From S2P Require Import VmEvent VmEventProofs VmEventSystem VmEventFrame MemAccess MemAccessProofs MemEvents NestedFault.

Section Fault.
Context {T : Type} `{P2MTableLaws T}.
Context (cfg : p2m_config) (plat : platform).
Context (mem_sharing_unshare_page : T -> Z -> T) (zero : T) (mask_ok : Z -> bool).
Context (access_required : option Z -> bool) (k : nat).
Context (F : Z) (HF : 0 <= F).
Local Abbreviation S_ := (vst T).
Local Abbreviation altp2m_inv := (altp2m_inv plat).
Implicit Types (v : S_) (d : domain T).

(** ** Sending a request *)

(** The state of the ring once vCPU [k] has a slot. *)
Definition claimed v : S_ := v <| ved ::= fun r => r <| target_producers ::= Z.add 1 |> |>.

Lemma wp_claim_slot v l fh h p Q :
  inv F (mkSys v l fh h) -> ring_page (ved v) = Some p -> l !! k = Some Run -> 0 < avail (ved v) ->
  (inv F (mkSys (claimed v) (<[k := Hold]> l) fh h) -> Q (Some 0) (claimed v)) ->
  wp (__vm_event_claim_slot (Some k) true) Q v.
Proof.
  intros I Hp Hk Ha HQ. set (s := mkSys v l fh h).
  destruct (wp_run _ _ _ (wp_grab F s false (fun rc v' => rc = 0 /\ v' = claimed v) I
    ltac:(change (ved (vs s)) with (ved v); congruence) ltac:(change (ved (vs s)) with (ved v); lia) ltac:(done)))
    as (rc & v' & E & -> & ->). change (vs s) with v in E.
  assert (I1 : inv F (at_pc s k Hold (claimed v))).
  { apply (run_wp _ _ _ _ _ E (inv_grab F s k Run Hold Busy Run I Hk eq_refl
      ltac:(intros Hw; by destruct (not_queued F s k Run I Hk eq_refl)) (or_introl eq_refl) eq_refl eq_refl ltac:(done))). }
  unfold __vm_event_claim_slot, wait_slot_begin. apply wp_bind.
  unfold wp at 1. rewrite E. cbn [Z.eqb]. by apply wp_ret, HQ.
Qed.

Lemma wp_put_held v l fh h p req Q :
  inv F (mkSys v (<[k := Hold]> l) fh h) -> ring_page (ved v) = Some p -> l !! k = Some Run ->
  (forall v', inv F (mkSys v' l fh h) -> (forall j, around j v' = around j v) ->
     ring_page (ved v') = Some (page_put (ved v) (stamp (Some k) req) p) -> Q tt v') ->
  wp (vm_event_put_request (Some k) req) Q v.
Proof.
  intros I Hp Hk HQ. set (s := mkSys v (<[k := Hold]> l) fh h).
  pose proof (on_flag _ _ _ _ _ _ (i_on F s I p Hp)) as Hflag. change (vs s) with v in Hflag.
  assert (Hlk : pcs s !! k = Some Hold) by (apply list_lookup_insert_eq; by eapply lookup_lt_Some).
  destruct (wp_run _ _ _ (wp_put F HF (Some k) s p req
    (fun _ v' => inv F (after_return (Some k) s v') /\
       ring_page (ved v') = Some (page_put (ved v) (stamp (Some k) req) p)) I Hp Hlk ltac:(done)))
    as ([] & v2 & E2 & I2 & Hp2). change (vs s) with v in E2.
  unfold wp. rewrite E2. apply HQ; [| |exact Hp2].
  - unfold after_return, at_pc in I2. cbn in I2. by rewrite list_insert_insert_eq, list_insert_id in I2.
  - intros j. apply (put_around (Some k) j req v _ _ ltac:(lia) E2).
Qed.

Lemma wp_send_request v l fh h p req Q :
  inv F (mkSys v l fh h) -> ring_page (ved v) = Some p -> l !! k = Some Run -> 0 < avail (ved v) ->
  (forall v', inv F (mkSys v' l fh h) -> (forall j, around j v' = around j v) ->
     ring_page (ved v') = Some (page_put (ved v) (stamp (Some k) req) p) -> Q (Some 0) v') ->
  wp (mem_access_send_req (Some k) req) Q v.
Proof.
  intros I Hp Hk Ha HQ. unfold mem_access_send_req. apply wp_bind.
  eapply wp_claim_slot; [done..|]. intros I1. unfold put_claimed. cbn [Z.ltb Z.compare].
  apply wp_bind. apply (wp_put_held (claimed v) l fh h p); [done..|]. intros v' I' Ha' Hp'.
  apply wp_ret, HQ; [done| |done]. intros j. rewrite Ha'. by apply around_ved.
Qed.

(** ** Lookups in the view *)

(** The entry a lookup in table [p] gives, when it is not of a broken frame. *)
Definition entry_of (p : p2m_domain T) (gfn : Z) : p2m_ent := (get_entry (table p) gfn 0).1.

Lemma table_back d i p : tab d i = Some p ->
  d <| altp2m_p2m ::= alter (fmap (fun q => q <| table := table p |>)) i |> = d.
Proof.
  intros Hp. destruct d as [vc ap ep em ho ne m2 ac dy cr hv nh pa dp]. unfold set. cbn. f_equal.
  unfold tab in Hp. cbn in Hp. apply list_eq. intros j. rewrite lookup_alter_case. case_decide as Hd; [subst|done].
  destruct (ap !! j) as [[q|]|]; simplify_eq/=. by destruct p.
Qed.

Lemma wp_alt_entry d i p gfn (Q : p2m_ent -> domain T -> Prop) : tab d i = Some p -> Q (entry_of p gfn) d ->
  wp (alt_get_entry (Z.of_nat i) gfn 0) Q d.
Proof.
  intros Hp HQ. unfold alt_get_entry. apply wp_bind. eapply wp_p2m_get; [rewrite Nat2Z.id; exact Hp|].
  pose proof (get_entry_pure (table p) gfn) as Ep. unfold entry_of in HQ.
  destruct (get_entry (table p) gfn 0) as [e t]. simpl in *. subst t.
  apply wp_bind. eapply wp_p2m_upd; [rewrite Nat2Z.id; exact Hp|]. rewrite Nat2Z.id, table_back by done. by apply wp_ret.
Qed.

Lemma wp_gfn_alt d i p gfn (Q : p2m_ent -> domain T -> Prop) : paging_translate cfg = true -> tab d i = Some p ->
  p2m_is_broken (e_type (entry_of p gfn)) = false -> Q (entry_of p gfn) d ->
  wp (get_gfn_alt cfg mem_sharing_unshare_page (Some (Z.of_nat i)) gfn 0) Q d.
Proof.
  intros Ht Hp Hb HQ. unfold get_gfn_alt. apply wp_bind. eapply wp_p2m_get; [rewrite Nat2Z.id; exact Hp|].
  unfold __get_gfn_type_access. rewrite Ht. cbn [negb]. change (Z.land 0 P2M_UNSHARE =? 0) with true. cbn [negb andb].
  pose proof (get_entry_pure (table p) gfn) as Ep. unfold entry_of in *.
  destruct (get_entry (table p) gfn 0) as [e t]. cbn [fst snd e_type] in Hb, HQ, Ep. subst t.
  change (negb (Z.land 0 P2M_UNSHARE =? 0)) with false. cbv beta iota zeta delta [andb]. rewrite Hb.
  apply wp_bind. eapply wp_p2m_upd; [rewrite Nat2Z.id; exact Hp|]. rewrite Nat2Z.id.
  change (fun q : p2m_domain T => q <| table := default (table q) (Some (table p)) |>)
    with (fun q : p2m_domain T => q <| table := table p |>). rewrite table_back by done. apply wp_bind, wp_when; [done|]. intros _. by apply wp_ret.
Qed.

(** A lookup in the host table leaves the views. *)
Definition views_part d := (altp2m_p2m d, vcpus d, altp2m_active d).
Lemma keeps_views_host gfn q : Keeps views_part (get_gfn_host cfg mem_sharing_unshare_page gfn q).
Proof.
  unfold get_gfn_host, host_upd, host_get, domain_crash. apply keeps_bind; [apply keeps_deref|]. intros h.
  destruct (__get_gfn_type_access _ _ _ _ _) as [[e t] crash]. frame_tac.
Qed.

(** ** Pausing the vCPU for an event *)

(** The vCPU's event state changed and it was paused once more for an event. *)
Record event_paused (e : vcpu_ev) (w w' : S_) : Prop := mkPaused {
  ep_ved : ved w' = ved w;
  ep_max : max_vcpus w' = max_vcpus w;
  ep_flags : pause_flags <$> evs w' = pause_flags <$> evs w;
  ep_dom : bare_dom (dm w') = bare_dom (dm w);
  ep_extra : forall j, extra_at j w' = extra_at j w;
  ep_count : exists e', evs w' !! k = Some e' /\ vm_event_pause_count e' = vm_event_pause_count e + 1
}.

Lemma wp_pause_event (e : vcpu_ev) w Q : evs w !! k = Some e ->
  (forall w', event_paused e w w' -> Q tt w') -> wp (vm_event_vcpu_pause (Some k) k) Q w.
Proof.
  intros He HQ. unfold vm_event_vcpu_pause. apply wp_bind, wp_bug_on; [by rewrite bool_decide_true|].
  apply wp_bind, wp_modify, wp_on_dom, wp_modify, HQ. split; try done.
  - cbn. by apply fmap_alter_same.
  - unfold bare_dom, set. cbn. by rewrite fmap_alter_same.
  - intros j. pose proof (extra_at_upd w j k (fun e => e <| vm_event_pause_count ::= Z.add 1 |>)
      (fun c => c <| pause_count ::= Z.add 1 |>) (ved w)) as E.
    rewrite <- E; [done| |done]. intros c0 e0 _ _. unfold extra, flagged. cbn. lia.
  - cbn. rewrite list_lookup_alter_eq, He. eexists. split; [done|]. cbn. lia.
Qed.

(** Changes of a vCPU's event state that the ring does not see. *)
Lemma event_paused_after (e : vcpu_ev) w w' f :
  (forall x, pause_flags (f x) = pause_flags x) -> (forall x, vm_event_pause_count (f x) = vm_event_pause_count x) ->
  event_paused (f e) (w <| evs ::= alter f k |>) w' -> event_paused e w w'.
Proof.
  intros Hf Hc [E1 E2 E3 E4 E5 E6].
  pose proof (same_ring_evs plat w k f Hf Hc) as Sm. split; try done.
  - rewrite E3. apply Sm.
  - intros j. rewrite E5. apply Sm.
  - by rewrite Hc in E6.
Qed.

(** ** The access in question *)

Context (v : S_) (l : list pc) (fh : nat) (h : Z) (p : sring).
Context (c : vcpu) (i : nat) (pv : p2m_domain T) (ev : vcpu_ev).
Context (env : fault_env) (gpa gla : Z) (nf : npfec).
Local Abbreviation gfn := (Z.shiftr gpa PAGE_SHIFT).
Local Abbreviation entry := (entry_of pv gfn).

(** vCPU [k] runs in view [i], with a ring to report to and a free slot. *)
Record watched : Prop := mkWatched {
  w_ring : inv F (mkSys v l fh h);
  w_views : altp2m_inv (dm v);
  w_active : altp2m_active (dm v) = true;
  w_page : ring_page (ved v) = Some p;
  w_run : l !! k = Some Run;
  w_free : 0 < avail (ved v);
  w_vcpu : vcpus (dm v) !! k = Some c;
  w_view : p2midx c = Z.of_nat i;
  w_table : tab (dm v) i = Some pv;
  w_event : evs v !! k = Some ev
}.

(** The view's entry does not allow the access and does not promote itself. *)
Record denied : Prop := mkDenied {
  dn_mapped : e_mfn entry <> INVALID_MFN;
  dn_sound : p2m_is_broken (e_type entry) = false;
  dn_violates : access_violation (e_access entry) nf = true;
  dn_rx2rw : write_access nf = true -> e_access entry <> p2m_access_rx2rw;
  dn_n2rwx : e_access entry <> p2m_access_n2rwx
}.

(** The fault is not one of a nested guest or of emulated memory, the request
    can be allocated, and the helper has not asked to emulate the
    instruction. *)
Record plain : Prop := mkPlain {
  pl_translate : paging_translate cfg = true;
  pl_nested : fe_nested env = None;
  pl_mmio : fe_mmio_internal env = false;
  pl_alloc : ce_alloc_ok (fe_check env) = true;
  pl_emul : emulate_flags ev = 0 \/ ev_gpa ev <> gpa \/ ev_eip ev <> ce_eip (fe_check env)
}.

Definition reported : vm_event :=
  access_request k gpa gla nf true (Some (Z.of_nat i)) (ce_regs (fe_check env)).

Lemma wp_report w (e1 : vcpu_ev) (Q : check_result -> S_ -> Prop) :
  evs w !! k = Some e1 -> emulate_flags e1 = 0 -> ce_alloc_ok (fe_check env) = true ->
  altp2m_active (dm w) = true -> vcpus (dm w) !! k = Some c -> p2midx c = Z.of_nat i ->
  (forall w', event_paused e1 w w' -> Q (mkCheck false (Some reported) None) w') ->
  wp (emulate_or_report (Some k) (fe_check env) k gpa gla nf false) Q w.
Proof.
  intros He Hz Hal Ha Hc Hidx HQ. unfold emulate_or_report. apply wp_bind. eapply wp_ev_get; [done|].
  rewrite Hz. cbn [negb Z.eqb]. cbv zeta. apply wp_bind, wp_gets. rewrite Ha, Hal.
  apply wp_bind, wp_on_dom. eapply wp_vcpu_get; [done|].
  replace (w <| dm := dm w |>) with w by (by destruct w). rewrite Hidx. apply wp_bind.
  eapply wp_pause_event; [done|]. intros w' Hw. by apply wp_ret, HQ.
Qed.

(** Without memory for the request the vCPU is paused all the same, and
    nothing will be sent. *)
Lemma paused_without_request w (e1 : vcpu_ev) :
  evs w !! k = Some e1 -> emulate_flags e1 = 0 -> ce_alloc_ok (fe_check env) = false ->
  vcpus (dm w) !! k = Some c ->
  wp (emulate_or_report (Some k) (fe_check env) k gpa gla nf false)
    (fun r w' => r = mkCheck false None None /\ event_paused e1 w w') w.
Proof.
  intros He Hz Hal Hc. unfold emulate_or_report. apply wp_bind. eapply wp_ev_get; [done|].
  rewrite Hz. cbn [negb Z.eqb]. cbv zeta. apply wp_bind, wp_gets. rewrite Hal.
  apply wp_bind, wp_on_dom. eapply wp_vcpu_get; [done|].
  replace (w <| dm := dm w |>) with w by (by destruct w). apply wp_bind.
  eapply wp_pause_event; [done|]. intros w' Hw. by apply wp_ret.
Qed.

Lemma wp_access_check w (Q : check_result -> S_ -> Prop) : denied -> plain -> (i < 39)%nat ->
  altp2m_active (dm w) = true -> vcpus (dm w) !! k = Some c -> p2midx c = Z.of_nat i ->
  tab (dm w) i = Some pv -> ring_page (ved w) = Some p -> evs w !! k = Some ev ->
  (forall w', event_paused ev w w' -> Q (mkCheck false (Some reported) None) w') ->
  wp (p2m_mem_access_check cfg plat mem_sharing_unshare_page zero mask_ok (Some k) access_required
        (fe_check env) k gpa gla nf) Q w.
Proof.
  intros [D1 D2 D3 D4 D5] [P1 P2 P3 P4 P5] Hi Ha Hc Hidx Ht Hp He HQ. unfold p2m_mem_access_check. cbv zeta.
  apply wp_bind, wp_gets. rewrite Ha. apply wp_bind, wp_on_dom. eapply wp_get_altp2m; [done..|].
  replace (w <| dm := dm w |>) with w by (by destruct w).
  apply wp_bind, wp_on_dom. apply (wp_alt_entry _ i pv); [done|]. replace (w <| dm := dm w |>) with w by (by destruct w).
  replace (write_access nf && bool_decide (e_access entry = p2m_access_rx2rw)) with false.
  2: { destruct (write_access nf); [|done]. by rewrite bool_decide_false by auto. }
  rewrite (bool_decide_false (e_access entry = p2m_access_n2rwx)) by done.
  apply wp_bind, wp_when; [done|]. intros _. apply wp_bind, wp_gets. rewrite bool_decide_true by (by rewrite Hp).
  cbn [negb]. apply wp_bind. eapply wp_ev_get; [done|]. apply wp_bind. apply wp_when; intros Ec.
  - apply wp_modify. eapply wp_report; [cbn; by rewrite list_lookup_alter_eq, He|done..|].
    intros w' Hw. apply HQ. by apply (event_paused_after ev w w' (fun x => x <| emulate_flags := 0 |>
      <| ev_gpa := gpa |> <| ev_eip := ce_eip (fe_check env) |>)).
  - apply orb_false_iff in Ec as [E1 E2]. zbool.
    apply (wp_report w ev); try done. destruct P5 as [?|[?|?]]; done.
Qed.

(** No #VE: no vCPU has a page for it. *)
Lemma no_ve (b : bool) : veinfo_gfn c = INVALID_GFN ->
  (if b then altp2m_vcpu_emulate_ve plat c (fe_ve_frame env) (fe_qual env) gla gpa
   else (false, None, false)).1.1 = false.
Proof.
  intros Hv. destruct b; [|done]. unfold altp2m_vcpu_emulate_ve, vmx_vcpu_emulate_ve.
  destruct (altp2m_hooks plat); [|done]. by rewrite Hv.
Qed.

(** The domain of the fault after the lookup in the host table. *)
Record in_view (w : S_) : Prop := mkInView {
  iv_inv : altp2m_inv (dm w);
  iv_active : altp2m_active (dm w) = true;
  iv_vcpu : vcpus (dm w) !! k = Some c;
  iv_idx : p2midx c = Z.of_nat i;
  iv_table : tab (dm w) i = Some pv
}.

Lemma in_view_lt w : in_view w -> (i < 39)%nat.
Proof. intros V. eapply tab_lt; apply V. Qed.

Lemma wp_permissions w (Q : checked -> S_ -> Prop) : in_view w -> denied -> plain ->
  ring_page (ved w) = Some p -> evs w !! k = Some ev ->
  (forall w', event_paused ev w w' -> Q (Handled (out_rc 1) (Some reported)) w') ->
  wp (check_permissions cfg plat mem_sharing_unshare_page zero mask_ok access_required k env gpa gla nf
        (Some (Z.of_nat i)) entry) Q w.
Proof.
  intros V Dn Pl Hp He HQ. pose proof (in_view_lt w V) as Hi. destruct V as [V1 V2 V3 V4 V5].
  unfold check_permissions. rewrite (proj2 (Z.eqb_neq _ _) (dn_mapped Dn)), (dn_violates Dn). cbn [negb orb].
  apply wp_bind, wp_bind, wp_on_dom. eapply wp_p2m_get; [rewrite Nat2Z.id; exact V5|].
  replace (w <| dm := dm w |>) with w by (by destruct w).
  apply wp_ret, wp_bind, wp_on_dom. eapply wp_vcpu_get; [exact V3|].
  replace (w <| dm := dm w |>) with w by (by destruct w). cbv zeta.
  rewrite no_ve by (apply (inv_active _ _ V1 V2 _ _ V3)).
  apply wp_bind. apply wp_access_check; [done..|]. intros w' Hw. by apply wp_ret, HQ.
Qed.

(** The lookups before the check: the entry of the view is there, so nothing
    is copied. *)
Lemma wp_lookups w (Q : bool * option Z * p2m_ent -> S_ -> Prop) eh : in_view w -> denied -> plain ->
  Q (false, Some (Z.of_nat i), entry) w ->
  wp (bind (on_dom (p2m_altp2m_lazy_copy cfg mem_sharing_unshare_page k gpa)) (fun x =>
        let '(copied, ap) := x in
        if (copied : bool) then ret (true, ap, eh)
        else bind (on_dom (get_gfn_alt cfg mem_sharing_unshare_page ap gfn 0)) (fun e => ret (false, ap, e)))) Q w.
Proof.
  intros V Dn Pl HQ. pose proof (in_view_lt w V) as Hi. destruct V as [V1 V2 V3 V4 V5].
  apply wp_bind, wp_on_dom. unfold p2m_altp2m_lazy_copy. cbv zeta. apply wp_bind.
  eapply wp_get_altp2m; [done..|]. apply wp_bind. apply (wp_gfn_alt _ i pv); [apply Pl|done|apply Dn|].
  rewrite (proj2 (Z.eqb_neq _ _) (dn_mapped Dn)). cbn [negb]. apply wp_ret.
  replace (w <| dm := dm w |>) with w by (by destruct w).
  apply wp_bind, wp_on_dom. apply (wp_gfn_alt _ i pv); [apply Pl|done|apply Dn|].
  replace (w <| dm := dm w |>) with w by (by destruct w). by apply wp_ret.
Qed.

Lemma wp_denied_access : watched -> denied -> plain ->
  wp (hvm_hap_nested_page_fault cfg plat mem_sharing_unshare_page zero mask_ok access_required k env gpa gla nf)
    (fun o v' => o = mkFaultOut 1 false None None false None (Some (Some 0)) /\
       ring_page (ved v') = Some (page_put (ved v) (stamp (Some k) reported) p) /\
       (exists e', evs v' !! k = Some e' /\ vm_event_pause_count e' = vm_event_pause_count ev + 1) /\
       inv F (mkSys v' l fh h) /\ altp2m_inv (dm v') /\ (forall j, extra_at j v' = extra_at j v)) v.
Proof.
  intros [W1 W2 W3 W4 W5 W6 W7 W8 W9 W10] Dn Pl.
  unfold hvm_hap_nested_page_fault. rewrite (pl_nested Pl), (pl_mmio Pl). unfold handle_fault. cbv zeta.
  apply wp_bind, wp_gets. apply wp_bind, wp_on_dom. rewrite W3.
  pose proof (Quiet_get_gfn_host cfg plat mem_sharing_unshare_page gfn
    (Z.lor P2M_ALLOC (if write_access nf then P2M_UNSHARE else 0)) (dm v) (inv_shape _ _ W2)) as Wh.
  eapply wp_mono; [exact (wp_keeps _ _ _ _ (keeps_views_host _ _) Wh)|]. intros eh d1 [Q1 V1].
  injection V1 as Va Vv Vact. set (w := v <| dm := d1 |>).
  assert (V : in_view w).
  { split; [by eapply quiet_inv|by rewrite <- W3|by rewrite <- W7, <- Vv|done|].
    unfold tab. cbn. rewrite Va. exact W9. }
  pose proof (same_ring_quiet plat v d1 W2 Q1) as Sw.
  apply wp_bind, wp_lookups; [done..|]. cbv iota beta. apply wp_bind.
  apply wp_permissions; [done..|]. intros w' [E1 E2 E3 E4 E5 E6]. cbv iota beta. unfold fault_end. cbv zeta.
  apply wp_bind, wp_bind.
  apply (wp_send_request w' l fh h p); try done; [by eapply ring_inv_ext|by rewrite E1|by rewrite E1|].
  intros v' I' Ha Hp'. apply wp_ret, wp_ret. destruct (around_parts 0 _ _ (Ha 0%nat)) as (Ed & Ee & _).
  split_and!; [done|by rewrite E1 in Hp'| |done| |].
  - destruct E6 as (e' & He' & Ec). pose proof (f_equal (fun x => x !! k) Ee) as Ek. cbn in Ek.
    rewrite !list_lookup_fmap, He' in Ek. destruct (evs v' !! k) as [e2|]; [|done].
    exists e2. split; [done|]. rewrite <- Ec.
    pose proof (inj Some _ _ Ek) as Eb. exact (f_equal vm_event_pause_count Eb).
  - eapply inv_repaused; [apply V|]. by rewrite Ed.
  - intros j. destruct (around_parts j _ _ (Ha j)) as (_ & _ & _ & ->). rewrite E5. apply Sw.
Qed.

(** C10. An access that the vCPU's view does not allow, from the EPT violation
    to the helper: the handler returns 1, nothing is emulated and no #VE is
    delivered; the request with the frame, the access and the view is the next
    one on the monitor ring, and the vCPU is paused once more for an event, so
    that it does not run before the answer.  The ring and the views keep their
    invariants, and no other pause is added or lost. *)
Theorem denied_access_reported : watched -> denied -> plain ->
  wp (hvm_hap_nested_page_fault cfg plat mem_sharing_unshare_page zero mask_ok access_required k env gpa gla nf)
    (fun o v' => o = mkFaultOut 1 false None None false None (Some (Some 0)) /\
       ring_page (ved v') = Some (page_put (ved v) (stamp (Some k) reported) p) /\
       (exists e', evs v' !! k = Some e' /\ vm_event_pause_count e' = vm_event_pause_count ev + 1) /\
       inv F (mkSys v' l fh h) /\ altp2m_inv (dm v') /\ (forall j, extra_at j v' = extra_at j v)) v.
Proof. exact wp_denied_access. Qed.
End Fault.
