(* ===== verification/Monitor.v ===== *)
(** * The rings of a domain and the events a helper subscribes to
      (xen/common/vm_event.c, xen/arch/x86/monitor.c, xen/arch/x86/hvm/event.c)

    A domain has a ring each for sharing, paging and monitoring.  An operation
    of VmEvent.v or MemAccess.v on one of them is run with that ring in place
    ([on_ring]).  The monitor options say which events of the guest become
    requests on the monitor ring. *)

From S2P Require Import Prelude Monad P2m Altp2m VmEvent MemAccess.

Definition _VPF_mem_paging : Z := 4.
Definition _VPF_mem_access : Z := 5.
Definition _VPF_mem_sharing : Z := 6.
Definition XEN_VM_EVENT_ENABLE : Z := 0.
Definition XEN_VM_EVENT_DISABLE : Z := 1.
Definition XEN_VM_EVENT_RESUME : Z := 2.
Definition XEN_DOMCTL_VM_EVENT_OP_PAGING : Z := 1.
Definition XEN_DOMCTL_VM_EVENT_OP_MONITOR : Z := 2.
Definition XEN_DOMCTL_VM_EVENT_OP_SHARING : Z := 3.
Definition XEN_DOMCTL_MONITOR_OP_ENABLE : Z := 0.
Definition XEN_DOMCTL_MONITOR_OP_DISABLE : Z := 1.
Definition XEN_DOMCTL_MONITOR_OP_GET_CAPABILITIES : Z := 2.
Definition XEN_DOMCTL_MONITOR_EVENT_WRITE_CTRLREG : Z := 0.
Definition XEN_DOMCTL_MONITOR_EVENT_MOV_TO_MSR : Z := 1.
Definition XEN_DOMCTL_MONITOR_EVENT_SINGLESTEP : Z := 2.
Definition XEN_DOMCTL_MONITOR_EVENT_SOFTWARE_BREAKPOINT : Z := 3.
Definition XEN_DOMCTL_MONITOR_EVENT_GUEST_REQUEST : Z := 4.
Definition VM_EVENT_REASON_SOFTWARE_BREAKPOINT : Z := 6.
Definition VM_EVENT_REASON_SINGLESTEP : Z := 7.
Definition VM_EVENT_REASON_GUEST_REQUEST : Z := 8.

Inductive ring_id := Share | Paging | Monitor_.
#[export] Instance ring_id_eq_dec : EqDecision ring_id.
Proof. solve_decision. Defined.

(** The monitor options of struct arch_domain; the first three are 4-bit
    fields. *)
Record monitor_opts := mkMon {
  write_ctrlreg_enabled : Z; write_ctrlreg_sync : Z; write_ctrlreg_onchangeonly : Z;
  mov_to_msr_enabled : bool; mov_to_msr_extended : bool;
  singlestep_enabled : bool; software_breakpoint_enabled : bool;
  guest_request_enabled : bool; guest_request_sync : bool
}.
#[export] Instance eta_mon : Eta monitor_opts := fun x =>
  mkMon (write_ctrlreg_enabled x) (write_ctrlreg_sync x) (write_ctrlreg_onchangeonly x)
    (mov_to_msr_enabled x) (mov_to_msr_extended x) (singlestep_enabled x)
    (software_breakpoint_enabled x) (guest_request_enabled x) (guest_request_sync x).

(** A domain with its rings; [ved] of [base] is the ring an operation is on. *)
Record edom (T : Type) := mkEdom {
  base : vst T;
  rings : ring_id -> vm_event_domain;
  mon : monitor_opts;
  cr0_updates : list nat                   (* vCPUs hvm_update_guest_cr(v, 0) was called for *)
}.
Arguments mkEdom {T}. Arguments base {T}. Arguments rings {T}. Arguments mon {T}.
Arguments cr0_updates {T}.
#[export] Instance eta_edom {T} : Eta (edom T) := fun x =>
  mkEdom (base x) (rings x) (mon x) (cr0_updates x).

Section Rings.
Local Open Scope monad_scope.
Context {T : Type} `{P2MTable T}.
Context (cfg : p2m_config) (plat : platform).
Context (mem_sharing_unshare_page : T -> Z -> T) (zero : T) (mask_ok : Z -> bool).
Context (cur : option nat) (singlestep_supported log_dirty : bool).
Local Abbreviation S_ := (vst T).
Local Abbreviation E_ := (edom T).

Definition on_ring {A} (r : ring_id) (m : M S_ A) : M E_ A := fun s =>
  match m ((base s) <| ved := rings s r |>) with
  | Some (a, b) =>
      Some (a, mkEdom b (fun r' => if bool_decide (r' = r) then ved b else rings s r') (mon s)
              (cr0_updates s))
  | None => None
  end.

Definition resume : M S_ unit :=
  vm_event_resume cfg plat mem_sharing_unshare_page zero mask_ok singlestep_supported log_dirty.

(** monitor_notification(), mem_paging_notification(), mem_sharing_notification() *)
Definition ring_notification (r : ring_id) : M E_ unit :=
  on_ring r (let! v := gets ved in when (bool_decide (ring_page v <> None)) resume).

Definition vm_event_cleanup : M E_ unit :=
  on_ring Paging cleanup_ring ;; on_ring Monitor_ cleanup_ring ;; on_ring Share cleanup_ring.

(** What vm_event_domctl() asks about the domain and its caller. *)
Record domctl_env := mkDcEnv {
  dc_xsm_rc : Z; dc_self : bool; dc_pvh : bool; dc_need_iommu : bool; dc_pod_entries : bool;
  dc_enable : enable_env
}.

(** The part that is the same for all rings; [ready] is what enabling this
    ring requires, with its error. *)
Definition ring_op (r : ring_id) (op flag : Z) (ready : Z) (env : domctl_env)
  : M E_ (Z * option Z) :=
  if op =? XEN_VM_EVENT_ENABLE then
    if negb (ready =? 0) then ret (ready, None)
    else on_ring r (vm_event_enable (dc_enable env) flag)
  else if op =? XEN_VM_EVENT_DISABLE then
    on_ring r (let! v := gets ved in
      if bool_decide (ring_page v <> None)
      then let! rc := vm_event_disable in ret (rc, None) else ret (- EINVAL, None))
  else if op =? XEN_VM_EVENT_RESUME then
    on_ring r (let! v := gets ved in
      if bool_decide (ring_page v <> None)
      then resume ;; ret (- EINVAL, None) else ret (- ENODEV, None))
  else ret (- ENOSYS, None).

(** The result, and vec->port when it is stored. *)
Definition vm_event_domctl (env : domctl_env) (mode op : Z) : M E_ (Z * option Z) :=
  if negb (dc_xsm_rc env =? 0) then ret (dc_xsm_rc env, None)
  else if dc_self env then ret (- EINVAL, None)
  else
    let! s := gets (fun s : E_ => s) in
    if is_dying (dm (base s)) then ret (0, None)
    else if bool_decide (evs (base s) = []) then ret (- EINVAL, None)
    else if mode =? XEN_DOMCTL_VM_EVENT_OP_PAGING then
      ring_op Paging op _VPF_mem_paging
        (if dc_pvh env then - EOPNOTSUPP
         else if negb (hap_enabled cfg) then - ENODEV
         else if dc_need_iommu env then - EMLINK
         else if dc_pod_entries env then - EXDEV else 0) env
    else if mode =? XEN_DOMCTL_VM_EVENT_OP_MONITOR then
      ring_op Monitor_ op _VPF_mem_access 0 env
    else if mode =? XEN_DOMCTL_VM_EVENT_OP_SHARING then
      ring_op Share op _VPF_mem_sharing
        (if dc_pvh env then - EOPNOTSUPP
         else if negb (hap_enabled cfg) then - ENODEV else 0) env
    else ret (- ENOSYS, None).

(** ** monitor.c *)

Record monitor_op := mkMop {
  mop_op : Z; mop_event : Z;
  cr_reg : Z; cr_sync : bool; cr_onchangeonly : bool;      (* u.mov_to_cr *)
  msr_extended_capture : bool;                             (* u.mov_to_msr *)
  gr_sync : bool                                           (* u.guest_request *)
}.

Definition monitor_ctrlreg_bitmask (index : Z) : Z := u32 (Z.shiftl 1 index).
Definition status_check (mop : monitor_op) (status : bool) : Z :=
  if Bool.eqb status (mop_op mop =? XEN_DOMCTL_MONITOR_OP_ENABLE) then - EEXIST else 0.

Definition get_capabilities (d : domain T) : Z :=
  if negb (is_hvm d) || negb (cpu_has_vmx plat) then 0
  else
    let c := Z.lor (Z.shiftl 1 XEN_DOMCTL_MONITOR_EVENT_WRITE_CTRLREG)
               (Z.lor (Z.shiftl 1 XEN_DOMCTL_MONITOR_EVENT_MOV_TO_MSR)
                  (Z.lor (Z.shiftl 1 XEN_DOMCTL_MONITOR_EVENT_SOFTWARE_BREAKPOINT)
                     (Z.shiftl 1 XEN_DOMCTL_MONITOR_EVENT_GUEST_REQUEST))) in
    if singlestep_supported then Z.lor c (Z.shiftl 1 XEN_DOMCTL_MONITOR_EVENT_SINGLESTEP) else c.

Definition mon_upd (f : monitor_opts -> monitor_opts) : M E_ unit :=
  modify (fun s => s <| mon ::= f |>).
(** A 4-bit field with the bits of [mask] set or cleared. *)
Definition field4 (on : bool) (mask v : Z) : Z :=
  (if on then Z.lor v mask else Z.ldiff v mask) mod 2 ^ 4.

(** domain_pause() and domain_unpause() around a change. *)
Definition paused (m : M E_ unit) : M E_ unit :=
  let dp z := modify (fun s : E_ => s <| base ::= fun b => b <| dm ::= fun d =>
                d <| dom_pause_count ::= Z.add z |> |> |>) in
  dp 1 ;; m ;; dp (-1).

(** monitor_domctl(): the result, and the event mask for GET_CAPABILITIES;
    [msr_exits] is hvm_enable_msr_exit_interception(). *)
Definition monitor_domctl (xsm_rc : Z) (msr_exits : bool) (mop : monitor_op) : M E_ (Z * option Z) :=
  let! s := gets (fun s : E_ => s) in
  let caps := get_capabilities (dm (base s)) in
  let m := mon s in
  let enable := mop_op mop =? XEN_DOMCTL_MONITOR_OP_ENABLE in
  let checked status (act : M E_ unit) :=
    if negb (status_check mop status =? 0) then ret (status_check mop status, None)
    else act ;; ret (0, None) in
  if negb (xsm_rc =? 0) then ret (xsm_rc, None)
  else if mop_op mop =? XEN_DOMCTL_MONITOR_OP_GET_CAPABILITIES then ret (0, Some caps)
  else if negb enable && negb (mop_op mop =? XEN_DOMCTL_MONITOR_OP_DISABLE)
  then ret (- EOPNOTSUPP, None)
  else if Z.land caps (u32 (Z.shiftl 1 (mop_event mop))) =? 0 then ret (- EOPNOTSUPP, None)
  else if mop_event mop =? XEN_DOMCTL_MONITOR_EVENT_WRITE_CTRLREG then
    let mask := monitor_ctrlreg_bitmask (cr_reg mop) in
    let status := negb (Z.land (write_ctrlreg_enabled m) mask =? 0) in
    checked status
      (mon_upd (fun m => m <| write_ctrlreg_sync ::= field4 (cr_sync mop) mask |>
                           <| write_ctrlreg_onchangeonly ::= field4 (cr_onchangeonly mop) mask |>) ;;
       paused (mon_upd (fun m => m <| write_ctrlreg_enabled ::= field4 (negb status) mask |>)) ;;
       when (cr_reg mop =? VM_EVENT_X86_CR3)
         (modify (fun s : E_ => s <| cr0_updates ::= fun l => l ++ seq 0 (length (evs (base s))) |>)))
  else if mop_event mop =? XEN_DOMCTL_MONITOR_EVENT_MOV_TO_MSR then
    let status := mov_to_msr_enabled m in
    if negb (status_check mop status =? 0) then ret (status_check mop status, None)
    else
      let extended := enable && msr_extended_capture mop in
      if extended && negb msr_exits then ret (- EOPNOTSUPP, None)
      else
        mon_upd (fun m => m <| mov_to_msr_extended := extended |>) ;;
        paused (mon_upd (fun m => m <| mov_to_msr_enabled := negb status |>)) ;;
        ret (0, None)
  else if mop_event mop =? XEN_DOMCTL_MONITOR_EVENT_SINGLESTEP then
    let status := singlestep_enabled m in
    checked status (paused (mon_upd (fun m => m <| singlestep_enabled := negb status |>)))
  else if mop_event mop =? XEN_DOMCTL_MONITOR_EVENT_SOFTWARE_BREAKPOINT then
    let status := software_breakpoint_enabled m in
    checked status (paused (mon_upd (fun m => m <| software_breakpoint_enabled := negb status |>)))
  else if mop_event mop =? XEN_DOMCTL_MONITOR_EVENT_GUEST_REQUEST then
    let status := guest_request_enabled m in
    checked status
      (mon_upd (fun m => m <| guest_request_sync := gr_sync mop |>) ;;
       paused (mon_upd (fun m => m <| guest_request_enabled := negb status |>)))
  else ret (- EOPNOTSUPP, None).

(** ** hvm/event.c: events of vCPU [k], which is [current] *)

(** hvm_event_traps(): [None] when the vCPU goes to sleep for a slot; [regs] is
    what hvm_event_fill_regs() stores. *)
Definition hvm_event_traps (k : nat) (regs : Z) (sync : bool) (req : vm_event) : M E_ (option Z) :=
  on_ring Monitor_
    (let! rc := __vm_event_claim_slot (Some k) true in
     match rc with
     | None => ret None
     | Some rc =>
         if rc =? 0 then
           let req := if sync then req <| flags ::= fun f => Z.lor f VM_EVENT_FLAG_VCPU_PAUSED |>
                      else req in
           when sync (vm_event_vcpu_pause (Some k) k) ;;
           vm_event_put_request (Some k) (req <| ev_data := regs |>) ;;
           ret (Some 1)
         else if rc =? - ENOSYS then ret (Some 1) else ret (Some rc)
     end).

Definition event_of (k : nat) (r : Z) : vm_event :=
  no_event <| reason := r |> <| vcpu_id := Z.of_nat k |>.

(** Whether an event was raised, with the result of hvm_event_traps(). *)
Definition hvm_event_cr (k : nat) (regs index value old : Z) : M E_ (option (option Z)) :=
  let! s := gets (fun s : E_ => s) in
  let mask := monitor_ctrlreg_bitmask index in
  if negb (Z.land (write_ctrlreg_enabled (mon s)) mask =? 0)
     && ((Z.land (write_ctrlreg_onchangeonly (mon s)) mask =? 0) || negb (value =? old)) then
    let! r := hvm_event_traps k regs (negb (Z.land (write_ctrlreg_sync (mon s)) mask =? 0))
                ((event_of k VM_EVENT_REASON_WRITE_CTRLREG)
                   <| cr_index := index |> <| cr_new := value |> <| cr_old := old |>) in
    ret (Some r)
  else ret None.

Definition hvm_event_msr (k : nat) (regs msr value : Z) : M E_ (option (option Z)) :=
  let! s := gets (fun s : E_ => s) in
  if mov_to_msr_enabled (mon s) then
    let! r := hvm_event_traps k regs true
                ((event_of k VM_EVENT_REASON_MOV_TO_MSR) <| msr_index := msr |> <| msr_value := value |>) in
    ret (Some r)
  else ret None.

Definition hvm_event_guest_request (k : nat) (regs : Z) : M E_ (option (option Z)) :=
  let! s := gets (fun s : E_ => s) in
  if guest_request_enabled (mon s) then
    let! r := hvm_event_traps k regs (guest_request_sync (mon s))
                (event_of k VM_EVENT_REASON_GUEST_REQUEST) in
    ret (Some r)
  else ret None.

(** [gfn] is paging_gva_to_gfn(). *)
Definition hvm_event_int3 (k : nat) (regs gfn : Z) : M E_ (option Z) :=
  let! s := gets (fun s : E_ => s) in
  if software_breakpoint_enabled (mon s) then
    hvm_event_traps k regs true
      ((event_of k VM_EVENT_REASON_SOFTWARE_BREAKPOINT) <| dbg_gfn := gfn |>)
  else ret (Some 0).
Definition hvm_event_single_step (k : nat) (regs gfn : Z) : M E_ (option Z) :=
  let! s := gets (fun s : E_ => s) in
  if singlestep_enabled (mon s) then
    hvm_event_traps k regs true
      ((event_of k VM_EVENT_REASON_SINGLESTEP) <| dbg_gfn := gfn |>)
  else ret (Some 0).
End Rings.
