(* ===== verification/MonitorProofs.v ===== *)
(** * Monitor options (theorems about Monitor.v)

    Which writes to control registers become events after the options were
    set, and what the operations on the rings report. *)

From S2P Require Import Prelude Monad P2m Altp2m VmEvent MemAccess Monitor.

Lemma field4_bit on mask v j : 0 <= j ->
  Z.testbit (field4 on mask v) j =
  (j <? 4) && (if on then Z.testbit v j || Z.testbit mask j else Z.testbit v j && negb (Z.testbit mask j)).
Proof.
  intros Hj. unfold field4. rewrite Z.testbit_mod_pow2 by lia. f_equal.
  destruct on; [apply Z.lor_spec|apply Z.ldiff_spec].
Qed.

Lemma bitmask_bit index j : 0 <= index < 32 -> 0 <= j ->
  Z.testbit (monitor_ctrlreg_bitmask index) j = (j =? index).
Proof.
  intros Hi Hj. unfold monitor_ctrlreg_bitmask, u32. rewrite Z.shiftl_1_l, Z.mod_small.
  - rewrite Z.pow2_bits_eqb by lia. apply Z.eqb_sym.
  - split; [lia|]. apply Z.pow_lt_mono_r; lia.
Qed.

Section Monitor.
Context {T : Type} `{P2MTable T}.
Context (plat : platform) (singlestep_supported : bool).
Implicit Types s : edom T.

Lemma wp_paused s (f : monitor_opts -> monitor_opts) (Q : unit -> edom T -> Prop) :
  Q tt (s <| mon ::= f |>) -> wp (paused (mon_upd f)) Q s.
Proof.
  intros HQ. unfold paused, mon_upd. apply wp_bind, wp_modify, wp_bind, wp_modify, wp_modify.
  destruct s as [[[] ? ? ? ? ? ? ?] rg m]. unfold set in *. cbn in *.
  match goal with |- context [-1 + (1 + ?n)] => replace (-1 + (1 + n)) with n by lia end. exact HQ.
Qed.

(** Turning the monitoring of writes to a control register on: the call
    reports success, pauses and unpauses the domain, and changes nothing but
    the three option fields and, for CR3, the vCPUs' CR0 that latches the new
    mask; of the fields, exactly the bit of the register is set
    or, for the two modes, stored as asked.  A field has four bits: for a
    register index of 4 or more the call reports success as well and sets
    nothing. *)
Theorem ctrlreg_monitoring_set (s : edom T) msr_exits mop :
  mop_op mop = XEN_DOMCTL_MONITOR_OP_ENABLE -> mop_event mop = XEN_DOMCTL_MONITOR_EVENT_WRITE_CTRLREG ->
  is_hvm (dm (base s)) = true -> cpu_has_vmx plat = true -> 0 <= cr_reg mop < 32 ->
  Z.testbit (write_ctrlreg_enabled (mon s)) (cr_reg mop) = false ->
  wp (monitor_domctl plat singlestep_supported 0 msr_exits mop)
    (fun r s' => r = (0, None) /\ base s' = base s /\ rings s' = rings s /\
       cr0_updates s' = cr0_updates s ++
         (if cr_reg mop =? VM_EVENT_X86_CR3 then seq 0 (length (evs (base s))) else []) /\
       (forall j, 0 <= j ->
          Z.testbit (write_ctrlreg_enabled (mon s')) j =
            (j <? 4) && (Z.testbit (write_ctrlreg_enabled (mon s)) j || (j =? cr_reg mop)) /\
          Z.testbit (write_ctrlreg_sync (mon s')) j =
            (j <? 4) && (if j =? cr_reg mop then cr_sync mop else Z.testbit (write_ctrlreg_sync (mon s)) j) /\
          Z.testbit (write_ctrlreg_onchangeonly (mon s')) j =
            (j <? 4) && (if j =? cr_reg mop then cr_onchangeonly mop
                         else Z.testbit (write_ctrlreg_onchangeonly (mon s)) j))) s.
Proof.
  intros Ho He Hh Hv Hi Hb. unfold monitor_domctl. apply wp_bind, wp_gets. rewrite Ho, He. cbn [negb Z.eqb].
  assert (Hm : Z.land (write_ctrlreg_enabled (mon s)) (monitor_ctrlreg_bitmask (cr_reg mop)) = 0).
  { apply Z.bits_inj'. intros n Hn. rewrite Z.land_spec, bitmask_bit, Z.bits_0 by done.
    destruct (Z.eqb_spec n (cr_reg mop)) as [->|]; [by rewrite Hb|apply andb_false_r]. }
  assert (Hc : (Z.land (get_capabilities plat singlestep_supported (dm (base s)))
                  (u32 (Z.shiftl 1 XEN_DOMCTL_MONITOR_EVENT_WRITE_CTRLREG)) =? 0) = false).
  { unfold get_capabilities. rewrite Hh, Hv. by destruct singlestep_supported. }
  cbv zeta. change (XEN_DOMCTL_MONITOR_OP_ENABLE =? XEN_DOMCTL_MONITOR_OP_GET_CAPABILITIES) with false.
  change (XEN_DOMCTL_MONITOR_OP_ENABLE =? XEN_DOMCTL_MONITOR_OP_ENABLE) with true. cbn [negb andb].
  rewrite Hc. change (XEN_DOMCTL_MONITOR_EVENT_WRITE_CTRLREG =? XEN_DOMCTL_MONITOR_EVENT_WRITE_CTRLREG) with true.
  cbv iota. rewrite Hm. unfold status_check. rewrite Ho. cbn [negb Z.eqb Bool.eqb].
  apply wp_bind, wp_bind, wp_modify, wp_bind, wp_paused.
  match goal with |- wp _ ?Q _ => assert (HQ : forall s', base s' = base s -> rings s' = rings s ->
    cr0_updates s' = cr0_updates s ++
      (if cr_reg mop =? VM_EVENT_X86_CR3 then seq 0 (length (evs (base s))) else []) ->
    mon s' = (mon s) <| write_ctrlreg_sync ::= field4 (cr_sync mop) (monitor_ctrlreg_bitmask (cr_reg mop)) |>
      <| write_ctrlreg_onchangeonly ::= field4 (cr_onchangeonly mop) (monitor_ctrlreg_bitmask (cr_reg mop)) |>
      <| write_ctrlreg_enabled ::= field4 true (monitor_ctrlreg_bitmask (cr_reg mop)) |> -> Q tt s') end.
  2: { apply wp_when; intros E; [apply wp_modify|]; apply HQ; rewrite ?E; try done. symmetry. apply app_nil_r. }
  intros s' Eb Er Ec Em. apply wp_ret. split_and!; try done. rewrite Em.
  intros j Hj. cbn. rewrite !field4_bit, !bitmask_bit by done.
  destruct (j <? 4), (Z.eqb_spec j (cr_reg mop)) as [->|], (cr_sync mop), (cr_onchangeonly mop); cbn;
    rewrite ?orb_true_r, ?orb_false_r, ?andb_true_r, ?andb_false_r; done.
Qed.
End Monitor.

Section Domctl.
Context {T : Type} `{P2MTable T}.
Context (cfg : p2m_config) (plat : platform).
Context (mem_sharing_unshare_page : T -> Z -> T) (zero : T) (mask_ok : Z -> bool).
Context (singlestep_supported log_dirty : bool).

Lemma ring_resume_error r flag ready env (s : edom T) x s' :
  ring_op cfg plat mem_sharing_unshare_page zero mask_ok singlestep_supported log_dirty
    r XEN_VM_EVENT_RESUME flag ready env s = Some (x, s') ->
  x.1 = if bool_decide (ring_page (rings s r) <> None) then - EINVAL else - ENODEV.
Proof.
  unfold ring_op. change (XEN_VM_EVENT_RESUME =? XEN_VM_EVENT_ENABLE) with false.
  change (XEN_VM_EVENT_RESUME =? XEN_VM_EVENT_DISABLE) with false.
  change (XEN_VM_EVENT_RESUME =? XEN_VM_EVENT_RESUME) with true. cbv iota. unfold on_ring, bind at 1, gets.
  change (ved ((base s) <| ved := rings s r |>)) with (rings s r).
  case_bool_decide as Hp; [|unfold ret; intros; by simplify_eq].
  destruct (bind _ _ _) as [[y b]|] eqn:E; [|done]. intros E'. simplify_eq.
  apply bind_inv in E as ([] & b1 & _ & E). unfold ret in E. by simplify_eq.
Qed.

(** XEN_VM_EVENT_RESUME through vm_event_domctl() never reports success:
    with the ring on, the responses are handled (vm_event_resume) and the
    call returns -EINVAL all the same; without a ring it returns -ENODEV. *)
Theorem domctl_resume_never_succeeds env mode (s : edom T) r x s' :
  dc_xsm_rc env = 0 -> dc_self env = false -> is_dying (dm (base s)) = false -> evs (base s) <> [] ->
  (mode = XEN_DOMCTL_VM_EVENT_OP_PAGING /\ r = Paging \/
   mode = XEN_DOMCTL_VM_EVENT_OP_MONITOR /\ r = Monitor_ \/
   mode = XEN_DOMCTL_VM_EVENT_OP_SHARING /\ r = Share) ->
  vm_event_domctl cfg plat mem_sharing_unshare_page zero mask_ok singlestep_supported log_dirty
    env mode XEN_VM_EVENT_RESUME s = Some (x, s') ->
  x.1 = if bool_decide (ring_page (rings s r) <> None) then - EINVAL else - ENODEV.
Proof.
  intros Hx Hs Hd He Hm. unfold vm_event_domctl. rewrite Hx, Hs. cbn [negb Z.eqb].
  unfold bind at 1, gets. rewrite Hd, bool_decide_false by done.
  destruct Hm as [[-> ->]|[[-> ->]|[-> ->]]]; cbv iota; apply ring_resume_error.
Qed.
End Domctl.
