(* ===== verification/MemEventClaims.v ===== *)
(** * Memory-access events on concrete domains

    Witnesses for the claims of MemAccessProofs.v, MemEvents.v and
    FaultEvents.v, and what goes wrong between rings, views and responses. *)

From S2P Require Import Prelude Monad P2m P2mProofs Altp2m Altp2mProofs Altp2mSwitch Altp2mInv Altp2mTables Altp2mClaims.
From S2P Require Import VmEvent VmEventProofs VmEventSystem VmEventFrame MemAccess MemAccessProofs MemEvents NestedFault FaultEvents Monitor MonitorProofs.

(** ** A domain with memory, two more views and a ring *)

(** 512 frames in the host table; view 0 has frame 5, read-only. *)
Definition ma_host : flat := [(0, mkEnt 4096 p2m_ram_rw p2m_access_rwx 9)].
Definition ma_view : flat := [(5, mkEnt 4101 p2m_ram_rw p2m_access_r 0)].
Definition ma_edit (d : domain flat) : domain flat :=
  d <| hostp2m ::= fmap (fun p => p <| table := ma_host |>) |>
    <| altp2m_p2m ::= alter (fmap (fun p => p <| table := ma_view |>)) 0%nat |>.
Definition ma_dom : domain flat := ma_edit demo_views.

Lemma ma_edit_inv d : altp2m_inv demo_plat d -> altp2m_inv demo_plat (ma_edit d).
Proof.
  intros I. apply (inv_evolves demo_plat (d <| hostp2m ::= fmap (fun p => p <| table := ma_host |>) |>)).
  - apply (inv_evolves demo_plat d); [done|apply evolves_host|done].
  - apply evolves_tab0. intros p _. split; [split; [done|split; [by left|by intros (?&?&?&?)]]|done].
  - done.
Qed.
Lemma ma_dom_inv : altp2m_inv demo_plat ma_dom.
Proof. exact (ma_edit_inv _ demo_views_inv). Qed.

Definition ma_off : vst flat :=
  mkVst ma_dom 2 (replicate 2 (mkVe 0 0 0 0 0 None false)) (mkVed 0 0 None 0 0 0 0 0 [] 0 0) None ∅ 0 0.
Definition ma_page : sring := mkSring 0 1 0 1 (replicate 8 no_event).
Definition ma_enable : enable_env := mkEnEnv 5 true (fun _ => true) (inr ma_page) 3.
Definition vafter {A} (m : M (vst flat) A) (v : vst flat) : vst flat :=
  match m v with Some (_, v') => v' | None => v end.
Lemma vafter_wp {A} (m : M (vst flat) A) v (P : vst flat -> Prop) :
  wp m (fun _ v' => P v') v -> P (vafter m v).
Proof. unfold wp, vafter. by destruct (m v) as [[a v']|]. Qed.
Definition ma_on : vst flat := vafter (vm_event_enable ma_enable 5) ma_off.

Lemma ma_on_inv : inv 5 (mkSys ma_on [Run; Run] 0 0).
Proof.
  assert (I0 : inv 5 (mkSys ma_off [Run; Run] 0 0)).
  { apply fresh_inv. split.
    - done.
    - cbn. lia.
    - intros [|[|k]] p Hk; cbn in Hk; by simplify_eq.
    - by exists 0.
    - intros [|[|k]] e Hk; cbn in Hk; by simplify_eq.
    - done. }
  pose proof (inv_enable 5 _ ma_enable I0 eq_refl ltac:(done)) as W. cbn [vs pcs fholds hcons] in W.
  assert (E : vm_event_enable ma_enable 5 ma_off = Some ((0, Some 3), ma_on)) by reflexivity.
  exact (run_wp _ _ _ _ _ E W).
Qed.

(** ** Setting rights and asking for them *)

Definition ma_env : memop_env := mkMemEnv true true 0 0 1000.
(** 100 frames from frame 10 become read-execute, every check preempts. *)
Definition ma_op : xen_mem_access_op := mkMao XENMEM_access_op_set_access 5 100 10.
Definition ma_calls : M (vst flat) memop_end :=
  access_op_calls flat_cfg demo_plat demo_unshare [] demo_mask 101 ma_env (fun _ _ => true) false
    XENMEM_access_op ma_op.

Lemma ma_op_runs : (fst <$> ma_calls ma_on) = Some (Done 0 None) /\
  query (dm (vafter ma_calls ma_on)) 10 = Some (0, 5) /\ query (dm (vafter ma_calls ma_on)) 109 = Some (0, 5) /\
  query (dm (vafter ma_calls ma_on)) 110 = Some (0, 7) /\ query (dm ma_on) 10 = Some (0, 7).
Proof. vm_compute. done. Qed.

Definition ma_hostp2m : p2m_domain flat :=
  default (mkP2m [] p2m_host p2m_access_rwx 0 0 0 0 0 0 0 0 0 0) (hostp2m ma_dom).

(** The preempted call above, as the claim has it. *)
Lemma set_access_roundtrip_witness :
  (fst <$> ma_calls ma_on) = Some (Done 0 None) /\
  wp ma_calls (fun r s' => altp2m_inv demo_plat (dm s') /\ exists rc, r = Done rc None /\
     (rc = 0 -> query (dm s') 50 = Some (0, 5)) /\ query (dm s') 9 = Some (0, 7)) ma_on.
Proof.
  split; [apply ma_op_runs|]. unfold ma_calls.
  change 101%nat with (Z.to_nat (mao_nr ma_op) + 1)%nat. eapply wp_mono.
  - apply (set_access_roundtrip flat_cfg demo_plat demo_unshare [] demo_mask ma_env (fun _ _ => true) false
      ma_on ma_hostp2m ma_op).
    + exact ma_dom_inv.
    + split; vm_compute; done.
    + vm_compute; reflexivity.
    + exact I.
    + reflexivity.
    + vm_compute; done.
    + vm_compute; done.
    + vm_compute; done.
    + cbn. lia.
    + intros g a _. exact I.
  - intros r s' (I1 & rc & -> & _ & Hq). split; [done|]. exists rc. split; [done|]. split.
    + intros Hrc. destruct (Hq 50 ltac:(unfold INVALID_GFN; lia)) as [_ Hin].
      rewrite (Hin ltac:(by vm_compute) Hrc). vm_compute; reflexivity.
    + destruct (Hq 9 ltac:(unfold INVALID_GFN; lia)) as [Hout _].
      rewrite (Hout ltac:(by vm_compute)). vm_compute; reflexivity.
Defined.

(** ** A write to frame 5 by vCPU 0, and its answer *)

Definition ma_vcpu : vcpu := default demo_vcpu (vcpus ma_dom !! 0%nat).
Definition ma_p2m : p2m_domain flat := default ma_hostp2m (tab ma_dom 0).
Definition ma_ve : vcpu_ev := default (mkVe 0 0 0 0 0 None false) (evs ma_on !! 0%nat).
Definition ma_nf : npfec := mkNpfec false true false true npfec_kind_with_gla.
Definition ma_fault_env : fault_env :=
  mkFaultEnv None false true false None 0 0 0 false (mkChEnv 0x4000 7 true).
Definition ma_fault : M (vst flat) fault_out :=
  hvm_hap_nested_page_fault flat_cfg demo_plat demo_unshare [] demo_mask (fun _ => true) 0
    ma_fault_env 0x5010 0x7010 ma_nf.

Lemma ma_watched : watched demo_plat 0 5 ma_on [Run; Run] 0 0 ma_page ma_vcpu 0 ma_p2m ma_ve.
Proof.
  split; [exact ma_on_inv|exact ma_dom_inv|..]; vm_compute; reflexivity.
Qed.
Lemma ma_denied : denied ma_p2m 0x5010 ma_nf.
Proof. split; vm_compute; done. Qed.
Lemma ma_plain : plain flat_cfg ma_ve ma_fault_env 0x5010.
Proof. split; try (vm_compute; reflexivity). by left. Qed.

(** The write above, as the claim has it: it becomes the first request. *)
Lemma denied_access_reported_witness :
  (f_sent <$> (fst <$> ma_fault ma_on)) = Some (Some (Some 0)) /\
  wp ma_fault (fun o v' => f_rc o = 1 /\ f_sent o = Some (Some 0) /\
    exists p, ring_page (ved v') = Some p /\ req_prod p = 1 /\
      (ma_req_gfn <$> slots p !! 0%nat) = Some 5 /\ (altp2m_idx <$> slots p !! 0%nat) = Some 0) ma_on.
Proof.
  split; [vm_compute; reflexivity|]. eapply wp_mono.
  - exact (denied_access_reported flat_cfg demo_plat demo_unshare [] demo_mask (fun _ => true) 0 5 ltac:(done)
      ma_on [Run; Run] 0 0 ma_page ma_vcpu 0 ma_p2m ma_ve ma_fault_env 0x5010 0x7010 ma_nf
      ma_watched ma_denied ma_plain).
  - intros o v' (-> & Hp & _). split_and!; [done|done|]. eexists. split; [exact Hp|].
    split_and!; vm_compute; reflexivity.
Defined.

(** The helper reads the request and answers: go on, in view 1, unpaused. *)
Definition ma_faulted : vst flat := vafter ma_fault ma_on.
Definition ma_rsp : vm_event :=
  no_event <| version := VM_EVENT_INTERFACE_VERSION |> <| reason := VM_EVENT_REASON_MEM_ACCESS |>
    <| flags := Z.lor VM_EVENT_FLAG_VCPU_PAUSED VM_EVENT_FLAG_ALTERNATE_P2M |> <| altp2m_idx := 1 |>.
Definition ma_answered : vst flat := ma_faulted <| ved ::= answer ma_rsp |>.
Definition ma_resume : M (vst flat) unit :=
  vm_event_resume flat_cfg demo_plat demo_unshare [] demo_mask true false.

Lemma ma_faulted_ok : inv 5 (mkSys ma_faulted [Run; Run] 0 0) /\ altp2m_inv demo_plat (dm ma_faulted).
Proof.
  unfold ma_faulted. apply (vafter_wp ma_fault ma_on
    (fun v' => inv 5 (mkSys v' [Run; Run] 0 0) /\ altp2m_inv demo_plat (dm v'))).
  eapply wp_mono; [exact (wp_denied_access flat_cfg demo_plat demo_unshare [] demo_mask (fun _ => true) 0 5 ltac:(done)
      ma_on [Run; Run] 0 0 ma_page ma_vcpu 0 ma_p2m ma_ve ma_fault_env 0x5010 0x7010 ma_nf
      ma_watched ma_denied ma_plain)|]. intros o v' W. split; apply W.
Qed.

Definition ma_req_page : sring := default ma_page (ring_page (ved ma_faulted)).
Lemma ma_faulted_page : ring_page (ved ma_faulted) = Some ma_req_page.
Proof. vm_compute. reflexivity. Qed.

(** A domain whose helper has read and answered one request. *)
Lemma answered_ready (v : vst flat) p rsp l :
  inv 5 (mkSys v l 0 0) -> altp2m_inv demo_plat (dm v) -> ring_page (ved v) = Some p ->
  u32 (req_prod p - 0) <> 0 -> u32 (u32 (0 + 1) - rsp_prod p) <> 0 ->
  length (vcpus (dm v)) = length (evs v) -> is_Some (event_write_data v) ->
  (forall k x, extra_at k v = Some x -> 0 <= x) -> counts_ok v ->
  ready demo_plat 5 l 0 (u32 (0 + 1)) (v <| ved ::= answer rsp |>).
Proof.
  intros I1 I2 Hp Hr Ha Hl Hw Hx Hc. split; try done.
  pose proof (inv_read 5 (mkSys v l 0 0) p I1 Hp Hr) as I3.
  exact (inv_answer 5 (mkSys v l 0 (u32 (0 + 1))) p rsp I3 Hp Ha).
Qed.

Lemma ma_answered_ready : ready demo_plat 5 [Run; Run] 0 (u32 (0 + 1)) ma_answered.
Proof.
  apply (answered_ready ma_faulted ma_req_page ma_rsp).
  - exact (proj1 ma_faulted_ok).
  - exact (proj2 ma_faulted_ok).
  - exact ma_faulted_page.
  - vm_compute. done.
  - vm_compute. done.
  - vm_compute. reflexivity.
  - vm_compute. by eexists.
  - intros [|[|k]] x Hx; vm_compute in Hx; by simplify_eq.
  - intros [|[|k]] e He; vm_compute in He; by simplify_eq.
Qed.

Definition ma_rsp_page : sring := default ma_page (ring_page (ved ma_answered)).
Lemma ma_answered_page : ring_page (ved ma_answered) = Some ma_rsp_page.
Proof. vm_compute. reflexivity. Qed.

Lemma ma_slots : slots ma_rsp_page = ma_rsp :: replicate 7 no_event.
Proof. vm_compute. reflexivity. Qed.
Lemma ma_out : in_guest <$> vcpus (dm ma_answered) !! 0%nat = Some false.
Proof. vm_compute. reflexivity. Qed.

Lemma ma_switch_ok rsp : rsp ∈ slots ma_rsp_page -> switch_ok (dm ma_answered) rsp.
Proof.
  rewrite ma_slots. intros Hin Hal. apply elem_of_cons in Hin as [->|Hin].
  - split; [done|]. intros c Hc. pose proof ma_out as E. change (Z.to_nat (vcpu_id ma_rsp)) with 0%nat in Hc.
    rewrite Hc in E. by injection E.
  - apply elem_of_replicate in Hin as [-> _]. done.
Qed.


(** ** Emulation *)

Definition ma_emulate : vm_event :=
  no_event <| version := VM_EVENT_INTERFACE_VERSION |> <| reason := VM_EVENT_REASON_MEM_ACCESS |>
    <| flags := Z.lor VM_EVENT_FLAG_VCPU_PAUSED VM_EVENT_FLAG_EMULATE |>
    <| ma_req_gfn := 5 |> <| ma_req_flags := MEM_ACCESS_W |>.

(** The write that view 0 forbids, answered with a request to emulate it: the
    host table allows it, so the request is dropped and the same write is
    reported again. *)
Lemma emulate_decided_by_host_witness :
  (let v := vafter ma_resume (ma_faulted <| ved ::= answer ma_emulate |>) in
   (emulate_flags <$> evs v !! 0%nat) = Some 0 /\
   (f_emulated <$> (fst <$> ma_fault v)) = Some None /\
   (f_sent <$> (fst <$> ma_fault v)) = Some (Some (Some 0))) /\
  wp (p2m_mem_access_emulate_check 0 ma_emulate)
    (fun _ v' => (emulate_flags <$> evs v' !! 0%nat) = Some 0) ma_on.
Proof.
  split; [vm_compute; done|]. eapply wp_mono.
  - exact (emulate_decided_by_host ma_on 0 ma_ve ma_emulate ma_hostp2m
      ltac:(vm_compute; reflexivity) ltac:(vm_compute; reflexivity) eq_refl ltac:(done)).
  - intros _ v' (_ & e' & He & Ef). rewrite He. cbn [fmap option_fmap option_map]. rewrite Ef. vm_compute; reflexivity.
Defined.

(** ** Several rings *)

Definition ma_mon : monitor_opts := mkMon 0 0 0 false false false false false false.
Definition ma_rings : edom flat := mkEdom ma_off (fun _ => ved ma_off) ma_mon [].
Definition ma_dc : domctl_env := mkDcEnv 0 false false false false ma_enable.
Definition rafter {A} (m : M (edom flat) A) (s : edom flat) : edom flat :=
  match m s with Some (_, s') => s' | None => s end.
Definition ma_domctl (mode op : Z) : M (edom flat) (Z * option Z) :=
  vm_event_domctl flat_cfg demo_plat demo_unshare [] demo_mask true false ma_dc mode op.
Definition ma_notify : M (edom flat) unit :=
  ring_notification flat_cfg demo_plat demo_unshare [] demo_mask true false Monitor_.

(** The paging and the monitor ring are on, writes to CR3 are monitored. *)
Definition ma_watching : edom flat :=
  rafter (monitor_domctl demo_plat true 0 true
            (mkMop XEN_DOMCTL_MONITOR_OP_ENABLE XEN_DOMCTL_MONITOR_EVENT_WRITE_CTRLREG VM_EVENT_X86_CR3
               true false false false))
    (rafter (ma_domctl XEN_DOMCTL_VM_EVENT_OP_MONITOR XEN_VM_EVENT_ENABLE)
       (rafter (ma_domctl XEN_DOMCTL_VM_EVENT_OP_PAGING XEN_VM_EVENT_ENABLE) ma_rings)).
(** vCPU 0 writes CR3, and the helper denies it. *)
Definition ma_deny : vm_event :=
  no_event <| version := VM_EVENT_INTERFACE_VERSION |> <| reason := VM_EVENT_REASON_WRITE_CTRLREG |>
    <| flags := Z.lor VM_EVENT_FLAG_VCPU_PAUSED VM_EVENT_FLAG_DENY |> <| cr_index := VM_EVENT_X86_CR3 |>.
Definition ma_denied_write : edom flat :=
  (rafter (hvm_event_cr 0 7 VM_EVENT_X86_CR3 0x2000 0x1000) ma_watching)
    <| rings ::= fun f r => if bool_decide (r = Monitor_) then answer ma_deny (f r) else f r |>.

(** The write data of all vCPUs belong to the domain, not to a ring, and
    disabling any ring frees them: with the paging and the monitor ring on and
    a denied write to CR3 answered but not yet handled, disabling the paging
    ring succeeds, and handling the answer on the monitor ring then writes
    through the NULL pointer; without the disabling it is handled. *)
Theorem disable_breaks_other_ring :
  (fst <$> ma_domctl XEN_DOMCTL_VM_EVENT_OP_PAGING XEN_VM_EVENT_DISABLE ma_denied_write) = Some (0, None) /\
  (fst <$> ma_notify ma_denied_write) = Some tt /\
  ma_notify (rafter (ma_domctl XEN_DOMCTL_VM_EVENT_OP_PAGING XEN_VM_EVENT_DISABLE) ma_denied_write) = None.
Proof. vm_compute. done. Qed.

(** ** Monitor options and results *)

Definition ma_mop (reg : Z) : monitor_op :=
  mkMop XEN_DOMCTL_MONITOR_OP_ENABLE XEN_DOMCTL_MONITOR_EVENT_WRITE_CTRLREG reg true false false false.
Definition ma_enabled (reg : Z) : option Z :=
  (fun x => write_ctrlreg_enabled (mon (snd x))) <$> monitor_domctl demo_plat true 0 true (ma_mop reg) ma_rings.

(** CR3, and a register index that has no bit. *)
Lemma ctrlreg_monitoring_set_witness :
  ma_enabled VM_EVENT_X86_CR3 = Some 2 /\ ma_enabled 4 = Some 0 /\
  wp (monitor_domctl demo_plat true 0 true (ma_mop VM_EVENT_X86_CR3))
    (fun r s' => r = (0, None) /\ Z.testbit (write_ctrlreg_enabled (mon s')) 1 = true) ma_rings.
Proof.
  split; [vm_compute; reflexivity|]. split; [vm_compute; reflexivity|].
  pose proof (ctrlreg_monitoring_set demo_plat true ma_rings true (ma_mop VM_EVENT_X86_CR3)
    eq_refl eq_refl ltac:(vm_compute; reflexivity) eq_refl ltac:(vm_compute; done) eq_refl) as W.
  eapply wp_mono; [exact W|]. intros r s' (Hr & _ & _ & _ & Hb). split; [exact Hr|].
  rewrite (proj1 (Hb 1 Z.le_0_1)). vm_compute. reflexivity.
Defined.

(** The answer of ma_answered, handled through the domctl on the monitor
    ring: the request is answered, the result an error. *)
Definition ma_monitored : edom flat :=
  mkEdom ma_answered (fun r => if bool_decide (r = Monitor_) then ved ma_answered else ved ma_off) ma_mon [].
Local Abbreviation ma_resumed :=
  (vm_event_domctl flat_cfg demo_plat demo_unshare [] demo_mask true false ma_dc
    XEN_DOMCTL_VM_EVENT_OP_MONITOR XEN_VM_EVENT_RESUME ma_monitored).

Lemma ma_resumed_count :
  ((fun x => vm_event_pause_count <$> evs (base (snd x)) !! 0%nat) <$> ma_resumed) = Some (Some 0).
Proof. vm_compute. reflexivity. Qed.
Lemma ma_monitored_page : bool_decide (ring_page (rings ma_monitored Monitor_) <> None) = true.
Proof. vm_compute. reflexivity. Qed.
Lemma ma_monitored_alive : is_dying (dm (base ma_monitored)) = false.
Proof. vm_compute. reflexivity. Qed.
Lemma ma_monitored_vcpus : evs (base ma_monitored) <> [].
Proof. vm_compute. discriminate. Qed.

Lemma domctl_resume_never_succeeds_witness :
  ((fun x => vm_event_pause_count <$> evs (base (snd x)) !! 0%nat) <$> ma_resumed) = Some (Some 0) /\
  match ma_resumed with Some (x, _) => x.1 = - EINVAL | None => False end.
Proof.
  split; [exact ma_resumed_count|].
  assert (Hx : forall x s', ma_resumed = Some (x, s') -> x.1 = - EINVAL).
  { intros x s' E.
    pose proof (domctl_resume_never_succeeds flat_cfg demo_plat demo_unshare [] demo_mask true false ma_dc
      XEN_DOMCTL_VM_EVENT_OP_MONITOR ma_monitored Monitor_ x s' eq_refl eq_refl ma_monitored_alive
      ma_monitored_vcpus (or_intror (or_introl (conj eq_refl eq_refl))) E) as Hx.
    rewrite ma_monitored_page in Hx. exact Hx. }
  pose proof ma_resumed_count as Hf. revert Hf Hx. generalize ma_resumed.
  intros [[x s']|] Hf Hx; [|discriminate Hf]. exact (Hx x s' eq_refl).
Defined.
