(* ===== verification/Frames.v ===== *)
(** * Machine frames: struct page_info, its reference count, and the heap
      (xen/include/asm-x86/mm.h, xen/arch/x86/mm.c, xen/common/page_alloc.c)

    A frame of memory is described by its entry in the frame table: flags and
    a reference count in [count_info], uses by type in [type_info], the owner.
    [pgd] is one domain with its paging ring (VmEvent.v) and the frame table
    and heap it shares with the hypervisor.  An access to the frame table
    outside the memory of the machine is the fatal outcome.  All requests are
    for single frames; which frame of the heap comes first is left to the order
    of [heap_list], so the zones and buddies of the allocator do not show.
    Operations under cmpxchg() are atomic here. *)

From S2P Require Import Prelude Monad P2m Altp2m VmEvent.

(** PG_shift(idx), PG_mask(x, idx) *)
Definition PG_shift (idx : Z) : Z := 64 - idx.
Definition PG_mask (x idx : Z) : Z := Z.shiftl x (PG_shift idx).
Definition PGT_shared_page : Z := PG_mask 8 4.
Definition PGT_type_mask : Z := PG_mask 15 4.
Definition PGT_count_mask : Z := Z.shiftl 1 (PG_shift 9) - 1.
Definition _PGC_allocated : Z := PG_shift 1.
Definition PGC_allocated : Z := PG_mask 1 1.
Definition PGC_xen_heap : Z := PG_mask 1 2.
Definition PGC_cacheattr_mask : Z := PG_mask 7 6.
Definition PGC_broken : Z := PG_mask 1 7.
Definition PGC_state : Z := PG_mask 3 9.
Definition PGC_state_inuse : Z := PG_mask 0 9.
Definition PGC_state_offlining : Z := PG_mask 1 9.
Definition PGC_state_offlined : Z := PG_mask 2 9.
Definition PGC_state_free : Z := PG_mask 3 9.
Definition PGC_count_mask : Z := Z.shiftl 1 (PG_shift 9) - 1.
Definition SHARED_M2P_ENTRY : Z := 2 ^ 64 - 2.

(** page_get_owner(): nobody, the domain of the state, dom_cow, dom_io, or
    another domain. *)
Inductive page_owner := own_none | own_dom | own_cow | own_io | own_other.
#[export] Instance page_owner_eq_dec : EqDecision page_owner.
Proof. solve_decision. Defined.

(** struct page_info, with the contents of the frame as one value. *)
Record page_info := mkPage { count_info : Z; type_info : Z; owner : page_owner; data : Z }.
#[export] Instance eta_page_info : Eta page_info := fun x =>
  mkPage (count_info x) (type_info x) (owner x) (data x).

Definition page_state_is (p : page_info) (st : Z) : bool := Z.land (count_info p) PGC_state =? st.

(** Calls into the IOMMU driver. *)
Inductive iommu_call := call_map_page (gfn mfn flags : Z) | call_unmap_page (gfn : Z).
#[export] Instance iommu_call_eq_dec : EqDecision iommu_call.
Proof. solve_decision. Defined.

Record pgd (T : Type) := mkPgd {
  gst : vst T;
  frame_table : gmap Z page_info;
  heap_list : list Z;                      (* free frames *)
  tot_pages : Z; dom_max_pages : Z;        (* d->tot_pages, d->max_pages *)
  xenheap_pages : Z;
  paged_pages : Z;                         (* d->paged_pages *)
  pod_entry_count : Z;                     (* p2m->pod.entry_count *)
  iommu_calls : list iommu_call            (* last call first *)
}.
Arguments mkPgd {T}. Arguments gst {T}. Arguments frame_table {T}. Arguments heap_list {T}.
Arguments tot_pages {T}. Arguments dom_max_pages {T}. Arguments xenheap_pages {T}.
Arguments paged_pages {T}. Arguments pod_entry_count {T}. Arguments iommu_calls {T}.
#[export] Instance eta_pgd {T} : Eta (pgd T) := fun x =>
  mkPgd (gst x) (frame_table x) (heap_list x) (tot_pages x) (dom_max_pages x) (xenheap_pages x)
    (paged_pages x) (pod_entry_count x) (iommu_calls x).

Section Frames.
Local Open Scope monad_scope.
Context {T : Type}.
(** What scrub_one_page() leaves in a frame. *)
Context (scrubbed : Z).
(** Whether update_xen_mappings() restores the cache attribute. *)
Context (cacheattr_ok : bool).
Local Abbreviation G := (pgd T).

(** An operation on the domain with its ring, and on the domain alone. *)
Definition on_gst {A} (m : M (vst T) A) : M G A := fun s =>
  match m (gst s) with Some (a, v) => Some (a, s <| gst := v |>) | None => None end.
Definition on_gdom {A} (m : M (domain T) A) : M G A := on_gst (on_dom m).

(** mfn_to_page(), dereferenced. *)
Definition frame_get (mfn : Z) : M G page_info := deref (fun s => frame_table s !! mfn).
Definition frame_upd (mfn : Z) (f : page_info -> page_info) : M G unit :=
  frame_get mfn ;; modify (fun s : G => s <| frame_table ::= alter f mfn |>).

(** set_gpfn_from_mfn(), the machine-to-physical table being there. *)
Definition set_gpfn_from_mfn (mfn pfn : Z) : M G unit :=
  let! p := frame_get mfn in
  let entry := if bool_decide (owner p = own_cow) then SHARED_M2P_ENTRY else pfn in
  on_gdom (modify (fun d : domain T => d <| m2p ::= <[mfn := entry]> |>)).

Definition scrub_one_page (mfn : Z) : M G unit :=
  let! p := frame_get mfn in
  if negb (Z.land (count_info p) PGC_broken =? 0) then ret tt
  else frame_upd mfn (fun p => p <| data := scrubbed |>).

(** free_heap_pages() of one frame; an offlined frame does not come back. *)
Definition free_heap_page (mfn : Z) : M G unit :=
  let! p := frame_get mfn in
  bug_on (page_state_is p PGC_state_offlined) ;;
  let offlined := page_state_is p PGC_state_offlining in
  frame_upd mfn (fun p => p
    <| count_info := Z.lor (Z.land (count_info p) PGC_broken)
                       (if offlined then PGC_state_offlined else PGC_state_free) |>
    <| owner := own_none |>) ;;
  set_gpfn_from_mfn mfn INVALID_M2P_ENTRY ;;
  when (negb offlined) (modify (fun s : G => s <| heap_list ::= cons mfn |>)).

(** free_domheap_page(); the counters kept are those of the domain of the
    state, and a frame of another domain is not scrubbed. *)
Definition free_domheap_page (mfn : Z) : M G unit :=
  let! p := frame_get mfn in
  let! dying := gets (fun s : G => is_dying (dm (gst s))) in
  let put_domain := on_gst (modify (fun v : vst T => v <| refcnt ::= Z.add (-1) |>)) in
  if negb (Z.land (count_info p) PGC_xen_heap =? 0) then
    bug_on (bool_decide (owner p = own_none)) ;;
    when (bool_decide (owner p = own_dom))
      (modify (fun s : G => s <| xenheap_pages ::= Z.add (-1) |>) ;;
       let! n := gets xenheap_pages in when (n =? 0) put_domain)
  else
    let mine := bool_decide (owner p = own_dom) in
    bug_on (negb (bool_decide (owner p = own_none \/ owner p = own_cow))
            && negb (Z.land (type_info p) PGT_count_mask =? 0)) ;;
    when mine (modify (fun s : G => s <| tot_pages ::= Z.add (-1) |>)) ;;
    when ((mine && dying) || bool_decide (owner p = own_none \/ owner p = own_cow)) (scrub_one_page mfn) ;;
    free_heap_page mfn ;;
    let! n := gets tot_pages in
    when (mine && (n =? 0)) put_domain.

(** cleanup_page_cacheattr(): whether it returns 0. *)
Definition cleanup_page_cacheattr (mfn : Z) : M G bool :=
  let! p := frame_get mfn in
  if Z.land (count_info p) PGC_cacheattr_mask =? 0 then ret true
  else
    frame_upd mfn (fun p => p <| count_info ::= fun c => Z.ldiff c PGC_cacheattr_mask |>) ;;
    bug_on (negb (Z.land (count_info p) PGC_xen_heap =? 0)) ;;
    ret cacheattr_ok.

Definition put_page (mfn : Z) : M G unit :=
  let! p := frame_get mfn in
  bug_on (Z.land (count_info p) PGC_count_mask =? 0) ;;
  let nx := u64 (count_info p - 1) in
  frame_upd mfn (fun p => p <| count_info := nx |>) ;;
  when (Z.land nx PGC_count_mask =? 0)
    (let! clean := cleanup_page_cacheattr mfn in when clean (free_domheap_page mfn)).

(** [None] is NULL. *)
Definition page_get_owner_and_reference (mfn : Z) : M G (option page_owner) :=
  let! p := frame_get mfn in
  let x := count_info p in
  if Z.land (u64 (x + 2)) PGC_count_mask <=? 2 then ret None
  else
    frame_upd mfn (fun p => p <| count_info := u64 (x + 1) |>) ;;
    bug_on (bool_decide (owner p = own_none)) ;;
    ret (Some (owner p)).

(** get_page(page, d) *)
Definition get_page (mfn : Z) : M G bool :=
  let! o := page_get_owner_and_reference mfn in
  match o with
  | Some own_dom => ret true
  | Some _ => put_page mfn ;; ret false
  | None => ret false
  end.

(** test_and_clear_bit(_PGC_allocated, &page->count_info) *)
Definition test_and_clear_allocated (mfn : Z) : M G bool :=
  let! p := frame_get mfn in
  frame_upd mfn (fun p => p <| count_info ::= fun c => Z.clearbit c _PGC_allocated |>) ;;
  ret (Z.testbit (count_info p) _PGC_allocated).

(** alloc_heap_pages() of one frame. *)
Definition alloc_heap_page : M G (option Z) :=
  let! l := gets heap_list in
  match l with
  | [] => ret None
  | mfn :: l' =>
      let! p := frame_get mfn in
      bug_on (negb (count_info p =? PGC_state_free)) ;;
      modify (fun s : G => s <| heap_list := l' |>) ;;
      frame_upd mfn (fun p => p <| count_info := PGC_state_inuse |> <| type_info := 0 |>
                               <| owner := own_none |>) ;;
      ret (Some mfn)
  end.

(** assign_pages() of one frame, with refcounting. *)
Definition assign_page (mfn : Z) : M G Z :=
  let! s := gets (fun s : G => s) in
  if is_dying (dm (gst s)) then ret (-1)
  else if dom_max_pages s <? tot_pages s + 1 then ret (-1)
  else
    when (tot_pages s =? 0) (on_gst (modify (fun v : vst T => v <| refcnt ::= Z.add 1 |>))) ;;
    modify (fun s : G => s <| tot_pages ::= Z.add 1 |>) ;;
    let! p := frame_get mfn in
    bug_on (negb (bool_decide (owner p = own_none))) ;;
    bug_on (negb (Z.ldiff (count_info p) (Z.lor PGC_allocated 1) =? 0)) ;;
    frame_upd mfn (fun p => p <| owner := own_dom |> <| count_info := Z.lor PGC_allocated 1 |>) ;;
    ret 0.

(** alloc_domheap_page(d, 0) *)
Definition alloc_domheap_page : M G (option Z) :=
  let! pg := alloc_heap_page in
  match pg with
  | None => ret None
  | Some mfn =>
      let! rc := assign_page mfn in
      if negb (rc =? 0) then free_heap_page mfn ;; ret None else ret (Some mfn)
  end.
End Frames.
