(* ===== verification/FramesProofs.v ===== *)
(** * Reference counts of machine frames (theorems about Frames.v)

    A frame of guest memory in ordinary use has the flag PGC_allocated, which
    stands for one of its references, and no other flag.  Taking and dropping
    references, giving the frame back and taking a new one, with the exact
    effect on the frame table, the heap and the machine-to-physical table. *)

From S2P Require Import Prelude Monad P2m P2mProofs Altp2m Altp2mProofs VmEvent VmEventProofs Frames.

(** ** The layout of count_info *)

Definition CNT : Z := 2 ^ 55.

Lemma count_mask x : Z.land x PGC_count_mask = x mod CNT.
Proof. apply (Z.land_ones x 55). lia. Qed.

Lemma low_part f r : f mod CNT = 0 -> 0 <= r < CNT -> (f + r) mod CNT = r.
Proof. intros Hf Hr. rewrite Z.add_mod, Hf, Z.add_0_l, Z.mod_mod by done. by apply Z.mod_small. Qed.

(** A frame with [r] references, one of them PGC_allocated. *)
Definition held (r : Z) (p : page_info) : Prop :=
  count_info p = PGC_allocated + r /\ 1 <= r < CNT.

Lemma allocated_low : PGC_allocated mod CNT = 0.
Proof. reflexivity. Qed.

Lemma allocated_apart r : 0 <= r < CNT -> Z.land PGC_allocated r = 0.
Proof.
  intros Hr. apply Z.bits_inj'. intros n Hn. change PGC_allocated with (2 ^ 63).
  rewrite Z.land_spec, Z.bits_0, Z.pow2_bits_eqb by lia.
  destruct (Z.eqb_spec 63 n) as [<-|]; [|done]. simpl. apply Z.bits_above_log2; [lia|].
  destruct (decide (r = 0)) as [->|]; [done|]. apply Z.log2_lt_pow2; [lia|].
  eapply Z.lt_trans; [apply Hr|]. done.
Qed.

Lemma held_bits r n : 0 <= r < CNT -> 0 <= n ->
  Z.testbit (PGC_allocated + r) n = if 63 =? n then true else Z.testbit r n.
Proof.
  intros Hr Hn. pose proof (allocated_apart r Hr) as Hd. rewrite Z.add_nocarry_lxor by done.
  apply (f_equal (fun z => Z.testbit z n)) in Hd. rewrite Z.land_spec, Z.bits_0 in Hd.
  rewrite Z.lxor_spec. change PGC_allocated with (2 ^ 63) in *. rewrite Z.pow2_bits_eqb in * by lia.
  destruct (Z.eqb_spec 63 n) as [<-|]; simpl in *; [by rewrite Hd|]. by destruct (Z.testbit r n).
Qed.

Lemma held_alloc_bit r : 0 <= r < CNT -> Z.testbit (PGC_allocated + r) _PGC_allocated = true.
Proof. intros Hr. by rewrite held_bits. Qed.

Lemma held_clear_bit r : 0 <= r < CNT -> Z.clearbit (PGC_allocated + r) _PGC_allocated = r.
Proof.
  intros Hr. apply Z.bits_inj'. intros n Hn. change _PGC_allocated with 63.
  rewrite Z.clearbit_eqb, held_bits by done. destruct (Z.eqb_spec 63 n) as [<-|]; simpl.
  - pose proof (allocated_apart r Hr) as Hd. apply (f_equal (fun z => Z.testbit z 63)) in Hd.
    by rewrite Z.land_spec, Z.bits_0 in Hd.
  - by rewrite andb_true_r.
Qed.

Lemma held_land r n : 0 <= r < CNT -> 0 <= n < CNT ->
  (Z.land (PGC_allocated + r) (Z.lor PGC_count_mask PGC_allocated) =? Z.lor n PGC_allocated) = (r =? n).
Proof.
  intros Hr Hn. assert (E : Z.land (PGC_allocated + r) (Z.lor PGC_count_mask PGC_allocated) = PGC_allocated + r).
  { apply Z.bits_inj'. intros i Hi. rewrite Z.land_spec, Z.lor_spec, held_bits by done.
    change PGC_count_mask with (Z.ones 55). change PGC_allocated with (2 ^ 63).
    rewrite Z.pow2_bits_eqb, Z.testbit_ones by lia.
    destruct (Z.eqb_spec 63 i) as [<-|]; [done|]. rewrite orb_false_r.
    destruct (Z.ltb_spec i 55); [by rewrite (proj2 (Z.leb_le _ _) Hi), andb_true_r|].
    rewrite andb_false_r, andb_false_r. symmetry. destruct (decide (r = 0)) as [->|]; [apply Z.bits_0|].
    apply Z.bits_above_log2; [lia|]. apply Z.log2_lt_pow2; [lia|]. eapply Z.lt_le_trans; [apply Hr|].
    change CNT with (2 ^ 55). by apply Z.pow_le_mono_r. }
  rewrite E. assert (Ea : Z.lor n PGC_allocated = PGC_allocated + n).
  { rewrite Z.add_nocarry_lxor by (by apply allocated_apart). rewrite Z.lxor_lor by (by apply allocated_apart).
    apply Z.lor_comm. }
  rewrite Ea. destruct (Z.eqb_spec r n) as [->|]; [apply Z.eqb_refl|]. apply Z.eqb_neq. lia.
Qed.

(** ** Rules *)

Section Rules.
Context {T : Type} (scrubbed : Z) (cacheattr_ok : bool).
Local Abbreviation G := (pgd T).
Implicit Types (s : G).

(** The domain of the state. *)
Definition gdm s : domain T := dm (gst s).
Definition set_gdm d s : G := s <| gst ::= fun v => v <| dm := d |> |>.

Lemma wp_on_gst {A} (m : M (vst T) A) s Q :
  wp m (fun a v => Q a (s <| gst := v |>)) (gst s) -> wp (on_gst m) Q s.
Proof. unfold wp, on_gst. by destruct (m (gst s)) as [[a v]|]. Qed.
Lemma wp_on_gdom {A} (m : M (domain T) A) s Q :
  wp m (fun a d => Q a (set_gdm d s)) (gdm s) -> wp (on_gdom m) Q s.
Proof. intros W. apply wp_on_gst, wp_on_dom. exact W. Qed.

Lemma wp_frame_get s m p Q : frame_table s !! m = Some p -> Q p s -> wp (frame_get m) Q s.
Proof. intros E HQ. unfold frame_get. by apply (wp_deref _ p). Qed.

Definition put_frame m p s : G := s <| frame_table ::= <[m := p]> |>.

Lemma alter_known (ft : gmap Z page_info) m p f : ft !! m = Some p -> alter f m ft = <[m := f p]> ft.
Proof.
  intros E. apply map_eq. intros i. destruct (decide (i = m)) as [->|].
  - by rewrite lookup_alter_eq, lookup_insert_eq, E.
  - by rewrite lookup_alter_ne, lookup_insert_ne by done.
Qed.

Lemma wp_frame_upd s m p f Q :
  frame_table s !! m = Some p -> Q tt (put_frame m (f p) s) -> wp (frame_upd m f) Q s.
Proof.
  intros E HQ. unfold frame_upd. apply wp_bind. eapply wp_frame_get; [done|]. apply wp_modify.
  unfold put_frame, set in *. cbn in *. by rewrite (alter_known _ m p f E).
Qed.

Lemma wp_set_gpfn s m p g Q :
  frame_table s !! m = Some p -> owner p <> own_cow ->
  Q tt (set_gdm ((gdm s) <| m2p ::= <[m := g]> |>) s) -> wp (set_gpfn_from_mfn m g) Q s.
Proof.
  intros E Ho HQ. unfold set_gpfn_from_mfn. apply wp_bind. eapply wp_frame_get; [done|].
  rewrite bool_decide_false by done. by apply wp_on_gdom, wp_modify.
Qed.

(** ** References *)

Local Abbreviation put_page := (put_page scrubbed cacheattr_ok).
Local Abbreviation get_page := (get_page scrubbed cacheattr_ok).

(** A frame with [r] references or more stays. *)
Lemma wp_put_page_more s m p f r Q :
  frame_table s !! m = Some p -> count_info p = f + r -> f mod CNT = 0 -> 0 <= f -> 2 <= r < CNT ->
  f + r < 2 ^ 64 -> Q tt (put_frame m (p <| count_info := f + (r - 1) |>) s) -> wp (put_page m) Q s.
Proof.
  intros E Ec Hf H0 Hr Hm HQ. unfold Frames.put_page. apply wp_bind. eapply wp_frame_get; [done|].
  apply wp_bind, wp_bug_on; [rewrite count_mask, Ec, low_part by (done || lia); zcases; lia|].
  rewrite Ec, u64_small by lia. replace (f + r - 1) with (f + (r - 1)) by lia.
  apply wp_bind. eapply wp_frame_upd; [done|].
  apply wp_when; [|done]. rewrite count_mask, low_part by (done || lia). intros; zbool; lia.
Qed.

Lemma wp_get_page s m p r Q :
  frame_table s !! m = Some p -> owner p = own_dom -> held r p ->
  (CNT <= r + 2 -> Q false s) ->
  (r + 2 < CNT -> Q true (put_frame m (p <| count_info := PGC_allocated + (r + 1) |>) s)) ->
  wp (get_page m) Q s.
Proof.
  intros E Ho [Ec Hr] Hfail Hok. unfold Frames.get_page, page_get_owner_and_reference.
  apply wp_bind, wp_bind. eapply wp_frame_get; [done|]. rewrite Ec.
  change CNT with (2 ^ 55) in *. change PGC_allocated with (2 ^ 63) in *.
  rewrite !u64_small, count_mask by lia. change CNT with (2 ^ 55).
  replace (2 ^ 63 + r + 2) with (2 ^ 8 * 2 ^ 55 + (r + 2)) by lia.
  destruct (Z.lt_ge_cases (r + 2) (2 ^ 55)) as [Hlt|Hge].
  - rewrite Z.add_comm, Z.mod_add, Z.mod_small by lia. rewrite (proj2 (Z.leb_gt _ _)) by lia.
    apply wp_bind. eapply wp_frame_upd; [done|]. rewrite Ho. apply wp_bind, wp_bug_on; [done|].
    apply wp_ret, wp_ret. replace (2 ^ 63 + r + 1) with (2 ^ 63 + (r + 1)) by lia. by apply Hok.
  - replace (2 ^ 8 * 2 ^ 55 + (r + 2)) with ((r + 2 - 2 ^ 55) + (2 ^ 8 + 1) * 2 ^ 55) by lia.
    rewrite Z.mod_add, Z.mod_small by lia. rewrite (proj2 (Z.leb_le _ _)) by lia. apply wp_ret, wp_ret, Hfail. lia.
Qed.

(** ** Giving a frame back *)

(** What is the same but for the memory of the machine. *)
Definition same_books s s' : Prop :=
  paged_pages s' = paged_pages s /\ pod_entry_count s' = pod_entry_count s /\
  iommu_calls s' = iommu_calls s /\ dom_max_pages s' = dom_max_pages s.

(** Frame [m] has gone to the heap. *)
Record freed m s s' : Prop := mkFreed {
  fr_table : exists p', frame_table s' = <[m := p']> (frame_table s) /\
               count_info p' = PGC_state_free /\ owner p' = own_none;
  fr_heap : heap_list s' = m :: heap_list s;
  fr_dom : gdm s' = (gdm s) <| m2p ::= <[m := INVALID_M2P_ENTRY]> |>;
  fr_books : same_books s s'
}.

(** No reference is left; PGC_allocated may still be set. *)
Definition no_refs (c : Z) : Prop := c = 0 \/ c = PGC_allocated.

Lemma wp_free_heap_page s m p Q :
  frame_table s !! m = Some p -> no_refs (count_info p) ->
  (forall s', freed m s s' -> tot_pages s' = tot_pages s -> Q tt s') -> wp (free_heap_page m) Q s.
Proof.
  intros E Ec HQ. unfold free_heap_page. apply wp_bind. eapply wp_frame_get; [done|].
  assert (Hs : forall st, page_state_is p st = (0 =? st)) by (intros st; unfold page_state_is; by destruct Ec as [-> | ->]).
  rewrite !Hs. apply wp_bind, wp_bug_on; [done|]. apply wp_bind.
  eapply wp_frame_upd; [done|]. apply wp_bind. eapply wp_set_gpfn; [apply lookup_insert_eq|done|].
  apply wp_when; [|done]. intros _. apply wp_modify, HQ; [|done].
  split; [|done..]. eexists. split; [done|]. split; [|done]. cbn. by destruct Ec as [-> | ->].
Qed.

Lemma wp_put_page_last s m p Q :
  frame_table s !! m = Some p -> no_refs (count_info p - 1) -> owner p = own_dom ->
  Z.land (type_info p) PGT_count_mask = 0 ->
  (forall s', freed m s s' -> tot_pages s' = tot_pages s - 1 -> Q tt s') -> wp (put_page m) Q s.
Proof.
  intros E Ec Ho Ht HQ. unfold Frames.put_page. apply wp_bind. eapply wp_frame_get; [done|].
  apply wp_bind, wp_bug_on.
  { replace (count_info p) with ((count_info p - 1) + 1) by lia. by destruct Ec as [-> | ->]. }
  replace (u64 (count_info p - 1)) with (count_info p - 1) by (by destruct Ec as [-> | ->]).
  set (nx := count_info p - 1) in *. apply wp_bind. eapply wp_frame_upd; [done|].
  set (s1 := put_frame _ _ _). set (p1 := p <| count_info := nx |>).
  assert (Hbits : Z.land nx PGC_count_mask = 0 /\ Z.land nx PGC_cacheattr_mask = 0 /\
    Z.land nx PGC_xen_heap = 0 /\ Z.land nx PGC_broken = 0) by (by destruct Ec as [-> | ->]).
  destruct Hbits as (B1 & B2 & B3 & B4).
  apply wp_when; [|by rewrite B1]. intros _. unfold cleanup_page_cacheattr.
  assert (E1 : frame_table s1 !! m = Some p1) by apply lookup_insert_eq.
  apply wp_bind, wp_bind. eapply wp_frame_get; [exact E1|]. change (count_info p1) with nx. rewrite B2.
  apply wp_ret. cbn [when]. unfold free_domheap_page. apply wp_bind. eapply wp_frame_get; [exact E1|]. apply wp_bind, wp_gets.
  cbv zeta. change (count_info p1) with nx. rewrite B3. cbn [negb Z.eqb].
  change (owner p1) with (owner p). rewrite Ho.
  apply wp_bind, wp_bug_on; [change (type_info p1) with (type_info p); by rewrite Ht, andb_false_r|].
  change (bool_decide (own_dom = own_dom)) with true. cbn [when]. apply wp_bind, wp_modify.
  set (s2 := s1 <| tot_pages ::= Z.add (-1) |>).
  assert (Hend : forall p2 (s3 : G), s3 = put_frame m p2 s2 -> count_info p2 = nx ->
    wp (bind (free_heap_page m) (fun _ => bind (gets tot_pages) (fun n => when (true && (n =? 0))
      (on_gst (modify (fun v : vst T => v <| refcnt ::= Z.add (-1) |>)))))) Q s3).
  { intros p2 s3 -> E3. apply wp_bind. eapply wp_free_heap_page; [apply lookup_insert_eq|by rewrite E3|].
    intros s4 [(p4 & F1 & F2 & F3) F4 F5 F6] Htot. apply wp_bind, wp_gets.
    assert (Hf : freed m s s4).
    { split; [|done|exact F5|done]. exists p4. split; [|done]. rewrite F1. unfold s2, s1, put_frame. cbn.
      by rewrite !insert_insert_eq. }
    assert (Ht4 : tot_pages s4 = tot_pages s - 1) by (rewrite Htot; unfold s2, s1; cbn; lia).
    apply wp_when; intros _; [|by apply HQ].
    apply wp_on_gst, wp_modify, HQ; [|done]. destruct Hf as [G1 G2 G3 G4]. by split. }
  apply wp_bind, wp_when; intros _.
  - unfold scrub_one_page. apply wp_bind. eapply wp_frame_get; [exact E1|].
    change (count_info p1) with nx. rewrite B4. cbn [negb Z.eqb].
    eapply wp_frame_upd; [exact E1|]. by eapply Hend.
  - eapply (Hend p1); [|done]. unfold s2, s1, put_frame, p1, set. cbn. by rewrite insert_insert_eq.
Qed.

(** ** Taking a frame *)

(** Frame [m] has come from the heap to the domain. *)
Record taken m s s' : Prop := mkTaken {
  tk_table : exists p', frame_table s' = <[m := p']> (frame_table s) /\
               held 1 p' /\ owner p' = own_dom /\ type_info p' = 0;
  tk_heap : heap_list s = m :: heap_list s';
  tk_dom : gdm s' = gdm s;
  tk_books : same_books s s'
}.

(** What the allocator relies on for the frames of the heap. *)
Definition heap_ok s : Prop :=
  NoDup (heap_list s) /\
  forall m, m ∈ heap_list s -> exists p, frame_table s !! m = Some p /\
    count_info p = PGC_state_free /\ owner p = own_none.


(** The domain may have another frame, and there is one. *)
Definition can_alloc s : Prop :=
  heap_list s <> [] /\ is_dying (gdm s) = false /\ tot_pages s + 1 <= dom_max_pages s.

(** A frame was taken and put back, or nothing was done. *)
Definition recycled s s' : Prop :=
  s' = s \/ exists m, m ∈ heap_list s /\ heap_list s' = heap_list s /\ same_books s s' /\
    gdm s' = (gdm s) <| m2p ::= <[m := INVALID_M2P_ENTRY]> |> /\
    exists p', frame_table s' = <[m := p']> (frame_table s) /\
      count_info p' = PGC_state_free /\ owner p' = own_none.

Lemma wp_alloc_domheap_page s Q :
  heap_ok s ->
  (forall s', ~ can_alloc s -> recycled s s' -> Q None s') ->
  (forall m s', can_alloc s -> taken m s s' -> Q (Some m) s') -> wp alloc_domheap_page Q s.
Proof.
  intros [Hn Hh] Hnone Hsome. unfold alloc_domheap_page, alloc_heap_page. apply wp_bind, wp_bind, wp_gets.
  destruct (heap_list s) as [|m l] eqn:El.
  { apply wp_ret, wp_ret, Hnone; [|by left]. by intros [Hc _]; rewrite El in Hc. }
  destruct (Hh m ltac:(left)) as (p & Ep & Ec & Eo).
  apply wp_bind. eapply wp_frame_get; [done|]. apply wp_bind, wp_bug_on; [by rewrite Ec|].
  apply wp_bind, wp_modify, wp_bind. eapply wp_frame_upd; [done|]. apply wp_ret.
  set (p1 := p <| count_info := _ |> <| type_info := 0 |> <| owner := own_none |>).
  set (s1 := put_frame m p1 _). assert (E1 : frame_table s1 !! m = Some p1) by apply lookup_insert_eq.
  assert (Hback : ~ can_alloc s -> wp (bind (free_heap_page m) (fun _ => ret None)) Q s1).
  { intros Hc. apply wp_bind. eapply wp_free_heap_page; [exact E1|by left|].
    intros s2 [(p2 & F1 & F2 & F3) F4 F5 F6] _. apply wp_ret, Hnone; [done|]. right. exists m.
    split; [rewrite El; left|]. split; [by rewrite F4, El|]. split; [exact F6|]. split; [exact F5|].
    exists p2. split; [|done]. rewrite F1. unfold s1, put_frame. cbn. by rewrite insert_insert_eq. }
  apply wp_bind. unfold assign_page. apply wp_bind, wp_gets.
  change (is_dying (dm (gst s1))) with (is_dying (gdm s)). destruct (is_dying (gdm s)) eqn:Ed.
  { apply wp_ret. apply Hback. by intros (_ & Hc & _); rewrite Ed in Hc. }
  change (dom_max_pages s1) with (dom_max_pages s). change (tot_pages s1) with (tot_pages s).
  destruct (Z.ltb_spec (dom_max_pages s) (tot_pages s + 1)) as [Hlt|Hge].
  { apply wp_ret. apply Hback. intros (_ & _ & Hc). lia. }
  assert (Hgo : forall s2, frame_table s2 = frame_table s1 -> heap_list s2 = l -> gdm s2 = gdm s -> same_books s s2 ->
    wp (bind (modify (fun s : G => s <| tot_pages ::= Z.add 1 |>)) (fun _ => bind (frame_get m) (fun p =>
      bind (bug_on (negb (bool_decide (owner p = own_none)))) (fun _ =>
      bind (bug_on (negb (Z.ldiff (count_info p) (Z.lor PGC_allocated 1) =? 0))) (fun _ =>
      bind (frame_upd m (fun p => p <| owner := own_dom |> <| count_info := Z.lor PGC_allocated 1 |>)) (fun _ => ret 0))))))
      (fun rc s' => wp (if negb (rc =? 0) then bind (free_heap_page m) (fun _ => ret None) else ret (Some m)) Q s') s2).
  { intros s2 F1 F2 F3 F4. apply wp_bind, wp_modify, wp_bind. eapply wp_frame_get; [cbn; rewrite F1; exact E1|].
    apply wp_bind, wp_bug_on; [done|]. apply wp_bind, wp_bug_on; [done|]. apply wp_bind.
    eapply wp_frame_upd; [cbn; rewrite F1; exact E1|]. apply wp_ret, wp_ret, Hsome.
    - split; [by rewrite El|]. split; [done|lia].
    - split; [|by rewrite El; cbn; rewrite F2|exact F3|exact F4]. eexists. split.
      { unfold put_frame. cbn. rewrite F1. unfold s1, put_frame. cbn. by rewrite insert_insert_eq. }
      split; [|done]. split; [done|]. split; [lia|]. unfold CNT. lia. }
  apply wp_bind, wp_when; intros _; [|by apply Hgo]. apply wp_on_gst, wp_modify. by apply Hgo.
Qed.

(** ** The heap *)

Lemma heap_recycled s s' : heap_ok s -> recycled s s' -> heap_ok s'.
Proof.
  intros [Hn Hh] [->|(m & Hm & F1 & _ & _ & p' & F2 & F3)]; [by split|]. split; [by rewrite F1|].
  intros x Hx. rewrite F1 in Hx. rewrite F2. destruct (decide (x = m)) as [->|Hne]; [rewrite lookup_insert_eq; eauto|].
  rewrite lookup_insert_ne by done. by apply Hh.
Qed.
End Rules.
