(* ===== verification/Physmap.v ===== *)
(** * The guest's physical map (xen/arch/x86/mm/p2m.c, xen/common/memory.c)

    Entries of the host table are added, removed and retyped together with the
    machine-to-physical table and, for guests that are not translated, the
    IOMMU.  The domain is that of Frames.v; an update of the host table is
    propagated to the views by [host_set_entry], as in MemAccess.v.  ASSERT()
    is checked, as in a debug build.  The ranges of log-dirty memory
    (p2m_change_type_range()) and foreign mappings into a PVH dom0
    (p2m_add_foreign()) are not here. *)

From S2P Require Import Prelude Monad P2m Altp2m VmEvent MemAccess NestedFault Frames.

Definition EIO : Z := 5.
Definition XEN_DOMCTL_DEV_RDM_RELAXED : Z := 1.
Definition IOMMUF_RW : Z := 3.             (* IOMMUF_readable|IOMMUF_writable *)

(** More groups of types (asm-x86/p2m.h). *)
Definition p2m_is_mmio (t : p2m_type) : bool :=
  match t with p2m_mmio_dm | p2m_mmio_direct => true | _ => false end.
Definition p2m_is_valid (t : p2m_type) : bool := p2m_is_ram t || p2m_is_mmio t.
Definition p2m_is_pageable (t : p2m_type) : bool :=
  match t with p2m_ram_rw | p2m_ram_logdirty => true | _ => false end.
Definition p2m_is_paging (t : p2m_type) : bool :=
  match t with p2m_ram_paging_out | p2m_ram_paged | p2m_ram_paging_in => true | _ => false end.

Definition p2m_is_any_ram (t : p2m_type) : bool := p2m_is_ram t || p2m_is_grant t || p2m_is_foreign t.

(** What the operations get from their surroundings. *)
Record physmap_env := mkPhysEnv {
  pe_need_iommu : bool;                    (* need_iommu(d) *)
  pe_iommu_rc : Z -> Z;                    (* iommu_map_page() of a frame *)
  pe_iommu_unmap_rc : Z -> Z;
  pe_hardware_domain : bool;
  pe_iommu_use_hap_pt : bool;
  pe_unshare_rc : Z -> Z                   (* mem_sharing_unshare_page() of a gfn *)
}.

Section Physmap.
Local Open Scope monad_scope.
Context {T : Type} `{P2MTable T}.
Context (cfg : p2m_config) (plat : platform).
Context (mem_sharing_unshare_page : T -> Z -> T) (zero : T) (mask_ok : Z -> bool).
Context (env : physmap_env).
Local Abbreviation D := (domain T).
Local Abbreviation G := (pgd T).

Local Abbreviation set_4k := (host_set_entry cfg plat mem_sharing_unshare_page zero mask_ok).

(** p2m_set_entry() on the host table: the loop of P2m.v, where each step is
    followed by the propagation to the views. *)
Fixpoint host_set_loop (fuel : nat) (gfn mfn todo : Z) (ty : p2m_type) (a : p2m_access) (rc : Z)
  : M D Z :=
  match fuel with
  | O => ret rc
  | S fuel' =>
      if todo =? 0 then ret rc
      else
        let order := set_order cfg gfn mfn todo in
        let! set_rc := set_4k gfn mfn order ty a (-1) in
        let rc := if negb (set_rc =? 0) then set_rc else rc in
        let gfn := u64 (gfn + Z.shiftl 1 order) in
        let mfn := if negb (mfn =? INVALID_MFN) then u64 (mfn + Z.shiftl 1 order) else mfn in
        let todo := u64 (todo - Z.shiftl 1 order) in
        host_set_loop fuel' gfn mfn todo ty a rc
  end.
Definition host_p2m_set_entry (gfn mfn page_order : Z) (ty : p2m_type) (a : p2m_access) : M D Z :=
  let todo := Z.shiftl 1 page_order in
  host_set_loop (Z.to_nat todo) gfn mfn todo ty a 0.

Definition entry (gfn : Z) : M G p2m_ent := on_gdom (host_get_entry gfn 0).
Definition host_default_access : M G p2m_access :=
  let! h := on_gdom host_get in ret (default_access h).
Definition crash : M G unit := on_gdom domain_crash.

Definition iommu_map (gfn mfn : Z) : M G Z :=
  modify (fun s : G => s <| iommu_calls ::= cons (call_map_page gfn mfn IOMMUF_RW) |>) ;;
  ret (pe_iommu_rc env mfn).
Definition iommu_unmap (gfn : Z) : M G Z :=
  modify (fun s : G => s <| iommu_calls ::= cons (call_unmap_page gfn) |>) ;;
  ret (pe_iommu_unmap_rc env gfn).

(** mfn_to_gfn() of a translated guest; an M2P entry never written is
    invalid. *)
Definition mfn_to_gfn (mfn : Z) : M G Z :=
  frame_get mfn ;; gets (fun s : G => default INVALID_M2P_ENTRY (m2p (dm (gst s)) !! mfn)).

Definition block (page_order : Z) : list Z := iota (Z.to_nat (Z.shiftl 1 page_order)).

(** ** Removing *)

(** p2m_remove_page() on the host table. *)
Definition host_remove_page (gfn mfn page_order : Z) : M G Z :=
  if negb (paging_translate cfg) then
    when (pe_need_iommu env)
      (for_each (block page_order) (fun i => iommu_unmap (u64 (mfn + i)) ;; ret tt)) ;;
    ret 0
  else
    when (mfn_valid cfg mfn)
      (for_each (block page_order) (fun i =>
         let! e := entry (u64 (gfn + i)) in
         let t := e_type e in
         when (negb (p2m_is_grant t) && negb (p2m_is_shared t) && negb (p2m_is_foreign t))
           (set_gpfn_from_mfn (u64 (mfn + i)) INVALID_M2P_ENTRY) ;;
         bug_on (p2m_is_valid t && negb (u64 (mfn + i) =? e_mfn e)))) ;;
    let! a := host_default_access in
    on_gdom (host_p2m_set_entry gfn INVALID_MFN page_order p2m_invalid a).

Definition guest_physmap_remove_page (gfn mfn page_order : Z) : M G Z :=
  host_remove_page gfn mfn page_order.

(** ** Adding *)

(** The first loop of guest_physmap_add_entry(): it returns from the function
    with a result ([inl]), or goes on with the count of populate-on-demand
    entries. *)
Fixpoint add_clear_old (ids : list Z) (gfn pod_count : Z) : M G (Z + Z) :=
  match ids with
  | [] => ret (inr pod_count)
  | i :: ids' =>
      let! e := entry (u64 (gfn + i)) in
      let! r :=
        if p2m_is_shared (e_type e) then
          let rc := pe_unshare_rc env (u64 (gfn + i)) in
          if negb (rc =? 0) then ret (inl rc)
          else
            on_gdom (host_upd (fun h => h <| table := mem_sharing_unshare_page (table h) (u64 (gfn + i)) |>)) ;;
            let! e := entry (u64 (gfn + i)) in
            bug_on (p2m_is_shared (e_type e)) ;; ret (inr e)
        else ret (inr e) in
      match r with
      | inl rc => ret (inl rc)
      | inr e =>
          let ot := e_type e in
          if p2m_is_grant ot || p2m_is_foreign ot then crash ;; ret (inl (- EINVAL))
          else if p2m_is_ram ot && negb (p2m_is_paged ot) then
            bug_on (negb (mfn_valid cfg (e_mfn e))) ;;
            set_gpfn_from_mfn (e_mfn e) INVALID_M2P_ENTRY ;;
            add_clear_old ids' gfn pod_count
          else if bool_decide (ot = p2m_populate_on_demand) then
            add_clear_old ids' gfn (pod_count + 1)
          else if p2m_is_paging ot && negb (bool_decide (ot = p2m_ram_paging_out)) then
            modify (fun s : G => s <| paged_pages ::= Z.add (-1) |>) ;;
            add_clear_old ids' gfn pod_count
          else add_clear_old ids' gfn pod_count
      end
  end.

(** The second loop: frames that are mapped elsewhere; false for the return
    with -EINVAL. *)
Fixpoint add_clear_aliases (ids : list Z) (gfn mfn : Z) : M G bool :=
  match ids with
  | [] => ret true
  | i :: ids' =>
      let! p := frame_get (u64 (mfn + i)) in
      if bool_decide (owner p = own_cow) then ret false
      else if negb (bool_decide (owner p = own_dom)) then add_clear_aliases ids' gfn mfn
      else
        let! ogfn := mfn_to_gfn (u64 (mfn + i)) in
        when (negb (ogfn =? INVALID_M2P_ENTRY) && negb (ogfn =? u64 (gfn + i)))
          (let! e := entry ogfn in
           when (p2m_is_ram (e_type e) && negb (p2m_is_paged (e_type e)))
             (bug_on (negb (mfn_valid cfg (e_mfn e))) ;;
              when (e_mfn e =? u64 (mfn + i)) (host_remove_page ogfn (u64 (mfn + i)) 0 ;; ret tt))) ;;
        add_clear_aliases ids' gfn mfn
  end.

(** The two-way mapping at the end. *)
Definition add_map (gfn mfn page_order : Z) (t : p2m_type) (pod_count : Z) : M G Z :=
  let! a := host_default_access in
  if mfn_valid cfg mfn then
    let! rc := on_gdom (host_p2m_set_entry gfn mfn page_order t a) in
    if negb (rc =? 0) then ret rc
    else
      when (negb (p2m_is_grant t))
        (for_each (block page_order) (fun i => set_gpfn_from_mfn (u64 (mfn + i)) (u64 (gfn + i)))) ;;
      ret rc
  else
    let! rc := on_gdom (host_p2m_set_entry gfn INVALID_MFN page_order p2m_invalid a) in
    when (rc =? 0)
      (modify (fun s : G => s <| pod_entry_count ::= fun n => n - pod_count |>) ;;
       let! n := gets pod_entry_count in bug_on (n <? 0)) ;;
    ret rc.

(** The loop over the IOMMU for a guest that is not translated; frames
    mapped so far are [mapped], last first. *)
Fixpoint add_iommu (ids : list Z) (mfn : Z) (mapped : list Z) : M G Z :=
  match ids with
  | [] => ret 0
  | i :: ids' =>
      let! rc := iommu_map (u64 (mfn + i)) (u64 (mfn + i)) in
      if negb (rc =? 0) then for_each mapped (fun j => iommu_unmap (u64 (mfn + j)) ;; ret tt) ;; ret rc
      else add_iommu ids' mfn (i :: mapped)
  end.

Definition guest_physmap_add_entry (gfn mfn page_order : Z) (t : p2m_type) : M G Z :=
  if negb (paging_translate cfg) then
    if pe_need_iommu env && bool_decide (t = p2m_ram_rw) then add_iommu (block page_order) mfn []
    else ret 0
  else if p2m_is_foreign t then ret (- EINVAL)
  else
    let! r := add_clear_old (block page_order) gfn 0 in
    match r with
    | inl rc => ret rc
    | inr pod_count =>
        let! ok := add_clear_aliases (block page_order) gfn mfn in
        if negb ok then ret (- EINVAL) else add_map gfn mfn page_order t pod_count
    end.

(** ** Single entries *)

Definition set_typed_p2m_entry (gfn mfn : Z) (ty : p2m_type) (a : p2m_access) : M G Z :=
  if negb (paging_translate cfg) then ret (- EIO)
  else
    let! e := entry gfn in
    let ot := e_type e in
    if p2m_is_grant ot || p2m_is_foreign ot then crash ;; ret (- ENOENT)
    else
      when (p2m_is_ram ot)
        (bug_on (negb (mfn_valid cfg (e_mfn e))) ;;
         set_gpfn_from_mfn (e_mfn e) INVALID_M2P_ENTRY) ;;
      on_gdom (host_p2m_set_entry gfn mfn PAGE_ORDER_4K ty a).

Definition set_foreign_p2m_entry (gfn mfn : Z) : M G Z :=
  let! a := host_default_access in set_typed_p2m_entry gfn mfn p2m_map_foreign a.
Definition set_mmio_p2m_entry (gfn mfn : Z) (a : p2m_access) : M G Z :=
  set_typed_p2m_entry gfn mfn p2m_mmio_direct a.

Definition set_identity_p2m_entry (gfn : Z) (p2ma : p2m_access) (flag : Z) : M G Z :=
  if negb (paging_translate cfg) then
    if negb (pe_need_iommu env) then ret 0 else iommu_map gfn gfn
  else
    let! e := entry gfn in
    if bool_decide (e_type e = p2m_invalid \/ e_type e = p2m_mmio_dm) then
      on_gdom (host_p2m_set_entry gfn gfn PAGE_ORDER_4K p2m_mmio_direct p2ma)
    else if (e_mfn e =? gfn) && bool_decide (e_type e = p2m_mmio_direct)
            && bool_decide (e_access e = p2ma) then
      if pe_hardware_domain env && negb (pe_iommu_use_hap_pt env) then iommu_map gfn gfn else ret 0
    else ret (if negb (Z.land flag XEN_DOMCTL_DEV_RDM_RELAXED =? 0) then 0 else - EBUSY).

Definition clear_mmio_p2m_entry (gfn mfn : Z) : M G Z :=
  if negb (paging_translate cfg) then ret (- EIO)
  else
    let! e := entry gfn in
    if (INVALID_MFN =? e_mfn e) || negb (bool_decide (e_type e = p2m_mmio_direct)) then ret (- EINVAL)
    else
      let! a := host_default_access in
      on_gdom (host_p2m_set_entry gfn INVALID_MFN PAGE_ORDER_4K p2m_invalid a).

Definition clear_identity_p2m_entry (gfn : Z) : M G Z :=
  if negb (paging_translate cfg) then
    if negb (pe_need_iommu env) then ret 0 else iommu_unmap gfn
  else
    let! e := entry gfn in
    if bool_decide (e_type e = p2m_mmio_direct) && (e_mfn e =? gfn) then
      let! a := host_default_access in
      on_gdom (host_p2m_set_entry gfn INVALID_MFN PAGE_ORDER_4K p2m_invalid a)
    else ret 0.

Definition set_shared_p2m_entry (gfn mfn : Z) : M G Z :=
  if negb (paging_translate cfg) then ret (- EIO)
  else
    let! e := entry gfn in
    bug_on (negb (p2m_is_shared (e_type e))) ;;
    bug_on (negb (mfn_valid cfg (e_mfn e))) ;;
    let! p := frame_get (e_mfn e) in
    when ((Z.land (type_info p) PGT_count_mask =? 0)
          || negb (Z.land (type_info p) PGT_type_mask =? PGT_shared_page))
      (set_gpfn_from_mfn (e_mfn e) INVALID_M2P_ENTRY) ;;
    let! a := host_default_access in
    on_gdom (host_p2m_set_entry gfn mfn PAGE_ORDER_4K p2m_ram_shared a).

(** ** Ranges of MMIO *)

Fixpoint unmap_mmio_loop (ids : list Z) (start_gfn mfn err : Z) : M G Z :=
  match ids with
  | [] => ret err
  | i :: ids' =>
      let! rc := clear_mmio_p2m_entry (u64 (start_gfn + i)) (u64 (mfn + i)) in
      unmap_mmio_loop ids' start_gfn mfn (if negb (rc =? 0) then rc else err)
  end.
Definition unmap_mmio_regions (start_gfn nr mfn : Z) : M G Z :=
  if negb (paging_translate cfg) then ret 0
  else unmap_mmio_loop (iota (Z.to_nat nr)) start_gfn mfn 0.

Fixpoint map_mmio_loop (ids : list Z) (start_gfn mfn : Z) : M G Z :=
  match ids with
  | [] => ret 0
  | i :: ids' =>
      let! a := host_default_access in
      let! rc := set_mmio_p2m_entry (u64 (start_gfn + i)) (u64 (mfn + i)) a in
      if negb (rc =? 0) then unmap_mmio_regions start_gfn i mfn ;; ret rc
      else map_mmio_loop ids' start_gfn mfn
  end.
Definition map_mmio_regions (start_gfn nr mfn : Z) : M G Z :=
  if negb (paging_translate cfg) then ret 0
  else map_mmio_loop (iota (Z.to_nat nr)) start_gfn mfn.

(** ** Taking a reference *)

Context (scrubbed : Z) (cacheattr_ok : bool).

(** get_page(page, d) for a domain [d] other than the one of the state. *)
Definition get_page_of (d : page_owner) (mfn : Z) : M G bool :=
  let! o := page_get_owner_and_reference mfn in
  match o with
  | Some o' => if bool_decide (o' = d) then ret true else put_page scrubbed cacheattr_ok mfn ;; ret false
  | None => ret false
  end.

(** The lookup under the read lock: the entry and the page, if it could be
    taken. *)
Definition page_fast (gfn q : Z) : M G (p2m_ent * option Z) :=
  let! e := on_gdom (get_gfn_host cfg mem_sharing_unshare_page gfn 0) in
  let mfn := e_mfn e in
  let t := e_type e in
  if p2m_is_any_ram t && mfn_valid cfg mfn && negb (negb (Z.land q P2M_UNSHARE =? 0) && p2m_is_shared t) then
    if p2m_is_foreign t then
      let! fdom := page_get_owner_and_reference mfn in
      bug_on (bool_decide (fdom = Some own_dom)) ;;
      ret (e, if bool_decide (fdom = None) then None else Some mfn)
    else
      let! got := get_page scrubbed cacheattr_ok mfn in
      if (got : bool) then ret (e, Some mfn)
      else
        let! got := get_page_of own_cow mfn in
        ret (e, if (got : bool) then Some mfn else None)
  else ret (e, None).
Definition page_slow (gfn q : Z) : M G (p2m_ent * option Z) :=
  let! e := on_gdom (get_gfn_host cfg mem_sharing_unshare_page gfn q) in
  if p2m_is_ram (e_type e) && mfn_valid cfg (e_mfn e) then
    let! got := get_page scrubbed cacheattr_ok (e_mfn e) in
    ret (e, if (got : bool) then Some (e_mfn e) else None)
  else ret (e, None).

(** get_page_from_gfn_p2m() on the host table; [locked]: the caller holds its
    lock. *)
Definition get_page_from_gfn_p2m (locked : bool) (gfn q : Z) : M G (p2m_ent * option Z) :=
  if locked then page_slow gfn q
  else
    let! r := page_fast gfn q in
    match r.2 with
    | Some _ => ret r
    | None =>
        let t := e_type r.1 in
        if negb (p2m_is_ram t) && negb (p2m_is_paging t) && negb (bool_decide (t = p2m_populate_on_demand))
        then ret r
        else page_slow gfn q
    end.
End Physmap.
