(* ===== verification/Paging.v ===== *)
(** * Paging of guest memory to a pager
      (xen/arch/x86/mm/p2m.c, xen/arch/x86/mm/mem_paging.c, xen/common/memory.c)

    A pager in another domain nominates a guest frame, saves its contents and
    evicts it; when the frame is needed again a request on the paging ring asks
    for it, and the pager brings the contents back into a new frame.  The p2m
    type of the frame records where it is on this way: ram_rw, paging_out,
    paged, paging_in, ram_rw.  The last step is p2m_mem_paging_resume() of
    MemAccess.v.

    A call that sends a request may put the calling vCPU to sleep until a slot
    of the ring is free: it then ends with [false], and goes on from there in
    the definition whose name ends in [_again]. *)

From S2P Require Import Prelude Monad P2m Altp2m VmEvent MemAccess NestedFault Frames Physmap.

Definition MEM_PAGING_EVICT_FAIL : Z := Z.shiftl 1 1.
Definition XENMEM_paging_op_nominate : Z := 0.
Definition XENMEM_paging_op_evict : Z := 1.
Definition XENMEM_paging_op_prep : Z := 2.
Definition _PGT_pinned : Z := PG_shift 5.

(** The values of p2m_type_t. *)
Definition p2m_type_code (t : p2m_type) : Z :=
  match t with
  | p2m_ram_rw => 0 | p2m_invalid => 1 | p2m_ram_logdirty => 2 | p2m_ram_ro => 3
  | p2m_mmio_dm => 4 | p2m_mmio_direct => 5 | p2m_populate_on_demand => 6
  | p2m_grant_map_rw => 7 | p2m_grant_map_ro => 8 | p2m_ram_paging_out => 9
  | p2m_ram_paged => 10 | p2m_ram_paging_in => 11 | p2m_ram_shared => 12
  | p2m_ram_broken => 13 | p2m_map_foreign => 14 | p2m_mmio_write_dm => 15
  end.

(** The pager's buffer: access_ok(), and what copy_from_user() brings (or the
    number of bytes it leaves). *)
Record prep_env := mkPrepEnv { pb_access_ok : bool; pb_copy : Z + Z }.

Record paging_env := mkPgEnv {
  pg_copy_from_ok : bool; pg_copy_to_ok : bool;
  pg_lock_rc : Z;                          (* rcu_lock_live_remote_domain_by_id() *)
  pg_xsm_rc : Z;                           (* xsm_mem_paging() *)
  pg_prep : prep_env
}.
Record xen_mem_paging_op := mkMpo { mpo_op : Z; mpo_gfn : Z; mpo_buffer : Z }.

Section Paging.
Local Open Scope monad_scope.
Context {T : Type} `{P2MTable T}.
Context (cfg : p2m_config) (plat : platform).
Context (mem_sharing_unshare_page : T -> Z -> T) (zero : T) (mask_ok : Z -> bool).
Context (env : physmap_env) (scrubbed : Z) (cacheattr_ok : bool).
(** paging_mode_log_dirty(d) *)
Context (log_dirty : bool).
(** [current]: vCPU [k] of the domain, or vCPU number [cur_id] of another. *)
Context (cur : option nat) (cur_id : Z).
Local Abbreviation D := (domain T).
Local Abbreviation G := (pgd T).

Local Abbreviation set_4k :=
  (fun gfn mfn ty a => on_gdom (host_set_entry cfg plat mem_sharing_unshare_page zero mask_ok
                                  gfn mfn PAGE_ORDER_4K ty a (-1))).
Local Abbreviation put_page := (put_page scrubbed cacheattr_ok).
Local Abbreviation get_page := (get_page scrubbed cacheattr_ok).

(** is_iomem_page() *)
Definition is_iomem_page (mfn : Z) : M G bool :=
  if negb (mfn_valid cfg mfn) then ret true
  else
    let! p := frame_get mfn in
    bug_on (Z.land (count_info p) PGC_count_mask =? 0) ;;
    ret (bool_decide (owner p = own_io)).

(** The check of count and type: [n] users, no use by type. *)
Definition used_by (n : Z) (p : page_info) : bool :=
  (Z.land (count_info p) (Z.lor PGC_count_mask PGC_allocated) =? Z.lor n PGC_allocated)
  && (Z.land (type_info p) PGT_count_mask =? 0).

Definition p2m_mem_paging_nominate (gfn : Z) : M G Z :=
  let! e := entry gfn in
  let mfn := e_mfn e in
  if negb (mfn_valid cfg mfn) then ret (- EBUSY)
  else if negb (p2m_is_pageable (e_type e)) then ret (- EBUSY)
  else
    let! io := is_iomem_page mfn in
    if (io : bool) then ret (- EBUSY)
    else
      let! p := frame_get mfn in
      if negb (used_by 1 p) then ret (- EBUSY)
      else set_4k gfn mfn p2m_ram_paging_out (e_access e).

Definition p2m_mem_paging_evict (gfn : Z) : M G Z :=
  let! e := entry gfn in
  let mfn := e_mfn e in
  if negb (mfn_valid cfg mfn) then ret (- EBUSY)
  else if negb (bool_decide (e_type e = p2m_ram_paging_out)) then ret (- EBUSY)
  else
    let! got := get_page mfn in
    if negb got then ret (- EBUSY)
    else
      let! p := frame_get mfn in
      let! rc :=
        if negb (used_by 2 p) then ret (- EBUSY)
        else
          let! was := test_and_clear_allocated mfn in
          when was (put_page mfn) ;;
          let! rc := set_4k gfn INVALID_MFN p2m_ram_paged (e_access e) in
          scrub_one_page scrubbed mfn ;;
          modify (fun s : G => s <| paged_pages ::= Z.add 1 |>) ;;
          ret rc in
      put_page mfn ;;
      ret rc.

(** From the result of vm_event_claim_slot() on. *)
Definition drop_claimed (gfn : Z) (ty : p2m_type) (rc : Z) : M G unit :=
  if rc <? 0 then ret tt
  else
    let req := no_event <| reason := VM_EVENT_REASON_MEM_PAGING |> <| ma_req_gfn := gfn |> in
    let out := bool_decide (ty = p2m_ram_paging_out) in
    when (negb out) (modify (fun s : G => s <| paged_pages ::= Z.add (-1) |>)) ;;
    on_gst (vm_event_put_request cur
      (req <| pg_flags := if out then Z.lor MEM_PAGING_DROP_PAGE MEM_PAGING_EVICT_FAIL
                          else MEM_PAGING_DROP_PAGE |>)).
Definition slept {A} (m : M G (option A)) (k : A -> M G unit) : M G bool :=
  let! r := m in
  match r with None => ret false | Some a => k a ;; ret true end.
Definition p2m_mem_paging_drop_page (gfn : Z) (ty : p2m_type) : M G bool :=
  slept (on_gst (__vm_event_claim_slot cur true)) (drop_claimed gfn ty).
Definition p2m_mem_paging_drop_page_again (k : nat) (gfn : Z) (ty : p2m_type) : M G bool :=
  slept (on_gst (wait_slot_again k)) (drop_claimed gfn ty).

(** The entry is moved to the page-in path. *)
Definition populate_fix (gfn : Z) (e : p2m_ent) : M G unit :=
  when (bool_decide (e_type e = p2m_ram_paging_out \/ e_type e = p2m_ram_paged))
    (set_4k gfn (e_mfn e) p2m_ram_paging_in (e_access e) ;; ret tt).

(** The request of p2m_mem_paging_populate(). *)
Definition populate_request (gfn : Z) (ty : p2m_type) (paused : bool) : vm_event :=
  no_event
    <| reason := VM_EVENT_REASON_MEM_PAGING |> <| ma_req_gfn := gfn |>
    <| flags := if paused then VM_EVENT_FLAG_VCPU_PAUSED else 0 |>
    <| pg_flags := if bool_decide (ty = p2m_ram_paging_out) then MEM_PAGING_EVICT_FAIL else 0 |>
    <| pg_p2mt := p2m_type_code ty |>
    <| vcpu_id := match cur with Some k => Z.of_nat k | None => cur_id end |>.

Definition populate_claimed (gfn : Z) (rc : Z) : M G unit :=
  if rc =? - ENOSYS then
    match cur with Some k => on_gst (vcpu_pause_nosync k) | None => ret tt end ;;
    crash
  else if rc <? 0 then ret tt
  else
    let! e := entry gfn in
    let ty := e_type e in
    populate_fix gfn e ;;
    match cur with
    | Some k =>
        if p2m_is_paging ty then
          on_gst (vm_event_vcpu_pause cur k) ;;
          on_gst (vm_event_put_request cur (populate_request gfn ty true))
        else on_gst (vm_event_cancel_slot cur)
    | None =>
        if bool_decide (ty <> p2m_ram_paging_out /\ ty <> p2m_ram_paged)
        then on_gst (vm_event_cancel_slot cur)
        else on_gst (vm_event_put_request cur (populate_request gfn ty false))
    end.
Definition p2m_mem_paging_populate (gfn : Z) : M G bool :=
  slept (on_gst (__vm_event_claim_slot cur true)) (populate_claimed gfn).
Definition p2m_mem_paging_populate_again (k : nat) (gfn : Z) : M G bool :=
  slept (on_gst (wait_slot_again k)) (populate_claimed gfn).

(** The frame of p2m_mem_paging_prep(): the one there is, or a new one with
    the contents of the buffer; [inl] is the error. *)
Definition prep_frame (e : p2m_ent) (buffer : Z) (pb : prep_env) : M G (Z + (Z * bool)) :=
  if mfn_valid cfg (e_mfn e) then ret (inr (e_mfn e, true))
  else if buffer =? 0 then ret (inl (- EINVAL))
  else
    let! pg := alloc_domheap_page in
    match pg with
    | None => ret (inl (- ENOMEM))
    | Some mfn =>
        bug_on (negb (mfn_valid cfg mfn)) ;;
        match pb_copy pb with
        | inr bytes => frame_upd mfn (fun p => p <| data := bytes |>) ;; ret (inr (mfn, false))
        | inl _ => put_page mfn ;; ret (inl (- EFAULT))
        end
    end.

(** The frame is made accessible to the guest. *)
Definition prep_map (gfn mfn : Z) (a : p2m_access) (page_extant : bool) : M G Z :=
  let! rc := set_4k gfn mfn (if log_dirty then p2m_ram_logdirty else p2m_ram_rw) a in
  set_gpfn_from_mfn mfn gfn ;;
  when (negb page_extant) (modify (fun s : G => s <| paged_pages ::= Z.add (-1) |>)) ;;
  ret rc.

Definition p2m_mem_paging_prep (gfn buffer : Z) (pb : prep_env) : M G Z :=
  if negb (buffer =? 0) && (negb (Z.land buffer (PAGE_SIZE - 1) =? 0) || negb (pb_access_ok pb))
  then ret (- EINVAL)
  else
    let! e := entry gfn in
    if bool_decide (e_type e <> p2m_ram_paging_in /\ e_type e <> p2m_ram_paged) then ret (- ENOENT)
    else
      let! r := prep_frame e buffer pb in
      match r with
      | inl rc => ret rc
      | inr (mfn, page_extant) => prep_map gfn mfn (e_access e) page_extant
      end.

(** ** arch/x86/mm/mem_paging.c *)

Definition mem_paging_memop (penv : paging_env) (mpo : xen_mem_paging_op) : M G Z :=
  if negb (pg_copy_from_ok penv) then ret (- EFAULT)
  else if negb (pg_lock_rc penv =? 0) then ret (pg_lock_rc penv)
  else if negb (pg_xsm_rc penv =? 0) then ret (pg_xsm_rc penv)
  else
    let! ring := on_gst vm_event_check_ring in
    if negb ring then ret (- ENODEV)
    else if mpo_op mpo =? XENMEM_paging_op_nominate then p2m_mem_paging_nominate (mpo_gfn mpo)
    else if mpo_op mpo =? XENMEM_paging_op_evict then p2m_mem_paging_evict (mpo_gfn mpo)
    else if mpo_op mpo =? XENMEM_paging_op_prep then
      let! rc := p2m_mem_paging_prep (mpo_gfn mpo) (mpo_buffer mpo) (pg_prep penv) in
      ret (if (rc =? 0) && negb (pg_copy_to_ok penv) then - EFAULT else rc)
    else ret (- ENOSYS).

(** ** common/memory.c *)

(** put_page_type(), which undoes the use of a frame as a PV page table. *)
Context (put_page_type : Z -> M G unit).

(** guest_remove_page(): the result, or [None] when the vCPU is asleep in
    p2m_mem_paging_drop_page(), after which the result is 1. *)
Definition guest_remove_page (gmfn : Z) : M G (option bool) :=
  let! e := on_gdom (get_gfn_host cfg mem_sharing_unshare_page gmfn 0) in
  let mfn := e_mfn e in
  if p2m_is_paging (e_type e) then
    guest_physmap_remove_page cfg plat mem_sharing_unshare_page zero mask_ok env gmfn mfn 0 ;;
    when (bool_decide (e_type e = p2m_ram_paging_out))
      (bug_on (negb (mfn_valid cfg mfn)) ;;
       let! was := test_and_clear_allocated mfn in when was (put_page mfn)) ;;
    let! fin := p2m_mem_paging_drop_page gmfn (e_type e) in
    ret (if (fin : bool) then Some true else None)
  else if bool_decide (e_type e = p2m_mmio_direct) then
    clear_mmio_p2m_entry cfg plat mem_sharing_unshare_page zero mask_ok gmfn mfn ;; ret (Some true)
  else if negb (mfn_valid cfg mfn) then ret (Some false)
  else
    let! r :=
      if p2m_is_shared (e_type e) then
        if negb (pe_unshare_rc env gmfn =? 0) then ret None
        else
          on_gdom (host_upd (fun h => h <| table := mem_sharing_unshare_page (table h) gmfn |>)) ;;
          let! e := on_gdom (get_gfn_host cfg mem_sharing_unshare_page gmfn 0) in
          bug_on (p2m_is_shared (e_type e)) ;; ret (Some (e_mfn e))
      else ret (Some mfn) in
    match r with
    | None => ret (Some false)
    | Some mfn =>
        let! got := get_page mfn in
        if negb got then ret (Some false)
        else
          let! p := frame_get mfn in
          frame_upd mfn (fun p => p <| type_info ::= fun t => Z.clearbit t _PGT_pinned |>) ;;
          when (Z.testbit (type_info p) _PGT_pinned) (put_page_type mfn ;; put_page mfn) ;;
          let! was := test_and_clear_allocated mfn in
          when was (put_page mfn) ;;
          guest_physmap_remove_page cfg plat mem_sharing_unshare_page zero mask_ok env gmfn mfn 0 ;;
          put_page mfn ;;
          ret (Some true)
    end.
End Paging.
