(* ===== verification/PagingProofs.v ===== *)
(** * What paging relies on, and its invariant (theorems about Paging.v)

    [P2MPagingLaws]: entries without a frame.  [paging_inv]: a frame of the
    machine backs at most one guest frame, the machine-to-physical table says
    which, it belongs to the domain and is not free; guest frames without one
    are counted in d->paged_pages. *)

From S2P Require Import Prelude Monad P2m P2mProofs Altp2m Altp2mProofs Altp2mSwitch Altp2mInv Altp2mTables.
From S2P Require Import VmEvent VmEventProofs MemAccess MemAccessProofs NestedFault Frames FramesProofs Physmap Paging.

(** Types of guest memory that has a frame of its own. *)
Definition own_ram (ty : p2m_type) : bool :=
  match ty with
  | p2m_ram_rw | p2m_ram_logdirty | p2m_ram_ro | p2m_ram_paging_out | p2m_ram_paged
  | p2m_ram_paging_in => true
  | _ => false
  end.

(** An entry of a paged-out frame has no machine frame: a lookup reports
    [hole_mfn] for it.  An entry that was removed is no memory.  A failed
    update of a single frame changes no entry. *)
Class P2MPagingLaws (T : Type) `{P2MTableLaws T} := {
  hole_mfn : Z;
  set_hole : forall t t' gfn m ty a sve rc,
    table_ok t -> 0 <= gfn -> m = INVALID_MFN \/ m = hole_mfn ->
    ty = p2m_ram_paged \/ ty = p2m_ram_paging_in ->
    set_entry t gfn m 0 ty a sve = (rc, t') ->
    table_ok t' /\ rc <= 0 /\ (rc = 0 -> look t' gfn = (hole_mfn, ty, a)) /\
    forall g, 0 <= g -> g <> gfn \/ rc <> 0 -> look t' g = look t g;
  set_gone : forall t t' gfn a sve rc,
    table_ok t -> 0 <= gfn -> set_entry t gfn INVALID_MFN 0 p2m_invalid a sve = (rc, t') ->
    table_ok t' /\ rc <= 0 /\
    (rc = 0 -> (look t' gfn).1.1 = INVALID_MFN /\ own_ram (look t' gfn).1.2 = false) /\
    forall g, 0 <= g -> g <> gfn \/ rc <> 0 -> look t' g = look t g;
  set_fails : forall t t' gfn m ty a sve rc,
    table_ok t -> 0 <= gfn -> may_set m 0 ty a ->
    set_entry t gfn m 0 ty a sve = (rc, t') -> rc <> 0 -> look t' gfn = look t gfn
}.

Definition backed_type (ty : p2m_type) : bool :=
  match ty with
  | p2m_ram_rw | p2m_ram_logdirty | p2m_ram_paging_out | p2m_ram_paging_in => true
  | _ => false
  end.
Definition hole_type (ty : p2m_type) : bool :=
  match ty with p2m_ram_paged | p2m_ram_paging_in => true | _ => false end.

Section Paging.
Context {T : Type} `{P2MPagingLaws T}.
Context (cfg : p2m_config) (plat : platform).
Local Abbreviation G := (pgd T).
Local Abbreviation altp2m_inv := (altp2m_inv plat).
Implicit Types (s : G).

(** The table takes guest memory of the machine, and what it reports for an
    entry without a frame is no frame of the machine. *)
Record paging_rules : Prop := mkRules {
  pr_may : forall m ty a, mfn_valid cfg m = true -> 0 <= m -> backed_type ty = true -> may_set m 0 ty a;
  pr_hole : mfn_valid cfg hole_mfn = false;
  pr_max : max_mfn cfg <= INVALID_MFN
}.
Context (R : paging_rules).

Lemma invalid_not_valid : mfn_valid cfg INVALID_MFN = false.
Proof. apply Z.ltb_ge, R. Qed.

(** ** One entry of the host table *)

Definition shown (m : Z) : Z := if m =? INVALID_MFN then hole_mfn else m.

(** The updates paging makes. *)
Definition paging_set (m : Z) (ty : p2m_type) : Prop :=
  (mfn_valid cfg m = true /\ 0 <= m /\ backed_type ty = true) \/
  ((m = INVALID_MFN \/ m = hole_mfn) /\ hole_type ty = true).

(** The update of entry [gfn] to [x], which may fail. *)
Definition set_look (t : T) (gfn : Z) (x : Z * p2m_type * p2m_access) (rc : Z) (t' : T) : Prop :=
  table_ok t' /\ rc <= 0 /\
  forall g, 0 <= g -> look t' g = if bool_decide (rc = 0 /\ g = gfn) then x else look t g.

Lemma look_may_set t t' gfn m ty a rc :
  table_ok t -> 0 <= gfn -> may_set m 0 ty a -> m <> INVALID_MFN ->
  set_entry t gfn m 0 ty a (-1) = (rc, t') -> set_look t gfn (m, ty, a) rc t'.
Proof.
  intros Ht Hg Hmay Hne E. split; [exact (set_entry_ok _ _ _ _ _ _ _ _ _ Ht Hmay Hg E)|].
  split; [exact (set_entry_rc _ _ _ _ _ _ _ _ _ Ht Hmay Hg E)|]. intros g Hg0.
  destruct (decide (g = gfn)) as [->|Hd].
  - destruct (decide (rc = 0)) as [->|Hrc].
    + rewrite bool_decide_true by done.
      destruct (set_entry_in t t' gfn m 0 ty a (-1) gfn Ht Hmay Hg E) as (A1 & A2 & A3);
        try done; [by rewrite Z.mod_1_r..|unfold order_size; lia|].
      unfold look. cbv zeta. rewrite A1, A2, A3, Z.sub_diag, Z.add_0_r. done.
    + rewrite bool_decide_false by tauto. by eapply set_fails.
  - rewrite bool_decide_false by tauto. apply (look_set_out t t' gfn m 0 ty a (-1) rc); try done; [by rewrite Z.mod_1_r|].
    unfold order_size. lia.
Qed.

Lemma look_paging_set t t' gfn m ty a rc :
  table_ok t -> 0 <= gfn -> paging_set m ty -> set_entry t gfn m 0 ty a (-1) = (rc, t') ->
  set_look t gfn (shown m, ty, a) rc t'.
Proof.
  intros Ht Hg [(Hv & Hm & Hb)|(Hm & Hb)] E.
  - assert (Hne : m <> INVALID_MFN) by (intros ->; by rewrite invalid_not_valid in Hv).
    unfold shown. rewrite (proj2 (Z.eqb_neq _ _)) by done. apply look_may_set; try done. by apply R.
  - assert (Hty : ty = p2m_ram_paged \/ ty = p2m_ram_paging_in) by (destruct ty; try done; auto).
    destruct (set_hole t t' gfn m ty a (-1) rc Ht Hg Hm Hty E) as (A1 & A2 & A3 & A4).
    split; [done|]. split; [done|]. intros g Hg0. case_bool_decide as Hd.
    + destruct Hd as [-> ->]. rewrite (A3 eq_refl). unfold shown.
      destruct Hm as [->| ->]; [by rewrite Z.eqb_refl|]. by destruct (_ =? _).
    + apply A4; [done|]. destruct (decide (rc = 0)); [left; tauto|by right].
Qed.

(** What an entry that was removed looks like. *)
Definition unmapped (x : Z * p2m_type * p2m_access) : Prop := x.1.1 = INVALID_MFN /\ own_ram x.1.2 = false.

Lemma look_gone t t' gfn a rc :
  table_ok t -> 0 <= gfn -> set_entry t gfn INVALID_MFN 0 p2m_invalid a (-1) = (rc, t') ->
  exists x, unmapped x /\ set_look t gfn x rc t'.
Proof.
  intros Ht Hg E. destruct (set_gone t t' gfn a (-1) rc Ht Hg E) as (A1 & A2 & A3 & A4).
  assert (Hother : forall g, 0 <= g -> ~ (rc = 0 /\ g = gfn) -> look t' g = look t g).
  { intros g Hg0 Hn. apply A4; [done|]. destruct (decide (rc = 0)); [left; tauto|by right]. }
  exists (if decide (rc = 0) then look t' gfn else (INVALID_MFN, p2m_invalid, a)). split; [case_decide; [by apply A3|done]|].
  split; [done|]. split; [done|]. intros g Hg0. case_bool_decide as Hd; [|by apply Hother].
  destruct Hd as [-> ->]. by destruct (decide _).
Qed.

Definition glook s (g : Z) : Z * p2m_type * p2m_access :=
  match hostp2m (gdm s) with
  | Some h => look (table h) g
  | None => (INVALID_MFN, p2m_invalid, p2m_access_n)
  end.

Definition tables_ok s : Prop :=
  altp2m_inv (gdm s) /\ exists h, hostp2m (gdm s) = Some h /\ table_ok (table h).

Lemma wp_entry s g Q : tables_ok s ->
  (forall e, glook s g = (e_mfn e, e_type e, e_access e) -> Q e s) -> wp (entry g) Q s.
Proof.
  intros (_ & h & Hh & _) HQ. unfold entry. apply wp_on_gdom. eapply wp_host_get_entry; [done|].
  replace (set_gdm (gdm s) s) with s by (unfold set_gdm, gdm, set; destruct s as [[]]; done).
  apply HQ. unfold glook. by rewrite Hh.
Qed.

(** Only the host table was written. *)
Definition new_access (d : domain T) : p2m_access := from_option default_access p2m_access_n (hostp2m d).
Definition written s s' : Prop :=
  tables_ok s' /\ exists d', s' = set_gdm d' s /\ m2p d' = m2p (gdm s) /\ is_dying d' = is_dying (gdm s) /\
    new_access d' = new_access (gdm s).

Section Write.
Context (mem_sharing_unshare_page : T -> Z -> T) (zero : T) (mask_ok : Z -> bool).
Local Abbreviation set_4k := (fun gfn mfn ty a =>
  on_gdom (host_set_entry cfg plat mem_sharing_unshare_page zero mask_ok gfn mfn PAGE_ORDER_4K ty a (-1))).

(** An update of one entry, given what the table makes of it. *)
Lemma wp_set_host s gfn m ty a (P : Z * p2m_type * p2m_access -> Prop) Q :
  tables_ok s ->
  (forall t rc t', table_ok t -> set_entry t gfn m 0 ty a (-1) = (rc, t') -> exists x, P x /\ set_look t gfn x rc t') ->
  (forall rc s' x, P x -> written s s' -> rc <= 0 ->
     (forall g, 0 <= g -> glook s' g = if bool_decide (rc = 0 /\ g = gfn) then x else glook s g) -> Q rc s') ->
  wp (set_4k gfn m ty a) Q s.
Proof.
  intros (I & h & Hh & Ht) Hp HQ. apply wp_on_gdom.
  eapply (wp_host_set_entry_full cfg plat); [by apply inv_shape|done|]. intros d' rc t E Hq Hd.
  unfold host_part in Hd. injection Hd as D1 D2 D3 D4.
  destruct (Hp _ _ _ Ht E) as (x & Hx & Ht' & Hrc & Hl). apply (HQ rc _ x); [done| |done|].
  - split; [split; [by eapply quiet_inv|]; eexists; split; [exact D1|exact Ht']|]. exists d'. split_and!; try done.
    unfold new_access. by rewrite D1, Hh.
  - intros g Hg0. unfold glook. change (hostp2m (gdm (set_gdm d' s))) with (hostp2m d'). rewrite D1, Hh.
    by apply Hl.
Qed.

Lemma wp_set_4k s gfn m ty a Q :
  tables_ok s -> 0 <= gfn -> paging_set m ty ->
  (forall rc s', written s s' -> rc <= 0 ->
     (forall g, 0 <= g -> glook s' g = if bool_decide (rc = 0 /\ g = gfn) then (shown m, ty, a) else glook s g) ->
     Q rc s') ->
  wp (set_4k gfn m ty a) Q s.
Proof.
  intros Ht Hg Hp HQ. apply (wp_set_host s gfn m ty a (fun x => x = (shown m, ty, a))); [done| |].
  - intros t rc t' Hok E. eexists. split; [done|]. by apply look_paging_set.
  - intros rc s' x -> W Hrc Hl. by apply HQ.
Qed.
End Write.

(** ** The invariant *)

(** Machine frame [m] is guest frame [g]'s. *)
Definition owned s (g m : Z) : Prop :=
  0 <= m /\ m2p (gdm s) !! m = Some g /\
  exists p r, frame_table s !! m = Some p /\ owner p = own_dom /\ held r p.

Definition entry_ok s (g : Z) (x : Z * p2m_type * p2m_access) : Prop :=
  own_ram x.1.2 = true ->
  if mfn_valid cfg x.1.1 then x.1.2 <> p2m_ram_paged /\ owned s g x.1.1
  else hole_type x.1.2 = true /\ x.1.1 = hole_mfn.

(** Guest memory without a machine frame. *)
Definition frameless (x : Z * p2m_type * p2m_access) : bool :=
  hole_type x.1.2 && negb (mfn_valid cfg x.1.1).

Definition count_ok s : Prop :=
  exists X : gset Z, (forall g, g ∈ X <-> 0 <= g /\ frameless (glook s g) = true) /\
    paged_pages s = Z.of_nat (size X).

Definition heap_valid s : Prop := forall m, m ∈ heap_list s -> 0 <= m /\ mfn_valid cfg m = true.

Record paging_inv s : Prop := mkPi {
  pi_tables : tables_ok s;
  pi_entries : forall g, 0 <= g -> entry_ok s g (glook s g);
  pi_heap : heap_ok s;
  pi_valid : heap_valid s;
  pi_count : count_ok s
}.

Definition b2z (b : bool) : Z := if b then 1 else 0.

(** The count when the entry of one guest frame changes. *)
Lemma count_update s s' gfn :
  count_ok s -> 0 <= gfn ->
  (forall g, 0 <= g -> g <> gfn -> frameless (glook s' g) = frameless (glook s g)) ->
  paged_pages s' = paged_pages s + b2z (frameless (glook s' gfn)) - b2z (frameless (glook s gfn)) ->
  count_ok s'.
Proof.
  intros (X & HX & Hc) Hg Hsame Hp.
  assert (Hin : gfn ∈ X <-> frameless (glook s gfn) = true) by (rewrite HX; tauto).
  exists (if frameless (glook s' gfn) then {[gfn]} ∪ X else X ∖ {[gfn]}). split.
  - intros g. destruct (decide (g = gfn)) as [->|Hne].
    + destruct (frameless (glook s' gfn)); set_solver.
    + transitivity (g ∈ X); [destruct (frameless (glook s' gfn)); set_solver|]. rewrite HX.
      split; intros [Hz Hw]; (split; [done|]); [by rewrite Hsame|by rewrite <- Hsame].
  - rewrite Hp, Hc. unfold b2z. destruct (frameless (glook s' gfn)), (frameless (glook s gfn)).
    + rewrite subseteq_union_1_L by (apply singleton_subseteq_l; tauto). lia.
    + rewrite size_union, size_singleton by (apply disjoint_singleton_l; rewrite Hin; done). lia.
    + rewrite size_difference, size_singleton by (apply singleton_subseteq_l; tauto).
      assert (size ({[gfn]} : gset Z) <= size X)%nat by (apply subseteq_size, singleton_subseteq_l; tauto).
      rewrite size_singleton in *. lia.
    + rewrite difference_disjoint_L by (apply disjoint_singleton_r; rewrite Hin; done). lia.
Qed.

(** The entry of one guest frame changes, with the frame behind it. *)
Lemma inv_update s s' gfn :
  paging_inv s -> 0 <= gfn -> tables_ok s' ->
  (forall g, 0 <= g -> g <> gfn -> glook s' g = glook s g) ->
  entry_ok s' gfn (glook s' gfn) ->
  (forall g m, g <> gfn -> owned s g m -> owned s' g m) ->
  heap_ok s' -> heap_valid s' ->
  paged_pages s' = paged_pages s + b2z (frameless (glook s' gfn)) - b2z (frameless (glook s gfn)) ->
  paging_inv s'.
Proof.
  intros I Hg Ht Hsame He Ho Hh Hv Hp. split; [done| |done|done|].
  2: { eapply count_update; [apply I|done| |done]. intros g Hg0 Hne. by rewrite Hsame. }
  intros g Hg0. destruct (decide (g = gfn)) as [->|Hne]; [done|]. rewrite Hsame by done.
  intros Hram. pose proof (pi_entries s I g Hg0 Hram) as E. destruct (mfn_valid cfg _); [|done].
  split; [apply E|]. apply Ho; [done|apply E].
Qed.

Lemma owned_written s s' g m : written s s' -> owned s g m -> owned s' g m.
Proof. intros (_ & d' & -> & Em & _) (Ho1 & Ho2 & Ho3). split; [done|]. split; [|done]. cbn. by rewrite Em. Qed.

Lemma entry_ok_written s s' g x : written s s' -> entry_ok s g x -> entry_ok s' g x.
Proof.
  intros W E Hr. specialize (E Hr). destruct (mfn_valid cfg x.1.1); [|done].
  split; [apply E|]. by eapply owned_written, E.
Qed.

(** An update of one entry that leaves the frames and the count. *)
Lemma inv_written s s' gfn m ty a rc :
  paging_inv s -> 0 <= gfn -> written s s' ->
  (forall g, 0 <= g -> glook s' g = if bool_decide (rc = 0 /\ g = gfn) then (shown m, ty, a) else glook s g) ->
  entry_ok s gfn (shown m, ty, a) -> frameless (shown m, ty, a) = frameless (glook s gfn) ->
  paging_inv s'.
Proof.
  intros I Hg W Hl He Hf. pose proof W as (Ht & d' & Es & _). apply (inv_update s s' gfn); try done.
  - intros g Hg0 Hne. rewrite Hl by done. by rewrite bool_decide_false by tauto.
  - rewrite Hl by done. case_bool_decide; eapply entry_ok_written; try done. by apply I.
  - intros g m0 _. by apply owned_written.
  - rewrite Es. apply I.
  - rewrite Es. apply I.
  - rewrite Hl by done. rewrite Es. change (paged_pages (set_gdm d' s)) with (paged_pages s).
    case_bool_decide; [rewrite Hf|]; lia.
Qed.

(** A frame that is free backs no guest memory. *)
Lemma free_not_owned s g m : heap_ok s -> m ∈ heap_list s -> ~ owned s g m.
Proof.
  intros [_ Hh] Hm (_ & _ & p & r & Ep & Eo & _). destruct (Hh m Hm) as (p' & Ep' & _ & Eo'). congruence.
Qed.
Lemma owned_unique s g g' m : owned s g m -> owned s g' m -> g = g'.
Proof. intros (_ & E1 & _) (_ & E2 & _). congruence. Qed.
End Paging.
