(* ===== verification/PagingOps.v ===== *)
(** * The operations of paging (theorems about Paging.v)

    Each operation from a state with the invariant of PagingProofs.v: its
    result, the entries afterwards, the frames and the counter, on every
    branch. *)

From S2P Require Import Prelude Monad P2m P2mProofs Altp2m Altp2mProofs Altp2mSwitch Altp2mInv Altp2mTables.
From S2P Require Import VmEvent VmEventProofs VmEventFrame MemAccess MemAccessProofs NestedFault.
From S2P Require Import Frames FramesProofs Physmap Paging PagingProofs.

(** ** Changes of the map *)

Section Maps.
Context {T : Type} `{P2MTable T}.
Implicit Types (s : pgd T).

(** The entry of [gfn] became [x], the others are the same. *)
Definition map_set s (gfn : Z) (x : Z * p2m_type * p2m_access) s' : Prop :=
  forall g, 0 <= g -> glook s' g = if decide (g = gfn) then x else glook s g.
Definition same_map s s' : Prop := forall g, 0 <= g -> glook s' g = glook s g.

Lemma set_cases s s' gfn x (rc : Z) :
  (forall g, 0 <= g -> glook s' g = if bool_decide (rc = 0 /\ g = gfn) then x else glook s g) ->
  (rc = 0 /\ map_set s gfn x s') \/ (rc <> 0 /\ same_map s s').
Proof.
  intros Hl. destruct (decide (rc = 0)) as [->|Hrc]; [left|right]; (split; [done|]); intros g Hg; rewrite Hl by done.
  - destruct (decide (g = gfn)); [by rewrite bool_decide_true|rewrite bool_decide_false; [done|by intros [_ ?]]].
  - rewrite bool_decide_false; [done|by intros [? _]].
Qed.
End Maps.

Section Ops.
Context {T : Type} `{P2MPagingLaws T}.
Context (cfg : p2m_config) (plat : platform).
Context (mem_sharing_unshare_page : T -> Z -> T) (zero : T) (mask_ok : Z -> bool).
Context (scrubbed : Z) (cacheattr_ok log_dirty : bool).
Context (R : paging_rules cfg).
Local Abbreviation G := (pgd T).
Local Abbreviation paging_inv := (paging_inv cfg plat).
Local Abbreviation tables_ok := (tables_ok plat).
Local Abbreviation written := (written plat).
Local Abbreviation entry_ok := (entry_ok cfg).
Local Abbreviation frameless := (frameless cfg).
Implicit Types (s : G).

Lemma shown_valid m : mfn_valid cfg m = true -> shown m = m.
Proof.
  intros Hv. unfold shown. destruct (Z.eqb_spec m INVALID_MFN) as [->|]; [|done].
  by rewrite (invalid_not_valid cfg R) in Hv.
Qed.

(** ** Nomination *)

Lemma wp_nominate s gfn :
  paging_inv s -> 0 <= gfn ->
  wp (p2m_mem_paging_nominate cfg plat mem_sharing_unshare_page zero mask_ok gfn)
    (fun rc s' => paging_inv s' /\
       ((exists m ty a, glook s gfn = (m, ty, a) /\ p2m_is_pageable ty = true /\ rc = 0 /\
           map_set s gfn (m, p2m_ram_paging_out, a) s') \/
        (rc < 0 /\ same_map s s'))) s.
Proof.
  intros I Hg. unfold p2m_mem_paging_nominate. apply wp_bind, (wp_entry plat); [apply I|]. intros e El. cbv zeta.
  assert (Hbusy : wp (ret (- EBUSY)) (fun rc s' => paging_inv s' /\
    ((exists m ty a, glook s gfn = (m, ty, a) /\ p2m_is_pageable ty = true /\ rc = 0 /\
       map_set s gfn (m, p2m_ram_paging_out, a) s') \/ (rc < 0 /\ same_map s s'))) s)
    by (apply wp_ret; split; [done|by right]).
  destruct (mfn_valid cfg (e_mfn e)) eqn:Hv; [|exact Hbusy].
  destruct (p2m_is_pageable (e_type e)) eqn:Ht; [|exact Hbusy]. cbn [negb].
  pose proof (pi_entries _ _ _ I gfn Hg) as Eo. rewrite El in Eo. unfold PagingProofs.entry_ok in Eo. cbn in Eo.
  rewrite Hv in Eo. destruct (Eo ltac:(by destruct (e_type e))) as (_ & Hown). clear Eo.
  pose proof Hown as (Hm & Hmp & p & r & Ep & Epo & Hheld & Hr).
  unfold is_iomem_page. rewrite Hv. cbn [negb]. apply wp_bind, wp_bind. eapply wp_frame_get; [done|].
  apply wp_bind, wp_bug_on; [rewrite count_mask, Hheld, low_part by (done || lia); zcases; lia|].
  rewrite Epo. apply wp_ret. cbn. apply wp_bind. eapply wp_frame_get; [done|].
  destruct (used_by 1 p); [|exact Hbusy]. cbn [negb].
  eapply (wp_set_4k cfg plat R); [apply I|done|by left|]. intros rc s' W Hrc Hl.
  rewrite (shown_valid _ Hv) in Hl. split.
  - apply (inv_written cfg plat R s s' gfn (e_mfn e) p2m_ram_paging_out (e_access e) rc I Hg W).
    + by rewrite (shown_valid _ Hv).
    + rewrite (shown_valid _ Hv). intros _. cbn. rewrite Hv. done.
    + rewrite (shown_valid _ Hv), El. unfold PagingProofs.frameless. cbn. by rewrite Hv, andb_false_r.
  - destruct (set_cases _ _ _ _ _ Hl) as [[-> Hs]|[Hne Hs]]; [left|right; split; [lia|done]].
    by exists (e_mfn e), (e_type e), (e_access e).
Qed.

(** ** Eviction *)

(** The frame behind [gfn] went to the heap; the entry was updated if the
    table allowed it. *)
Record evicted s (gfn m : Z) (a : p2m_access) (rc : Z) s' : Prop := mkEvicted {
  ev_tables : tables_ok s';
  ev_map : forall g, 0 <= g ->
    glook s' g = if bool_decide (rc = 0 /\ g = gfn) then (hole_mfn, p2m_ram_paged, a) else glook s g;
  ev_frame : exists p', frame_table s' = <[m := p']> (frame_table s) /\
               count_info p' = PGC_state_free /\ owner p' = own_none;
  ev_heap : heap_list s' = m :: heap_list s;
  ev_m2p : m2p (gdm s') = <[m := INVALID_M2P_ENTRY]> (m2p (gdm s));
  ev_paged : paged_pages s' = paged_pages s + 1
}.

Lemma put_frame_id m p s : frame_table s !! m = Some p -> put_frame m p s = s.
Proof. intros E. destruct s. unfold put_frame, set. cbn in *. by rewrite insert_id. Qed.
Lemma put_frame_put m p p' s : put_frame m p (put_frame m p' s) = put_frame m p s.
Proof. destruct s. unfold put_frame, set. cbn. by rewrite insert_insert_eq. Qed.

Lemma glook_dom s s' : hostp2m (gdm s') = hostp2m (gdm s) -> same_map s s'.
Proof. intros E g _. unfold glook. by rewrite E. Qed.

Lemma tables_m2p s s' f :
  tables_ok s -> gdm s' = (gdm s) <| m2p ::= f |> -> tables_ok s' /\ same_map s s'.
Proof.
  intros (I & h & Hh & Ht) E. split; [|apply glook_dom; by rewrite E].
  split; [|rewrite E; by exists h]. rewrite E. eapply (quiet_inv plat); [exact I|].
  split; [apply (evolves_m2p plat)|done].
Qed.

(** From the frame that has only the references of its mapping and of this
    call to the frame in the heap. *)
Lemma wp_release_frame s gfn m p a Q :
  tables_ok s -> 0 <= gfn -> frame_table s !! m = Some p -> owner p = own_dom ->
  count_info p = PGC_allocated + 2 -> Z.land (type_info p) PGT_count_mask = 0 ->
  (forall rc s', rc <= 0 -> evicted s gfn m a rc s' -> Q rc s') ->
  wp (bind (bind (test_and_clear_allocated m) (fun was : bool =>
        bind (when was (put_page scrubbed cacheattr_ok m)) (fun _ =>
        bind (on_gdom (host_set_entry cfg plat mem_sharing_unshare_page zero mask_ok gfn INVALID_MFN
                PAGE_ORDER_4K p2m_ram_paged a (-1))) (fun rc =>
        bind (scrub_one_page scrubbed m) (fun _ =>
        bind (modify (fun s : G => s <| paged_pages ::= Z.add 1 |>)) (fun _ => ret rc))))))
      (fun rc => bind (put_page scrubbed cacheattr_ok m) (fun _ => ret rc))) Q s.
Proof.
  intros Ht Hg Ep Eo Ec Ety HQ. unfold test_and_clear_allocated. apply wp_bind, wp_bind, wp_bind.
  eapply wp_frame_get; [done|]. apply wp_bind. eapply wp_frame_upd; [done|]. apply wp_ret.
  rewrite Ec, held_alloc_bit by (unfold CNT; lia). cbn [when]. apply wp_bind.
  set (p1 := p <| count_info ::= _ |>). set (s1 := put_frame m p1 s).
  assert (E1 : frame_table s1 !! m = Some p1) by apply lookup_insert_eq.
  assert (C1 : count_info p1 = 0 + 2) by (unfold p1; cbn; rewrite Ec; by apply held_clear_bit).
  eapply (wp_put_page_more _ _ s1 m p1 0 2); [done|done|done|done|unfold CNT; lia|done|].
  unfold s1. rewrite put_frame_put. set (p2 := p1 <| count_info := _ |>). apply wp_bind.
  eapply (wp_set_4k cfg plat R); [exact Ht|done|right; split; [by left|done]|]. intros rc s2 W Hrc Hl.
  pose proof W as (Ht2 & d' & E2 & Em & _). apply wp_bind. unfold scrub_one_page. apply wp_bind.
  assert (L2 : frame_table s2 !! m = Some p2) by (rewrite E2; apply lookup_insert_eq).
  eapply wp_frame_get; [exact L2|]. change (negb (Z.land (count_info p2) PGC_broken =? 0)) with false. cbv iota.
  eapply wp_frame_upd; [exact L2|]. apply wp_bind, wp_modify, wp_ret. apply wp_bind.
  set (p3 := p2 <| data := scrubbed |>). set (s3 := put_frame m p3 s2).
  eapply (wp_put_page_last _ _ (s3 <| paged_pages ::= Z.add 1 |>)); [apply lookup_insert_eq|by left|done|done|].
  intros s4 F _. apply wp_ret, HQ; [done|].
  destruct F as [(p' & F1 & F2) F3 F4 (F5 & _)].
  destruct (tables_m2p s2 s4 _ Ht2 F4) as [Ht4 Hsame]. split; [done|..].
  - intros g Hg0. rewrite Hsame, Hl by done. done.
  - exists p'. split; [|done]. rewrite F1. unfold s3, put_frame. rewrite E2. cbn. by rewrite !insert_insert_eq.
  - rewrite F3. unfold s3. by rewrite E2.
  - rewrite F4. unfold s3. rewrite E2. cbn. by rewrite Em.
  - rewrite F5. unfold s3. rewrite E2. cbn. lia.
Qed.

Lemma wp_evict s gfn :
  paging_inv s -> 0 <= gfn ->
  wp (p2m_mem_paging_evict cfg plat mem_sharing_unshare_page zero mask_ok scrubbed cacheattr_ok gfn)
    (fun rc s' => (rc = - EBUSY /\ s' = s) \/
       exists m a, glook s gfn = (m, p2m_ram_paging_out, a) /\ owned s gfn m /\ mfn_valid cfg m = true /\
         rc <= 0 /\ evicted s gfn m a rc s' /\
         exists p, frame_table s !! m = Some p /\ count_info p = PGC_allocated + 1) s.
Proof.
  intros I Hg. unfold p2m_mem_paging_evict. apply wp_bind, (wp_entry plat); [apply I|]. intros e El. cbv zeta.
  destruct (mfn_valid cfg (e_mfn e)) eqn:Hv; [cbn [negb]|by apply wp_ret; left].
  case_bool_decide as Hty; cbn [negb]; [|by apply wp_ret; left].
  pose proof (pi_entries _ _ _ I gfn Hg) as Eo. rewrite El in Eo. unfold PagingProofs.entry_ok in Eo. cbn in Eo.
  rewrite Hv, Hty in Eo. destruct (Eo eq_refl) as (_ & Hown). clear Eo. rewrite Hty in El.
  pose proof Hown as (Hm & Hmp & p & r & Ep & Epo & Hheld & Hr).
  apply wp_bind. eapply wp_get_page; [done|done|by split|intros _; by apply wp_ret; left|]. intros Hr2. cbn [negb].
  set (m := e_mfn e) in *. set (p1 := p <| count_info := _ |>). set (s1 := put_frame m p1 s).
  assert (E1 : frame_table s1 !! m = Some p1) by apply lookup_insert_eq.
  apply wp_bind. eapply wp_frame_get; [exact E1|].
  assert (C1 : count_info p1 = PGC_allocated + (r + 1)) by done.
  unfold used_by. rewrite C1, held_land by (unfold CNT in *; lia).
  destruct ((r + 1 =? 2) && (Z.land (type_info p1) PGT_count_mask =? 0)) eqn:Eu; cbn [negb].
  - apply andb_true_iff in Eu as [Eu1 Eu2]. zbool. eapply (wp_release_frame s1 gfn m p1); try done.
    + apply I.
    + rewrite C1. lia.
    + intros rc s' Hrc [V1 V2 (p' & V3 & V4) V5 V6 V7]. right. exists m, (e_access e). split; [done|].
      split; [done|]. split; [done|]. split; [done|]. split; [|exists p; split; [done|]; rewrite Hheld; lia].
      split; try done. exists p'. split; [|done]. rewrite V3. unfold s1, put_frame. cbn. by rewrite insert_insert_eq.
  - apply wp_bind, wp_ret, wp_bind.
    eapply (wp_put_page_more _ _ s1 m p1 PGC_allocated (r + 1)); [done|done|done|done|unfold CNT in *; lia| |].
    { change PGC_allocated with (2 ^ 63). unfold CNT in *. lia. }
    apply wp_ret. left. split; [done|]. unfold s1. rewrite put_frame_put. apply put_frame_id.
    rewrite Ep. f_equal. destruct p. unfold p1, set. cbn in *. f_equal. lia.
Qed.

(** A frame that somebody else holds stays. *)
Lemma wp_evict_busy s gfn m p r :
  paging_inv s -> 0 <= gfn -> (glook s gfn).1.1 = m -> frame_table s !! m = Some p ->
  count_info p = PGC_allocated + r -> r <> 1 ->
  wp (p2m_mem_paging_evict cfg plat mem_sharing_unshare_page zero mask_ok scrubbed cacheattr_ok gfn)
    (fun rc s' => rc = - EBUSY /\ s' = s) s.
Proof.
  intros I Hg El Ep Ec Hr. eapply wp_mono; [by apply wp_evict|].
  intros rc s' [Hb|(m' & a & El' & _ & _ & _ & _ & p' & Ep' & Ec')]; [done|]. rewrite El' in El. cbn in El. subst m'.
  simplify_eq. lia.
Qed.

(** Changes to another frame. *)
Lemma owned_other s s' g m m' p' x :
  m' <> m -> frame_table s' = <[m := p']> (frame_table s) -> m2p (gdm s') = <[m := x]> (m2p (gdm s)) ->
  owned s g m' -> owned s' g m'.
Proof.
  intros Hne E1 E2 (O1 & O2 & O3). split; [done|]. split; [by rewrite E2, lookup_insert_ne|].
  by rewrite E1, lookup_insert_ne.
Qed.

Lemma heap_grown s s' m p' :
  heap_ok s -> frame_table s' = <[m := p']> (frame_table s) -> count_info p' = PGC_state_free -> owner p' = own_none ->
  heap_list s' = m :: heap_list s -> (m ∉ heap_list s) -> heap_ok s'.
Proof.
  intros [Hn Hh] E Ec Eo El Hm. split; [rewrite El; by constructor|]. intros x Hx. rewrite E.
  destruct (decide (x = m)) as [->|Hd]; [rewrite lookup_insert_eq; eauto|]. rewrite lookup_insert_ne by done.
  apply Hh. rewrite El in Hx. by apply elem_of_cons in Hx as [->|Hx].
Qed.

Lemma evicted_inv s gfn m a s' :
  paging_inv s -> 0 <= gfn -> glook s gfn = (m, p2m_ram_paging_out, a) -> owned s gfn m ->
  mfn_valid cfg m = true -> evicted s gfn m a 0 s' ->
  paging_inv s' /\ map_set s gfn (hole_mfn, p2m_ram_paged, a) s'.
Proof.
  intros I Hg El Hown Hv [V1 V2 (p' & V3 & V4 & V5) V6 V7 V8].
  assert (Hs : map_set s gfn (hole_mfn, p2m_ram_paged, a) s') by (by destruct (set_cases _ _ _ _ _ V2) as [[_ ?]|[? _]]).
  split; [|done]. assert (Hnh : m ∉ heap_list s) by (intros Hin; by destruct (free_not_owned s gfn m (pi_heap _ _ _ I) Hin)).
  assert (Hgfn : glook s' gfn = (hole_mfn, p2m_ram_paged, a)) by (rewrite Hs by done; by destruct (decide _)).
  apply (inv_update cfg plat R s s' gfn I Hg V1).
  - intros g Hg0 Hne. rewrite Hs by done. by destruct (decide _).
  - rewrite Hgfn. intros _. cbn. by rewrite (pr_hole _ R).
  - intros g m' Hne Ho. destruct (decide (m' = m)) as [->|Hd]; [by destruct Hne; eapply owned_unique|].
    by apply (owned_other s s' g m m' p' INVALID_M2P_ENTRY).
  - apply (heap_grown s s' m p'); [apply I|done..].
  - intros x Hx. rewrite V6 in Hx. apply elem_of_cons in Hx as [->|Hx]; [split; [apply Hown|done]|]. by apply I.
  - rewrite Hgfn, El, V8. unfold PagingProofs.frameless. cbn. rewrite (pr_hole _ R). cbn. lia.
Qed.

(** ** Bringing a frame back *)

Definition ram_type : p2m_type := if log_dirty then p2m_ram_logdirty else p2m_ram_rw.

(** A new frame with the pager's contents was put behind [gfn], if the table
    allowed the update. *)
Record refilled s (gfn m : Z) (a : p2m_access) (bytes rc : Z) s' : Prop := mkRefilled {
  rf_tables : tables_ok s';
  rf_map : forall g, 0 <= g ->
    glook s' g = if bool_decide (rc = 0 /\ g = gfn) then (m, ram_type, a) else glook s g;
  rf_frame : exists p', frame_table s' = <[m := p']> (frame_table s) /\
               held 1 p' /\ owner p' = own_dom /\ data p' = bytes;
  rf_heap : heap_list s = m :: heap_list s';
  rf_m2p : m2p (gdm s') = <[m := gfn]> (m2p (gdm s));
  rf_paged : paged_pages s' = paged_pages s - 1
}.

Lemma m2p_same s m g : m2p (gdm s) !! m = Some g -> set_gdm ((gdm s) <| m2p ::= <[m := g]> |>) s = s.
Proof. intros E. destruct s as [[[]]]. unfold set_gdm, gdm, set in *. cbn in *. by rewrite insert_id. Qed.

(** prep_frame() when the entry has no frame. *)
Lemma wp_prep_new s e buffer pb Q :
  paging_inv s -> mfn_valid cfg (e_mfn e) = false -> buffer <> 0 ->
  (forall rc s', rc < 0 -> recycled s s' -> Q (inl rc) s') ->
  (forall m s1 p1 bytes, pb_copy pb = inr bytes -> taken m s s1 -> can_alloc s -> mfn_valid cfg m = true ->
     frame_table s1 !! m = Some p1 -> held 1 p1 -> owner p1 = own_dom ->
     Q (inr (m, false)) (put_frame m (p1 <| data := bytes |>) s1)) ->
  wp (prep_frame cfg scrubbed cacheattr_ok e buffer pb) Q s.
Proof.
  intros I Hv Hb Hfail Hok. unfold prep_frame. rewrite Hv, (proj2 (Z.eqb_neq _ _) Hb). apply wp_bind.
  apply wp_alloc_domheap_page; [apply I|intros s' _ Hr; by apply wp_ret, Hfail|]. intros m s1 Hc Tk.
  pose proof Tk as [(p1 & K1 & K2 & K3 & K4) K5 K6 K7].
  assert (Hmv : 0 <= m /\ mfn_valid cfg m = true) by (apply (pi_valid _ _ _ I); rewrite K5; left).
  apply wp_bind, wp_bug_on; [by rewrite (proj2 Hmv)|].
  assert (L1 : frame_table s1 !! m = Some p1) by (rewrite K1; apply lookup_insert_eq).
  destruct (pb_copy pb) as [left_|bytes] eqn:Ep.
  - apply wp_bind. destruct K2 as [K2 _].
    eapply wp_put_page_last; [exact L1|right; rewrite K2; lia|done|by rewrite K4|].
    intros s2 [(p2 & F1 & F2) F3 F4 F5] _. apply wp_ret, Hfail; [done|]. right. exists m.
    split; [rewrite K5; left|]. split; [by rewrite F3, K5|]. split.
    + destruct F5 as (B1 & B2 & B3 & B4), K7 as (C1 & C2 & C3 & C4). repeat split; congruence.
    + split; [by rewrite F4, K6|]. exists p2. split; [|done]. rewrite F1, K1. by rewrite insert_insert_eq.
  - apply wp_bind. eapply wp_frame_upd; [exact L1|]. apply wp_ret. apply Hok; try done. apply Hmv.
Qed.

(** The outcomes of p2m_mem_paging_prep(). *)
Inductive prepared s (gfn : Z) (rc : Z) s' : option Z -> Prop :=
  | prep_refused : rc < 0 -> recycled s s' -> prepared s gfn rc s' None
  | prep_extant m a : glook s gfn = (m, p2m_ram_paging_in, a) -> mfn_valid cfg m = true ->
      rc <= 0 -> paging_inv s' -> paged_pages s' = paged_pages s ->
      (rc = 0 /\ map_set s gfn (m, ram_type, a) s') \/ (rc <> 0 /\ same_map s s') ->
      prepared s gfn rc s' None
  | prep_new m a bytes : frameless (glook s gfn) = true -> (glook s gfn).2 = a -> rc <= 0 ->
      can_alloc s -> refilled s gfn m a bytes rc s' -> prepared s gfn rc s' (Some bytes).

Local Abbreviation prep_map := (prep_map cfg plat mem_sharing_unshare_page zero mask_ok log_dirty).

Lemma ram_backed : backed_type ram_type = true.
Proof. unfold ram_type. by destruct log_dirty. Qed.
Lemma ram_not_hole : hole_type ram_type = false /\ ram_type <> p2m_ram_paged.
Proof. unfold ram_type. by destruct log_dirty. Qed.

Lemma wp_prep_extant s gfn m a :
  paging_inv s -> 0 <= gfn -> glook s gfn = (m, p2m_ram_paging_in, a) -> mfn_valid cfg m = true ->
  owned s gfn m -> wp (prep_map gfn m a true) (fun rc s' => prepared s gfn rc s' None) s.
Proof.
  intros I Hg El Hv Hown. unfold Paging.prep_map. fold ram_type.
  apply wp_bind, (wp_set_4k cfg plat R); [apply I|done|left; split; [done|split; [apply Hown|apply ram_backed]]|].
  intros rc s' W Hrc Hl. rewrite (shown_valid _ Hv) in Hl.
  pose proof (owned_written plat s s' gfn _ W Hown) as (Hm & Hmp & p & r & Ep & Epo & Hh).
  apply wp_bind. eapply wp_set_gpfn; [done|by rewrite Epo|]. rewrite (m2p_same _ _ _ Hmp). cbn [negb when].
  apply wp_bind, wp_ret, wp_ret. eapply prep_extant; try done.
  - apply (inv_written cfg plat R s s' gfn m ram_type a rc I Hg W).
    + by rewrite (shown_valid _ Hv).
    + rewrite (shown_valid _ Hv). intros _. cbn. rewrite Hv. split; [apply ram_not_hole|done].
    + rewrite (shown_valid _ Hv), El. unfold PagingProofs.frameless. cbn. by rewrite Hv, !andb_false_r.
  - destruct W as (_ & d' & -> & _). done.
  - by apply set_cases.
Qed.

Lemma wp_prep_refill s gfn m a s1 p1 bytes :
  paging_inv s -> 0 <= gfn -> frameless (glook s gfn) = true -> (glook s gfn).2 = a -> taken m s s1 -> can_alloc s ->
  mfn_valid cfg m = true -> frame_table s1 !! m = Some p1 -> held 1 p1 -> owner p1 = own_dom ->
  wp (prep_map gfn m a false) (fun rc s' => prepared s gfn rc s' (Some bytes))
    (put_frame m (p1 <| data := bytes |>) s1).
Proof.
  intros I Hg Hf Ha Tk Hc Hmv L1 Hh1 Ho1. unfold Paging.prep_map. fold ram_type.
  set (p2 := p1 <| data := bytes |>). set (s2 := put_frame m p2 s1).
  pose proof Tk as [(p0 & K1 & K2 & K3 & K4) K5 K6 K7].
  assert (Ht2 : tables_ok s2) by (unfold PagingProofs.tables_ok; change (gdm s2) with (gdm s1); rewrite K6; apply I).
  assert (Hm : 0 <= m) by (apply (pi_valid _ _ _ I m); rewrite K5; left).
  apply wp_bind, (wp_set_4k cfg plat R); [done|done|left; split; [done|split; [done|apply ram_backed]]|].
  intros rc s3 W Hrc Hl. rewrite (shown_valid _ Hmv) in Hl. pose proof W as (Ht3 & d3 & E3 & Em3 & _).
  apply wp_bind. eapply (wp_set_gpfn s3 m p2); [rewrite E3; apply lookup_insert_eq|change (owner p1 <> own_cow); by rewrite Ho1|].
  cbn [negb when]. apply wp_bind, wp_modify, wp_ret. eapply (prep_new _ _ _ _ m a); [done..|].
  set (s4 := set_gdm _ s3). destruct (tables_m2p s3 s4 _ Ht3 eq_refl) as [Ht4 Hs4]. split.
  - exact Ht4.
  - intros g Hg0. change (glook (s4 <| paged_pages ::= Z.add (-1) |>) g) with (glook s4 g).
    rewrite Hs4, Hl by done. case_bool_decide; [done|]. unfold glook. change (gdm s2) with (gdm s1). by rewrite K6.
  - exists p2. split; [|done]. cbn. rewrite E3. cbn. unfold s2, put_frame. cbn. rewrite K1. by rewrite insert_insert_eq.
  - rewrite K5. cbn. by rewrite E3.
  - cbn. rewrite E3. cbn. rewrite Em3. change (gdm s2) with (gdm s1). by rewrite K6.
  - cbn. rewrite E3. cbn. destruct K7 as (B1 & _). unfold s2, put_frame. cbn. rewrite B1. lia.
Qed.

Lemma wp_prep s gfn buffer pb :
  paging_inv s -> 0 <= gfn ->
  wp (p2m_mem_paging_prep cfg plat mem_sharing_unshare_page zero mask_ok scrubbed cacheattr_ok log_dirty
        gfn buffer pb)
    (fun rc s' => exists o, prepared s gfn rc s' o /\ forall b, o = Some b -> pb_copy pb = inr b) s.
Proof.
  intros I Hg. unfold p2m_mem_paging_prep.
  assert (Hno : forall rc s', rc < 0 -> recycled s s' ->
    exists o, prepared s gfn rc s' o /\ forall b, o = Some b -> pb_copy pb = inr b)
    by (intros rc s' Hrc Hr; exists None; split; [by apply prep_refused|done]).
  destruct (_ && _) eqn:Eb; [apply wp_ret, Hno; [done|by left]|].
  apply wp_bind, (wp_entry plat); [apply I|]. intros e El.
  case_bool_decide as Hty; [apply wp_ret, Hno; [done|by left]|].
  assert (Hty' : hole_type (e_type e) = true).
  { destruct (decide (e_type e = p2m_ram_paging_in)) as [->|]; [done|].
    destruct (decide (e_type e = p2m_ram_paged)) as [->|]; [done|]. tauto. }
  pose proof (pi_entries _ _ _ I gfn Hg) as Eo. rewrite El in Eo. unfold PagingProofs.entry_ok in Eo. cbn in Eo.
  apply wp_bind. destruct (mfn_valid cfg (e_mfn e)) eqn:Hv.
  - unfold prep_frame. rewrite Hv. apply wp_ret.
    destruct (Eo ltac:(by destruct (e_type e))) as (Hnp & Hown).
    assert (Et : e_type e = p2m_ram_paging_in) by (by destruct (e_type e)). rewrite Et in El.
    eapply wp_mono; [by apply wp_prep_extant|]. intros rc s' Hp. by exists None.
  - destruct (decide (buffer = 0)) as [->|Hb].
    { unfold prep_frame. rewrite Hv. apply wp_ret, wp_ret, Hno; [done|by left]. }
    apply wp_prep_new; [done|done|done|intros rc s' Hrc Hr; by apply wp_ret, Hno|].
    intros m s1 p1 bytes Epb Tk Hc Hmv L1 Hh1 Ho1. eapply wp_mono.
    { apply (wp_prep_refill s gfn m (e_access e) s1 p1 bytes); try done; rewrite El; [|done].
      unfold PagingProofs.frameless. cbn. by rewrite Hty', Hv. }
    intros rc s' Hp. exists (Some bytes). split; [done|]. by intros b [= <-].
Qed.

(** Frames that went round the heap are nobody's. *)
Lemma recycled_inv s s' : paging_inv s -> recycled s s' -> paging_inv s' /\ same_map s s'.
Proof.
  intros I Hrec. pose proof (heap_recycled s s' (pi_heap _ _ _ I) Hrec) as Hh.
  destruct Hrec as [->|(m & Hm & E1 & (E2 & _) & E3 & p' & E4 & _)]; [split; [done|by intros g]|].
  destruct (tables_m2p s s' _ (pi_tables _ _ _ I) E3) as [Ht Hs]. split; [|done].
  assert (Ho : forall g x, owned s g x -> owned s' g x).
  { intros g x Hx. apply (owned_other s s' g m x p' INVALID_M2P_ENTRY); [|done|by rewrite E3|done].
    intros ->. by eapply free_not_owned in Hx; [..|exact Hm]; [|apply I]. }
  apply (inv_update cfg plat R s s' 0 I); try done.
  - intros g Hg _. by apply Hs.
  - rewrite Hs by done. intros Hr. pose proof (pi_entries _ _ _ I 0 ltac:(done) Hr) as Eo.
    destruct (mfn_valid cfg _); [|done]. split; [apply Eo|apply Ho, Eo].
  - intros g x _. apply Ho.
  - intros x. rewrite E1. apply I.
  - rewrite Hs by done. lia.
Qed.

Lemma refilled_inv s gfn m a bytes s' :
  paging_inv s -> 0 <= gfn -> frameless (glook s gfn) = true -> refilled s gfn m a bytes 0 s' ->
  paging_inv s' /\ map_set s gfn (m, ram_type, a) s'.
Proof.
  intros I Hg Hf [V1 V2 (p' & V3 & V4 & V5 & V6) V7 V8 V9].
  assert (Hs : map_set s gfn (m, ram_type, a) s') by (by destruct (set_cases _ _ _ _ _ V2) as [[_ ?]|[? _]]).
  split; [|done]. assert (Hm : m ∈ heap_list s) by (rewrite V7; left).
  assert (Hgfn : glook s' gfn = (m, ram_type, a)) by (rewrite Hs by done; by destruct (decide _)).
  destruct (pi_valid _ _ _ I m Hm) as [Hm0 Hmv].
  assert (Hn : m ∉ heap_list s') by (destruct (pi_heap _ _ _ I) as [Hn _]; rewrite V7 in Hn; by apply NoDup_cons in Hn as [? _]).
  apply (inv_update cfg plat R s s' gfn I Hg V1).
  - intros g Hg0 Hne. rewrite Hs by done. by destruct (decide _).
  - rewrite Hgfn. intros _. cbn. rewrite Hmv. split; [apply ram_not_hole|]. split; [done|].
    split; [by rewrite V8, lookup_insert_eq|]. exists p', 1. by rewrite V3, lookup_insert_eq.
  - intros g x _ Hx. apply (owned_other s s' g m x p' gfn); [|done..]. intros ->.
    by eapply free_not_owned in Hx; [..|exact Hm]; [|apply I].
  - destruct (pi_heap _ _ _ I) as [Hnd Hh]. rewrite V7 in Hnd. apply NoDup_cons in Hnd as [_ Hnd].
    split; [done|]. intros x Hx. rewrite V3, lookup_insert_ne by (intros ->; done). apply Hh. rewrite V7. by right.
  - intros x Hx. apply I. rewrite V7. by right.
  - rewrite Hgfn, Hf, V9. unfold PagingProofs.frameless. cbn. rewrite Hmv, andb_false_r. cbn. lia.
Qed.

(** ** The end of the way *)

Lemma wp_on_gdom_bind {A B} (m : M (domain T) A) (k : A -> M (domain T) B) s Q :
  wp (on_gdom m) (fun a s' => wp (on_gdom (k a)) Q s') s -> wp (on_gdom (bind m k)) Q s.
Proof.
  unfold wp, on_gdom, on_gst, on_dom, bind. change (dm (gst s)) with (gdm s). destruct (m (gdm s)) as [[a d]|]; [|done].
  cbn. by destruct (k a d) as [[b d']|].
Qed.

Lemma wp_resume s rsp :
  paging_inv s -> 0 <= ma_req_gfn rsp ->
  wp (on_gdom (p2m_mem_paging_resume cfg plat mem_sharing_unshare_page zero mask_ok log_dirty rsp))
    (fun _ s' => paging_inv s' /\ paged_pages s' = paged_pages s /\
       (same_map s s' \/
        exists m a, glook s (ma_req_gfn rsp) = (m, p2m_ram_paging_in, a) /\ mfn_valid cfg m = true /\
          map_set s (ma_req_gfn rsp) (m, ram_type, a) s')) s.
Proof.
  intros I Hg. unfold p2m_mem_paging_resume. fold ram_type. set (gfn := ma_req_gfn rsp) in *.
  assert (Hsame : wp (on_gdom (ret tt)) (fun _ s' => paging_inv s' /\ paged_pages s' = paged_pages s /\
    (same_map s s' \/ exists m a, glook s gfn = (m, p2m_ram_paging_in, a) /\ mfn_valid cfg m = true /\
       map_set s gfn (m, ram_type, a) s')) s).
  { apply wp_on_gdom, wp_ret. replace (set_gdm (gdm s) s) with s by (unfold set_gdm, gdm, set; destruct s as [[]]; done).
    split; [done|]. split; [done|]. left. by intros g. }
  destruct (Z.land _ _ =? 0); [cbn [when]|exact Hsame]. apply wp_on_gdom_bind.
  apply (wp_entry plat s gfn); [apply I|]. intros e El.
  destruct (mfn_valid cfg (e_mfn e)) eqn:Hv; [|exact Hsame]. case_bool_decide as Et; [|exact Hsame]. cbn [andb when].
  pose proof (pi_entries _ _ _ I gfn Hg) as Eo. rewrite El in Eo. unfold PagingProofs.entry_ok in Eo. cbn in Eo.
  rewrite Hv, Et in Eo. destruct (Eo eq_refl) as (_ & Hown). clear Eo. rewrite Et in El.
  apply wp_on_gdom_bind, (wp_set_4k cfg plat R); [apply I|done|left; split; [done|split; [apply Hown|apply ram_backed]]|].
  intros rc s' W Hrc Hl. rewrite (shown_valid _ Hv) in Hl. apply wp_on_gdom, wp_modify.
  pose proof (owned_written plat s s' gfn _ W Hown) as (Hm & Hmp & _). rewrite (m2p_same _ _ _ Hmp). split; [|split].
  - apply (inv_written cfg plat R s s' gfn (e_mfn e) ram_type (e_access e) rc I Hg W).
    + by rewrite (shown_valid _ Hv).
    + rewrite (shown_valid _ Hv). intros _. cbn. rewrite Hv. split; [apply ram_not_hole|done].
    + rewrite (shown_valid _ Hv), El. unfold PagingProofs.frameless. cbn. by rewrite Hv, !andb_false_r.
  - destruct W as (_ & d' & -> & _). done.
  - destruct (set_cases _ _ _ _ _ Hl) as [[_ Hs]|[_ Hs]]; [|by left]. right. by exists (e_mfn e), (e_access e).
Qed.
End Ops.
