(* ===== verification/PagingSystem.v ===== *)
(** * Paging as a system

    The pager's calls, requests for paged-out memory by anyone, responses of
    the pager, and in between other users of the guest's frames: as a step
    relation on the state of Frames.v.  The life of a guest frame is the
    abstract machine [life]; every step of the code is a step of it. *)

From S2P Require Import Prelude Monad P2m P2mProofs Altp2m Altp2mProofs Altp2mSwitch Altp2mInv Altp2mTables.
From S2P Require Import VmEvent VmEventProofs VmEventFrame MemAccess MemAccessProofs NestedFault.
From S2P Require Import Frames FramesProofs Physmap Paging PagingProofs PagingOps.

(** ** The specification: the life of a guest frame *)

(** Where the contents of a guest frame are: in a machine frame, on the way
    out, with the pager, or on the way back (with a frame if it was not
    evicted before it was wanted again); or the frame is none of paging's
    business. *)
Inductive page_state :=
  | resident (m : Z) | going (m : Z) | gone | coming (m : option Z) | elsewhere.

Inductive pager_op := Nominate | Evict | Populate | Prep | Resume | Other.

Inductive life : pager_op -> page_state -> page_state -> Prop :=
  | life_nominate m : life Nominate (resident m) (going m)
  | life_evict m : life Evict (going m) gone
  | life_wanted_early m : life Populate (going m) (coming (Some m))
  | life_wanted : life Populate gone (coming None)
  | life_kept m : life Prep (coming (Some m)) (resident m)
  | life_refill m : life Prep (coming None) (resident m)
  | life_refill_unasked m : life Prep gone (resident m)
  | life_resume m : life Resume (coming (Some m)) (resident m).

Section System.
Context {T : Type} `{P2MPagingLaws T}.
Context (cfg : p2m_config) (plat : platform).
Context (mem_sharing_unshare_page : T -> Z -> T) (zero : T) (mask_ok : Z -> bool).
Context (scrubbed : Z) (cacheattr_ok log_dirty : bool).
Context (R : paging_rules cfg).
Local Abbreviation G := (pgd T).
Local Abbreviation paging_inv := (paging_inv cfg plat).
Implicit Types (s : G).

Definition state_of (x : Z * p2m_type * p2m_access) : page_state :=
  match x.1.2 with
  | p2m_ram_rw | p2m_ram_logdirty => resident x.1.1
  | p2m_ram_paging_out => going x.1.1
  | p2m_ram_paged => gone
  | p2m_ram_paging_in => coming (if mfn_valid cfg x.1.1 then Some x.1.1 else None)
  | _ => elsewhere
  end.

(** The step moved at most guest frame [gfn], as [op] may, and no access
    right. *)
Definition obeys (op : pager_op) (gfn : Z) s s' : Prop :=
  forall g, 0 <= g ->
    glook s' g = glook s g \/
    (g = gfn /\ life op (state_of (glook s g)) (state_of (glook s' g)) /\ (glook s' g).2 = (glook s g).2).

Lemma obeys_same op gfn s s' : same_map s s' -> obeys op gfn s s'.
Proof. intros Hs g Hg. left. by apply Hs. Qed.
Lemma obeys_set op gfn x s s' :
  0 <= gfn -> map_set s gfn x s' -> life op (state_of (glook s gfn)) (state_of x) -> x.2 = (glook s gfn).2 ->
  obeys op gfn s s'.
Proof.
  intros Hg Hs Hl Ha g Hg0. rewrite Hs by done. destruct (decide (g = gfn)) as [->|]; [right|by left]. done.
Qed.

(** ** The steps *)

(** Only the ring and what pauses vCPUs may differ. *)
Definition ring_only s s' : Prop :=
  s' = s <| gst := gst s' |> /\ bare_dom (gdm s') = bare_dom (gdm s) /\
  pause_flag (ved (gst s')) = pause_flag (ved (gst s)).

(** A call that gets as far as the update of the table succeeds in it: the
    counter of paged-out frames is changed after the update. *)
Definition update_ok s (o : option (Z * G)) : Prop :=
  forall rc s', o = Some (rc, s') -> paged_pages s' <> paged_pages s -> rc = 0.

Local Abbreviation nominate := (p2m_mem_paging_nominate cfg plat mem_sharing_unshare_page zero mask_ok).
Local Abbreviation evict :=
  (p2m_mem_paging_evict cfg plat mem_sharing_unshare_page zero mask_ok scrubbed cacheattr_ok).
Local Abbreviation prep :=
  (p2m_mem_paging_prep cfg plat mem_sharing_unshare_page zero mask_ok scrubbed cacheattr_ok log_dirty).
Local Abbreviation resume := (p2m_mem_paging_resume cfg plat mem_sharing_unshare_page zero mask_ok log_dirty).
Local Abbreviation populate_claimed := (populate_claimed cfg plat mem_sharing_unshare_page zero mask_ok).

(** [None] is a BUG, a failed ASSERT or an access outside the frame table. *)
Inductive pstep s : pager_op -> Z -> option G -> Prop :=
  | st_nominate gfn : 0 <= gfn -> pstep s Nominate gfn (snd <$> nominate gfn s)
  | st_evict gfn : 0 <= gfn -> update_ok s (evict gfn s) -> pstep s Evict gfn (snd <$> evict gfn s)
  | st_prep gfn buffer pb : 0 <= gfn -> update_ok s (prep gfn buffer pb s) ->
      pstep s Prep gfn (snd <$> prep gfn buffer pb s)
  | st_resume rsp : 0 <= ma_req_gfn rsp -> pstep s Resume (ma_req_gfn rsp) (snd <$> on_gdom (resume rsp) s)
  (** A vCPU or another domain wants the memory, and has a slot on the ring or
      finds that there is none. *)
  | st_populate cur cur_id gfn rc s' : 0 <= gfn -> 0 <= pause_flag (ved (gst s)) ->
      populate_claimed cur cur_id gfn rc s = Some (tt, s') ->
      pstep s Populate gfn (Some s')
  (** The ring, its waiting vCPUs, other events. *)
  | st_ring s' : ring_only s s' -> pstep s Other 0 (Some s')
  (** Others take and drop references, use frames by type, write to them. *)
  | st_take m p r : frame_table s !! m = Some p -> owner p = own_dom -> held r p -> r + 1 < CNT ->
      pstep s Other 0 (Some (put_frame m (p <| count_info := PGC_allocated + (r + 1) |>) s))
  | st_drop m p r : frame_table s !! m = Some p -> owner p = own_dom -> held r p -> 2 <= r ->
      pstep s Other 0 (Some (put_frame m (p <| count_info := PGC_allocated + (r - 1) |>) s))
  | st_use m p t b : frame_table s !! m = Some p -> owner p = own_dom ->
      pstep s Other 0 (Some (put_frame m (p <| type_info := t |> <| data := b |>) s)).

Inductive preachable (s0 : G) : G -> Prop :=
  | pr_start : preachable s0 s0
  | pr_step s s' op gfn : preachable s0 s -> pstep s op gfn (Some s') -> preachable s0 s'.

(** ** Steps that paging does not see *)

Lemma inv_gst s v :
  paging_inv s -> altp2m_inv plat (dm v) -> hostp2m (dm v) = hostp2m (gdm s) -> m2p (dm v) = m2p (gdm s) ->
  paging_inv (s <| gst := v |>) /\ same_map s (s <| gst := v |>).
Proof.
  intros I Ha Hh Hm. set (s' := s <| gst := v |>).
  assert (Hs : same_map s s') by (by apply glook_dom).
  assert (Ho : forall g x, owned s g x -> owned s' g x).
  { intros g x (O1 & O2 & O3). split; [done|]. split; [|done]. change (m2p (dm v) !! x = Some g). by rewrite Hm. }
  split; [|done]. pose proof (pi_tables _ _ _ I) as (_ & h & Eh & Et).
  apply (inv_update cfg plat R s s' 0 I); try done; try apply I.
  - split; [done|]. exists h. split; [|done]. change (hostp2m (dm v) = Some h). by rewrite Hh.
  - intros g Hg _. by apply Hs.
  - rewrite Hs by done. intros Hr. pose proof (pi_entries _ _ _ I 0 ltac:(done) Hr) as Eo.
    destruct (mfn_valid cfg _); [|done]. split; [apply Eo|apply Ho, Eo].
  - intros g x _. apply Ho.
  - rewrite Hs by done. change (paged_pages s') with (paged_pages s). lia.
Qed.

Lemma inv_ring_only s s' : paging_inv s -> ring_only s s' -> paging_inv s' /\ same_map s s'.
Proof.
  intros I (Es & Eb & _). rewrite Es. apply inv_gst; [done| | |].
  - eapply inv_repaused; [apply I|exact Eb].
  - by apply (f_equal hostp2m) in Eb.
  - by apply (f_equal m2p) in Eb.
Qed.

(** A frame in use changes, but not whose it is. *)
Lemma inv_frame s m p p' :
  paging_inv s -> frame_table s !! m = Some p -> owner p = own_dom -> owner p' = own_dom ->
  (forall r, held r p -> exists r', held r' p') ->
  paging_inv (put_frame m p' s) /\ same_map s (put_frame m p' s).
Proof.
  intros I Ep Eo Eo' Hh. set (s' := put_frame m p' s). assert (Hs : same_map s s') by (by apply glook_dom).
  assert (Hm : m ∉ heap_list s).
  { intros Hin. destruct (pi_heap _ _ _ I) as [_ Hf]. destruct (Hf m Hin) as (q & Eq & _ & Eqo). congruence. }
  assert (Ho : forall g x, owned s g x -> owned s' g x).
  { intros g x (O1 & O2 & q & r & O3 & O4 & O5). split; [done|]. split; [done|]. unfold s', put_frame. cbn.
    destruct (decide (x = m)) as [->|]; [|rewrite lookup_insert_ne by done; by exists q, r].
    rewrite lookup_insert_eq. simplify_eq. destruct (Hh r O5) as [r' Hr']. by exists p', r'. }
  split; [|done]. apply (inv_update cfg plat R s s' 0 I); try done.
  - apply I.
  - rewrite Hs by done. intros Hr. pose proof (pi_entries _ _ _ I 0 ltac:(done) Hr) as E0.
    destruct (mfn_valid cfg _); [|done]. split; [apply E0|apply Ho, E0].
  - intros g x _. apply Ho.
  - destruct (pi_heap _ _ _ I) as [Hn Hf]. split; [done|]. intros x Hx. unfold s', put_frame. cbn.
    rewrite lookup_insert_ne; [by apply Hf|]. by intros ->.
  - apply I.
  - rewrite Hs by done. change (paged_pages s') with (paged_pages s). lia.
Qed.

(** ** Wanting memory back *)

Lemma on_gst_inv {A} (m : M (vst T) A) s a s' :
  on_gst m s = Some (a, s') -> exists v, m (gst s) = Some (a, v) /\ s' = s <| gst := v |>.
Proof. unfold on_gst. destruct (m (gst s)) as [[b v]|]; [|done]. intros [= -> <-]. by exists v. Qed.

Lemma around_ring_only s v : around 0 v = around 0 (gst s) -> ring_only s (s <| gst := v |>).
Proof.
  intros E. split; [done|]. split; [exact (f_equal (fun x => x.1.1.1.1.1) E)|exact (f_equal snd E)].
Qed.

Lemma put_ring_only cur req s a s' : 0 <= pause_flag (ved (gst s)) ->
  on_gst (vm_event_put_request cur req) s = Some (a, s') -> ring_only s s'.
Proof.
  intros Hp E. apply on_gst_inv in E as (v & E & ->). by eapply around_ring_only, put_around.
Qed.
Lemma cancel_ring_only cur s a s' : on_gst (vm_event_cancel_slot cur) s = Some (a, s') -> ring_only s s'.
Proof.
  intros E. apply on_gst_inv in E as (v & E & ->). by eapply around_ring_only, keeps_release_slot.
Qed.

Lemma paused_ring_only s k f :
  ring_only s (s <| gst ::= fun v => v <| evs ::= alter f k |>
    <| dm ::= fun d => d <| vcpus ::= alter (fun c => c <| pause_count ::= Z.add 1 |>) k |> |> |>).
Proof.
  split; [done|]. split; [|done]. unfold bare_dom, gdm, set. cbn. by rewrite fmap_alter_same.
Qed.
Lemma pause_ring_only cur k s a s' : on_gst (vm_event_vcpu_pause cur k) s = Some (a, s') -> ring_only s s'.
Proof.
  intros E. apply on_gst_inv in E as (v & E & ->). unfold vm_event_vcpu_pause in E.
  apply bind_inv in E as ([] & v1 & E1 & E). unfold bug_on in E1. destruct (negb _); [done|]. injection E1 as <-.
  unfold bind, ev_upd, modify, vcpu_pause_nosync, on_dom, vcpu_upd in E. injection E as _ <-. apply paused_ring_only.
Qed.

Lemma nosync_ring_only k s a s' : on_gst (vcpu_pause_nosync k) s = Some (a, s') -> ring_only s s'.
Proof.
  intros E. apply on_gst_inv in E as (v & E & ->). unfold vcpu_pause_nosync, on_dom, vcpu_upd, modify in E.
  injection E as _ <-. split; [done|]. split; [|done]. unfold bare_dom, gdm, set. cbn. by rewrite fmap_alter_same.
Qed.
Lemma crash_keeps s s' : paging_inv s -> crash s = Some (tt, s') -> paging_inv s' /\ same_map s s'.
Proof.
  intros I E. apply on_gst_inv in E as (v & E & ->). unfold on_dom, domain_crash, modify in E. injection E as <-.
  apply inv_gst; [done| |done|done]. eapply (quiet_inv plat); [apply I|]. split; [apply (evolves_crash plat)|done].
Qed.

Lemma wp_populate_fix s gfn e :
  paging_inv s -> 0 <= gfn -> glook s gfn = (e_mfn e, e_type e, e_access e) ->
  wp (populate_fix cfg plat mem_sharing_unshare_page zero mask_ok gfn e)
    (fun _ s' => paging_inv s' /\ paged_pages s' = paged_pages s /\ obeys Populate gfn s s' /\
       exists d', s' = set_gdm d' s) s.
Proof.
  intros I Hg El. unfold populate_fix. apply wp_when; intros Hb.
  2: { split; [done|]. split; [done|]. split; [by apply obeys_same; intros g|]. exists (gdm s). by destruct s as [[]]. }
  apply bool_decide_eq_true in Hb. pose proof (pi_entries _ _ _ I gfn Hg) as Eo. rewrite El in Eo.
  assert (Hram : own_ram (e_type e) = true) by (by destruct Hb as [-> | ->]). specialize (Eo Hram). cbn in Eo.
  assert (Hset : paging_set cfg (e_mfn e) p2m_ram_paging_in).
  { destruct (mfn_valid cfg (e_mfn e)) eqn:Hv; [left; split; [done|split; [apply Eo|done]]|right].
    split; [right; apply Eo|done]. }
  assert (Hsh : shown (e_mfn e) = e_mfn e).
  { destruct (mfn_valid cfg (e_mfn e)) eqn:Hv; [by apply (shown_valid cfg R)|]. unfold shown.
    destruct (_ =? _); [by destruct Eo|done]. }
  apply wp_bind, (wp_set_4k cfg plat R); [apply I|done|done|]. intros rc s' W Hrc Hl.
  rewrite Hsh in Hl. apply wp_ret. pose proof W as (_ & d' & Es & _). split_and!; [| |  |by exists d'].
  - apply (inv_written cfg plat R s s' gfn (e_mfn e) p2m_ram_paging_in (e_access e) rc I Hg W); rewrite Hsh; [done| |].
    + intros _. cbn. destruct (mfn_valid cfg (e_mfn e)); [split; [done|apply Eo]|split; [done|apply Eo]].
    + rewrite El. unfold PagingProofs.frameless. cbn. destruct (mfn_valid cfg (e_mfn e)) eqn:Hv; [by rewrite !andb_false_r|].
      by destruct Eo as [-> _].
  - by rewrite Es.
  - destruct (set_cases _ _ _ _ _ Hl) as [[_ Hs]|[_ Hs]]; [|by apply obeys_same].
    eapply obeys_set; [done|exact Hs| |by rewrite El]. rewrite El. unfold state_of. cbn.
    destruct Hb as [Et|Et]; rewrite Et in *; destruct (mfn_valid cfg (e_mfn e)) eqn:Hv; try constructor; by destruct Eo.
Qed.

(** What is left of a request: the ring. *)
Lemma obeys_then op gfn s s1 s2 : obeys op gfn s s1 -> same_map s1 s2 -> obeys op gfn s s2.
Proof. intros Ho Hs g Hg. rewrite Hs by done. by apply Ho. Qed.

Lemma populate_keeps cur cur_id gfn rc s s' :
  paging_inv s -> 0 <= gfn -> 0 <= pause_flag (ved (gst s)) ->
  populate_claimed cur cur_id gfn rc s = Some (tt, s') -> paging_inv s' /\ obeys Populate gfn s s'.
Proof.
  intros I Hg Hp E. unfold Paging.populate_claimed in E. destruct (rc =? - ENOSYS); [|destruct (rc <? 0)].
  - apply bind_inv in E as ([] & s1 & E1 & E).
    assert (I1 : paging_inv s1 /\ same_map s s1).
    { destruct cur as [k|]; [|unfold ret in E1; injection E1 as <-; split; [done|by intros g]].
      by eapply inv_ring_only, nosync_ring_only. }
    destruct I1 as [I1 M1]. destruct (crash_keeps s1 s' I1 E) as [I2 M2]. split; [done|].
    apply obeys_same. intros g Hg0. by rewrite M2, M1.
  - unfold ret in E. injection E as <-. split; [done|]. apply obeys_same. by intros g.
  - apply bind_inv in E as (e & s1 & E1 & E).
    destruct (run_wp _ _ _ _ _ E1 (wp_entry plat s gfn (fun e s1 =>
      glook s gfn = (e_mfn e, e_type e, e_access e) /\ s1 = s) (pi_tables _ _ _ I) ltac:(done))) as [El ->].
    cbv zeta in E. apply bind_inv in E as ([] & s2 & E2 & E).
    destruct (run_wp _ _ _ _ _ E2 (wp_populate_fix s gfn e I Hg El)) as (I2 & _ & O2 & d' & Es).
    assert (Hp2 : 0 <= pause_flag (ved (gst s2))) by (by rewrite Es).
    assert (Hr : forall s3, paging_inv s3 -> obeys Populate gfn s s3 -> forall s4, ring_only s3 s4 ->
      paging_inv s4 /\ obeys Populate gfn s s4).
    { intros s3 I3 O3 s4 H4. destruct (inv_ring_only s3 s4 I3 H4) as [I4 M4]. split; [done|]. by eapply obeys_then. }
    destruct cur as [k|]; [destruct (p2m_is_paging (e_type e))|destruct (bool_decide _)].
    + apply bind_inv in E as ([] & s3 & E3 & E). apply pause_ring_only in E3. pose proof E3 as (_ & _ & F3).
      destruct (Hr _ I2 O2 _ E3) as [I3 O3]. apply put_ring_only in E; [|by rewrite F3]. by apply (Hr s3).
    + apply cancel_ring_only in E. by apply (Hr s2).
    + apply cancel_ring_only in E. by apply (Hr s2).
    + apply put_ring_only in E; [|done]. by apply (Hr s2).
Qed.

(** ** Every step *)

Lemma wp_image {A} (m : M G A) s (P : A -> G -> Prop) :
  wp m P s -> exists a s', snd <$> m s = Some s' /\ m s = Some (a, s') /\ P a s'.
Proof. intros W. destruct (wp_run _ _ _ W) as (a & s' & E & HP). exists a, s'. by rewrite E. Qed.

Lemma evict_step s gfn : paging_inv s -> 0 <= gfn -> update_ok s (evict gfn s) ->
  exists s', snd <$> evict gfn s = Some s' /\ paging_inv s' /\ obeys Evict gfn s s'.
Proof.
  intros I Hg Hu. destruct (wp_image _ _ _ (wp_evict cfg plat mem_sharing_unshare_page zero mask_ok scrubbed cacheattr_ok R s gfn I Hg))
    as (rc & s' & E & E1 & [[-> ->]|(m & a & El & Ho & Hv & Hrc & Ev & _)]).
  - exists s. split; [done|]. split; [done|]. apply obeys_same. by intros g.
  - exists s'. split; [done|]. assert (rc = 0) as -> by (apply (Hu _ _ E1); rewrite (ev_paged _ _ _ _ _ _ _ Ev); lia).
    destruct (evicted_inv cfg plat R s gfn m a s' I Hg El Ho Hv Ev) as [I' Hs]. split; [done|].
    eapply obeys_set; [done|exact Hs| |by rewrite El]. rewrite El. constructor.
Qed.

Lemma ram_state m a : state_of (m, ram_type log_dirty, a) = resident m.
Proof. unfold state_of, ram_type. by destruct log_dirty. Qed.

Lemma prep_step s gfn buffer pb : paging_inv s -> 0 <= gfn -> update_ok s (prep gfn buffer pb s) ->
  exists s', snd <$> prep gfn buffer pb s = Some s' /\ paging_inv s' /\ obeys Prep gfn s s'.
Proof.
  intros I Hg Hu. destruct (wp_image _ _ _ (wp_prep cfg plat mem_sharing_unshare_page zero mask_ok scrubbed cacheattr_ok
    log_dirty R s gfn buffer pb I Hg)) as (rc & s' & E & E1 & o & Hp & _). exists s'. split; [done|].
  destruct Hp as [Hrc Hr|m a El Hv Hrc I' Hpp Hs|m a bytes Hf Ha Hrc Hc Rf].
  - destruct (recycled_inv cfg plat R s s' I Hr) as [I' Hs]. split; [done|]. by apply obeys_same.
  - split; [done|]. destruct Hs as [[_ Hs]|[_ Hs]]; [|by apply obeys_same].
    eapply obeys_set; [done|exact Hs| |by rewrite El]. rewrite El, ram_state. unfold state_of. cbn. rewrite Hv. constructor.
  - assert (rc = 0) as -> by (apply (Hu _ _ E1); rewrite (rf_paged _ _ _ _ _ _ _ _ _ Rf); lia).
    destruct (refilled_inv cfg plat log_dirty R s gfn m a bytes s' I Hg Hf Rf) as [I' Hs]. split; [done|].
    eapply obeys_set; [done|exact Hs| |by rewrite Ha]. rewrite ram_state. unfold PagingProofs.frameless in Hf.
    unfold state_of. destruct (glook s gfn) as [[m0 ty] a0]. cbn in *. apply andb_true_iff in Hf as [Hf1 Hf2].
    apply negb_true_iff in Hf2. rewrite Hf2. destruct ty; try done; constructor.
Qed.

Lemma pstep_inv s op gfn o : paging_inv s -> pstep s op gfn o ->
  exists s', o = Some s' /\ paging_inv s' /\ obeys op gfn s s'.
Proof.
  intros I Hst. destruct Hst as [gfn Hg|gfn Hg Hu|gfn buffer pb Hg Hu|rsp Hg|cur cid gfn rc s' Hg Hp E|s' Hr|m p r Ep Eo Hh Hr|m p r Ep Eo Hh Hr|m p t b Ep Eo].
  - destruct (wp_image _ _ _ (wp_nominate cfg plat mem_sharing_unshare_page zero mask_ok R s gfn I Hg))
      as (rc & s' & E & _ & I' & [(m & ty & a & El & Ht & _ & Hs)|[_ Hs]]); exists s'; (split; [done|split; [done|]]).
    + eapply obeys_set; [done|exact Hs| |by rewrite El]. rewrite El. unfold state_of. cbn. destruct ty; try done; constructor.
    + by apply obeys_same.
  - by apply evict_step.
  - by apply prep_step.
  - destruct (wp_image _ _ _ (wp_resume cfg plat mem_sharing_unshare_page zero mask_ok log_dirty R s rsp I Hg))
      as (rc & s' & E & _ & I' & _ & [Hs|(m & a & El & Hv & Hs)]); exists s'; (split; [done|split; [done|]]).
    + by apply obeys_same.
    + eapply obeys_set; [done|exact Hs| |by rewrite El]. rewrite El, ram_state. unfold state_of. cbn. rewrite Hv. constructor.
  - exists s'. split; [done|]. by eapply populate_keeps.
  - exists s'. split; [done|]. destruct (inv_ring_only s s' I Hr) as [I' Hs]. split; [done|]. by apply obeys_same.
  - eexists. split; [done|]. destruct (inv_frame s m p (p <| count_info := PGC_allocated + (r + 1) |>) I Ep Eo) as [I' Hs]; try done.
    { intros _ _. exists (r + 1). destruct Hh. split; [done|]. lia. }
    split; [done|]. by apply obeys_same.
  - eexists. split; [done|]. destruct (inv_frame s m p (p <| count_info := PGC_allocated + (r - 1) |>) I Ep Eo) as [I' Hs]; try done.
    { intros _ _. exists (r - 1). destruct Hh. split; [done|]. lia. }
    split; [done|]. by apply obeys_same.
  - eexists. split; [done|]. destruct (inv_frame s m p (p <| type_info := t |> <| data := b |>) I Ep Eo) as [I' Hs]; try done.
    { intros r Hh. by exists r. }
    split; [done|]. by apply obeys_same.
Qed.
End System.
