(* ===== verification/PagingClaims.v ===== *)
(** * What paging promises

    The theorems about Paging.v as a whole, over any lawful table: the code
    follows the life of a guest frame of PagingSystem.v, machine frames are
    not shared or lost on the way, contents come back, and a vCPU that needs a
    paged-out frame asks the pager and waits. *)

From S2P Require Import Prelude Monad P2m P2mProofs Altp2m Altp2mProofs Altp2mSwitch Altp2mInv Altp2mTables.
From S2P Require Import VmEvent VmEventProofs VmEventSystem VmEventFrame MemAccess MemAccessProofs MemEvents NestedFault FaultEvents.
From S2P Require Import Frames FramesProofs Physmap Paging PagingProofs PagingOps PagingSystem.

Section Claims.
Context {T : Type} `{P2MPagingLaws T}.
Context (cfg : p2m_config) (plat : platform).
Context (mem_sharing_unshare_page : T -> Z -> T) (zero : T) (mask_ok : Z -> bool).
Context (scrubbed : Z) (cacheattr_ok log_dirty : bool).
Context (R : paging_rules cfg).
Local Abbreviation G := (pgd T).
Local Abbreviation paging_inv := (paging_inv cfg plat).
Local Abbreviation pstep := (pstep cfg plat mem_sharing_unshare_page zero mask_ok scrubbed cacheattr_ok log_dirty).
Local Abbreviation preachable :=
  (preachable cfg plat mem_sharing_unshare_page zero mask_ok scrubbed cacheattr_ok log_dirty).
Implicit Types (s : G).

Lemma preachable_inv s0 s : paging_inv s0 -> preachable s0 s -> paging_inv s.
Proof.
  intros I0 Hr. induction Hr as [|s s' op gfn _ IH Hst]; [done|].
  destruct (pstep_inv cfg plat mem_sharing_unshare_page zero mask_ok scrubbed cacheattr_ok log_dirty R s op gfn _ IH Hst) as (s1 & [= <-] & I' & _). done.
Qed.



(** ** Out and back *)

Local Abbreviation nominate := (p2m_mem_paging_nominate cfg plat mem_sharing_unshare_page zero mask_ok).
Local Abbreviation evict :=
  (p2m_mem_paging_evict cfg plat mem_sharing_unshare_page zero mask_ok scrubbed cacheattr_ok).
Local Abbreviation prep :=
  (p2m_mem_paging_prep cfg plat mem_sharing_unshare_page zero mask_ok scrubbed cacheattr_ok log_dirty).
Local Abbreviation ram_type := (ram_type log_dirty).

(** A pager that pages [gfn] out and in again, until a call fails. *)
Definition out_and_back (gfn buffer : Z) (pb : prep_env) : M G Z :=
  bind (nominate gfn) (fun rc => if negb (rc =? 0) then ret rc else
  bind (evict gfn) (fun rc => if negb (rc =? 0) then ret rc else prep gfn buffer pb)).

(** What the guest reads in frame [g]. *)
Definition contents s (g : Z) : option Z := data <$> frame_table s !! (glook s g).1.1.

(** Guest frame [g] is memory and is there. *)
Definition present s (g : Z) : Prop :=
  0 <= g /\ own_ram (glook s g).1.2 = true /\ mfn_valid cfg (glook s g).1.1 = true.

Lemma present_owned s g : paging_inv s -> present s g -> owned s g (glook s g).1.1.
Proof.
  intros I (Hg & Hr & Hv). pose proof (pi_entries _ _ _ I g Hg Hr) as E. rewrite Hv in E. apply E.
Qed.

(** Present guest frames do not share the frame of another or a free one. *)
Lemma present_apart s g gfn m :
  paging_inv s -> present s g -> g <> gfn -> owned s gfn m \/ m ∈ heap_list s -> (glook s g).1.1 <> m.
Proof.
  intros I Hpr Hne Hm E. pose proof (present_owned s g I Hpr) as Hog. rewrite E in Hog.
  destruct Hm as [Hm|Hm]; [by apply Hne, (owned_unique s g gfn m)|].
  exact (free_not_owned s g m (pi_heap _ _ _ I) Hm Hog).
Qed.

(** Nominating moves no frame. *)
Definition books s := (frame_table s, heap_list s, m2p (gdm s), paged_pages s).

Lemma wp_nominate_books s gfn :
  paging_inv s -> 0 <= gfn -> wp (nominate gfn) (fun _ s' => books s' = books s) s.
Proof.
  intros I Hg. unfold p2m_mem_paging_nominate. apply wp_bind, (wp_entry plat); [apply I|]. intros e El. cbv zeta.
  destruct (mfn_valid cfg (e_mfn e)) eqn:Hv; [cbn [negb]|by apply wp_ret].
  destruct (p2m_is_pageable (e_type e)) eqn:Ht; [cbn [negb]|by apply wp_ret].
  assert (Hp : present s gfn) by (unfold present; rewrite El; cbn; by destruct (e_type e)).
  pose proof (present_owned s gfn I Hp) as Hown. rewrite El in Hown.
  destruct Hown as (Hm & _ & p & r & Ep & Epo & Hh & Hr). cbn in Hm, Ep.
  unfold is_iomem_page. rewrite Hv. cbn [negb]. apply wp_bind, wp_bind. eapply wp_frame_get; [done|].
  apply wp_bind, wp_bug_on; [rewrite count_mask, Hh, low_part by (done || lia); zcases; lia|].
  rewrite Epo. apply wp_ret. cbn. apply wp_bind. eapply wp_frame_get; [done|].
  destruct (used_by 1 p); cbn [negb]; [|by apply wp_ret].
  eapply (wp_set_4k cfg plat R); [apply I|done|by left|]. intros rc s' (_ & d' & -> & E & _) _ _.
  unfold books. cbn. by rewrite E.
Qed.

(** C13. A pager that nominates, evicts and prepares a guest frame with the
    bytes it saved gives the guest its memory back: the calls return, and if
    they all succeed the frame is ordinary memory again with its access right
    and its bytes, behind a frame of the machine that the machine-to-physical
    table ascribes to it; every other guest frame keeps its entry and its
    contents, and d->paged_pages is what it was. *)
Theorem page_out_and_back s gfn buffer pb bytes :
  paging_inv s -> 0 <= gfn -> contents s gfn = Some bytes -> pb_copy pb = inr bytes ->
  wp (out_and_back gfn buffer pb) (fun rc s' => rc <= 0 /\
    (rc = 0 -> paging_inv s' /\ paged_pages s' = paged_pages s /\
       (exists m, glook s' gfn = (m, ram_type, (glook s gfn).2) /\ mfn_valid cfg m = true /\
          m2p (gdm s') !! m = Some gfn) /\
       (forall g, 0 <= g -> g <> gfn -> glook s' g = glook s g) /\
       forall g, present s g -> contents s' g = contents s g)) s.
Proof.
  intros I Hg Hc Hpb. unfold out_and_back. apply wp_bind.
  eapply wp_mono; [apply (wp_conj _ _ _ _ (wp_nominate cfg plat _ _ _ R s gfn I Hg) (wp_nominate_books s gfn I Hg))|].
  intros rc s1 [[I1 [(m & ty & a & El & Ht & -> & M1)|[Hrc M1]]] B1]; cbn [negb Z.eqb].
  2: { rewrite (proj2 (Z.eqb_neq _ _)) by lia. apply wp_ret. split; [lia|]. intros ->. lia. }
  unfold books in B1. injection B1 as Bf Bh Bm Bp.
  assert (L1 : glook s1 gfn = (m, p2m_ram_paging_out, a)) by (rewrite M1 by done; by destruct (decide _)).
  apply wp_bind. eapply wp_mono; [apply (wp_evict cfg plat _ _ _ _ _ R s1 gfn I1 Hg)|].
  intros rc s2 [[-> ->]|(m0 & a0 & E0 & Hown & Hv & Hrc & Ev & _)]; [by apply wp_ret|].
  rewrite L1 in E0. injection E0 as <- <-. destruct (Z.eqb_spec rc 0) as [->|Hn]; cbn [negb].
  2: { apply wp_ret. split; [lia|]. intros ->. done. }
  destruct (evicted_inv cfg plat R s1 gfn m a s2 I1 Hg L1 Hown Hv Ev) as [I2 M2].
  destruct Ev as [_ _ (q & V1 & _) V2 V3 V4].
  assert (L2 : glook s2 gfn = (hole_mfn, p2m_ram_paged, a)) by (rewrite M2 by done; by destruct (decide _)).
  eapply wp_mono; [apply (wp_prep cfg plat _ _ _ _ _ _ R s2 gfn buffer pb I2 Hg)|].
  intros rc s3 (o & Hp & Ho). destruct Hp as [Hrc3 _|m3 a3 E3 _ _ _ _ _|m3 a3 b3 Hf Ha Hrc3 _ Rf].
  { split; [lia|]. intros ->. lia. }
  { by rewrite L2 in E3. }
  split; [done|]. intros ->. destruct (refilled_inv cfg plat log_dirty R s2 gfn m3 a3 b3 s3 I2 Hg Hf Rf) as [I3 M3].
  destruct Rf as [_ _ (q3 & W1 & _ & _ & W2) W3 W4 W5].
  assert (Eb : b3 = bytes) by (specialize (Ho b3 eq_refl); congruence). rewrite Eb in W2.
  assert (Hv3 : mfn_valid cfg m3 = true) by (apply (pi_valid _ _ _ I2 m3); rewrite W3; left).
  assert (L3 : glook s3 gfn = (m3, ram_type, (glook s gfn).2)).
  { rewrite M3 by done. destruct (decide _); [|done]. rewrite L2 in Ha. cbn in Ha. by rewrite <- Ha, El. }
  assert (Hother : forall g, 0 <= g -> g <> gfn -> glook s3 g = glook s g).
  { intros g Hg0 Hne. rewrite M3, M2, M1 by done. by destruct (decide (g = gfn)). }
  split; [done|]. split; [lia|]. split; [exists m3; split; [done|]; split; [done|]; by rewrite W4, lookup_insert_eq|].
  split; [done|]. intros g Hpr. destruct (decide (g = gfn)) as [->|Hne].
  - rewrite Hc. unfold contents. rewrite L3, W1. cbn. rewrite lookup_insert_eq. cbn. by rewrite W2.
  - pose proof Hpr as (Hg0 & _).
    assert (Hm : (glook s g).1.1 <> m).
    { apply (present_apart s g gfn m I Hpr Hne). left. destruct Hown as (O1 & O2 & O3).
      split; [done|]. by rewrite <- Bm, <- Bf. }
    assert (Hm3 : m3 = m \/ m3 ∈ heap_list s) by (rewrite <- Bh; apply elem_of_cons; rewrite <- V2, W3; left).
    assert (Hm3' : (glook s g).1.1 <> m3).
    { destruct Hm3 as [->|Hin]; [done|]. apply (present_apart s g gfn m3 I Hpr Hne). by right. }
    unfold contents. rewrite Hother, W1, V1, Bf by done. by rewrite !lookup_insert_ne.
Qed.

(** ** Asking the pager *)

Section Ask.
Context (F : Z) (HF : 0 <= F) (k : nat).
Local Abbreviation populate_fix := (populate_fix cfg plat mem_sharing_unshare_page zero mask_ok).

(** C16. A vCPU that needs a guest frame the pager has, with a ring that has a
    free slot: the call returns without sleeping, the next request on the ring
    asks for that frame and says that the vCPU is paused, and it is paused
    once more for an event, so that it waits for the answer; the frame's entry
    moves to the page-in path or stays, no other entry moves, and the ring and
    the frames keep their invariants. *)
Theorem paged_access_asks_pager s l fh h p cur_id gfn (e : vcpu_ev) :
  paging_inv s -> inv F (mkSys (gst s) l fh h) -> ring_page (ved (gst s)) = Some p ->
  l !! k = Some Run -> 0 < avail (ved (gst s)) -> evs (gst s) !! k = Some e -> 0 <= gfn ->
  p2m_is_paging (glook s gfn).1.2 = true ->
  wp (p2m_mem_paging_populate cfg plat mem_sharing_unshare_page zero mask_ok (Some k) cur_id gfn)
    (fun fin s' => fin = true /\
       ring_page (ved (gst s')) = Some (page_put (ved (gst s))
         (stamp (Some k) (populate_request (Some k) cur_id gfn (glook s gfn).1.2 true)) p) /\
       (exists e', evs (gst s') !! k = Some e' /\ vm_event_pause_count e' = vm_event_pause_count e + 1) /\
       obeys cfg Populate gfn s s' /\ paging_inv s' /\ inv F (mkSys (gst s') l fh h)) s.
Proof.
  intros I Ir Hp Hk Ha He Hg Hty. unfold p2m_mem_paging_populate, slept. apply wp_bind, wp_on_gst.
  eapply wp_claim_slot; [done..|]. intros I1. unfold populate_claimed.
  change (0 =? - ENOSYS) with false. change (0 <? 0) with false. cbv iota.
  destruct (inv_gst cfg plat R s (claimed (gst s)) I) as [P1 M1]; [apply I|done|done|].
  set (s1 := s <| gst := claimed (gst s) |>) in *. apply wp_bind, wp_bind, (wp_entry plat); [apply P1|].
  intros x El. cbv zeta. apply wp_bind.
  eapply wp_mono; [exact (wp_populate_fix cfg plat mem_sharing_unshare_page zero mask_ok R s1 gfn x P1 Hg El)|].
  intros [] s2 (P2 & _ & O2 & d' & E2). cbn beta.
  rewrite M1 in El by done. rewrite El in Hty. cbn in Hty. rewrite Hty, El. cbn [fst snd].
  apply wp_bind, wp_on_gst. apply (wp_pause_event k e); [by rewrite E2|]. intros w Hw. apply wp_on_gst.
  pose proof Hw as [W1 W2 W3 W4 W5 (e' & W6 & W7)]. set (s3 := s2 <| gst := w |>).
  assert (E3 : gst s3 = w) by done.
  assert (P3 : paging_inv s3 /\ same_map s2 s3).
  { apply (inv_gst cfg plat R s2 w P2); [eapply inv_repaused; [apply P2|exact W4]|by apply (f_equal hostp2m) in W4|].
    by apply (f_equal m2p) in W4. }
  destruct P3 as [P3 M3]. rewrite E3.
  assert (I3 : inv F (mkSys w (<[k := Hold]> l) fh h)) by (eapply ring_inv_ext; [exact I1| | |]; rewrite ?W1, ?W2, ?W3, E2; done).
  eapply (wp_put_held k F HF w l fh h p); [exact I3|by rewrite W1, E2|done|]. intros v' I' Har Hp'.
  assert (P4 : paging_inv (s3 <| gst := v' |>) /\ same_map s3 (s3 <| gst := v' |>)).
  { apply (inv_ring_only cfg plat R s3); [done|]. apply (around_ring_only s3 v'), Har. }
  destruct P4 as [P4 M4]. apply wp_ret. destruct (around_parts 0 _ _ (Har 0%nat)) as (Ed & Ee & _).
  split; [done|]. split; [rewrite W1, E2 in Hp'; exact Hp'|]. split; [|split; [|split; [|exact I']]].
  - pose proof (f_equal (fun y => y !! k) Ee) as Ek. cbn in Ek.
    rewrite !list_lookup_fmap, W6 in Ek. cbn. destruct (evs v' !! k) as [e2|]; [|done].
    exists e2. split; [done|]. rewrite <- W7.
    pose proof (inj Some _ _ Ek) as Eb. exact (f_equal vm_event_pause_count Eb).
  - apply (obeys_then cfg Populate gfn s s3); [|exact M4]. by apply (obeys_then cfg Populate gfn s s2).
  - exact P4.
Qed.
End Ask.
End Claims.
