(* ===== verification/PagingExamples.v ===== *)
(** * Paging on a concrete domain

    The flat table is lawful for paging; a domain with two frames of memory,
    one free frame of the machine and a ring, as witness of the claims of
    PagingClaims.v; and what goes wrong outside the way of a well-behaved
    pager. *)

From S2P Require Import Prelude Monad P2m P2mProofs Altp2m Altp2mProofs Altp2mSwitch Altp2mInv Altp2mTables Altp2mClaims.
From S2P Require Import VmEvent VmEventProofs VmEventSystem VmEventFrame MemAccess MemAccessProofs NestedFault FaultEvents MemEventClaims.
From S2P Require Import Frames FramesProofs Physmap Paging PagingProofs PagingOps PagingSystem PagingClaims.

(** ** The flat table *)

Lemma flat_out (t t' : flat) gfn e rc g :
  e_order e = 0 -> t' = t \/ (rc = 0 /\ 0 <= gfn /\ 0 <= 0 /\ gfn + order_size 0 <= FLAT_LIMIT /\ t' = (gfn, e) :: t) ->
  g <> gfn \/ rc <> 0 -> look t' g = look t g.
Proof.
  intros He [->|(-> & _ & _ & _ & ->)] Hne; [done|]. destruct Hne as [Hne|]; [|done].
  unfold look. simpl get_entry. unfold flat_get. destruct (_ || _); [done|]. simpl flat_find.
  rewrite in_block_false; [done|]. simpl. rewrite He. unfold order_size. lia.
Qed.

#[export] Instance flat_paging : P2MPagingLaws flat.
Proof.
  refine {| hole_mfn := INVALID_MFN |}.
  - intros t t' gfn m ty a sve rc _ Hg Hm Hty Hs. simpl in Hs. assert (m = INVALID_MFN) as -> by (by destruct Hm).
    split; [done|]. apply flat_set_cases in Hs as Hc.
    assert (Hrc : rc <= 0) by (unfold flat_set in Hs; destruct (_ || _) in Hs; by simplify_eq).
    split; [done|]. split.
    + intros ->. apply flat_set_ok in Hs as (_ & _ & Hl & ->). unfold order_size in Hl.
      unfold look. simpl get_entry. rewrite flat_get_in by lia. simpl flat_find.
      by rewrite in_block_true by (unfold order_size; simpl; lia).
    + intros g Hg0 Hne. by apply (flat_out t t' gfn (mkEnt INVALID_MFN ty a 0) rc).
  - intros t t' gfn a sve rc _ Hg Hs. simpl in Hs. apply flat_set_cases in Hs as Hc. split; [done|].
    split; [unfold flat_set in Hs; destruct (_ || _) in Hs; by simplify_eq|]. split.
    + intros ->. apply flat_set_ok in Hs as (_ & _ & Hl & ->). unfold order_size in Hl.
      unfold look. simpl get_entry. rewrite flat_get_in by lia. simpl flat_find.
      by rewrite in_block_true by (unfold order_size; simpl; lia).
    + intros g Hg0 Hne. by apply (flat_out t t' gfn (mkEnt INVALID_MFN p2m_invalid a 0) rc).
  - intros t t' gfn m ty a sve rc _ _ _ Hs Hrc. simpl in Hs. apply flat_set_cases in Hs as [->|(-> & _)]; done.
Defined.

Lemma flat_rules : paging_rules flat_cfg.
Proof. split; done. Qed.

(** ** The domain *)

(** Guest frames 0 and 1 are machine frames 4096 and 4097; frame 4200 is free. *)
Definition pg_host : flat :=
  [(0, mkEnt 4096 p2m_ram_rw p2m_access_rwx 0); (1, mkEnt 4097 p2m_ram_rw p2m_access_rw 0)].
Definition pg_dom (d : domain flat) : domain flat :=
  (d <| hostp2m ::= fmap (fun p => p <| table := pg_host |>) |>) <| m2p := {[4096 := 0; 4097 := 1]} |>.
Definition guest_page (bytes : Z) : page_info := mkPage (PGC_allocated + 1) 0 own_dom bytes.
Definition pg_start : pgd flat :=
  mkPgd (ma_on <| dm ::= pg_dom |>)
    {[4096 := guest_page 111; 4097 := guest_page 222; 4200 := mkPage PGC_state_free 0 own_none 0]}
    [4200] 2 3 0 0 0 [].

Lemma pg_tables : tables_ok demo_plat pg_start.
Proof.
  split.
  - apply (quiet_inv demo_plat (dm ma_on)); [exact ma_dom_inv|]. split; [|vm_compute; reflexivity]. unfold pg_dom.
    eapply evolves_trans0; [apply evolves_host|apply evolves_m2p].
  - eexists. split; [vm_compute; reflexivity|exact I].
Qed.

Lemma pg_glook g : 0 <= g -> glook pg_start g =
  if g =? 0 then (4096, p2m_ram_rw, p2m_access_rwx) else if g =? 1 then (4097, p2m_ram_rw, p2m_access_rw)
  else (INVALID_MFN, p2m_mmio_dm, p2m_access_n).
Proof.
  intros Hg. destruct (Z.eqb_spec g 0) as [->|H0]; [vm_compute; reflexivity|].
  destruct (Z.eqb_spec g 1) as [->|H1]; [vm_compute; reflexivity|].
  change (glook pg_start g) with (look pg_host g). unfold look. simpl get_entry. unfold flat_get.
  destruct (_ || _); [done|]. unfold pg_host. simpl flat_find.
  rewrite !in_block_false by (unfold order_size; simpl; lia). done.
Qed.

Lemma pg_owned0 : owned pg_start 0 4096.
Proof.
  split; [done|]. split; [vm_compute; reflexivity|]. exists (guest_page 111), 1.
  split; [vm_compute; reflexivity|]. by split.
Qed.
Lemma pg_owned1 : owned pg_start 1 4097.
Proof.
  split; [done|]. split; [vm_compute; reflexivity|]. exists (guest_page 222), 1.
  split; [vm_compute; reflexivity|]. by split.
Qed.
Lemma pg_free : frame_table pg_start !! 4200 = Some (mkPage PGC_state_free 0 own_none 0).
Proof. vm_compute. reflexivity. Qed.

Lemma pg_inv : paging_inv flat_cfg demo_plat pg_start.
Proof.
  split.
  - exact pg_tables.
  - intros g Hg. rewrite pg_glook by done.
    destruct (Z.eqb_spec g 0) as [->|H0]; [|destruct (Z.eqb_spec g 1) as [->|H1]]; intros Hr; [..|done].
    + split; [done|exact pg_owned0].
    + split; [done|exact pg_owned1].
  - split; [apply NoDup_singleton|]. intros m Hm. apply list_elem_of_singleton in Hm as ->.
    eexists. split; [exact pg_free|]. done.
  - intros m Hm. apply list_elem_of_singleton in Hm as ->. done.
  - exists ∅. split; [|by rewrite size_empty]. intros g. split; [by intros ?%elem_of_empty|]. intros [Hg Hf].
    rewrite pg_glook in Hf by done. by destruct (g =? 0), (g =? 1).
Qed.

(** ** Out and back *)

Local Abbreviation pg_nominate := (p2m_mem_paging_nominate flat_cfg demo_plat demo_unshare [] demo_mask).
Local Abbreviation pg_evict := (p2m_mem_paging_evict flat_cfg demo_plat demo_unshare [] demo_mask 0 true).
Local Abbreviation pg_prep := (p2m_mem_paging_prep flat_cfg demo_plat demo_unshare [] demo_mask 0 true false).
Local Abbreviation pg_populate := (p2m_mem_paging_populate flat_cfg demo_plat demo_unshare [] demo_mask (Some 0%nat) 0).

Definition gafter {A} (m : M (pgd flat) A) (s : pgd flat) : pgd flat :=
  match m s with Some (_, s') => s' | None => s end.

(** The pager saved 222 and gives it back. *)
Definition pg_saved : prep_env := mkPrepEnv true (inr 222).
Definition pg_trip : M (pgd flat) Z :=
  out_and_back flat_cfg demo_plat demo_unshare [] demo_mask 0 true false 1 0x10000 pg_saved.

Lemma pg_trip_runs : (fst <$> pg_trip pg_start) = Some 0 /\
  glook (gafter pg_trip pg_start) 1 = (4097, p2m_ram_rw, p2m_access_rw) /\
  contents (gafter pg_trip pg_start) 1 = Some 222 /\ heap_list (gafter pg_trip pg_start) = [4200].
Proof. vm_compute. done. Qed.

(** The trip above, as the claim has it. *)
Lemma page_out_and_back_witness :
  (fst <$> pg_trip pg_start) = Some 0 /\
  wp pg_trip (fun rc s' => rc = 0 -> contents s' 0 = contents pg_start 0 /\ paged_pages s' = 0) pg_start.
Proof.
  split; [apply pg_trip_runs|].
  assert (Hc : contents pg_start 1 = Some 222) by (vm_compute; reflexivity).
  assert (Hp : present flat_cfg pg_start 0) by (split; [done|split; vm_compute; reflexivity]).
  eapply wp_mono.
  - exact (page_out_and_back flat_cfg demo_plat demo_unshare [] demo_mask 0 true false flat_rules
      pg_start 1 0x10000 pg_saved 222 pg_inv ltac:(done) Hc eq_refl).
  - intros rc s' [_ Hok] Hrc. destruct (Hok Hrc) as (_ & Hpp & _ & _ & Hcs). split; [by apply Hcs|exact Hpp].
Defined.

(** ** A vCPU that needs a frame that is out *)

Definition pg_out : pgd flat := gafter (pg_evict 1) (gafter (pg_nominate 1) pg_start).

Local Abbreviation pg_reach :=
  (preachable flat_cfg demo_plat demo_unshare [] demo_mask 0 true false pg_start).
Local Abbreviation pg_step := (pstep flat_cfg demo_plat demo_unshare [] demo_mask 0 true false).

Lemma update_ok_rc (s : pgd flat) o : fst <$> o = Some 0 -> update_ok s o.
Proof. intros E rc s' -> _. by injection E. Qed.
Lemma update_ok_zero (s s' : pgd flat) : update_ok s (Some (0, s')).
Proof. by apply update_ok_rc. Qed.

Lemma pg_nominated : snd <$> pg_nominate 1 pg_start = Some (gafter (pg_nominate 1) pg_start).
Proof. vm_compute. reflexivity. Qed.
Lemma pg_evict_runs : pg_evict 1 (gafter (pg_nominate 1) pg_start) = Some (0, pg_out).
Proof. vm_compute. reflexivity. Qed.
Lemma pg_evict_step : pg_step (gafter (pg_nominate 1) pg_start) Evict 1 (Some pg_out).
Proof.
  replace (Some pg_out) with (snd <$> pg_evict 1 (gafter (pg_nominate 1) pg_start)) by (by rewrite pg_evict_runs).
  apply st_evict; [done|]. rewrite pg_evict_runs. apply update_ok_zero.
Qed.
Lemma pg_out_reach : pg_reach pg_out.
Proof.
  eapply pr_step; [eapply pr_step; [apply pr_start|]|exact pg_evict_step].
  rewrite <- pg_nominated. by apply st_nominate.
Qed.
Lemma pg_out_inv : paging_inv flat_cfg demo_plat pg_out.
Proof. exact (preachable_inv _ _ _ _ _ _ _ _ flat_rules _ _ pg_inv pg_out_reach). Qed.

Lemma pg_out_ring : inv 5 (mkSys (gst pg_out) [Run; Run] 0 0).
Proof. apply (ring_inv_ext 5 ma_on); [exact ma_on_inv|vm_compute; reflexivity..]. Qed.



(** vCPU 0 needs guest frame 1: the first request on the ring asks for it. *)
Lemma paged_access_asks_pager_witness :
  (fst <$> pg_populate 1 pg_out) = Some true /\
  wp (pg_populate 1) (fun fin s' => fin = true /\ obeys flat_cfg Populate 1 pg_out s' /\
    exists p, ring_page (ved (gst s')) = Some p /\ req_prod p = 1 /\
      (ma_req_gfn <$> slots p !! 0%nat) = Some 1 /\ (pg_p2mt <$> slots p !! 0%nat) = Some 10) pg_out.
Proof.
  split; [vm_compute; reflexivity|].
  assert (Hp : ring_page (ved (gst pg_out)) = Some ma_page) by (vm_compute; reflexivity).
  assert (Ha : 0 < avail (ved (gst pg_out))) by (vm_compute; reflexivity).
  assert (He : evs (gst pg_out) !! 0%nat = Some ma_ve) by (vm_compute; reflexivity).
  assert (Ht : p2m_is_paging (glook pg_out 1).1.2 = true) by (vm_compute; reflexivity).
  eapply wp_mono.
  - exact (paged_access_asks_pager flat_cfg demo_plat demo_unshare [] demo_mask flat_rules 5 ltac:(done) 0
      pg_out [Run; Run] 0 0 ma_page 0 1 ma_ve pg_out_inv pg_out_ring Hp eq_refl Ha He ltac:(done) Ht).
  - intros fin s' (Hf & Hpage & _ & O & _). split; [exact Hf|]. split; [exact O|]. eexists.
    split; [exact Hpage|]. split_and!; vm_compute; reflexivity.
Defined.
