(* ===== verification/EptPaging.v ===== *)
(** * Paging over EPT

    The EPT of Ept.v keeps the laws of paging: an entry without a frame reads
    back as frame 2^40 - 1, the field's width of ones, which is no frame of
    the machine.  So the theorems about paging hold of the tables in memory. *)

From S2P Require Import Prelude Monad P2m P2mProofs HapPool Ept EptRep EptOps EptProofs EptSet EptClaims.
From S2P Require Import Altp2m Altp2mInv VmEvent MemAccess MemAccessProofs Frames FramesProofs Physmap Paging PagingProofs PagingOps PagingSystem.

Section Ept.
Context (env : ept_env) (pod : Z -> Z -> Z -> M est Z).

Lemma set_single (t t' : ept_t env pod) gfn m ty a sve rc :
  wf (proj1_sig t) -> 0 <= gfn -> set_entry t gfn m 0 ty a sve = (rc, t') ->
  wf (proj1_sig t') /\ rc <= 0 /\
  forall g, 0 <= g -> look t' g = if bool_decide (rc = 0 /\ g = gfn) then new_view env gfn m ty a g else look t g.
Proof.
  intros Hwf Hg. simpl. assert (Hl : legal env m 0 ty a) by (split; [by left|lia]).
  destruct (wp_run _ _ _ (wp_ept_set_entry env _ gfn m 0 ty a sve Hwf Hl Hg)) as (rc1 & s1 & E & Hp).
  rewrite E. intros [= <- <-]. pose proof (sp_wf _ _ _ _ _ _ _ _ _ Hp) as Hw1.
  rewrite pack_ok by (by apply wf_bound). split; [done|]. split; [apply Hp|]. intros g Hg0.
  rewrite !look_elook by (rewrite ?pack_ok by (by apply wf_bound); done). rewrite pack_ok by (by apply wf_bound).
  rewrite (elook_post env _ _ _ _ _ _ _ _ g Hwf Hp Hg Hg0). change (2 ^ 0) with 1.
  destruct (Z.eqb_spec rc1 0) as [->|Hne]; cbn [andb].
  - destruct (decide (g = gfn)) as [->|Hne].
    + rewrite bool_decide_true by done. by rewrite (proj2 (Z.leb_le _ _)), (proj2 (Z.ltb_lt _ _)) by lia.
    + rewrite bool_decide_false by tauto. destruct (Z.leb_spec gfn g), (Z.ltb_spec g (gfn + 1)); try done. lia.
  - by rewrite bool_decide_false by tauto.
Qed.

Definition ept_hole : Z := 2 ^ 40 - 1.

#[export] Instance ept_paging : P2MPagingLaws (ept_t env pod).
Proof.
  refine {| hole_mfn := ept_hole |}.
  - intros t t' gfn m ty a sve rc Hwf Hg Hm Hty E.
    destruct (set_single t t' gfn m ty a sve rc Hwf Hg E) as (Hw & Hrc & Hl). split; [done|]. split; [done|]. split.
    + intros ->. rewrite Hl by done. rewrite bool_decide_true by done.
      assert (Hb : built env m ty = true) by (unfold built; destruct Hty as [-> | ->]; cbn; by rewrite ?orb_true_r).
      assert (Hmm : mfn40 m = ept_hole) by (by destruct Hm as [-> | ->]).
      unfold new_view. rewrite Hb, Hmm, Z.sub_diag, Z.add_0_r. by destruct Hty as [-> | ->].
    + intros g Hg0 Hne. rewrite Hl by done. rewrite bool_decide_false; [done|]. intros [-> ->]. by destruct Hne.
  - intros t t' gfn a sve rc Hwf Hg E.
    destruct (set_single t t' gfn INVALID_MFN p2m_invalid a sve rc Hwf Hg E) as (Hw & Hrc & Hl).
    split; [done|]. split; [done|]. split.
    + intros ->. rewrite Hl by done. rewrite bool_decide_true by done. unfold new_view. by destruct (built _ _ _).
    + intros g Hg0 Hne. rewrite Hl by done. rewrite bool_decide_false; [done|]. intros [-> ->]. by destruct Hne.
  - intros t t' gfn m ty a sve rc Hwf Hg _ E Hrc. destruct (set_single t t' gfn m ty a sve rc Hwf Hg E) as (_ & _ & Hl).
    rewrite Hl by done. by rewrite bool_decide_false by tauto.
Defined.

(** The generic layer and EPT agree on which frames the machine has. *)
Lemma ept_paging_rules cfg :
  max_mfn cfg < 2 ^ 40 -> (forall m, 0 <= m -> mfn_valid cfg m = true -> env_mfn_valid env m = true) ->
  paging_rules (T := ept_t env pod) cfg.
Proof.
  intros Hmax Hv. split.
  - intros m ty a Hm Hm0 Hb. pose proof Hm as Hm'. unfold mfn_valid in Hm'. apply Z.ltb_lt in Hm'.
    unfold may_set. simpl. split; [split; [by left|lia]|]. split; [unfold INVALID_MFN; lia|]. intros _.
    split; [unfold built; by rewrite Hv|]. split; [lia|]. by destruct ty.
  - apply Z.ltb_ge. change (max_mfn cfg <= 2 ^ 40 - 1). lia.
  - unfold INVALID_MFN. lia.
Qed.

(** Over the tables in memory, every step of paging returns and follows the
    life of a guest frame: the generic theorem through the interface. *)
Lemma ept_paging_steps cfg plat unshare zero mask_ok scrubbed cacheattr_ok log_dirty
    (s : pgd (ept_t env pod)) op gfn o :
  max_mfn cfg < 2 ^ 40 -> (forall m, 0 <= m -> mfn_valid cfg m = true -> env_mfn_valid env m = true) ->
  paging_inv cfg plat s -> pstep cfg plat unshare zero mask_ok scrubbed cacheattr_ok log_dirty s op gfn o ->
  exists s', o = Some s' /\ paging_inv cfg plat s' /\ obeys cfg op gfn s s'.
Proof.
  intros Hmax Hv I Hst. eapply (pstep_inv cfg plat unshare zero mask_ok scrubbed cacheattr_ok log_dirty); [|exact I|exact Hst].
  by apply ept_paging_rules.
Qed.
End Ept.
