(* ===== verification/PhysmapProofs.v ===== *)
(** * The guest's physical map (theorems about Physmap.v)

    Single frames are added to and removed from the guest's memory; the host
    table and the machine-to-physical table stay inverse to each other. *)

From S2P Require Import Prelude Monad P2m P2mProofs Altp2m Altp2mProofs Altp2mSwitch Altp2mInv Altp2mTables.
From S2P Require Import VmEvent VmEventProofs VmEventFrame MemAccess MemAccessProofs NestedFault.
From S2P Require Import Frames FramesProofs Physmap Paging PagingProofs PagingOps PagingSystem.

Section Physmap.
Context {T : Type} `{P2MPagingLaws T}.
Context (cfg : p2m_config) (plat : platform).
Context (mem_sharing_unshare_page : T -> Z -> T) (zero : T) (mask_ok : Z -> bool).
Context (env : physmap_env).
Context (R : paging_rules cfg) (Htr : paging_translate cfg = true).
Local Abbreviation G := (pgd T).
Local Abbreviation paging_inv := (paging_inv cfg plat).
Local Abbreviation tables_ok := (tables_ok plat).
Local Abbreviation written := (written plat).
Local Abbreviation set_page :=
  (fun gfn m ty a => on_gdom (host_p2m_set_entry cfg plat mem_sharing_unshare_page zero mask_ok gfn m PAGE_ORDER_4K ty a)).
Local Abbreviation remove_page := (host_remove_page cfg plat mem_sharing_unshare_page zero mask_ok env).
Implicit Types (s : G).

(** ** Single entries *)

Lemma set_order_one gfn m : set_order cfg gfn m 1 = PAGE_ORDER_4K.
Proof.
  destruct (set_order_spec cfg gfn m 1 ltac:(lia)) as (Ho & _ & _ & _ & Hp). unfold PAGE_ORDER_4K.
  destruct (decide (set_order cfg gfn m 1 = 0)); [done|].
  assert (2 ^ 1 <= 2 ^ set_order cfg gfn m 1) by (apply Z.pow_le_mono_r; lia). lia.
Qed.

(** A single page takes one step of the loop. *)
Lemma set_page_4k gfn m ty a s :
  set_page gfn m ty a s =
  on_gdom (host_set_entry cfg plat mem_sharing_unshare_page zero mask_ok gfn m PAGE_ORDER_4K ty a (-1)) s.
Proof.
  unfold on_gdom, on_gst, on_dom, host_p2m_set_entry. change (Z.shiftl 1 PAGE_ORDER_4K) with 1.
  change (Z.to_nat 1) with 1%nat. cbn [host_set_loop]. change (1 =? 0) with false. cbv iota.
  rewrite set_order_one. unfold bind. destruct (host_set_entry _ _ _ _ _ _ _ _ _ _ _ _) as [[rc d]|]; [|done].
  unfold ret. by destruct (Z.eqb_spec rc 0) as [->|].
Qed.

Lemma wp_unmap s gfn a Q :
  tables_ok s -> 0 <= gfn ->
  (forall rc s' x, unmapped x -> written s s' -> rc <= 0 ->
     (forall g, 0 <= g -> glook s' g = if bool_decide (rc = 0 /\ g = gfn) then x else glook s g) -> Q rc s') ->
  wp (set_page gfn INVALID_MFN p2m_invalid a) Q s.
Proof.
  intros Ht Hg HQ. unfold wp. rewrite set_page_4k. apply (wp_set_host cfg plat _ _ _ s gfn INVALID_MFN p2m_invalid a unmapped); [done| |done].
  intros t rc t' Hok E. by apply look_gone in E.
Qed.

Lemma wp_map s gfn m ty a Q :
  tables_ok s -> 0 <= gfn -> may_set m 0 ty a -> m <> INVALID_MFN ->
  (forall rc s', written s s' -> rc <= 0 ->
     (forall g, 0 <= g -> glook s' g = if bool_decide (rc = 0 /\ g = gfn) then (m, ty, a) else glook s g) -> Q rc s') ->
  wp (set_page gfn m ty a) Q s.
Proof.
  intros Ht Hg Hm Hne HQ. unfold wp. rewrite set_page_4k.
  apply (wp_set_host cfg plat _ _ _ s gfn m ty a (fun x => x = (m, ty, a))); [done| |].
  - intros t rc t' Hok E. eexists. split; [done|]. by apply look_may_set.
  - intros rc s' x -> W Hrc Hl. by apply HQ.
Qed.

Lemma wp_default_access s Q : tables_ok s -> Q (new_access (gdm s)) s -> wp host_default_access Q s.
Proof.
  intros (_ & h & Hh & _) HQ. unfold host_default_access. apply wp_bind, wp_on_gdom.
  eapply wp_host_get; [done|]. replace (set_gdm (gdm s) s) with s by (unfold set_gdm, gdm, set; destruct s as [[]]; done).
  apply wp_ret. unfold new_access in HQ. by rewrite Hh in HQ.
Qed.

(** ** Removing a frame *)

(** Guest frame [gfn], which was machine frame [m], is gone, if the table
    allowed it. *)
Record removed s (gfn m rc : Z) s' : Prop := mkRemoved {
  rm_tables : tables_ok s';
  rm_map : exists x, unmapped x /\ forall g, 0 <= g ->
    glook s' g = if bool_decide (rc = 0 /\ g = gfn) then x else glook s g;
  rm_dom : exists d, s' = set_gdm d s /\ m2p d = <[m := INVALID_M2P_ENTRY]> (m2p (gdm s)) /\
    is_dying d = is_dying (gdm s) /\ new_access d = new_access (gdm s)
}.

Definition plain_type (ty : p2m_type) : bool :=
  negb (p2m_is_grant ty) && negb (p2m_is_shared ty) && negb (p2m_is_foreign ty).

Lemma wp_remove_page s gfn m ty a p Q :
  tables_ok s -> 0 <= gfn < 2 ^ 64 -> 0 <= m < 2 ^ 64 -> glook s gfn = (m, ty, a) -> plain_type ty = true ->
  mfn_valid cfg m = true -> frame_table s !! m = Some p -> owner p <> own_cow ->
  (forall rc s', rc <= 0 -> removed s gfn m rc s' -> Q rc s') ->
  wp (remove_page gfn m 0) Q s.
Proof.
  intros Ht Hg Hm El Hty Hv Ep Ho HQ. unfold host_remove_page. rewrite Htr. cbn [negb]. rewrite Hv. cbn [when].
  change (block 0) with [0]. apply wp_bind. cbn [for_each]. rewrite !Z.add_0_r, !u64_small by done.
  apply wp_bind, wp_bind, (wp_entry plat); [done|]. intros e Ee. rewrite El in Ee. injection Ee as Em Et Ea.
  rewrite <- Et. unfold plain_type in Hty. rewrite Hty. cbn [when]. apply wp_bind.
  eapply wp_set_gpfn; [exact Ep|done|]. apply wp_bug_on; [by rewrite Em, Z.eqb_refl, andb_false_r|]. apply wp_ret.
  set (s1 := set_gdm _ s). destruct (tables_m2p plat s s1 _ Ht eq_refl) as [Ht1 Hs1].
  apply wp_bind, wp_default_access; [done|].
  apply wp_unmap; [done|lia|]. intros rc s' x Hx (Ht' & d' & Es & E1 & E2 & E3) Hrc Hl. apply HQ; [done|].
  split; [done| |].
  - exists x. split; [done|]. intros g Hg0. rewrite Hl, Hs1 by done. done.
  - exists d'. split; [rewrite Es; done|]. by rewrite E1.
Qed.

(** ** Adding a frame *)

(** The machine-to-physical table points back: at guest memory that is the
    frame, or nowhere. *)
Definition m2p_back s : Prop := forall m p g,
  mfn_valid cfg m = true -> frame_table s !! m = Some p -> owner p = own_dom -> m2p (gdm s) !! m = Some g -> g <> INVALID_M2P_ENTRY ->
  0 <= g < 2 ^ 64 /\ own_ram (glook s g).1.2 = true /\ (glook s g).1.1 = m.

(** The frame behind a guest frame that is memory. *)
Definition behind s (gfn : Z) : option Z :=
  let x := glook s gfn in if own_ram x.1.2 && mfn_valid cfg x.1.1 then Some x.1.1 else None.

(** An entry that may be replaced: not shared, granted or foreign, and not on
    the way back from the pager without a frame. *)
Definition replaceable s (gfn : Z) : Prop :=
  let x := glook s gfn in
  plain_type x.1.2 = true /\ (x.1.2 = p2m_ram_paging_in -> mfn_valid cfg x.1.1 = true).

(** What stays when entries are cleared for a new one. *)
Definition same_store s s' : Prop :=
  frame_table s' = frame_table s /\ heap_list s' = heap_list s /\ new_access (gdm s') = new_access (gdm s).

Lemma wp_clear_old s gfn Q :
  paging_inv s -> 0 <= gfn < 2 ^ 64 -> replaceable s gfn ->
  (forall n s1, tables_ok s1 -> same_map s s1 -> same_store s s1 ->
     m2p (gdm s1) = (match behind s gfn with Some o => <[o := INVALID_M2P_ENTRY]> (m2p (gdm s)) | None => m2p (gdm s) end) ->
     paged_pages s1 = paged_pages s - b2z (bool_decide ((glook s gfn).1.2 = p2m_ram_paged)) -> Q (inr n) s1) ->
  wp (add_clear_old cfg mem_sharing_unshare_page env (block 0) gfn 0) Q s.
Proof.
  intros I Hg [Hpl Hpi] HQ. change (block 0) with [0]. cbn [add_clear_old]. rewrite Z.add_0_r, u64_small by done.
  apply wp_bind, (wp_entry plat); [apply I|]. intros e El. unfold behind in HQ.
  pose proof (pi_entries _ _ _ I gfn ltac:(lia)) as Eo. unfold PagingProofs.entry_ok in Eo.
  rewrite El in Hpl, Hpi, HQ, Eo. cbn in Hpl, Hpi, HQ, Eo. unfold plain_type in Hpl.
  apply andb_true_iff in Hpl as [Hpl Hfo]. apply andb_true_iff in Hpl as [Hgr Hsh].
  apply negb_true_iff in Hgr, Hsh, Hfo. rewrite Hsh. apply wp_bind, wp_ret. rewrite Hgr, Hfo. cbn [orb].
  assert (Hsame : forall n, negb (p2m_is_ram (e_type e)) = true -> wp (ret (inr n)) Q s).
  { intros n Hr. apply wp_ret, HQ; [apply I|by intros g|done|by destruct (e_type e)|].
    rewrite bool_decide_false by (intros E; by rewrite E in Hr). cbn. lia. }
  destruct (p2m_is_ram (e_type e) && negb (p2m_is_paged (e_type e))) eqn:Er.
  - assert (Ho : own_ram (e_type e) = true /\ e_type e <> p2m_ram_paged) by (by destruct (e_type e)).
    destruct Ho as [Ho Hnp]. specialize (Eo Ho). rewrite Ho in HQ. cbn [andb] in HQ.
    assert (Hv : mfn_valid cfg (e_mfn e) = true).
    { destruct (mfn_valid cfg (e_mfn e)) eqn:Hv; [done|]. destruct Eo as [Eh _]. destruct (e_type e); try done. by apply Hpi. }
    rewrite Hv in Eo, HQ. cbn [negb]. apply wp_bind, wp_bug_on; [by rewrite Hv|]. apply wp_bind.
    destruct Eo as (_ & _ & _ & p & r & Ep & Epo & _). eapply wp_set_gpfn; [exact Ep|by rewrite Epo|].
    set (s1 := set_gdm _ s). destruct (tables_m2p plat s s1 _ (pi_tables _ _ _ I) eq_refl) as [Ht1 Hs1].
    apply wp_ret, HQ; try done. rewrite bool_decide_false by done. cbn. lia.
  - destruct (bool_decide (e_type e = p2m_populate_on_demand)) eqn:Epod.
    { apply bool_decide_eq_true in Epod. apply Hsame. by rewrite Epod. }
    destruct (p2m_is_paging (e_type e) && negb (bool_decide (e_type e = p2m_ram_paging_out))) eqn:Epg.
    + assert (Et : e_type e = p2m_ram_paged) by (by destruct (e_type e)).
      rewrite Et in *. apply wp_bind, wp_modify, wp_ret, HQ; [apply I|by intros g|done| |rewrite bool_decide_true by done; cbn; lia].
      destruct (mfn_valid cfg (e_mfn e)); [|done]. by destruct (Eo eq_refl) as [? _].
    + apply Hsame. by destruct (e_type e).
Qed.

(** The entries afterwards: that of the guest frame the new frame was mapped
    at before may be gone. *)
Definition alias_gone s (gfn m : Z) s' : Prop := forall g, 0 <= g ->
  glook s' g = glook s g \/ (g <> gfn /\ (glook s g).1.1 = m /\ unmapped (glook s' g)).

Lemma own_ram_facts ty : own_ram ty = true -> plain_type ty = true /\ p2m_is_ram ty = true.
Proof. by destruct ty. Qed.

Lemma wp_clear_alias s s1 gfn m p Q :
  paging_inv s -> m2p_back s -> tables_ok s1 -> same_map s s1 -> same_store s s1 ->
  0 <= gfn < 2 ^ 64 -> 0 <= m < 2 ^ 64 -> mfn_valid cfg m = true ->
  frame_table s !! m = Some p -> owner p = own_dom ->
  m2p (gdm s1) !! m = m2p (gdm s) !! m \/ m2p (gdm s1) !! m = Some INVALID_M2P_ENTRY ->
  (forall s2, tables_ok s2 -> same_store s s2 -> paged_pages s2 = paged_pages s1 ->
     (forall x, x <> m -> m2p (gdm s2) !! x = m2p (gdm s1) !! x) -> alias_gone s gfn m s2 -> Q true s2) ->
  wp (add_clear_aliases cfg plat mem_sharing_unshare_page zero mask_ok env (block 0) gfn m) Q s1.
Proof.
  intros I Hb Ht1 Hs1 Hst Hg Hm Hv Ep Epo Hm1 HQ. pose proof Hst as (F1 & F2 & F3).
  change (block 0) with [0]. cbn [add_clear_aliases]. rewrite !Z.add_0_r, !u64_small by done.
  apply wp_bind. eapply wp_frame_get; [by rewrite F1|]. rewrite Epo. cbn.
  unfold mfn_to_gfn. apply wp_bind, wp_bind. eapply wp_frame_get; [by rewrite F1|]. apply wp_gets.
  change (m2p (dm (gst s1))) with (m2p (gdm s1)). set (og := default INVALID_M2P_ENTRY _).
  apply wp_bind, wp_when; intros Hog.
  2: { apply wp_ret, HQ; try done. intros g Hg0. left. by apply Hs1. }
  apply andb_true_iff in Hog as [Hog1 Hog2]. zbool.
  assert (Hmp : m2p (gdm s) !! m = Some og).
  { destruct Hm1 as [E|E]; unfold og in *; rewrite E in *; [|done]. by destruct (m2p (gdm s) !! m). }
  destruct (Hb m p og Hv Ep Epo Hmp Hog1) as (Hogr & Hram & Efr).
  destruct (own_ram_facts _ Hram) as [Hpl Hisram].
  apply wp_bind, (wp_entry plat); [done|]. intros e El. rewrite Hs1 in El by lia.
  pose proof (pi_entries _ _ _ I og ltac:(lia) Hram) as Eo. rewrite El in Eo, Hram, Efr, Hpl, Hisram.
  cbn in Eo, Hram, Efr, Hpl, Hisram. rewrite Efr, Hv in Eo. destruct Eo as [Hnp _].
  rewrite Hisram. replace (p2m_is_paged (e_type e)) with false by (by destruct (e_type e)). cbn [negb andb when].
  apply wp_bind, wp_bug_on; [by rewrite Efr, Hv|]. rewrite Efr, Z.eqb_refl. cbn [when]. apply wp_bind.
  rewrite Efr in El. eapply (wp_remove_page s1 og m (e_type e) (e_access e) p); try done; [by rewrite Hs1 by lia|by rewrite F1|by rewrite Epo|].
  intros rc s2 Hrc [M1 (x & Hx & Hl) (d & Es & M3 & M4 & M5)]. apply wp_ret, wp_ret, HQ.
  - done.
  - rewrite Es. split; [done|]. split; [done|]. by rewrite <- F3, <- M5.
  - by rewrite Es.
  - intros y Hy. rewrite Es. cbn. by rewrite M3, lookup_insert_ne.
  - intros g Hg0. rewrite Hl, Hs1 by done. case_bool_decide as Hd; [|by left]. right. destruct Hd as [_ ->]. by rewrite El.
Qed.

(** Machine frame [m] was put behind guest frame [gfn]. *)
Record added s (gfn m : Z) s' : Prop := mkAdded {
  ad_tables : tables_ok s';
  ad_store : same_store s s';
  ad_entry : glook s' gfn = (m, p2m_ram_rw, new_access (gdm s));
  ad_others : forall g, 0 <= g -> g <> gfn ->
    glook s' g = glook s g \/ ((glook s g).1.1 = m /\ unmapped (glook s' g));
  ad_m2p : m2p (gdm s') !! m = Some gfn;
  ad_old : forall o, behind s gfn = Some o -> o <> m -> m2p (gdm s') !! o = Some INVALID_M2P_ENTRY;
  ad_rest : forall o, o <> m -> behind s gfn <> Some o -> m2p (gdm s') !! o = m2p (gdm s) !! o;
  ad_count : paged_pages s' = paged_pages s - b2z (bool_decide ((glook s gfn).1.2 = p2m_ram_paged))
}.

Lemma wp_add_page s gfn m p :
  paging_inv s -> m2p_back s -> 0 <= gfn < 2 ^ 64 -> replaceable s gfn -> 0 <= m < 2 ^ 64 ->
  mfn_valid cfg m = true -> frame_table s !! m = Some p -> owner p = own_dom ->
  wp (guest_physmap_add_entry cfg plat mem_sharing_unshare_page zero mask_ok env gfn m 0 p2m_ram_rw)
    (fun rc s' => rc <= 0 /\ (rc = 0 -> added s gfn m s')) s.
Proof.
  intros I Hb Hg Hr Hm Hv Ep Epo. unfold guest_physmap_add_entry. rewrite Htr. cbn [negb p2m_is_foreign].
  apply wp_bind, wp_clear_old; [done..|]. intros n s1 Ht1 Hs1 Hst1 Hm1 Hp1. apply wp_bind.
  eapply (wp_clear_alias s s1 gfn m p); try done.
  { rewrite Hm1. destruct (behind s gfn) as [o|]; [|by left]. destruct (decide (o = m)) as [->|].
    - right. apply lookup_insert_eq. - left. by rewrite lookup_insert_ne. }
  intros s2 Ht2 (F1 & F2 & F3) Hp2 Hm2 Hal. cbn [negb]. unfold add_map. apply wp_bind, wp_default_access; [done|].
  rewrite Hv. apply wp_bind. rewrite F3.
  assert (Hne : m <> INVALID_MFN) by (intros ->; by rewrite (invalid_not_valid cfg R) in Hv).
  apply wp_map; [done|lia|by apply (pr_may _ R); [|lia|]|done|].
  intros rc s3 (Ht3 & d3 & E3 & G1 & _ & G2) Hrc Hl.
  destruct (Z.eqb_spec rc 0) as [->|Hn]; cbn [negb]; [|by apply wp_ret].
  cbn [p2m_is_grant negb when]. change (block 0) with [0]. cbn [for_each]. rewrite !Z.add_0_r, !u64_small by done.
  apply wp_bind, wp_bind. eapply (wp_set_gpfn s3 m p); [rewrite E3; cbn; by rewrite F1|by rewrite Epo|].
  apply wp_ret, wp_ret. split; [done|]. intros _. set (s4 := set_gdm _ s3).
  destruct (tables_m2p plat s3 s4 _ Ht3 eq_refl) as [Ht4 Hs4].
  assert (Hmp : forall o, m2p (gdm s4) !! o = if decide (o = m) then Some gfn else m2p (gdm s1) !! o).
  { intros o. unfold s4. cbn. rewrite E3. cbn. rewrite G1. destruct (decide (o = m)) as [->|]; [by rewrite lookup_insert_eq|].
    rewrite lookup_insert_ne by done. by apply Hm2. }
  split; [done| | | | | | |].
  - assert (Hna : new_access (gdm s4) = new_access (gdm s3)) by done.
    assert (Hn3 : new_access (gdm s3) = new_access d3) by (by rewrite E3).
    split; [unfold s4; by rewrite E3|]. split; [unfold s4; by rewrite E3|]. by rewrite Hna, Hn3, G2.
  - rewrite Hs4, Hl by lia. by rewrite bool_decide_true.
  - intros g Hg0 Hne'. rewrite Hs4, Hl by done. rewrite bool_decide_false by tauto.
    destruct (Hal g Hg0) as [E|(_ & E1 & E2)]; [by left|right; by split].
  - rewrite Hmp. by destruct (decide _).
  - intros o Ho Hom. rewrite Hmp, Hm1, Ho. destruct (decide (o = m)); [done|]. apply lookup_insert_eq.
  - intros o Hom Ho. rewrite Hmp, Hm1. destruct (decide (o = m)); [done|]. destruct (behind s gfn) as [o'|]; [|done].
    rewrite lookup_insert_ne by congruence. done.
  - unfold s4. rewrite E3. cbn. by rewrite Hp2, Hp1.
Qed.

(** No guest frame but [gfn] is machine frame [m]. *)
Definition only_at s (gfn m : Z) : Prop :=
  forall g, 0 <= g -> g <> gfn -> own_ram (glook s g).1.2 = true -> (glook s g).1.1 <> m.

Lemma unmapped_frameless x : unmapped x -> frameless cfg x = false.
Proof. intros [_ Hu]. unfold frameless. by destruct (x.1.2). Qed.

Lemma replaced_frameless s gfn : paging_inv s -> 0 <= gfn -> replaceable s gfn ->
  bool_decide ((glook s gfn).1.2 = p2m_ram_paged) = frameless cfg (glook s gfn).
Proof.
  intros I Hg [_ Hpi]. pose proof (pi_entries _ _ _ I gfn Hg) as E. unfold PagingProofs.entry_ok, frameless in *.
  destruct (glook s gfn) as [[m ty] a]. cbn in *. case_bool_decide as Ht.
  - rewrite Ht in E |- *. specialize (E eq_refl). destruct (mfn_valid cfg m); [by destruct E|done].
  - destruct ty; try done. by rewrite Hpi.
Qed.

Lemma behind_owned s gfn o : paging_inv s -> 0 <= gfn -> behind s gfn = Some o -> owned s gfn o.
Proof.
  intros I Hg Hbe. unfold behind in Hbe. destruct (own_ram _ && mfn_valid _ _) eqn:E; [|done]. injection Hbe as <-.
  apply andb_true_iff in E as [E1 E2]. pose proof (pi_entries _ _ _ I gfn Hg E1) as Eo. rewrite E2 in Eo. apply Eo.
Qed.

Lemma added_inv s gfn m p r s' :
  paging_inv s -> 0 <= gfn -> replaceable s gfn -> 0 <= m -> mfn_valid cfg m = true ->
  frame_table s !! m = Some p -> owner p = own_dom -> held r p -> added s gfn m s' -> only_at s' gfn m ->
  paging_inv s'.
Proof.
  intros I Hg Hrep Hm Hv Ep Epo Hh [A1 (A2 & A2' & _) A3 A4 A5 A6 A7 A8] Hon.
  split; [done| | | |].
  - intros g Hg0. destruct (decide (g = gfn)) as [->|Hne].
    { rewrite A3. intros _. cbn. rewrite Hv. split; [done|]. split; [done|]. split; [done|]. exists p, r. by rewrite A2. }
    intros Hram. destruct (A4 g Hg0 Hne) as [E|[_ [_ Hu]]]; [|by rewrite Hu in Hram].
    pose proof (Hon g Hg0 Hne Hram) as Hnm. rewrite E in *. pose proof (pi_entries _ _ _ I g Hg0 Hram) as Eo.
    destruct (mfn_valid cfg (glook s g).1.1); [|done]. destruct Eo as [Eo1 (O1 & O2 & O3)]. split; [done|].
    split; [done|]. split; [|by rewrite A2]. rewrite A7; [done|done|]. intros Hbe.
    apply Hne. exact (owned_unique s g gfn _ (conj O1 (conj O2 O3)) (behind_owned s gfn _ I Hg Hbe)).
  - destruct (pi_heap _ _ _ I) as [H1' H2']. split; [by rewrite A2'|]. intros x Hx. rewrite A2. apply H2'. by rewrite <- A2'.
  - intros x Hx. apply I. by rewrite <- A2'.
  - apply (count_update cfg R s s' gfn); [apply I|done| |].
    + intros g Hg0 Hne. destruct (A4 g Hg0 Hne) as [->|[E Hu]]; [done|]. rewrite (unmapped_frameless _ Hu).
      unfold frameless. by rewrite E, Hv, andb_false_r.
    + rewrite A8, A3, (replaced_frameless s gfn I Hg Hrep). unfold frameless. cbn. lia.
Qed.

Lemma added_back s gfn m s' :
  m2p_back s -> 0 <= gfn < 2 ^ 64 -> added s gfn m s' -> m2p_back s'.
Proof.
  intros Hb Hg [A1 (A2 & A2' & _) A3 A4 A5 A6 A7 A8] x p g Hx Ep Epo Eg Hgi. rewrite A2 in Ep.
  destruct (decide (x = m)) as [->|Hne].
  { rewrite A5 in Eg. injection Eg as <-. by rewrite A3. }
  destruct (decide (behind s gfn = Some x)) as [Hbe|Hbe]; [rewrite (A6 x Hbe Hne) in Eg; congruence|].
  rewrite (A7 x Hne Hbe) in Eg. destruct (Hb x p g Hx Ep Epo Eg Hgi) as (Hgr & Hram & Efr). split; [done|].
  assert (Hgg : g <> gfn).
  { intros ->. apply Hbe. unfold behind. by rewrite Hram, Efr, Hx. }
  destruct (A4 g ltac:(lia) Hgg) as [->|[E _]]; [done|]. by rewrite Efr in E.
Qed.


(** ** Taking a reference *)

Lemma host_table_same (d : domain T) h t :
  hostp2m d = Some h -> t = table h -> d <| hostp2m ::= fmap (fun x => x <| table := default (table x) (Some t) |>) |> = d.
Proof. intros Hh ->. destruct d. unfold set. cbn in *. rewrite Hh. cbn. by destruct h. Qed.

Lemma wp_query s gfn Q : tables_ok s -> p2m_is_broken (glook s gfn).1.2 = false ->
  (forall e, glook s gfn = (e_mfn e, e_type e, e_access e) -> Q e s) ->
  wp (on_gdom (get_gfn_host cfg mem_sharing_unshare_page gfn 0)) Q s.
Proof.
  intros (_ & h & Hh & _) Hbr HQ. apply wp_on_gdom. unfold get_gfn_host. apply wp_bind. eapply wp_host_get; [exact Hh|].
  unfold __get_gfn_type_access. rewrite Htr. cbn [negb]. change (Z.land 0 P2M_UNSHARE =? 0) with true. cbn [negb andb].
  assert (El : forall e, e = (get_entry (table h) gfn 0).1 -> glook s gfn = (e_mfn e, e_type e, e_access e)).
  { intros e ->. unfold glook. by rewrite Hh. }
  pose proof (get_entry_pure (table h) gfn) as Hp. destruct (get_entry (table h) gfn 0) as [e t]. cbn in Hp, El.
  specialize (El e eq_refl). rewrite El in Hbr. cbn in Hbr. change (Z.land 0 P2M_UNSHARE =? 0) with true. cbn [negb andb].
  rewrite Hbr. apply wp_bind. eapply wp_host_upd; [exact Hh|]. rewrite (host_table_same _ h t Hh Hp).
  cbn [when]. apply wp_bind, wp_ret, wp_ret.
  replace (set_gdm (gdm s) s) with s by (unfold set_gdm, gdm, set; destruct s as [[]]; done). by apply HQ.
Qed.

Section Refs.
Context (scrubbed : Z) (cacheattr_ok : bool).
Local Abbreviation page_from_gfn := (get_page_from_gfn_p2m cfg mem_sharing_unshare_page scrubbed cacheattr_ok).
Local Abbreviation evict :=
  (p2m_mem_paging_evict cfg plat mem_sharing_unshare_page zero mask_ok scrubbed cacheattr_ok).

Lemma wp_page_from_gfn s gfn q m ty a p r :
  tables_ok s -> glook s gfn = (m, ty, a) -> own_ram ty = true -> mfn_valid cfg m = true ->
  frame_table s !! m = Some p -> owner p = own_dom -> held r p -> r + 2 < CNT ->
  wp (page_from_gfn false gfn q)
    (fun x s' => x.2 = Some m /\ e_type x.1 = ty /\
       s' = put_frame m (p <| count_info := PGC_allocated + (r + 1) |>) s) s.
Proof.
  intros Ht El Hty Hv Ep Epo Hh Hr. unfold get_page_from_gfn_p2m, page_fast. apply wp_bind, wp_bind.
  apply wp_query; [done|by rewrite El; destruct ty|]. intros e Ee. rewrite El in Ee. injection Ee as Em Et Ea.
  cbv zeta. rewrite <- Em, <- Et, Hv.
  replace (p2m_is_any_ram ty) with true by (by destruct ty). replace (p2m_is_shared ty) with false by (by destruct ty).
  rewrite andb_false_r. cbn [andb negb]. replace (p2m_is_foreign ty) with false by (by destruct ty).
  apply wp_bind. eapply wp_get_page; [done|done|exact Hh|lia|]. intros _. apply wp_ret, wp_ret. cbn. by rewrite Et.
Qed.

(** C15. Guest memory that somebody got hold of by its guest address is not
    taken away by the pager: get_page_from_gfn() on memory that is there,
    whatever stage of paging it is in, returns the machine frame with one more
    reference, unless the count is near its end; from then on, as long as the
    reference is held, an eviction of that guest frame returns -EBUSY and
    changes nothing. *)
Theorem page_reference_prevents_eviction s gfn q m ty a p r :
  paging_inv s -> 0 <= gfn -> glook s gfn = (m, ty, a) -> own_ram ty = true -> mfn_valid cfg m = true ->
  frame_table s !! m = Some p -> held r p -> r + 2 < CNT ->
  wp (page_from_gfn false gfn q)
    (fun x s1 => x.2 = Some m /\ e_type x.1 = ty /\ paging_inv s1 /\
       s1 = put_frame m (p <| count_info := PGC_allocated + (r + 1) |>) s /\
       wp (evict gfn) (fun rc s' => rc = - EBUSY /\ s' = s1) s1) s.
Proof.
  intros I Hg El Hty Hv Ep Hh Hr.
  assert (Ho : owner p = own_dom).
  { pose proof (pi_entries _ _ _ I gfn Hg) as E. rewrite El in E. specialize (E Hty). cbn in E. rewrite Hv in E.
    destruct E as (_ & _ & _ & p' & r' & E1 & E2 & _). congruence. }
  eapply wp_mono; [by apply (wp_page_from_gfn s gfn q m ty a p r); [apply I|..]|]. intros x s1 (E1 & E2 & ->).
  destruct (inv_frame cfg plat R s m p (p <| count_info := PGC_allocated + (r + 1) |>) I Ep Ho) as [I1 M1]; [done| |].
  { intros r0 _. exists (r + 1). destruct Hh. split; [done|]. lia. }
  split; [done|]. split; [done|]. split; [done|]. split; [done|].
  apply (wp_evict_busy cfg plat _ _ _ _ _ R _ gfn m (p <| count_info := PGC_allocated + (r + 1) |>) (r + 1)); [done|done| | |done|].
  - by rewrite M1, El.
  - apply lookup_insert_eq.
  - destruct Hh. lia.
Qed.
End Refs.
End Physmap.
