(* ===== verification/Balloon.v ===== *)
(** * Guest memory given back (theorems about guest_remove_page() in Paging.v)

    A guest that balloons gives frames back: frames that are there, frames the
    pager has, and frames on the way between the two. *)

From S2P Require Import Prelude Monad P2m P2mProofs Altp2m Altp2mProofs Altp2mSwitch Altp2mInv Altp2mTables.
From S2P Require Import VmEvent VmEventProofs VmEventSystem VmEventFrame MemAccess MemAccessProofs MemEvents NestedFault FaultEvents.
From S2P Require Import Frames FramesProofs Physmap Paging PagingProofs PagingOps PagingSystem PhysmapProofs.

Section Balloon.
Context {T : Type} `{P2MPagingLaws T}.
Context (cfg : p2m_config) (plat : platform).
Context (mem_sharing_unshare_page : T -> Z -> T) (zero : T) (mask_ok : Z -> bool).
Context (env : physmap_env) (scrubbed : Z) (cacheattr_ok : bool).
Context (put_page_type : Z -> M (pgd T) unit).
Context (R : paging_rules cfg) (Htr : paging_translate cfg = true).
Context (F : Z) (HF : 0 <= F) (k : nat).
Local Abbreviation G := (pgd T).
Local Abbreviation paging_inv := (paging_inv cfg plat).
Local Abbreviation tables_ok := (tables_ok plat).
Local Abbreviation remove :=
  (guest_remove_page cfg plat mem_sharing_unshare_page zero mask_ok env scrubbed cacheattr_ok (Some k) put_page_type).
Local Abbreviation remove_page := (host_remove_page cfg plat mem_sharing_unshare_page zero mask_ok env).
Implicit Types (s : G).

(** ** The request to the pager *)

Definition drop_request (gfn : Z) (ty : p2m_type) : vm_event :=
  no_event <| reason := VM_EVENT_REASON_MEM_PAGING |> <| ma_req_gfn := gfn |>
    <| pg_flags := if bool_decide (ty = p2m_ram_paging_out) then Z.lor MEM_PAGING_DROP_PAGE MEM_PAGING_EVICT_FAIL
                   else MEM_PAGING_DROP_PAGE |>.

(** vCPU [k] has the ring and a free slot. *)
Record can_ask s (l : list pc) (fh : nat) (h : Z) (p : sring) : Prop := mkAsk {
  ca_inv : inv F (mkSys (gst s) l fh h);
  ca_page : ring_page (ved (gst s)) = Some p;
  ca_run : l !! k = Some Run;
  ca_free : 0 < avail (ved (gst s))
}.

Lemma can_ask_dom s d l fh h p : can_ask s l fh h p -> can_ask (set_gdm d s) l fh h p.
Proof. intros [A1 A2 A3 A4]. split; try done. by eapply ring_inv_ext. Qed.

(** The pager was told, and the counter changed. *)
Record told s (gfn : Z) (ty : p2m_type) l fh h p s' : Prop := mkTold {
  td_state : exists v, s' = s <| gst := v |> <| paged_pages := paged_pages s - b2z (negb (bool_decide (ty = p2m_ram_paging_out))) |> /\
    bare_dom (dm v) = bare_dom (gdm s);
  td_ring : ring_page (ved (gst s')) = Some (page_put (ved (gst s)) (stamp (Some k) (drop_request gfn ty)) p);
  td_inv : inv F (mkSys (gst s') l fh h)
}.

Lemma wp_drop s gfn ty l fh h p Q :
  can_ask s l fh h p -> (forall s', told s gfn ty l fh h p s' -> Q true s') ->
  wp (p2m_mem_paging_drop_page (Some k) gfn ty) Q s.
Proof.
  intros [A1 A2 A3 A4] HQ. unfold p2m_mem_paging_drop_page, slept. apply wp_bind, wp_on_gst.
  eapply wp_claim_slot; [done..|]. intros I1. unfold drop_claimed. change (0 <? 0) with false. cbv iota zeta.
  set (s1 := s <| gst := claimed (gst s) |>).
  set (s2 := s1 <| paged_pages := paged_pages s - b2z (negb (bool_decide (ty = p2m_ram_paging_out))) |>).
  assert (Hput : wp (on_gst (vm_event_put_request (Some k) (drop_request gfn ty))) (fun _ s' => Q true s') s2).
  { apply wp_on_gst. eapply (wp_put_held k F HF (claimed (gst s)) l fh h p); [exact I1|done|done|].
    intros v' I' Har Hp'. destruct (around_parts 0 _ _ (Har 0%nat)) as (Ed & _). apply HQ. split; [|exact Hp'|exact I'].
    exists v'. split; [done|]. by rewrite Ed. }
  apply wp_bind, wp_bind. apply wp_when; intros Eout.
  - apply wp_modify. unfold s2 in Hput. rewrite Eout in Hput. apply (wp_mono _ (fun _ s' => Q true s')); [|intros [] s' HQ'; by apply wp_ret].
    replace (s1 <| paged_pages ::= Z.add (-1) |>) with (s1 <| paged_pages := paged_pages s - b2z true |>); [exact Hput|].
    unfold set. cbn. f_equal. lia.
  - unfold s2 in Hput. rewrite Eout in Hput. apply (wp_mono _ (fun _ s' => Q true s')); [|intros [] s' HQ'; by apply wp_ret].
    replace (s1 <| paged_pages := paged_pages s - b2z false |>) with s1 in Hput; [exact Hput|].
    unfold s1, set. cbn. f_equal. lia.
Qed.

(** ** A frame the pager has *)

Lemma wp_remove_hole s gfn m Q :
  tables_ok s -> 0 <= gfn -> mfn_valid cfg m = false ->
  (forall rc s' x, unmapped x -> written plat s s' -> rc <= 0 ->
     (forall g, 0 <= g -> glook s' g = if bool_decide (rc = 0 /\ g = gfn) then x else glook s g) -> Q rc s') ->
  wp (remove_page gfn m 0) Q s.
Proof.
  intros Ht Hg Hv HQ. unfold host_remove_page. rewrite Htr, Hv. cbn [negb when]. apply wp_bind, wp_ret.
  apply wp_bind, (wp_default_access plat); [done|]. by apply (wp_unmap cfg plat).
Qed.

(** The entry of [gfn] went, if the table allowed it ([rc]). *)
Definition entry_gone s (gfn rc : Z) s' : Prop :=
  exists x, unmapped x /\ forall g, 0 <= g ->
    glook s' g = if bool_decide (rc = 0 /\ g = gfn) then x else glook s g.

Lemma told_map s gfn ty l fh h p s' : told s gfn ty l fh h p s' ->
  same_map s s' /\ frame_table s' = frame_table s /\ heap_list s' = heap_list s /\ m2p (gdm s') = m2p (gdm s) /\
  paged_pages s' = paged_pages s - b2z (negb (bool_decide (ty = p2m_ram_paging_out))).
Proof.
  intros [(v & -> & Ed) _ _]. split; [apply glook_dom; by apply (f_equal hostp2m) in Ed|].
  split_and!; try done. by apply (f_equal m2p) in Ed.
Qed.

Lemma told_inv s gfn ty l fh h p s' : told s gfn ty l fh h p s' ->
  paging_inv (s <| paged_pages := paged_pages s' |>) -> paging_inv s'.
Proof.
  intros Td I. destruct (told_map _ _ _ _ _ _ _ _ Td) as (_ & _ & _ & _ & Ep). destruct Td as [(v & -> & Ed) _ _].
  apply (inv_gst cfg plat R _ v I); [eapply inv_repaused; [apply I|exact Ed]|by apply (f_equal hostp2m) in Ed|].
  by apply (f_equal m2p) in Ed.
Qed.

Lemma frameless_facts s gfn : frameless cfg (glook s gfn) = true ->
  hole_type (glook s gfn).1.2 = true /\ mfn_valid cfg (glook s gfn).1.1 = false.
Proof. unfold frameless. intros E. apply andb_true_iff in E as [E1 E2]. by apply negb_true_iff in E2. Qed.

(** C29. A guest that gives back a frame the pager has: the call returns 1
    without sleeping, the next request on the ring tells the pager to drop
    what it saved, no frame of the machine is touched, and d->paged_pages is
    one less; with the entry gone the frames keep their invariant. *)
Theorem balloon_out_paged s gfn l fh h p :
  paging_inv s -> can_ask s l fh h p -> 0 <= gfn -> frameless cfg (glook s gfn) = true ->
  wp (remove gfn) (fun r s' => r = Some true /\
    ring_page (ved (gst s')) = Some (page_put (ved (gst s)) (stamp (Some k) (drop_request gfn (glook s gfn).1.2)) p) /\
    inv F (mkSys (gst s') l fh h) /\ frame_table s' = frame_table s /\ heap_list s' = heap_list s /\
    paged_pages s' = paged_pages s - 1 /\
    exists rc, rc <= 0 /\ entry_gone s gfn rc s' /\ (rc = 0 -> paging_inv s')) s.
Proof.
  intros I Ca Hg Hf. destruct (frameless_facts _ _ Hf) as [Hty Hv]. unfold guest_remove_page.
  apply wp_bind, (wp_query cfg plat _ Htr); [apply I|by destruct (glook s gfn).1.2|]. intros e El. rewrite El in Hf, Hty, Hv |- *.
  cbn [fst snd] in Hty, Hv |- *. cbv zeta. replace (p2m_is_paging (e_type e)) with true by (by destruct (e_type e)).
  unfold guest_physmap_remove_page. apply wp_bind, wp_remove_hole; [apply I|done|done|].
  intros rc s1 x Hx W Hrc Hl. pose proof W as (Ht1 & d1 & E1 & M1 & _).
  replace (bool_decide (e_type e = p2m_ram_paging_out)) with false by (by destruct (e_type e)). cbn [when].
  apply wp_bind, wp_ret, wp_bind. eapply (wp_drop s1 gfn (e_type e) l fh h p); [rewrite E1; by apply can_ask_dom|].
  intros s2 Td. apply wp_ret. destruct (told_map _ _ _ _ _ _ _ _ Td) as (Hs2 & F2 & F3 & F4 & F5).
  assert (Hpg : paged_pages s2 = paged_pages s - 1).
  { rewrite F5, E1. replace (bool_decide (e_type e = p2m_ram_paging_out)) with false by (by destruct (e_type e)). done. }
  pose proof Td as [_ Hring Hinv]. rewrite E1 in Hring. split; [done|]. split; [exact Hring|]. split; [done|].
  split; [by rewrite F2, E1|]. split; [by rewrite F3, E1|]. split; [done|]. exists rc. split; [done|]. split.
  { exists x. split; [done|]. intros g Hg0. by rewrite Hs2, Hl. }
  intros ->. apply (told_inv _ _ _ _ _ _ _ _ Td). set (s1' := s1 <| paged_pages := _ |>).
  assert (Hsx : glook s1' gfn = x) by (change (glook s1 gfn = x); rewrite Hl by done; by rewrite bool_decide_true).
  apply (inv_update cfg plat R s s1' gfn I Hg).
  - exact Ht1.
  - intros g Hg0 Hne. change (glook s1 g = glook s g). rewrite Hl by done. by rewrite bool_decide_false by (intros [_ ?]; done).
  - rewrite Hsx. intros Hr. destruct Hx as [_ Hu]. by rewrite Hu in Hr.
  - intros g m' _ Ho. exact (owned_written plat s s1 g m' W Ho).
  - unfold s1'. rewrite E1. apply I.
  - unfold s1'. rewrite E1. apply I.
  - change (paged_pages s1') with (paged_pages s2).
    rewrite Hsx, (unmapped_frameless cfg _ Hx), Hpg, El, Hf. cbn. lia.
Qed.

(** ** A frame that was wanted back before it was evicted *)

(** The counter is no longer the number of guest frames without a frame. *)
Lemma count_off s s' gfn : count_ok cfg s -> 0 <= gfn ->
  (forall g, 0 <= g -> frameless cfg (glook s' g) = frameless cfg (glook s g)) ->
  paged_pages s' = paged_pages s - 1 -> ~ count_ok cfg s'.
Proof.
  intros (X & HX & Hc) Hg Hsame Hp (X' & HX' & Hc'). assert (X' = X) as ->; [|lia].
  apply set_eq. intros g. rewrite HX, HX'. split; intros [Hg0 Hf]; (split; [done|]); [by rewrite <- Hsame|by rewrite Hsame].
Qed.

(** C40. A guest that gives back a frame which was nominated, wanted again and
    is still there loses it: guest_remove_page() removes the entry and tells
    the pager to drop a copy that does not exist, but drops no reference of
    the frame, so that the domain goes on owning a frame no guest address
    leads to; and d->paged_pages counts it as a paged-out frame that came
    back, so that it is one too small from then on. *)
Theorem balloon_coming_leaks s gfn m a q l fh h p :
  paging_inv s -> can_ask s l fh h p -> 0 <= gfn < 2 ^ 64 -> 0 <= m < 2 ^ 64 ->
  glook s gfn = (m, p2m_ram_paging_in, a) -> mfn_valid cfg m = true -> frame_table s !! m = Some q ->
  wp (remove gfn) (fun r s' => r = Some true /\ frame_table s' !! m = Some q /\ heap_list s' = heap_list s /\
    m2p (gdm s') !! m = Some INVALID_M2P_ENTRY /\ paged_pages s' = paged_pages s - 1 /\
    exists rc, entry_gone s gfn rc s' /\ (rc = 0 -> ~ count_ok cfg s')) s.
Proof.
  intros I Ca Hg Hm El Hv Eq.
  assert (Ho : owned s gfn m).
  { pose proof (pi_entries _ _ _ I gfn ltac:(lia)) as E. rewrite El in E. specialize (E eq_refl). cbn in E. rewrite Hv in E. apply E. }
  assert (Hq : owner q <> own_cow) by (destruct Ho as (_ & _ & q' & r' & E1 & E2 & _); simplify_eq; by rewrite E2).
  unfold guest_remove_page. apply wp_bind, (wp_query cfg plat _ Htr); [apply I|by rewrite El|]. intros e Ee. rewrite El in Ee.
  injection Ee as Em Et Ea. cbv zeta. rewrite <- Et, <- Em. cbn [p2m_is_paging]. apply wp_bind.
  eapply (wp_remove_page cfg plat _ _ _ env Htr s gfn m p2m_ram_paging_in a q); [apply I|done..|].
  intros rc s1 Hrc [M1 (x & Hx & Hl) (d & E1 & M3 & _)]. cbn [when bool_decide]. apply wp_bind, wp_ret, wp_bind.
  eapply (wp_drop s1 gfn p2m_ram_paging_in l fh h p); [rewrite E1; by apply can_ask_dom|].
  intros s2 Td. apply wp_ret. destruct (told_map _ _ _ _ _ _ _ _ Td) as (Hs2 & F2 & F3 & F4 & F5).
  assert (Hpg : paged_pages s2 = paged_pages s - 1) by (by rewrite F5, E1).
  split; [done|]. split; [by rewrite F2, E1|]. split; [by rewrite F3, E1|].
  split; [rewrite F4, E1; cbn; by rewrite M3, lookup_insert_eq|]. split; [done|]. exists rc.
  assert (Hl2 : forall g, 0 <= g -> glook s2 g = if bool_decide (rc = 0 /\ g = gfn) then x else glook s g).
  { intros g Hg0. by rewrite Hs2, Hl. }
  split; [by exists x|]. intros ->. refine (count_off s s2 gfn (pi_count _ _ _ I) ltac:(lia) _ Hpg).
  intros g Hg0. rewrite Hl2 by done. clear F5. case_bool_decide as Hd; [|done]. destruct Hd as [_ ->].
  rewrite (unmapped_frameless cfg _ Hx), El. unfold frameless. cbn. by rewrite Hv.
Qed.

(** ** A frame that is there *)

Lemma clearbit_clear t n : 0 <= n -> Z.testbit t n = false -> Z.clearbit t n = t.
Proof.
  intros Hn Hb. apply Z.bits_inj'. intros i Hi. rewrite Z.clearbit_eqb by done.
  destruct (Z.eqb_spec n i) as [->|]; [by rewrite Hb|]. by rewrite andb_true_r.
Qed.

(** The frame went to the heap and the entry, if the table allowed it, with
    it. *)
Record given_back s (gfn m rc : Z) s' : Prop := mkGiven {
  gb_tables : tables_ok s';
  gb_map : entry_gone s gfn rc s';
  gb_frame : exists p', frame_table s' = <[m := p']> (frame_table s) /\
               count_info p' = PGC_state_free /\ owner p' = own_none;
  gb_heap : heap_list s' = m :: heap_list s;
  gb_m2p : m2p (gdm s') = <[m := INVALID_M2P_ENTRY]> (m2p (gdm s));
  gb_paged : paged_pages s' = paged_pages s;
  gb_tot : tot_pages s' = tot_pages s - 1
}.

(** Guest memory that is there, with no user but its mapping. *)
Record idle_frame s (gfn m : Z) (ty : p2m_type) (a : p2m_access) (q : page_info) : Prop := mkIdle {
  id_entry : glook s gfn = (m, ty, a);
  id_type : own_ram ty = true /\ p2m_is_paging ty = false;
  id_valid : mfn_valid cfg m = true;
  id_frame : frame_table s !! m = Some q;
  id_count : count_info q = PGC_allocated + 1;
  id_used : Z.land (type_info q) PGT_count_mask = 0;
  id_pinned : Z.testbit (type_info q) _PGT_pinned = false
}.

Lemma wp_remove_idle s gfn m ty a q :
  paging_inv s -> 0 <= gfn < 2 ^ 64 -> 0 <= m < 2 ^ 64 -> idle_frame s gfn m ty a q ->
  wp (remove gfn) (fun r s' => r = Some true /\ exists rc, rc <= 0 /\ given_back s gfn m rc s') s.
Proof.
  intros I Hg Hm [El [Hty Hnp] Hv Eq Ec Hu Hpin].
  assert (Ho : owner q = own_dom).
  { pose proof (pi_entries _ _ _ I gfn ltac:(lia)) as E. rewrite El in E. specialize (E Hty). cbn in E. rewrite Hv in E.
    destruct E as (_ & _ & _ & q' & r' & E1 & E2 & _). congruence. }
  unfold guest_remove_page. apply wp_bind, (wp_query cfg plat _ Htr); [apply I|by rewrite El; destruct ty|]. intros e Ee. rewrite El in Ee.
  injection Ee as Em Et Ea. cbv zeta. rewrite <- Et, <- Em, Hnp, Hv.
  rewrite bool_decide_false by (by destruct ty). cbn [negb].
  replace (p2m_is_shared ty) with false by (by destruct ty). apply wp_bind, wp_ret.
  assert (Hh : held 1 q) by (split; [done|unfold CNT; lia]).
  apply wp_bind. eapply wp_get_page; [done|done|exact Hh|unfold CNT; lia|]. intros _. cbn [negb].
  set (q1 := q <| count_info := _ |>). set (s1 := put_frame m q1 s).
  apply wp_bind. eapply (wp_frame_get s1 m q1); [apply lookup_insert_eq|].
  apply wp_bind. eapply (wp_frame_upd s1 m q1); [apply lookup_insert_eq|].
  replace (q1 <| type_info ::= _ |>) with q1.
  2: { unfold q1, set. cbn. f_equal. symmetry. by apply clearbit_clear. }
  unfold s1. rewrite put_frame_put. fold s1. change (type_info q1) with (type_info q). rewrite Hpin. cbn [when].
  apply wp_bind, wp_ret. unfold test_and_clear_allocated. apply wp_bind, wp_bind.
  eapply (wp_frame_get s1 m q1); [apply lookup_insert_eq|]. apply wp_bind.
  eapply (wp_frame_upd s1 m q1); [apply lookup_insert_eq|]. apply wp_ret.
  change (count_info q1) with (PGC_allocated + 2). rewrite held_alloc_bit by (unfold CNT; lia). cbn [when].
  set (q2 := q1 <| count_info ::= _ |>). set (s2 := put_frame m q2 s1).
  assert (C2 : count_info q2 = 0 + 2) by (unfold q2; cbn; by apply held_clear_bit).
  apply wp_bind. eapply (wp_put_page_more _ _ s2 m q2 0 2); [apply lookup_insert_eq|done|done|done|unfold CNT; lia|done|].
  unfold s2, s1. rewrite !put_frame_put. set (q3 := q2 <| count_info := _ |>). set (s3 := put_frame m q3 s).
  apply wp_bind. unfold guest_physmap_remove_page.
  eapply (wp_remove_page cfg plat _ _ _ env Htr s3 gfn m ty a q3); try done.
  { apply I. } { by destruct ty. } { apply lookup_insert_eq. } { change (owner q <> own_cow). by rewrite Ho. }
  intros rc s4 Hrc [M1 M2 (d & E4 & M3 & _)]. apply wp_bind.
  eapply (wp_put_page_last _ _ s4 m q3); [rewrite E4; apply lookup_insert_eq|by left|done|done|].
  intros s5 [(p' & F1 & F2) F3 F4 (F5 & _)] Ftot. apply wp_ret. split; [done|]. exists rc. split; [done|].
  destruct (tables_m2p plat s4 s5 _ M1 F4) as [Ht5 Hs5]. split; [done| | | | | |].
  - destruct M2 as (x & Hx & Hl). exists x. split; [done|]. intros g Hg0. by rewrite Hs5, Hl.
  - exists p'. split; [|done]. rewrite F1, E4. unfold s3, put_frame. cbn. by rewrite insert_insert_eq.
  - by rewrite F3, E4.
  - rewrite F4, E4. cbn. rewrite M3. unfold s3. by rewrite insert_insert_eq.
  - by rewrite F5, E4.
  - by rewrite Ftot, E4.
Qed.

Lemma given_back_inv s gfn m ty a q s' :
  paging_inv s -> 0 <= gfn -> 0 <= m -> idle_frame s gfn m ty a q -> given_back s gfn m 0 s' -> paging_inv s'.
Proof.
  intros I Hg Hm [El [Hty Hnp] Hv Eq Ec Hu _] [V1 (x & Hx & Hl) (p' & V3 & V4 & V5) V6 V7 V8 _].
  assert (Hown : owned s gfn m).
  { pose proof (pi_entries _ _ _ I gfn Hg) as E. rewrite El in E. specialize (E Hty). cbn in E. rewrite Hv in E. apply E. }
  assert (Hnh : m ∉ heap_list s) by (intros Hin; by destruct (free_not_owned s gfn m (pi_heap _ _ _ I) Hin)).
  assert (Hgx : glook s' gfn = x) by (rewrite Hl by done; by rewrite bool_decide_true).
  apply (inv_update cfg plat R s s' gfn I Hg V1).
  - intros g Hg0 Hne. rewrite Hl by done. by rewrite bool_decide_false by (intros [_ ?]; done).
  - rewrite Hgx. intros Hr. destruct Hx as [_ Hu']. by rewrite Hu' in Hr.
  - intros g m' Hne Ho. destruct (decide (m' = m)) as [->|Hd]; [by destruct Hne; eapply owned_unique|].
    by apply (owned_other s s' g m m' p' INVALID_M2P_ENTRY).
  - apply (heap_grown s s' m p'); [apply I|done..].
  - intros y Hy. rewrite V6 in Hy. apply elem_of_cons in Hy as [->|Hy]; [done|]. by apply I.
  - rewrite Hgx, (unmapped_frameless cfg _ Hx), El, V8. unfold frameless. cbn. rewrite Hv, andb_false_r. cbn. lia.
Qed.

End Balloon.
