(* ===== verification/FrameTypes.v ===== *)
(** * What a frame table is (theorems about Frames.v, Physmap.v and Paging.v)

    The words of a frame are 64 bits wide, and the list of free frames has
    every free frame once, with no owner and no references.  Every operation
    on frames keeps this, whatever frame it is called with and whatever else
    is wrong in the state: a frame can be freed twice or handed out while it
    is in use only through a BUG(). *)

From S2P Require Import Prelude Monad P2m Altp2m VmEvent MemAccess NestedFault Frames FramesProofs Physmap Paging.

(** ** 64-bit words *)

Definition word (x : Z) : Prop := 0 <= x < 2 ^ 64.

Lemma word_shift x : word x <-> Z.shiftr x 64 = 0.
Proof. unfold word. rewrite Z.shiftr_div_pow2 by done. rewrite Z.div_small_iff by done. lia. Qed.
Lemma word_lor x y : word x -> word y -> word (Z.lor x y).
Proof. rewrite !word_shift, Z.shiftr_lor. by intros -> ->. Qed.
Lemma word_land x y : word x -> word (Z.land x y).
Proof. rewrite !word_shift, Z.shiftr_land. by intros ->. Qed.
Lemma word_ldiff x y : word x -> word (Z.ldiff x y).
Proof. rewrite !word_shift, Z.shiftr_ldiff. by intros ->. Qed.
Lemma word_clearbit x n : word x -> word (Z.clearbit x n).
Proof. apply word_ldiff. Qed.
Lemma word_u64 x : word (u64 x).
Proof. unfold word, u64. apply Z.mod_pos_bound. lia. Qed.

Create HintDb typed discriminated.
#[export] Hint Resolve word_lor word_land word_ldiff word_clearbit word_u64 : typed.

Definition page_words (p : page_info) : Prop := word (count_info p) /\ word (type_info p).
(** A free frame may be marked as broken. *)
Definition free_page (p : page_info) : Prop :=
  (count_info p = PGC_state_free \/ count_info p = Z.lor PGC_broken PGC_state_free) /\ owner p = own_none.

Lemma land_broken c : Z.land c PGC_broken = 0 \/ Z.land c PGC_broken = PGC_broken.
Proof.
  change PGC_broken with (2 ^ 57). destruct (Z.testbit c 57) eqn:E; [right|left]; apply Z.bits_inj'; intros i Hi.
  all: rewrite Z.land_spec, Z.pow2_bits_eqb, ?Z.bits_0 by done; destruct (Z.eqb_spec 57 i) as [<-|]; by rewrite ?E, ?andb_false_r.
Qed.

Section Types.
Context {T : Type}.
Local Abbreviation G := (pgd T).
Implicit Types (s : G).

Record frames_typed s : Prop := mkTyped {
  ft_words : forall m p, frame_table s !! m = Some p -> page_words p;
  ft_nodup : NoDup (heap_list s);
  ft_free : forall m, m ∈ heap_list s -> exists p, frame_table s !! m = Some p /\ free_page p
}.

(** [m] may run in [P]; if it returns, [Q] holds. *)
Definition wlp {A} (m : M G A) (Q : A -> G -> Prop) s : Prop := forall a s', m s = Some (a, s') -> Q a s'.
Definition Typed {A} (m : M G A) : Prop := forall s, frames_typed s -> wlp m (fun _ s' => frames_typed s') s.
(** The frame is not free, before and after. *)
Definition out_of_heap (x : Z) s : Prop := frames_typed s /\ x ∉ heap_list s.
Definition Out {A} (x : Z) (m : M G A) : Prop := forall s, out_of_heap x s -> wlp m (fun _ s' => out_of_heap x s') s.

Lemma wlp_bind {A B} (m : M G A) (k : A -> M G B) (P : A -> G -> Prop) Q s :
  wlp m P s -> (forall a s1, P a s1 -> wlp (k a) Q s1) -> wlp (bind m k) Q s.
Proof. intros Hm Hk b s' E. apply bind_inv in E as (a & s1 & E1 & E2). by eapply Hk; [apply Hm|]. Qed.
Lemma wlp_ret {A} (a : A) (Q : A -> G -> Prop) s : Q a s -> wlp (ret a) Q s.
Proof. intros HQ b s' E. unfold ret in E. by injection E as <- <-. Qed.
Lemma wlp_frame_get x (Q : page_info -> G -> Prop) s :
  (forall p, frame_table s !! x = Some p -> Q p s) -> wlp (frame_get x) Q s.
Proof. intros HQ b s' E. unfold frame_get, deref in E. destruct (frame_table s !! x) eqn:Ex; [|done]. injection E as <- <-. by apply HQ. Qed.
Lemma wlp_get_bind {B} x (k : page_info -> M G B) Q s :
  (forall p, frame_table s !! x = Some p -> wlp (k p) Q s) -> wlp (bind (frame_get x) k) Q s.
Proof.
  intros Hk. apply (wlp_bind _ _ (fun p s1 => frame_table s !! x = Some p /\ s1 = s)); [by apply wlp_frame_get|].
  intros p s1 [Ep ->]. by apply Hk.
Qed.
Lemma wlp_bug_on b Q s : (b = false -> Q tt s) -> wlp (bug_on b) Q s.
Proof. intros HQ [] s' E. unfold bug_on in E. destruct b; [done|]. injection E as <-. by apply HQ. Qed.
Lemma wlp_bug_bind {B} b (k : unit -> M G B) Q s : (b = false -> wlp (k tt) Q s) -> wlp (bind (bug_on b) k) Q s.
Proof.
  intros Hk. apply (wlp_bind _ _ (fun _ s1 => b = false /\ s1 = s)); [by apply wlp_bug_on|]. intros [] s1 [Eb ->]. by apply Hk.
Qed.
Lemma wlp_when b (m : M G unit) Q s : (b = true -> wlp m Q s) -> (b = false -> Q tt s) -> wlp (when b m) Q s.
Proof. destruct b; [intros H _; by apply H|intros _ H; by apply wlp_ret, H]. Qed.

Lemma typed_bind {A B} (m : M G A) (k : A -> M G B) : Typed m -> (forall a, Typed (k a)) -> Typed (bind m k).
Proof. intros Hm Hk s Hs. eapply wlp_bind; [by apply Hm|]. intros a s1 H1. by apply Hk. Qed.
Lemma out_bind {A B} x (m : M G A) (k : A -> M G B) : Out x m -> (forall a, Out x (k a)) -> Out x (bind m k).
Proof. intros Hm Hk s Hs. eapply wlp_bind; [by apply Hm|]. intros a s1 H1. by apply Hk. Qed.
Lemma typed_when b (m : M G unit) : Typed m -> Typed (when b m).
Proof. intros Hm s Hs. apply wlp_when; [intros _; by apply Hm|done]. Qed.

(** What does not change frames or the heap. *)
Definition store s := (frame_table s, heap_list s).
Lemma typed_store s s' : store s' = store s -> frames_typed s -> frames_typed s'.
Proof. unfold store. intros [= E1 E2] [W N Fr]. split; rewrite ?E1, ?E2; try done. Qed.
Lemma store_typed {A} (m : M G A) : Keeps store m -> Typed m.
Proof. intros Hm s Hs a s' E. eapply typed_store; [by eapply Hm|done]. Qed.
Lemma store_out {A} x (m : M G A) : Keeps store m -> Out x m.
Proof.
  intros Hm s [Hs Hx] a s' E. pose proof (Hm _ _ _ E) as Es. split; [by eapply typed_store|].
  unfold store in Es. injection Es as _ E2. by rewrite E2.
Qed.

Lemma keeps_store_on_gst {A} (m : M (vst T) A) : Keeps store (on_gst m).
Proof. intros s b s' E. unfold on_gst in E. destruct (m (gst s)) as [[c v]|]; [|done]. by injection E as <- <-. Qed.
Lemma keeps_store_on_gdom {A} (m : M (domain T) A) : Keeps store (on_gdom m).
Proof. apply keeps_store_on_gst. Qed.
Lemma keeps_store_frame_get x : Keeps store (frame_get x).
Proof. apply keeps_deref. Qed.
Lemma keeps_store_set_gpfn x g : Keeps store (set_gpfn_from_mfn x g).
Proof. apply keeps_bind; [apply keeps_store_frame_get|]. intros p. apply keeps_store_on_gdom. Qed.

(** ** Updates of a frame *)

Lemma upd_run x f s a s' : frame_upd x f s = Some (a, s') -> exists p, frame_table s !! x = Some p /\ s' = put_frame x (f p) s.
Proof.
  unfold frame_upd. intros E. apply bind_inv in E as (p & s1 & E1 & E2). unfold frame_get, deref in E1.
  destruct (frame_table s !! x) as [p'|] eqn:Ex; [|done]. injection E1 as <- <-. exists p'. split; [done|].
  unfold modify in E2. injection E2 as _ <-. unfold put_frame, set. cbn. by rewrite (alter_known _ x p' f Ex).
Qed.

Lemma put_typed x p s : frames_typed s -> page_words p -> (x ∈ heap_list s -> free_page p) -> frames_typed (put_frame x p s).
Proof.
  intros [W N Fr] Hp Hx. split; unfold put_frame; cbn.
  - intros m q. destruct (decide (m = x)) as [->|]; [rewrite lookup_insert_eq; by intros [= <-]|].
    rewrite lookup_insert_ne by done. apply W.
  - done.
  - intros m Hm. destruct (decide (m = x)) as [->|]; [rewrite lookup_insert_eq; by eauto|].
    rewrite lookup_insert_ne by done. by apply Fr.
Qed.

(** A frame in use changes in any way; a free one keeps its state. *)
Lemma out_upd x f : (forall p, page_words p -> page_words (f p)) -> Out x (frame_upd x f).
Proof.
  intros Hf s [Hs Hx] a s' E. apply upd_run in E as (p & Ep & ->). split; [|done].
  apply put_typed; [done|apply Hf; by eapply ft_words|done].
Qed.
Lemma typed_upd x f :
  (forall p, page_words p -> page_words (f p)) -> (forall p, free_page p -> free_page (f p)) -> Typed (frame_upd x f).
Proof.
  intros Hf Hfree s Hs a s' E. apply upd_run in E as (p & Ep & ->). apply put_typed; [done|apply Hf; by eapply ft_words|].
  intros Hx. destruct (ft_free _ Hs x Hx) as (p' & Ep' & Hp'). apply Hfree. by simplify_eq.
Qed.

(** A frame with references is not free. *)
Lemma referenced_out x p s : frames_typed s -> frame_table s !! x = Some p ->
  (free_page p -> False) -> out_of_heap x s.
Proof. intros Hs Ep Hp. split; [done|]. intros Hx. destruct (ft_free _ Hs x Hx) as (q & Eq & Hq). simplify_eq. by apply Hp. Qed.
End Types.

#[export] Hint Resolve keeps_store_on_gst keeps_store_on_gdom keeps_store_frame_get keeps_store_set_gpfn : keeps.

(** Steps that hold whatever the frame is, and steps on a frame in use. *)
Ltac typed_step :=
  match goal with
  | |- Typed (bind _ _) => apply typed_bind; [|intros ?]
  | |- Typed (when _ _) => apply typed_when
  | |- Typed (if ?b then _ else _) => destruct b
  | |- Typed (match ?x with _ => _ end) => destruct x
  end.
Ltac typed_tac := cbv zeta; repeat first
  [solve [auto with typed nocore] | solve [apply store_typed; frame_tac] | typed_step; cbv zeta].
Ltac out_step :=
  match goal with
  | |- Out _ (bind _ _) => apply out_bind; [|intros ?]
  | |- Out _ (if ?b then _ else _) => destruct b
  end.
Ltac out_tac := cbv zeta; repeat first
  [solve [auto with typed nocore] | solve [apply store_out; frame_tac] | out_step; cbv zeta].

Section Ops.
Context {T : Type} (scrubbed : Z) (cacheattr_ok : bool).
Local Abbreviation G := (pgd T).
Implicit Types (s : G).

Lemma out_when {x b} {m : M G unit} : Out x m -> Out x (when b m).
Proof. intros Hm s Hs. apply wlp_when; [intros _; by apply Hm|done]. Qed.
Hint Resolve out_when : typed.

(** ** Frames *)

Lemma typed_scrub x : Typed (scrub_one_page scrubbed x : M G unit).
Proof. unfold scrub_one_page. typed_tac. by apply typed_upd. Qed.
Lemma out_scrub x : Out x (scrub_one_page scrubbed x : M G unit).
Proof. unfold scrub_one_page. out_tac. by apply out_upd. Qed.
Hint Resolve typed_scrub out_scrub : typed.

(** The frame goes on the list, once. *)
Lemma free_heap_typed x s : out_of_heap x s -> wlp (free_heap_page x) (fun _ s' => frames_typed s') s.
Proof.
  intros Hs. unfold free_heap_page. apply wlp_get_bind. intros p Ep. apply wlp_bug_bind. intros _.
  cbv zeta. set (off := page_state_is p PGC_state_offlining).
  set (f := fun q : page_info => _). eapply (wlp_bind _ _ (fun _ s3 => out_of_heap x s3 /\ exists q, frame_table s3 !! x = Some q /\ (off = false -> free_page q))).
  - intros a s3 E. split; [|apply upd_run in E as (q & Eq & ->)].
    + eapply out_upd; [|exact Hs|exact E]. intros q [Q1 Q2]. split; [|done]. cbn.
      apply word_lor; [by apply word_land|by destruct off].
    + simplify_eq. exists (f p). split; [apply lookup_insert_eq|]. intros Hoff. unfold f. rewrite Hoff. split; [cbn|done].
      destruct (land_broken (count_info p)) as [-> | ->]; [by left|by right].
  - intros [] s3 (H3 & q & Eq & Hq).
    eapply (wlp_bind _ _ (fun _ s4 => out_of_heap x s4 /\ frame_table s4 = frame_table s3)).
    { intros a s4 E. pose proof (keeps_store_set_gpfn _ _ _ _ _ E) as Es. split; [by eapply store_out; [apply keeps_store_set_gpfn|..]|].
      by injection Es. }
    intros [] s4 [[H4 Hx4] E4]. apply wlp_when; [|done]. intros Hoff. apply negb_true_iff in Hoff.
    intros a s5 E. unfold modify in E. injection E as _ <-. destruct H4 as [W N Fr]. split; cbn.
    + done.
    + by constructor.
    + intros m Hm. apply elem_of_cons in Hm as [->|Hm]; [|by apply Fr]. exists q. rewrite E4. split; [done|by apply Hq].
Qed.

(** From a frame in use to a typed state. *)
Definition Ends {A} (x : Z) (m : M G A) : Prop := forall s, out_of_heap x s -> wlp m (fun _ s' => frames_typed s') s.
Lemma ends_bind {A B} x (m : M G A) (k : A -> M G B) : Out x m -> (forall a, Ends x (k a)) -> Ends x (bind m k).
Proof. intros Hm Hk s Hs. eapply wlp_bind; [by apply Hm|]. intros a s1 H1. by apply Hk. Qed.
Lemma ends_then {A B} x (m : M G A) (k : A -> M G B) : Ends x m -> (forall a, Typed (k a)) -> Ends x (bind m k).
Proof. intros Hm Hk s Hs. eapply wlp_bind; [by apply Hm|]. intros a s1 H1. by apply Hk. Qed.
Lemma ends_out {A} x (m : M G A) : Out x m -> Ends x m.
Proof. intros Hm s Hs a s' E. by apply (Hm s Hs a s' E). Qed.
Lemma ends_when x b (m : M G unit) : Ends x m -> Ends x (when b m).
Proof. intros Hm s Hs. apply wlp_when; [intros _; by apply Hm|intros _; apply Hs]. Qed.
Lemma ends_free x : Ends x (free_heap_page x).
Proof. intros s. apply free_heap_typed. Qed.

Lemma ends_free_domheap x : Ends x (free_domheap_page scrubbed x).
Proof.
  unfold free_domheap_page. apply ends_bind; [out_tac|]. intros p. apply ends_bind; [out_tac|]. intros d. cbv zeta.
  destruct (negb _).
  { apply ends_out. out_tac. }
  apply ends_bind; [out_tac|]. intros []. apply ends_bind; [apply out_when; out_tac|]. intros [].
  apply ends_bind; [apply out_when; out_tac|]. intros []. apply ends_then; [apply ends_free|]. intros []. typed_tac.
Qed.

Lemma out_cleanup x : Out x (cleanup_page_cacheattr cacheattr_ok x : M G bool).
Proof.
  unfold cleanup_page_cacheattr. out_tac. apply out_upd. intros p [Hp Hp']. split; [|done]. cbn. by apply word_ldiff.
Qed.

Lemma free_low p : free_page p -> Z.land (count_info p) PGC_count_mask = 0.
Proof. intros [[-> | ->] _]; done. Qed.

Lemma typed_put_page x : Typed (put_page scrubbed cacheattr_ok x : M G unit).
Proof.
  intros s Hs. unfold put_page. apply wlp_get_bind. intros p Ep. apply wlp_bug_bind. intros Hb. cbv zeta.
  assert (Ho : out_of_heap x s).
  { apply (referenced_out x p s Hs Ep). intros Hf. by rewrite (free_low p Hf) in Hb. }
  revert s Hs Ep Ho. cut (Ends x (frame_upd x (fun p0 => p0 <| count_info := u64 (count_info p - 1) |>) ;;
    when (Z.land (u64 (count_info p - 1)) PGC_count_mask =? 0)
      (let! clean := cleanup_page_cacheattr cacheattr_ok x in when clean (free_domheap_page scrubbed x)))%monad).
  { intros He s _ _. apply He. }
  apply ends_bind; [apply out_upd; intros q [_ Hq]; split; [apply word_u64|done]|]. intros []. apply ends_when.
  apply ends_bind; [apply out_cleanup|]. intros clean. apply ends_when, ends_free_domheap.
Qed.
Hint Resolve typed_put_page : typed.

(** No reference is taken to a free frame: the count is checked against
    overflow two ahead, which also excludes zero. *)
Lemma free_no_reference p : free_page p -> (Z.land (u64 (count_info p + 2)) PGC_count_mask <=? 2) = true.
Proof. intros [[-> | ->] _]; done. Qed.

Lemma typed_get_reference x : Typed (page_get_owner_and_reference x : M G (option page_owner)).
Proof.
  intros s Hs. unfold page_get_owner_and_reference. apply wlp_get_bind. intros p Ep. cbv zeta.
  destruct (_ <=? 2) eqn:Eb; [by apply wlp_ret|].
  assert (Ho : out_of_heap x s).
  { apply (referenced_out x p s Hs Ep). intros Hf. by rewrite (free_no_reference p Hf) in Eb. }
  cut (Out x (frame_upd x (fun p0 => p0 <| count_info := u64 (count_info p + 1) |>) ;;
    (bug_on (bool_decide (owner p = own_none)) ;; ret (Some (owner p))) : M G (option page_owner))%monad).
  { intros He a s' E. by apply (He s Ho a s' E). }
  apply out_bind; [apply out_upd; intros q [_ Hq]; split; [apply word_u64|done]|]. intros []. out_tac.
Qed.
Hint Resolve typed_get_reference : typed.

Lemma typed_get_page x : Typed (get_page scrubbed cacheattr_ok x : M G bool).
Proof. unfold get_page. typed_tac. Qed.

Lemma free_clear_allocated p : free_page p ->
  free_page (p <| count_info ::= fun c => Z.clearbit c _PGC_allocated |>).
Proof. intros [[E|E] Ho]; (split; [|done]); [left|right]; cbn; by rewrite E. Qed.

Lemma typed_test_and_clear x : Typed (test_and_clear_allocated x : M G bool).
Proof.
  unfold test_and_clear_allocated. typed_tac. apply typed_upd; [|apply free_clear_allocated].
  intros q [Hq Hq']. split; [|done]. cbn. by apply word_clearbit.
Qed.

Lemma out_assign x : Out x (assign_page x : M G Z).
Proof. unfold assign_page. out_tac; apply out_upd; by intros q [_ Hq]. Qed.

(** A frame leaves the list as the domain's or comes back to it. *)
Lemma typed_alloc : Typed (alloc_domheap_page : M G (option Z)).
Proof.
  intros s Hs. unfold alloc_domheap_page.
  apply (wlp_bind _ _ (fun o s1 => match o with None => frames_typed s1 | Some x => out_of_heap x s1 end)).
  - unfold alloc_heap_page. intros o s' E. apply bind_inv in E as (l & s1 & E1 & E). unfold gets in E1. injection E1 as <- <-.
    destruct (heap_list s) as [|x l] eqn:El; [unfold ret in E; by injection E as <- <-|].
    apply bind_inv in E as (p & s1 & E1 & E). apply bind_inv in E as ([] & s2 & E2 & E). apply bind_inv in E as ([] & s3 & E3 & E).
    apply bind_inv in E as ([] & s4 & E4 & E). unfold ret in E. injection E as <- <-.
    assert (s1 = s) as -> by (unfold frame_get, deref in E1; destruct (_ !! _); [by injection E1|done]).
    assert (s2 = s) as -> by (unfold bug_on in E2; destruct (negb _); [done|by injection E2]).
    unfold modify in E3. injection E3 as <-. destruct Hs as [W N Fr]. rewrite El in N. apply NoDup_cons in N as [Nx N].
    assert (Ho : out_of_heap x (s <| heap_list := l |>)).
    { split; [split|exact Nx]; [exact W|exact N|]. intros m Hm. apply Fr. rewrite El. by right. }
    eapply out_upd; [|exact Ho|exact E4]. by intros q [_ _].
  - intros [x|] s1 H1; [|by apply wlp_ret]. revert s1 H1.
    change (Ends x (let! rc := assign_page x in if negb (rc =? 0) then free_heap_page x ;; ret None else ret (Some x))%monad).
    apply ends_bind; [apply out_assign|]. intros rc. destruct (negb _); [|apply ends_out; out_tac].
    apply ends_then; [apply ends_free|]. intros []. typed_tac.
Qed.
End Ops.

#[export] Hint Resolve typed_scrub typed_put_page typed_get_page typed_test_and_clear typed_alloc : typed.

(** ** Everything that works on frames *)

Section Calls.
Context {T : Type} `{P2MTable T}.
Context (cfg : p2m_config) (plat : platform).
Context (mem_sharing_unshare_page : T -> Z -> T) (zero : T) (mask_ok : Z -> bool).
Context (env : physmap_env) (scrubbed : Z) (cacheattr_ok log_dirty : bool) (cur : option nat) (cur_id : Z).
Local Abbreviation G := (pgd T).
Context (put_page_type : Z -> M G unit) (Hput : forall x, Typed (put_page_type x)).

Lemma keeps_remove gfn m o :
  Keeps store (host_remove_page cfg plat mem_sharing_unshare_page zero mask_ok env gfn m o : M G Z).
Proof. unfold host_remove_page, iommu_unmap, entry, host_default_access. cbv zeta. frame_tac. Qed.
Hint Resolve keeps_remove : keeps.

Lemma keeps_clear_old ids gfn n : Keeps store (add_clear_old cfg mem_sharing_unshare_page env ids gfn n : M G (Z + Z)).
Proof.
  revert n. induction ids as [|i ids IH]; intros n; cbn [add_clear_old]; [frame_tac|]. unfold entry, crash. cbv zeta. frame_tac.
Qed.
Lemma keeps_clear_aliases ids gfn m :
  Keeps store (add_clear_aliases cfg plat mem_sharing_unshare_page zero mask_ok env ids gfn m : M G bool).
Proof. induction ids as [|i ids IH]; cbn [add_clear_aliases]; [frame_tac|]. unfold entry, mfn_to_gfn. cbv zeta. frame_tac. Qed.
Lemma keeps_add_iommu ids m l : Keeps store (add_iommu env ids m l : M G Z).
Proof. revert l. induction ids as [|i ids IH]; intros l; cbn [add_iommu]; [frame_tac|]. unfold iommu_map, iommu_unmap. frame_tac. Qed.
Hint Resolve keeps_clear_old keeps_clear_aliases keeps_add_iommu : keeps.

Lemma keeps_add gfn m o t :
  Keeps store (guest_physmap_add_entry cfg plat mem_sharing_unshare_page zero mask_ok env gfn m o t : M G Z).
Proof. unfold guest_physmap_add_entry, add_map, host_default_access. cbv zeta. frame_tac. Qed.

Lemma keeps_set_typed gfn m ty a :
  Keeps store (set_typed_p2m_entry cfg plat mem_sharing_unshare_page zero mask_ok gfn m ty a : M G Z).
Proof. unfold set_typed_p2m_entry, entry, crash. cbv zeta. frame_tac. Qed.
Lemma keeps_clear_mmio gfn m :
  Keeps store (clear_mmio_p2m_entry cfg plat mem_sharing_unshare_page zero mask_ok gfn m : M G Z).
Proof. unfold clear_mmio_p2m_entry, entry, host_default_access. cbv zeta. frame_tac. Qed.
Hint Resolve keeps_set_typed keeps_clear_mmio : keeps.

Lemma keeps_set_shared gfn m :
  Keeps store (set_shared_p2m_entry cfg plat mem_sharing_unshare_page zero mask_ok gfn m : M G Z).
Proof. unfold set_shared_p2m_entry, entry, host_default_access. cbv zeta. frame_tac. Qed.

Lemma keeps_unmap_mmio g n m : Keeps store (unmap_mmio_regions cfg plat mem_sharing_unshare_page zero mask_ok g n m : M G Z).
Proof.
  unfold unmap_mmio_regions. frame_step; [frame_tac|]. generalize (iota (Z.to_nat n)). intros ids. generalize 0.
  induction ids as [|i ids IH]; intros err; cbn [unmap_mmio_loop]; [frame_tac|]. frame_tac.
Qed.
Hint Resolve keeps_unmap_mmio : keeps.
Lemma keeps_map_mmio g n m : Keeps store (map_mmio_regions cfg plat mem_sharing_unshare_page zero mask_ok g n m : M G Z).
Proof.
  unfold map_mmio_regions. frame_step; [frame_tac|]. generalize (iota (Z.to_nat n)).
  intros ids. induction ids as [|i ids IH]; cbn [map_mmio_loop]; [frame_tac|].
  unfold host_default_access, set_mmio_p2m_entry. frame_tac.
Qed.

Lemma typed_get_page_of o x : Typed (get_page_of scrubbed cacheattr_ok o x : M G bool).
Proof. unfold get_page_of. apply typed_bind; [apply typed_get_reference|]. intros r. typed_tac. Qed.
Hint Resolve typed_get_page_of : typed.
Lemma typed_page_from_gfn b gfn q :
  Typed (get_page_from_gfn_p2m cfg mem_sharing_unshare_page scrubbed cacheattr_ok b gfn q : M G _).
Proof.
  unfold get_page_from_gfn_p2m, page_fast, page_slow. typed_tac. all: apply typed_get_reference.
Qed.

(** ** Paging *)

Lemma typed_evict gfn :
  Typed (p2m_mem_paging_evict cfg plat mem_sharing_unshare_page zero mask_ok scrubbed cacheattr_ok gfn).
Proof. unfold p2m_mem_paging_evict, entry. typed_tac. Qed.
Lemma typed_nominate gfn : Typed (p2m_mem_paging_nominate cfg plat mem_sharing_unshare_page zero mask_ok gfn).
Proof. unfold p2m_mem_paging_nominate, entry, is_iomem_page. typed_tac. Qed.
Lemma typed_prep gfn b pb :
  Typed (p2m_mem_paging_prep cfg plat mem_sharing_unshare_page zero mask_ok scrubbed cacheattr_ok log_dirty gfn b pb).
Proof. unfold p2m_mem_paging_prep, prep_frame, prep_map, entry. typed_tac. all: by apply typed_upd. Qed.
Lemma keeps_populate gfn : Keeps store (p2m_mem_paging_populate cfg plat mem_sharing_unshare_page zero mask_ok cur cur_id gfn).
Proof. unfold p2m_mem_paging_populate, slept, populate_claimed, populate_fix, entry, crash. cbv zeta. frame_tac. Qed.
Lemma keeps_drop gfn ty : Keeps store (p2m_mem_paging_drop_page cur gfn ty : M G bool).
Proof. unfold p2m_mem_paging_drop_page, slept, drop_claimed. cbv zeta. frame_tac. Qed.
Hint Resolve keeps_drop : keeps.
Hint Resolve Hput : typed.
Lemma typed_remove gfn :
  Typed (guest_remove_page cfg plat mem_sharing_unshare_page zero mask_ok env scrubbed cacheattr_ok cur put_page_type gfn).
Proof.
  unfold guest_remove_page, guest_physmap_remove_page, clear_mmio_p2m_entry, entry, host_default_access. typed_tac.
  apply typed_upd; [|done]. intros p [Hp Hp']. split; [done|]. cbn. by apply word_clearbit.
Qed.

(** The calls that work on the domain's memory, with all that they get from
    outside. *)
Inductive memory_call : Type :=
  | Get_page (mfn : Z) | Put_page (mfn : Z) | Test_and_clear_allocated (mfn : Z) | Alloc_domheap_page
  | Page_from_gfn (locked : bool) (gfn q : Z)
  | Add_entry (gfn mfn order : Z) (t : p2m_type) | Remove_page (gfn mfn order : Z)
  | Set_typed (gfn mfn : Z) (t : p2m_type) (a : p2m_access) | Set_shared (gfn mfn : Z)
  | Map_mmio (gfn nr mfn : Z) | Unmap_mmio (gfn nr mfn : Z)
  | Call_nominate (gfn : Z) | Call_evict (gfn : Z) | Call_prep (gfn buffer : Z) (pb : prep_env) | Call_populate (gfn : Z)
  | Guest_remove (gmfn : Z).

Definition called {A} (m : M G A) : M G unit := bind m (fun _ => ret tt).
Definition run_call (c : memory_call) : M G unit :=
  match c with
  | Get_page x => called (get_page scrubbed cacheattr_ok x)
  | Put_page x => put_page scrubbed cacheattr_ok x
  | Test_and_clear_allocated x => called (test_and_clear_allocated x)
  | Alloc_domheap_page => called alloc_domheap_page
  | Page_from_gfn b g q => called (get_page_from_gfn_p2m cfg mem_sharing_unshare_page scrubbed cacheattr_ok b g q)
  | Add_entry g m o t => called (guest_physmap_add_entry cfg plat mem_sharing_unshare_page zero mask_ok env g m o t)
  | Remove_page g m o => called (guest_physmap_remove_page cfg plat mem_sharing_unshare_page zero mask_ok env g m o)
  | Set_typed g m t a => called (set_typed_p2m_entry cfg plat mem_sharing_unshare_page zero mask_ok g m t a)
  | Set_shared g m => called (set_shared_p2m_entry cfg plat mem_sharing_unshare_page zero mask_ok g m)
  | Map_mmio g n m => called (map_mmio_regions cfg plat mem_sharing_unshare_page zero mask_ok g n m)
  | Unmap_mmio g n m => called (unmap_mmio_regions cfg plat mem_sharing_unshare_page zero mask_ok g n m)
  | Call_nominate g => called (p2m_mem_paging_nominate cfg plat mem_sharing_unshare_page zero mask_ok g)
  | Call_evict g => called (p2m_mem_paging_evict cfg plat mem_sharing_unshare_page zero mask_ok scrubbed cacheattr_ok g)
  | Call_prep g b pb =>
      called (p2m_mem_paging_prep cfg plat mem_sharing_unshare_page zero mask_ok scrubbed cacheattr_ok log_dirty g b pb)
  | Call_populate g => called (p2m_mem_paging_populate cfg plat mem_sharing_unshare_page zero mask_ok cur cur_id g)
  | Guest_remove g =>
      called (guest_remove_page cfg plat mem_sharing_unshare_page zero mask_ok env scrubbed cacheattr_ok cur put_page_type g)
  end.

Lemma typed_called {A} (m : M G A) : Typed m -> Typed (called m).
Proof. intros Hm. apply typed_bind; [exact Hm|]. intros a. typed_tac. Qed.
Lemma typed_run_call c : Typed (run_call c).
Proof.
  destruct c; cbn [run_call]; try apply typed_called; auto with typed nocore.
  all: first [apply typed_page_from_gfn|apply typed_nominate|apply typed_evict|apply typed_prep|apply typed_remove|apply store_typed].
  all: first [apply keeps_add|apply keeps_remove|apply keeps_set_typed|apply keeps_set_shared|apply keeps_map_mmio
             |apply keeps_unmap_mmio|apply keeps_populate].
Qed.

End Calls.
