(* ===== verification/MemoryExamples.v ===== *)
(** * The physical map on a concrete domain

    Witnesses for the claims of PhysmapProofs.v, Balloon.v and FrameTypes.v,
    on the domain of PagingExamples.v. *)

From S2P Require Import Prelude Monad P2m P2mProofs Altp2m Altp2mProofs Altp2mSwitch Altp2mInv Altp2mTables Altp2mClaims.
From S2P Require Import VmEvent VmEventProofs VmEventSystem VmEventFrame MemAccess MemAccessProofs NestedFault FaultEvents MemEventClaims.
From S2P Require Import Frames FramesProofs Physmap Paging PagingProofs PagingOps PagingSystem PagingClaims PagingExamples.
From S2P Require Import PhysmapProofs Balloon FrameTypes.

Definition pg_env : physmap_env := mkPhysEnv false (fun _ => 0) (fun _ => 0) false false (fun _ => 0).
Local Abbreviation pg_add := (guest_physmap_add_entry flat_cfg demo_plat demo_unshare [] demo_mask pg_env).
Local Abbreviation pg_no_type := (fun _ : Z => @ret (pgd flat) unit tt).
Local Abbreviation pg_remove :=
  (guest_remove_page flat_cfg demo_plat demo_unshare [] demo_mask pg_env 0 true (Some 0%nat) pg_no_type).

Local Abbreviation pg_nominate := (p2m_mem_paging_nominate flat_cfg demo_plat demo_unshare [] demo_mask).

(** ** Adding *)

Lemma pg_back : m2p_back flat_cfg pg_start.
Proof.
  intros m p g _ _ _ Eg _. assert (Em : m2p (gdm pg_start) = {[4096 := 0; 4097 := 1]}) by (vm_compute; reflexivity).
  rewrite Em in Eg. destruct (decide (m = 4096)) as [->|H0].
  - rewrite lookup_insert_eq in Eg. injection Eg as <-. split; [lia|]. split; vm_compute; reflexivity.
  - rewrite lookup_insert_ne in Eg by done. apply lookup_singleton_Some in Eg as [<- <-]. split; [lia|].
    split; vm_compute; reflexivity.
Qed.

Lemma pg_frame0 : frame_table pg_start !! 4096 = Some (guest_page 111).
Proof. vm_compute. reflexivity. Qed.
Lemma pg_frame1 : frame_table pg_start !! 4097 = Some (guest_page 222).
Proof. vm_compute. reflexivity. Qed.
Lemma pg_entry1 : glook pg_start 1 = (4097, p2m_ram_rw, p2m_access_rw).
Proof. vm_compute. reflexivity. Qed.


(** ** Taking a reference *)

(** The guest's frame 1 is on its way out when somebody takes a reference. *)
Definition pg_nominated_state : pgd flat := gafter (pg_nominate 1) pg_start.

Lemma pg_nominated_inv : paging_inv flat_cfg demo_plat pg_nominated_state.
Proof.
  eapply (preachable_inv flat_cfg demo_plat demo_unshare [] demo_mask 0 true false flat_rules pg_start); [exact pg_inv|].
  eapply pr_step; [apply pr_start|]. unfold pg_nominated_state. rewrite <- pg_nominated. by apply st_nominate.
Qed.
Lemma pg_going1 : glook pg_nominated_state 1 = (4097, p2m_ram_paging_out, p2m_access_rw).
Proof. vm_compute. reflexivity. Qed.

Local Abbreviation pg_page := (get_page_from_gfn_p2m flat_cfg demo_unshare 0 true).
Local Abbreviation pg_evict := (p2m_mem_paging_evict flat_cfg demo_plat demo_unshare [] demo_mask 0 true).

Lemma page_reference_prevents_eviction_witness :
  (fst <$> pg_evict 1 pg_nominated_state) = Some 0 /\
  wp (pg_page false 1 P2M_ALLOC) (fun x s1 => x.2 = Some 4097 /\ wp (pg_evict 1) (fun rc _ => rc = - EBUSY) s1)
    pg_nominated_state.
Proof.
  split; [vm_compute; reflexivity|].
  assert (Ef : frame_table pg_nominated_state !! 4097 = Some (guest_page 222)) by (vm_compute; reflexivity).
  assert (Hh : held 1 (guest_page 222)) by (split; [done|unfold CNT; lia]).
  eapply wp_mono.
  - exact (page_reference_prevents_eviction flat_cfg demo_plat demo_unshare [] demo_mask flat_rules eq_refl 0 true
      pg_nominated_state 1 P2M_ALLOC 4097 p2m_ram_paging_out p2m_access_rw (guest_page 222) 1 pg_nominated_inv ltac:(lia)
      pg_going1 eq_refl eq_refl Ef Hh ltac:(unfold CNT; lia)).
  - intros x s1 (E & _ & _ & _ & W). split; [exact E|]. eapply wp_mono; [exact W|]. by intros rc s' [Hrc _].
Defined.

(** ** Giving back *)


(** Guest frame 1 is out, and given back. *)
Lemma pg_out_ask : can_ask 5 0 pg_out [Run; Run] 0 0 ma_page.
Proof. split; [exact pg_out_ring|vm_compute; reflexivity..]. Qed.

Lemma balloon_out_paged_witness :
  (fst <$> pg_remove 1 pg_out) = Some (Some true) /\
  wp (pg_remove 1) (fun r s' => r = Some true /\ paged_pages s' = 0 /\ heap_list s' = [4097; 4200]) pg_out.
Proof.
  split; [vm_compute; reflexivity|].
  assert (Hf : frameless flat_cfg (glook pg_out 1) = true) by (vm_compute; reflexivity).
  assert (Hh : heap_list pg_out = [4097; 4200]) by (vm_compute; reflexivity).
  assert (Hp : paged_pages pg_out - 1 = 0) by (vm_compute; reflexivity).
  eapply wp_mono.
  - exact (balloon_out_paged flat_cfg demo_plat demo_unshare [] demo_mask pg_env 0 true pg_no_type flat_rules eq_refl
      5 ltac:(done) 0 pg_out 1 [Run; Run] 0 0 ma_page pg_out_inv pg_out_ask ltac:(lia) Hf).
  - intros r s' (Hr & _ & _ & _ & E1 & E2 & _). split; [exact Hr|]. rewrite E1, E2. split; [exact Hp|exact Hh].
Defined.

(** Guest frame 1 was nominated and wanted again before it was evicted. *)
Definition pg_want : M (pgd flat) unit :=
  populate_fix flat_cfg demo_plat demo_unshare [] demo_mask 1 (mkEnt 4097 p2m_ram_paging_out p2m_access_rw 0).
Definition pg_coming : pgd flat := gafter pg_want pg_nominated_state.

Lemma pg_coming_inv : paging_inv flat_cfg demo_plat pg_coming.
Proof.
  destruct (wp_run _ _ _ (wp_populate_fix flat_cfg demo_plat demo_unshare [] demo_mask flat_rules pg_nominated_state 1
    (mkEnt 4097 p2m_ram_paging_out p2m_access_rw 0) pg_nominated_inv ltac:(done) pg_going1)) as ([] & s' & E & I & _).
  unfold pg_coming, gafter, pg_want. rewrite E. exact I.
Qed.
Lemma pg_coming_ask : can_ask 5 0 pg_coming [Run; Run] 0 0 ma_page.
Proof.
  split; [|vm_compute; reflexivity..]. apply (ring_inv_ext 5 ma_on); [exact ma_on_inv|vm_compute; reflexivity..].
Qed.

Lemma balloon_coming_leaks_witness :
  (fst <$> pg_remove 1 pg_coming) = Some (Some true) /\ paged_pages (gafter (pg_remove 1) pg_coming) = -1 /\
  wp (pg_remove 1) (fun _ s' => frame_table s' !! 4097 = Some (guest_page 222) /\ paged_pages s' = -1) pg_coming.
Proof.
  split; [vm_compute; reflexivity|]. split; [vm_compute; reflexivity|].
  assert (El : glook pg_coming 1 = (4097, p2m_ram_paging_in, p2m_access_rw)) by (vm_compute; reflexivity).
  assert (Ef : frame_table pg_coming !! 4097 = Some (guest_page 222)) by (vm_compute; reflexivity).
  assert (Ep : paged_pages pg_coming - 1 = -1) by (vm_compute; reflexivity).
  eapply wp_mono.
  - exact (balloon_coming_leaks flat_cfg demo_plat demo_unshare [] demo_mask pg_env 0 true pg_no_type eq_refl
      5 ltac:(done) 0 pg_coming 1 4097 p2m_access_rw (guest_page 222) [Run; Run] 0 0 ma_page pg_coming_inv pg_coming_ask
      ltac:(lia) ltac:(lia) El eq_refl Ef).
  - intros r s' (_ & E1 & _ & _ & E2 & _). rewrite E2. split; [exact E1|exact Ep].
Defined.

(** ** Calls that make no sense *)

(** Frame 4200 is free: giving it away, taking a reference and preparing it
    do nothing to it; the frame of guest frame 1 goes to the list once. *)
Definition pg_calls : list memory_call :=
  [Get_page 4200; Page_from_gfn false 1 0; Put_page 4097; Add_entry 5 4200 0 p2m_ram_rw; Guest_remove 1; Guest_remove 1; Alloc_domheap_page; Get_page 4096].
Local Abbreviation pg_call :=
  (run_call flat_cfg demo_plat demo_unshare [] demo_mask pg_env 0 true false (Some 0%nat) 0 pg_no_type).
Definition pg_ran : pgd flat := gafter (for_each pg_calls pg_call) pg_start.

Lemma pg_typed : frames_typed pg_start.
Proof.
  split.
  - assert (Ef : map_Forall (fun _ p => page_words p) (frame_table pg_start)).
    { apply map_Forall_insert_2; [by vm_compute|]. apply map_Forall_insert_2; [by vm_compute|].
      apply map_Forall_singleton. by vm_compute. }
    exact Ef.
  - apply NoDup_singleton.
  - intros m Hm. apply list_elem_of_singleton in Hm as ->. eexists. split; [exact pg_free|]. split; [by left|done].
Qed.
Lemma pg_no_type_typed (x : Z) : Typed (pg_no_type x).
Proof. apply store_typed, keeps_ret. Qed.
Lemma pg_run_eq : for_each pg_calls pg_call pg_start = Some (tt, pg_ran).
Proof. vm_compute. reflexivity. Qed.

