(* ===== verification/Perception.v ===== *)
(** * VMFUNC perception (xen/arch/x86/hvm/hvm.c, hvm/vmx/vmx.c, switch_on/,
      hvm_altp2m_prepare_for_vmfunc_test/)

    How a guest's VMFUNC becomes a trace record: a hypercall turns on RDTSC
    exiting for every HVM domain; at an RDTSC exit the hypervisor compares the
    current view of the vCPU with the last one it reported and, when they
    differ, traces the domain and the view.

    The state has the hypervisor's globals ([eptp_idx], [eptp_idx_last], the
    debug log), the trace buffers of Trace.v and the list of domains, each
    with its altp2m part of Altp2m.v.  The guest's TSC is an input. *)

From S2P Require Import Prelude Monad P2m Altp2m Trace.

Definition CPU_BASED_RDTSC_EXITING : Z := 0x1000.
Definition BUF_SIZE : Z := 0x2010.

(** The processor-based controls of a vCPU and their copy in the VMCS. *)
Record tsc_ctl := mkTscCtl { exec_control : Z; CPU_BASED_VM_EXEC_CONTROL : Z }.
#[export] Instance eta_tsc_ctl : Eta tsc_ctl := fun x =>
  mkTscCtl (exec_control x) (CPU_BASED_VM_EXEC_CONTROL x).

Record hvdom (T : Type) := mkHvdom {
  domain_id : Z;
  vtsc : bool;
  ctls : list tsc_ctl;
  hd : domain T
}.
Arguments mkHvdom {T}. Arguments domain_id {T}. Arguments vtsc {T}.
Arguments ctls {T}. Arguments hd {T}.
#[export] Instance eta_hvdom {T} : Eta (hvdom T) := fun x =>
  mkHvdom (domain_id x) (vtsc x) (ctls x) (hd x).

Record hv (T : Type) := mkHv {
  tr : tstate;
  doms : list (hvdom T);
  eptp_idx : Z;
  eptp_idx_last : Z;
  comportlog : gmap Z Z;                   (* dbg_info by index *)
  comportlogptr : Z;
  log_overflow : bool                      (* a store past the array *)
}.
Arguments mkHv {T}. Arguments tr {T}. Arguments doms {T}. Arguments eptp_idx {T}.
Arguments eptp_idx_last {T}. Arguments comportlog {T}. Arguments comportlogptr {T}.
Arguments log_overflow {T}.
#[export] Instance eta_hv {T} : Eta (hv T) := fun x =>
  mkHv (tr x) (doms x) (eptp_idx x) (eptp_idx_last x) (comportlog x)
    (comportlogptr x) (log_overflow x).

Section Perception.
Context {T : Type}.
Context (debug : bool) (get_cycles : nat -> Z) (uninit : nat -> Z).
Local Abbreviation H := (hv T).

(** ** The debug log *)

Definition print_comportflow_log (h : H) : H := h <| comportlogptr := 0 |>.

Definition add_comportflow_log4char (c : Z) (h : H) : H :=
  let h := h <| comportlog ::= <[comportlogptr h := c]> |>
             <| log_overflow := log_overflow h || negb (comportlogptr h <? BUF_SIZE) |> in
  let h := h <| comportlogptr ::= Z.add 1 |> in
  if BUF_SIZE - 16 <? comportlogptr h then print_comportflow_log h else h.

(** ** RDTSC exiting *)

Definition vmx_set_rdtsc_exiting (enable : bool) (c : tsc_ctl) : tsc_ctl :=
  let e := Z.ldiff (exec_control c) CPU_BASED_RDTSC_EXITING in
  let e := if enable then Z.lor e CPU_BASED_RDTSC_EXITING else e in
  mkTscCtl e e.

Definition hvm_set_rdtsc_exiting (enable : bool) (d : hvdom T) : hvdom T :=
  d <| ctls ::= map (vmx_set_rdtsc_exiting enable) |>.

(** [~(d->arch.vtsc)] on a bool_t: the bitwise complement of 0 or 1, as int. *)
Definition vtsc_complement (d : hvdom T) : Z := s32 (Z.lnot (if vtsc d then 1 else 0)).

Definition rdtsc_guard (d : hvdom T) : bool :=
  is_hvm (hd d) && negb (vtsc_complement d =? 0).

Definition do_intercept_rdtsc (scale : Z) (h : H) : Z * H :=
  let h := add_comportflow_log4char 49 h in
  (0, h <| doms ::= map (fun d =>
        if rdtsc_guard d then hvm_set_rdtsc_exiting true d else d) |>).

Definition do_disable_intercept_rdtsc (h : H) : Z * H :=
  let h := h <| eptp_idx := 0 |> in
  let h := add_comportflow_log4char 48 h in
  (0, h <| doms ::= map (fun d =>
        if rdtsc_guard d then hvm_set_rdtsc_exiting false d else d) |>).

(** switch_on_off.c: the module is loaded and unloaded. *)
Definition init_switch_on (h : H) : Z * H := (0, (do_intercept_rdtsc 1 h).2).
Definition exit_switch_off (h : H) : H := (do_disable_intercept_rdtsc h).2.

(** ** The RDTSC exit *)

(** HVMTRACE_2D(evt, d1, d2) *)
Definition HVMTRACE_2D (env : cpu_env) (evt d1 d2 : Z) (st : tstate) : option tstate :=
  if tb_init_done st then
    __trace_var debug get_cycles uninit env evt false (4 * 2) (Some [u32 d1; u32 d2]) st
  else Some st.

(** hvm_rdtsc_intercept() for vCPU [k] of the [n]th domain; the values put
    into EAX and EDX, and the new state. *)
Definition hvm_rdtsc_intercept (env : cpu_env) (n k : nat) (tsc : Z) (h : H)
  : option (Z * Z * H) :=
  d ← doms h !! n;
  v ← vcpus (hd d) !! k;
  let h :=
    if altp2m_active (hd d)
       && negb (Z.land (secondary_exec_control v) SECONDARY_EXEC_ENABLE_VM_FUNCTIONS =? 0)
    then h <| eptp_idx := p2midx v |> else h in
  let eax := u32 tsc in
  let edx := u32 (Z.shiftr tsc 32) in
  h ← (if negb (eptp_idx h =? eptp_idx_last h) then
         st ← HVMTRACE_2D env TRC_HVM_VMFUNC (domain_id d) (eptp_idx h) (tr h);
         Some (h <| tr := st |> <| eptp_idx_last := eptp_idx h |>)
       else Some h);
  st ← HVMTRACE_2D env TRC_HVM_RDTSC eax edx (tr h);
  Some (eax, edx, h <| tr := st |>).

(** vmx_vmexit_handler() on EXIT_REASON_RDTSC: the EPTP check, then the
    intercept. *)
Definition rdtsc_exit (env : cpu_env) (n k : nat) (tsc : Z) (h : H)
  : option (Z * Z * H) :=
  d ← doms h !! n;
  '(_, d') ← vmexit k (hd d);
  hvm_rdtsc_intercept env n k tsc (h <| doms ::= <[n := d <| hd := d' |>]> |>).
End Perception.

(** ** The guest's preparation (altp2m_create_altp2ms.c) *)

Section Prepare.
Local Open Scope monad_scope.
Context {T : Type} `{P2MTable T}.
Context (cfg : p2m_config) (plat : platform).
Context (mem_sharing_unshare_page : T -> Z -> T) (zero : T) (cur : option nat).
Context (mask_ok : Z -> bool) (env : op_env).

(** The argument block; [junk] is what kmalloc() left in it. *)
Definition prep_arg (junk : xen_hvm_altp2m_op) : xen_hvm_altp2m_op :=
  junk <| op_version := HVMOP_ALTP2M_INTERFACE_VERSION |>
       <| op_cmd := HVMOP_altp2m_set_domain_state |>
       <| op_pad1 := 0 |> <| op_pad2 := 0 |> <| op_domain := 1 |> <| ds_state := 1 |>.

Fixpoint create_views (n : nat) (arg : xen_hvm_altp2m_op) : M (domain T) unit :=
  match n with
  | O => ret tt
  | S n' =>
      let arg := arg <| op_cmd := HVMOP_altp2m_create_p2m |> <| vw_view := u16 (-1) |> in
      let! r := do_altp2m_op cfg plat mem_sharing_unshare_page zero cur mask_ok env arg in
      create_views n' (default arg r.2)
  end.

(** init_altp2m_test(): the results of the hypercalls are not looked at. *)
Definition init_altp2m_test (kmalloc_ok : bool) (junk : xen_hvm_altp2m_op)
  : M (domain T) Z :=
  if negb kmalloc_ok then ret (-1)
  else
    let arg := prep_arg junk in
    do_altp2m_op cfg plat mem_sharing_unshare_page zero cur mask_ok env arg ;;
    let arg := arg <| op_cmd := HVMOP_altp2m_vcpu_enable_notify |> <| en_vcpu_id := 0 |> in
    do_altp2m_op cfg plat mem_sharing_unshare_page zero cur mask_ok env arg ;;
    create_views 9 arg ;;
    ret 0.
End Prepare.
