(* ===== verification/PerceptionProofs.v ===== *)
(** * From VMFUNC to a trace record

    The pieces put together: the guest's instruction, the VM exit that
    follows the vCPU to its new view (Altp2mSwitch.v), the comparison with the
    last reported view (Perception.v) and the record in the ring that
    xentrace reads (TraceProofs.v). *)

From S2P Require Import Prelude Monad P2m P2mProofs Altp2m Altp2mProofs Altp2mSwitch.
From S2P Require Import Altp2mInv Altp2mSystem Altp2mFrame Altp2mClaims Trace TraceProofs Perception.

(** The event mask xentrace is run with. *)
Definition SERVICE_MASK : Z := 0x00082030.

Section Exit.
Context {T : Type} (plat : platform).
Context (debug : bool) (get_cycles : nat -> Z) (uninit : nat -> Z).
Local Abbreviation hv := (hv T).
Implicit Types h : hv.

(** ** The debug log *)

Definition log_ok h : Prop := 0 <= comportlogptr h <= BUF_SIZE - 16 /\ log_overflow h = false.

Definition toggle (h : hv) (on : bool) : hv :=
  if on then (do_intercept_rdtsc 1 h).2 else (do_disable_intercept_rdtsc h).2.

Lemma log_ok_add c h : log_ok h -> log_ok (add_comportflow_log4char c h).
Proof.
  intros [Hp Ho]. unfold add_comportflow_log4char, BUF_SIZE in *. simpl.
  rewrite (proj2 (Z.ltb_lt (comportlogptr h) _)) by lia. rewrite Ho. simpl.
  case_if E; zbool; (split; [simpl; unfold BUF_SIZE; lia | done]).
Qed.

(** Turning the interception on and off any number of times never stores
    past the end of the debug log: the index wraps to 0 before the array is
    full. *)
Theorem comportlog_in_bounds h ops : log_ok h -> log_ok (fold_left toggle ops h).
Proof.
  revert h. induction ops as [|on ops IH]; intros h Hok; [done|]. simpl. apply IH.
  destruct on; simpl.
  - by apply (log_ok_add 49 h).
  - by apply (log_ok_add 48 (h <| eptp_idx := 0 |>)).
Qed.

(** ** RDTSC exiting *)

Definition rdtsc_exits (c : tsc_ctl) : bool := Z.testbit (CPU_BASED_VM_EXEC_CONTROL c) 12.

Lemma vtsc_complement_nonzero (d : hvdom T) : (vtsc_complement d =? 0) = false.
Proof. unfold vtsc_complement. by destruct (vtsc d). Qed.

Lemma set_exiting_bit on c : rdtsc_exits (vmx_set_rdtsc_exiting on c) = on.
Proof.
  unfold rdtsc_exits, vmx_set_rdtsc_exiting. destruct on; simpl.
  - rewrite Z.lor_spec. by rewrite orb_true_r.
  - rewrite Z.ldiff_spec. apply andb_false_r.
Qed.

(** Switching the service on (off) sets (clears) RDTSC exiting on every
    vCPU of every HVM domain and touches nothing else of a domain.  The guard
    on the virtual TSC has no effect, as the complement of a boolean is never
    zero: a domain whose TSC is emulated loses the exits that emulation
    needs when the service is switched off. *)
Theorem toggle_sets_every_hvm_domain h on n d :
  doms h !! n = Some d -> is_hvm (hd d) = true ->
  exists d', doms (toggle h on) !! n = Some d' /\
    (forall c, c ∈ ctls d' -> rdtsc_exits c = on) /\
    length (ctls d') = length (ctls d) /\
    domain_id d' = domain_id d /\ vtsc d' = vtsc d /\ hd d' = hd d.
Proof.
  intros Hd Hh.
  assert (Hl : forall g : hvdom T -> hvdom T, map g (doms h) !! n = Some (g d)).
  { intros g. change (map g) with (fmap (M := list) g). by rewrite list_lookup_fmap, Hd. }
  assert (Hg : rdtsc_guard d = true).
  { unfold rdtsc_guard. by rewrite Hh, vtsc_complement_nonzero. }
  exists (hvm_set_rdtsc_exiting on d). split.
  - destruct on; simpl; unfold add_comportflow_log4char; case_if E; simpl; rewrite Hl, Hg; done.
  - split; [|split; [by apply length_map | done]].
    intros c Hc. apply list_elem_of_fmap in Hc as (c0 & -> & _). apply set_exiting_bit.
Qed.

(** ** The exit *)

Lemma vmfunc_selected : event_selected SERVICE_MASK TRC_HVM_VMFUNC = true.
Proof. vm_compute. reflexivity. Qed.
Lemma rdtsc_not_selected : event_selected SERVICE_MASK TRC_HVM_RDTSC = false.
Proof. vm_compute. reflexivity. Qed.

(** The RDTSC event is filtered out by the service's mask. *)
Lemma trace_rdtsc_silent env a b st :
  tb_event_mask st = SERVICE_MASK ->
  HVMTRACE_2D debug get_cycles uninit env TRC_HVM_RDTSC a b st = Some st.
Proof.
  intros Hm. unfold HVMTRACE_2D. destruct (tb_init_done st) eqn:Hi; [|done].
  unfold __trace_var. rewrite Hi. simpl. unfold ASSERT.
  destruct debug; simpl; by rewrite Hm, rdtsc_not_selected.
Qed.

(** The buffer of the CPU is ready and the service's mask is set. *)
Definition service_on (env : cpu_env) h (buf : Z) : Prop :=
  tb_wf (tr h) (smp_processor_id env) buf /\ tb_init_done (tr h) = true /\
  tb_event_mask (tr h) = SERVICE_MASK /\ smp_processor_id env ∈ tb_cpu_mask (tr h).

Lemma service_traced env h buf :
  service_on env h buf -> traced env (tr h) TRC_HVM_VMFUNC.
Proof. intros (_ & Hi & Hm & Hc). split; [done|]. split; [|done]. by rewrite Hm, vmfunc_selected. Qed.

(** The record of a view change, as it lies in the ring. *)
Definition vmfunc_record (dom idx : Z) : list Z :=
  [rec_header TRC_HVM_VMFUNC 2 false; u32 dom; u32 idx].

(** Where the record goes: after the padding and the loss notice that a full
    or wrapping ring calls for. *)
Definition record_room (env : cpu_env) h (buf : Z) : Prop :=
  used (tr h) buf + needed env (tr h) buf 12 <= data_size (tr h).

Lemma trace_vmfunc_record env h buf dom idx :
  service_on env h buf -> record_room env h buf ->
  exists st' front,
    HVMTRACE_2D debug get_cycles uninit env TRC_HVM_VMFUNC dom idx (tr h) = Some st' /\
    unread st' (smp_processor_id env) buf =
      unread (tr h) (smp_processor_id env) buf ++ front ++ vmfunc_record dom idx /\
    (gget (lost_records (tr h)) (smp_processor_id env) = 0 -> 12 <= to_wrap (tr h) buf ->
       front = []) /\
    tb_wf st' (smp_processor_id env) buf /\ consumer_kept (tr h) st' buf /\
    tb_event_mask st' = SERVICE_MASK.
Proof.
  intros S R. pose proof (service_traced _ _ _ S) as Htr.
  destruct S as (Hwf & Hi & Hm & Hc). unfold HVMTRACE_2D. rewrite Hi.
  destruct (trace_var_ok debug get_cycles uninit env (tr h) buf TRC_HVM_VMFUNC 2 false
    [u32 dom; u32 idx] Hwf Htr ltac:(lia) eq_refl R)
    as (st' & pad & notice & pad' & ws & E & Hwf' & Hu & Hlost & Hpad & (k & body & Hlen & Hb & ->)
        & _ & _ & Hck & Hmask & _).
  rewrite (Hb _ eq_refl) in *. exists st', (pad ++ notice ++ pad').
  split; [done|]. split; [|split; [|split_and!; [done..|congruence]]].
  - rewrite Hu. unfold vmfunc_record. simpl. by rewrite <- !app_assoc.
  - intros Hl Hw. rewrite Hl in Hlost, Hpad. simpl in Hlost, Hpad.
    destruct Hlost as [-> ->]. unfold padding, rec_words in Hpad.
    rewrite (proj2 (Z.ltb_ge _ _)) in Hpad by lia. by subst.
Qed.

(** The intercept, once the vCPU's view is known. *)
Lemma rdtsc_intercept_reports env h buf n k d v tsc :
  doms h !! n = Some d -> vcpus (hd d) !! k = Some v ->
  altp2m_active (hd d) = true -> vmfunc_on v = true ->
  p2midx v <> eptp_idx_last h -> service_on env h buf -> record_room env h buf ->
  exists h' front,
    hvm_rdtsc_intercept debug get_cycles uninit env n k tsc h =
      Some (u32 tsc, u32 (Z.shiftr tsc 32), h') /\
    unread (tr h') (smp_processor_id env) buf =
      unread (tr h) (smp_processor_id env) buf ++ front ++
      vmfunc_record (domain_id d) (p2midx v) /\
    (gget (lost_records (tr h)) (smp_processor_id env) = 0 -> 12 <= to_wrap (tr h) buf ->
       front = []) /\
    tb_wf (tr h') (smp_processor_id env) buf /\ consumer_kept (tr h) (tr h') buf /\
    eptp_idx_last h' = p2midx v /\ doms h' = doms h.
Proof.
  intros Hd Hv Ha Hon Hne S R. unfold hvm_rdtsc_intercept. rewrite Hd. simpl.
  rewrite Hv. simpl. rewrite Ha, vmfunc_flag, negb_involutive.
  fold (vmfunc_on v). rewrite Hon. simpl.
  rewrite (proj2 (Z.eqb_neq _ _)) by done. simpl.
  destruct (trace_vmfunc_record env h buf (domain_id d) (p2midx v) S R)
    as (st' & front & E & Hu & Hf & Hwf' & Hck & Hm).
  simpl in E. rewrite E. simpl. rewrite trace_rdtsc_silent by done. simpl.
  eexists _, front. split; [done|]. done.
Qed.

(** No record when the view is the last one reported, by whichever domain. *)
Lemma rdtsc_intercept_silent env h n k d v tsc :
  doms h !! n = Some d -> vcpus (hd d) !! k = Some v ->
  altp2m_active (hd d) = true -> vmfunc_on v = true ->
  p2midx v = eptp_idx_last h -> tb_event_mask (tr h) = SERVICE_MASK ->
  exists h', hvm_rdtsc_intercept debug get_cycles uninit env n k tsc h =
      Some (u32 tsc, u32 (Z.shiftr tsc 32), h') /\ tr h' = tr h.
Proof.
  intros Hd Hv Ha Hon He Hm. unfold hvm_rdtsc_intercept. rewrite Hd. simpl.
  rewrite Hv. simpl. rewrite Ha, vmfunc_flag, negb_involutive.
  fold (vmfunc_on v). rewrite Hon. simpl. rewrite (proj2 (Z.eqb_eq _ _)) by done. simpl.
  rewrite trace_rdtsc_silent by done. simpl. by eexists.
Qed.

(** The guest of vCPU [k] of domain [n] executes VMFUNC(0, ecx). *)
Definition guest_vmfunc (n k : nat) (ecx e : Z) (h : hv) : hv :=
  h <| doms ::= alter (fun d => d <| hd ::= fun x =>
         x <| vcpus ::= alter (cpu_vmfunc ecx e) k |> |>) n |>.

(** vCPU [k] runs in the guest of domain [n], may use VMFUNC, and slot [ecx]
    of the EPTP list holds [e]. *)
Record can_vmfunc h (n k : nat) (ecx e : Z) (d : hvdom T) (v : vcpu) : Prop := {
  cv_dom : doms h !! n = Some d;
  cv_inv : altp2m_inv plat (hd d);
  cv_active : altp2m_active (hd d) = true;
  cv_vcpu : vcpus (hd d) !! k = Some v;
  cv_guest : in_guest v = true;
  cv_on : vmfunc_on v = true;
  cv_range : 0 <= ecx < MAX_EPTP;
  cv_entry : altp2m_eptp (hd d) !! Z.to_nat ecx = Some e;
  cv_valid : e <> INVALID_MFN
}.

(** The RDTSC exit after the guest's VMFUNC, up to the intercept. *)
Lemma rdtsc_exit_after_vmfunc env h n k ecx e d v tsc :
  can_vmfunc h n k ecx e d v ->
  exists h1 d1 v1,
    rdtsc_exit debug get_cycles uninit env n k tsc (guest_vmfunc n k ecx e h) =
      hvm_rdtsc_intercept debug get_cycles uninit env n k tsc h1 /\
    doms h1 !! n = Some d1 /\ domain_id d1 = domain_id d /\ altp2m_inv plat (hd d1) /\
    altp2m_active (hd d1) = true /\ vcpus (hd d1) !! k = Some v1 /\
    vmfunc_on v1 = true /\ p2midx v1 = ecx /\
    tr h1 = tr h /\ eptp_idx_last h1 = eptp_idx_last h.
Proof.
  intros [Hd I Ha Hv Hg Hon Hr He Hne].
  pose proof (wp_vmexit_after_vmfunc plat (hd d) k v ecx e I Ha Hv Hg Hon Hr He Hne) as W.
  apply wp_run in W as (u & d' & E & [I' A'] & v' & Hv' & Ei & _ & _ & Hon').
  assert (Hl : doms (guest_vmfunc n k ecx e h) !! n = Some (d <| hd ::= fun x =>
    x <| vcpus ::= alter (cpu_vmfunc ecx e) k |> |>)).
  { simpl. by rewrite lookup_alter_case, decide_True, Hd by done. }
  eexists _, (d <| hd := d' |>), v'. split.
  { unfold rdtsc_exit. rewrite Hl. cbn [mbind option_bind]. simpl hd. rewrite E. reflexivity. }
  split; [|done]. simpl. rewrite list_lookup_insert_eq; [done|].
  rewrite length_alter. by eapply lookup_lt_Some.
Qed.

Lemma vmfunc_recorded env h buf n k ecx e d v tsc :
  can_vmfunc h n k ecx e d v ->
  ecx <> eptp_idx_last h -> service_on env h buf -> record_room env h buf ->
  exists h' front d',
    rdtsc_exit debug get_cycles uninit env n k tsc (guest_vmfunc n k ecx e h) =
      Some (u32 tsc, u32 (Z.shiftr tsc 32), h') /\
    unread (tr h') (smp_processor_id env) buf =
      unread (tr h) (smp_processor_id env) buf ++ front ++ vmfunc_record (domain_id d) ecx /\
    (gget (lost_records (tr h)) (smp_processor_id env) = 0 -> 12 <= to_wrap (tr h) buf ->
       front = []) /\
    tb_wf (tr h') (smp_processor_id env) buf /\ consumer_kept (tr h) (tr h') buf /\
    eptp_idx_last h' = ecx /\
    doms h' !! n = Some d' /\ altp2m_inv plat (hd d').
Proof.
  intros Hc Hne S R.
  destruct (rdtsc_exit_after_vmfunc env h n k ecx e d v tsc Hc)
    as (h1 & d1 & v1 & -> & Hd1 & Hid & I1 & A1 & Hv1 & On1 & Ei & Htr & Hlast).
  assert (S1 : service_on env h1 buf) by (unfold service_on; by rewrite Htr).
  assert (R1 : record_room env h1 buf) by (unfold record_room; by rewrite Htr).
  destruct (rdtsc_intercept_reports env h1 buf n k d1 v1 tsc) as
    (h' & front & -> & Hu & Hf & Hwf' & Hck & Hl' & Hdoms); try done; [congruence|].
  exists h', front, d1. rewrite Htr, Hid, Ei in Hu. rewrite Htr in Hf, Hck.
  split_and!; try done; congruence.
Qed.

(** C20. A view change by VMFUNC reaches the trace.  A guest vCPU executes
    VMFUNC with a valid index different from the last one reported and later
    RDTSC: the exit gives the guest its TSC in EDX:EAX and appends to the ring
    of the CPU one record that names the domain and the new view (directly
    behind the unread data when no records were lost and the ring does not
    wrap), remembers the view as reported, and leaves the domain's altp2m
    state consistent. *)
Theorem vmfunc_is_recorded env h buf n k ecx e d v tsc :
  can_vmfunc h n k ecx e d v ->
  ecx <> eptp_idx_last h -> service_on env h buf -> record_room env h buf ->
  exists h' front d',
    rdtsc_exit debug get_cycles uninit env n k tsc (guest_vmfunc n k ecx e h) =
      Some (u32 tsc, u32 (Z.shiftr tsc 32), h') /\
    unread (tr h') (smp_processor_id env) buf =
      unread (tr h) (smp_processor_id env) buf ++ front ++ vmfunc_record (domain_id d) ecx /\
    (gget (lost_records (tr h)) (smp_processor_id env) = 0 -> 12 <= to_wrap (tr h) buf ->
       front = []) /\
    eptp_idx_last h' = ecx /\
    doms h' !! n = Some d' /\ altp2m_inv plat (hd d').
Proof.
  intros Hc Hne S R.
  destruct (vmfunc_recorded env h buf n k ecx e d v tsc Hc Hne S R)
    as (h' & front & d' & H1 & H2 & H3 & _ & _ & H4 & H5).
  by exists h', front, d'.
Qed.

(** C39. The comparison is with the view any domain reported last: when a
    guest switches to the view whose index was last reported, be it by another
    domain, nothing is recorded and the trace is as before. *)
Theorem vmfunc_to_last_reported_is_missed env h n k ecx e d v tsc :
  can_vmfunc h n k ecx e d v ->
  ecx = eptp_idx_last h -> tb_event_mask (tr h) = SERVICE_MASK ->
  exists h',
    rdtsc_exit debug get_cycles uninit env n k tsc (guest_vmfunc n k ecx e h) =
      Some (u32 tsc, u32 (Z.shiftr tsc 32), h') /\ tr h' = tr h.
Proof.
  intros Hc He Hm.
  destruct (rdtsc_exit_after_vmfunc env h n k ecx e d v tsc Hc)
    as (h1 & d1 & v1 & -> & Hd1 & _ & _ & A1 & Hv1 & On1 & Ei & Htr & Hlast).
  destruct (rdtsc_intercept_silent env h1 n k d1 v1 tsc) as (h' & -> & Hh); try done.
  - congruence.
  - by rewrite Htr.
  - exists h'. split; [done | congruence].
Qed.

(** Switching the service off resets the current view but not the last
    reported one: if that was not view 0, the next RDTSC exit of any domain,
    even one that does not use altp2m, records a view change to view 0 that
    never happened, under that domain's name. *)
Theorem switch_off_records_phantom env h buf n k d v tsc :
  doms h !! n = Some d -> vcpus (hd d) !! k = Some v -> altp2m_active (hd d) = false ->
  eptp_idx_last h <> 0 -> service_on env h buf -> record_room env h buf ->
  exists h' front,
    hvm_rdtsc_intercept debug get_cycles uninit env n k tsc (toggle h false) =
      Some (u32 tsc, u32 (Z.shiftr tsc 32), h') /\
    unread (tr h') (smp_processor_id env) buf =
      unread (tr h) (smp_processor_id env) buf ++ front ++ vmfunc_record (domain_id d) 0.
Proof.
  intros Hd Hv Ha Hne S R.
  assert (Ht : tr (toggle h false) = tr h /\ eptp_idx (toggle h false) = 0 /\
               eptp_idx_last (toggle h false) = eptp_idx_last h).
  { simpl. unfold add_comportflow_log4char. by case_if E. }
  destruct Ht as (Ht & Hi & Hl).
  assert (Hd' : exists d', doms (toggle h false) !! n = Some d' /\
    domain_id d' = domain_id d /\ hd d' = hd d).
  { exists (if rdtsc_guard d then hvm_set_rdtsc_exiting false d else d).
    split; [|by destruct (rdtsc_guard d)].
    simpl. unfold add_comportflow_log4char. case_if E; simpl;
      match goal with |- map ?g _ !! _ = _ => change (map g) with (fmap (M := list) g) end;
      by rewrite list_lookup_fmap, Hd. }
  destruct Hd' as (d' & Hd' & Hid & Hh). generalize dependent (toggle h false). intros h0 Ht Hi Hl Hd'.
  unfold hvm_rdtsc_intercept. rewrite Hd'. simpl. rewrite Hh, Hv. simpl. rewrite Ha. simpl.
  rewrite Hi, Hl, (proj2 (Z.eqb_neq _ _)) by done. simpl. rewrite Hid, Ht.
  destruct (trace_vmfunc_record env h buf (domain_id d) 0 S R) as (st' & front & -> & Hu & _ & _ & _ & Hm).
  simpl. rewrite trace_rdtsc_silent by done. simpl. by eexists _, front.
Qed.
End Exit.

(** ** The guest prepares its views *)

Section Prepared.
Context {T : Type} `{P2MTableLaws T}.
Context (cfg : p2m_config) (plat : platform).
Context (mem_sharing_unshare_page : T -> Z -> T) (zero : T) (c : nat).
Context (mask_ok : Z -> bool) (env : op_env).
Hypothesis hooks : altp2m_hooks plat = true.
Hypothesis supported : altp2m_supported plat = true.
Hypothesis has_vmfunc : cpu_has_vmx_vmfunc plat = true.
Hypothesis env_ok : copy_from_ok env = true /\ copy_to_ok env = true /\
                    dom_found env = true /\ xsm_rc env = 0.

Local Abbreviation D := (domain T).
Local Abbreviation altp2m_inv := (altp2m_inv plat).
Local Abbreviation op := (do_altp2m_op cfg plat mem_sharing_unshare_page zero (Some c) mask_ok env).
Implicit Types d : D.

(** A well-formed argument block for command [cmd]. *)
Definition arg_for (cmd : Z) (a : xen_hvm_altp2m_op) : Prop :=
  op_version a = 1 /\ op_pad1 a = 0 /\ op_pad2 a = 0 /\ op_domain a = 1 /\ op_cmd a = cmd.

Lemma op_enter d a cmd Q :
  arg_for cmd a -> 1 <= cmd <= 8 -> is_hvm d = true ->
  needs_active cmd = false \/ altp2m_active d = true ->
  wp (altp2m_op_switch cfg plat mem_sharing_unshare_page zero (Some c) mask_ok env a) Q d ->
  wp (op a) Q d.
Proof.
  intros (Hv & P1 & P2 & _ & Hc) Hr Hh Ha W. destruct env_ok as (E1 & E2 & E3 & E4).
  unfold do_altp2m_op. rewrite supported, E1, E3, Hv, P1, P2, Hc. simpl.
  rewrite (proj2 (Z.ltb_ge cmd _)) by (unfold HVMOP_altp2m_get_domain_state; lia).
  rewrite (proj2 (Z.ltb_ge _ cmd)) by (unfold HVMOP_altp2m_change_gfn; lia).
  rewrite andb_false_r. simpl. apply wp_bind, wp_gets. rewrite Hh, E4. simpl.
  destruct Ha as [Ha|Ha]; [|by rewrite Ha, andb_false_r].
  unfold needs_active in Ha. rewrite Ha. done.
Qed.

(** The first [n] views exist, vCPU [c] may use VMFUNC. *)
Definition prepared (n : nat) d : Prop :=
  altp2m_inv d /\ altp2m_active d = true /\ is_hvm d = true /\
  (forall i, live d i <-> (i < n)%nat) /\
  exists v, vcpus d !! c = Some v /\ vmfunc_on v = true /\ p2midx v = 0 /\
    EPTP_LIST_ADDR v = eptp_maddr d.

Lemma wp_create_views d a m : forall n,
  prepared n d -> (n + m <= 39)%nat -> (exists cmd, arg_for cmd a) ->
  wp (create_views cfg plat mem_sharing_unshare_page zero (Some c) mask_ok env m a)
     (fun _ d' => prepared (n + m) d') d.
Proof.
  revert d a. induction m as [|m IH]; intros d a n P Hle [cmd Ha]; simpl.
  { apply wp_ret. by rewrite Nat.add_0_r. }
  set (a' := a <| op_cmd := _ |> <| vw_view := _ |>).
  assert (Ha' : arg_for HVMOP_altp2m_create_p2m a') by (destruct Ha as (?&?&?&?&?); by repeat split).
  destruct P as (I & Ac & Hh & Hl & v & Hv & Hon & Hi & He).
  apply wp_bind. eapply op_enter; [exact Ha' | unfold HVMOP_altp2m_create_p2m; lia | done | by right |].
  destruct Ha' as (_ & _ & _ & _ & Hcmd). unfold altp2m_op_switch. rewrite Hcmd. simpl.
  destruct env_ok as (_ & E2 & _).
  apply wp_bind. eapply wp_mono.
  { apply (wp_framed _ (fun r d' => r = (0, Some (Z.of_nat n)) /\ altp2m_inv d' /\
      altp2m_active d' = true /\ vcpus d' = vcpus d /\
      forall i, live d' i <-> (i < S n)%nat)); [apply _|].
    apply (wp_init_next plat); [done..| |].
    - intros i d' e Hi39 Ni Hf I' R Hne.
      assert (i = n) as ->.
      { rewrite Hl in Ni. destruct (decide (i = n)); [done|]. exfalso.
        specialize (Hf n ltac:(lia)). rewrite Hl in Hf. lia. }
      split; [done|]. split; [done|]. split; [by rewrite (rl_active _ _ _ _ _ R)|].
      split; [apply R|]. intros j.
      rewrite (relist_live plat d d' n e j (inv_shape _ _ I) Hi39 R).
      case_decide; [|rewrite Hl]; subst; split; intros; try done; lia.
    - intros Hall. exfalso. specialize (Hall n ltac:(lia)). rewrite Hl in Hall. lia. }
  intros r d' [(-> & I' & A' & V' & L') Hid]. simpl. rewrite E2. apply wp_ret. simpl.
  replace (n + S m)%nat with (S n + m)%nat by lia. apply IH.
  - unfold ident in Hid. simplify_eq. split; [done|]. split; [done|]. split; [congruence|].
    split; [done|]. exists v. rewrite V'. split; [done|]. split; [done|]. split; [done | congruence].
  - lia.
  - exists HVMOP_altp2m_create_p2m. destruct Ha as (?&?&?&?&?). by repeat split.
Qed.

End Prepared.

(** ** Concrete runs *)

Definition demo_env_cpu : cpu_env := mkEnv 0 1 0.
Definition demo_hv (last : Z) : hv flat :=
  mkHv (demo_state 0 0)
    [mkHvdom 1 false [mkTscCtl 0 0; mkTscCtl 0 0] demo_guest;
     mkHvdom 2 true [mkTscCtl 0x1000 0x1000] demo_off] 0 last ∅ 0 false.

Lemma demo_service last : service_on demo_env_cpu (demo_hv last) (5 * 1024).
Proof.
  split; [apply demo_wf; [lia | reflexivity]|]. split; [done|]. split; [done|].
  simpl. by apply elem_of_singleton.
Qed.

Lemma demo_can last :
  can_vmfunc demo_plat (demo_hv last) 0 0 2 (eptp_of demo_plat 1002)
    (mkHvdom 1 false [mkTscCtl 0 0; mkTscCtl 0 0] demo_guest) (vcpu0 demo_guest).
Proof.
  split; try (vm_compute; reflexivity).
  - apply demo_guest_inv.
  - vm_compute. split; [discriminate | reflexivity].
  - vm_compute. discriminate.
Qed.

Lemma comportlog_in_bounds_witness :
  comportlogptr (fold_left toggle [true; false; true] (demo_hv 0)) = 3 /\
  log_ok (fold_left toggle [true; false; true] (demo_hv 0)).
Proof.
  split; [reflexivity|]. apply comportlog_in_bounds. split; [simpl; unfold BUF_SIZE; lia | reflexivity].
Defined.

(** The second domain, with an emulated TSC, loses its RDTSC exits. *)
Lemma toggle_sets_every_hvm_domain_witness :
  exists d', doms (toggle (demo_hv 0) false) !! 1%nat = Some d' /\ vtsc d' = true /\
    forall c, c ∈ ctls d' -> rdtsc_exits c = false.
Proof.
  destruct (toggle_sets_every_hvm_domain (demo_hv 0) false 1
    (mkHvdom 2 true [mkTscCtl 0x1000 0x1000] demo_off) eq_refl ltac:(vm_compute; reflexivity))
    as (d' & E & Hc & _ & _ & Hv & _).
  exists d'. split; [exact E|]. split; [exact Hv | exact Hc].
Defined.

Lemma vmfunc_is_recorded_witness :
  exists h' front,
    rdtsc_exit true (fun _ => 7) (fun _ => 0) demo_env_cpu 0 0 1000
      (guest_vmfunc 0 0 2 (eptp_of demo_plat 1002) (demo_hv 0)) = Some (1000, 0, h') /\
    unread (tr h') 0 (5 * 1024) = front ++ vmfunc_record 1 2.
Proof.
  destruct (vmfunc_is_recorded demo_plat true (fun _ => 7) (fun _ => 0) demo_env_cpu (demo_hv 0)
    (5 * 1024) 0 0 2 (eptp_of demo_plat 1002) _ _ 1000 (demo_can 0) ltac:(discriminate)
    (demo_service 0) ltac:(vm_compute; discriminate)) as (h' & front & d' & E & Hu & _).
  exists h', front. split; [exact E | exact Hu].
Defined.

Lemma vmfunc_to_last_reported_is_missed_witness :
  exists h', rdtsc_exit true (fun _ => 7) (fun _ => 0) demo_env_cpu 0 0 1000
    (guest_vmfunc 0 0 2 (eptp_of demo_plat 1002) (demo_hv 2)) = Some (1000, 0, h') /\
    tr h' = demo_state 0 0.
Proof.
  destruct (vmfunc_to_last_reported_is_missed demo_plat true (fun _ => 7) (fun _ => 0) demo_env_cpu
    (demo_hv 2) 0 0 2 (eptp_of demo_plat 1002) _ _ 1000 (demo_can 2) eq_refl eq_refl)
    as (h' & E & Ht).
  exists h'. split; [exact E | exact Ht].
Defined.

Lemma switch_off_records_phantom_witness :
  exists h' front,
    hvm_rdtsc_intercept true (fun _ => 7) (fun _ => 0) demo_env_cpu 1 0 1000
      (toggle (demo_hv 2) false) = Some (1000, 0, h') /\
    unread (tr h') 0 (5 * 1024) = front ++ vmfunc_record 2 0.
Proof.
  destruct (switch_off_records_phantom true (fun _ => 7) (fun _ => 0) demo_env_cpu (demo_hv 2)
    (5 * 1024) 1 0 (mkHvdom 2 true [mkTscCtl 0x1000 0x1000] demo_off) (vcpu0 demo_off) 1000
    eq_refl ltac:(vm_compute; reflexivity) ltac:(vm_compute; reflexivity) ltac:(discriminate)
    (demo_service 2) ltac:(vm_compute; discriminate)) as (h' & front & E & Hu).
  exists h', front. split; [exact E | exact Hu].
Defined.

