(* ===== verification/Xentrace.v ===== *)
(** * xentrace: draining the trace buffers (tools/xentrace/xentrace.c)

    The consumer of the rings of Trace.v, with the trigger of the memory
    introspection that this program adds to [write_buffer]: before each write
    two bytes of the data are taken as domain and view, and the scanner is
    run.

    The process state is the output file (a list of bytes), the runs of the
    scanner with the two bytes printed before each, the circular memory
    buffer of option -M, and the hypervisor's trace state, whose pages the
    process maps.  [None] is exit() or a failed assert.  What the system calls
    return ([sys_write], [statvfs]) is input, indexed by the number of the
    call. *)

From S2P Require Import Prelude Monad Trace.

Definition POLL_SLEEP_MILLIS : Z := 100.
Definition DEFAULT_TBUF_SIZE : Z := 32.
Definition TRC_SCHED : Z := 0x0002f000.
Definition TRC_DOM0OP : Z := 0x0004f000.
Definition TRC_HVM : Z := 0x0008f000.
Definition TRC_TRACE_CPU_CHANGE : Z := TRC_GEN + 3.
Definition TRACE_EXTRA_SHIFT : Z := 28.
Definition MEMBUF_INDEX_RESET_THRESHOLD : Z := 2 ^ 29.

(** settings_t *)
Record settings := mkSettings {
  poll_sleep : Z; evt_mask : Z; cpu_mask_str : option (list Z); opt_pages : Z;
  disk_rsvd : Z; timeout : Z; memory_buffer : Z;
  discard : bool; disable_tracing : bool; start_disabled : bool
}.
#[export] Instance eta_settings : Eta settings := fun x =>
  mkSettings (poll_sleep x) (evt_mask x) (cpu_mask_str x) (opt_pages x) (disk_rsvd x)
    (timeout x) (memory_buffer x) (discard x) (disable_tracing x) (start_disabled x).

(** The static membuf; [mb_oob] records an access past [buf + size]. *)
Record membuf_t := mkMembuf {
  mb_buf : gmap Z Z; mb_prod : Z; mb_cons : Z; mb_size : Z;
  pending_size : Z; pending_prod : Z; mb_oob : bool
}.
#[export] Instance eta_membuf : Eta membuf_t := fun x =>
  mkMembuf (mb_buf x) (mb_prod x) (mb_cons x) (mb_size x) (pending_size x)
    (pending_prod x) (mb_oob x).

Record xt := mkXt {
  opts : settings;
  membuf : membuf_t;
  output : list Z;
  vmi_runs : list (Z * Z);
  hyp : tstate;
  interrupted : bool;
  n_write : nat;
  n_stat : nat;
  n_hv : nat
}.
#[export] Instance eta_xt : Eta xt := fun x =>
  mkXt (opts x) (membuf x) (output x) (vmi_runs x) (hyp x) (interrupted x)
    (n_write x) (n_stat x) (n_hv x).

(** ** Bytes of a word *)
Definition le32 (w : Z) : list Z :=
  [u8 w; u8 (Z.shiftr w 8); u8 (Z.shiftr w 16); u8 (Z.shiftr w 24)].
Definition un_le32 (b0 b1 b2 b3 : Z) : Z :=
  Z.lor b0 (Z.lor (Z.shiftl b1 8) (Z.lor (Z.shiftl b2 16) (Z.shiftl b3 24))).

(** struct cpu_change_record, 12 bytes. *)
Definition CPU_CHANGE_SIZE : Z := 12.
Definition CPU_CHANGE_HEADER : Z :=
  Z.lor TRC_TRACE_CPU_CHANGE (Z.shiftl (CPU_CHANGE_SIZE / 4 - 1) TRACE_EXTRA_SHIFT).
Definition cpu_change_record (cpu window_size : Z) : list Z :=
  le32 CPU_CHANGE_HEADER ++ le32 (u32 cpu) ++ le32 (u32 window_size).

(** A pointer into a mapping: what the bytes from it on are, and how many of
    them the mapping has. *)
Record ptr := mkPtr { byte_at : Z -> Z; room : Z }.

(** The [n] bytes at a pointer. *)
Definition bytes_at (p : Z -> Z) (n : Z) : list Z := map p (seqZ 0 n).

(** What wait_for_event_or_timeout() meets: poll() times out, is interrupted,
    fails, or reports a port, which is then unmasked. *)
Inductive wait_result :=
  | PollTimeout | PollEintr | PollError | PollPort (port unmask_rc : Z).

(** What happens while the process sleeps: a signal may arrive, the
    hypervisor runs, and poll() returns. *)
Record round := mkRound {
  signalled : bool; hv_run : tstate -> tstate; waited : wait_result
}.

Section Xentrace.
Local Open Scope monad_scope.
Context (sys_write : nat -> Z -> Z) (statvfs : nat -> option Z).
Context (online : list Z).                     (* the hypervisor's CPUs *)
Context (hv_step : nat -> tstate -> tstate).   (* what it does during a scan *)

Definition exit_ {A} : M xt A := fun _ => None.
Definition mb_get : M xt membuf_t := gets membuf.
Definition mb_upd (f : membuf_t -> membuf_t) : M xt unit := modify (fun s => s <| membuf ::= f |>).

(** ** The circular memory buffer *)

Definition MEMBUF_POINTER (m : membuf_t) (i : Z) : Z := i mod mb_size m.

(** Stores and loads relative to [membuf.buf]. *)
Fixpoint mb_store (a : Z) (bs : list Z) (m : membuf_t) : membuf_t :=
  match bs with
  | [] => m
  | b :: bs' =>
      mb_store (a + 1) bs'
        (m <| mb_buf ::= <[a := b]> |>
           <| mb_oob := mb_oob m || negb (a <? mb_size m) |>)
  end.
Definition mb_load32 (m : membuf_t) (a : Z) : Z :=
  un_le32 (rd (mb_buf m) a) (rd (mb_buf m) (a + 1)) (rd (mb_buf m) (a + 2)) (rd (mb_buf m) (a + 3)).

Definition MEMBUF_PROD_SET (x : Z) : M xt unit :=
  let! m := mb_get in
  if x <? mb_prod m then exit_
  else
    mb_upd (fun m => m <| mb_prod := x |>) ;;
    when (MEMBUF_INDEX_RESET_THRESHOLD <? x)
      (mb_upd (fun m =>
         let m := m <| mb_prod := x mod mb_size m |> <| mb_cons ::= fun c => c mod mb_size m |> in
         if mb_prod m <? mb_cons m then m <| mb_prod ::= fun p => u64 (p + mb_size m) |> else m)).

Definition membuf_alloc (malloc_ok : bool) (size : Z) : M xt unit :=
  if negb malloc_ok then exit_
  else mb_upd (fun m => m <| mb_prod := 0 |> <| mb_cons := 0 |> <| mb_size := size |>).

(** The do-while loop that frees windows, and the loop that goes on to a
    window of a lower CPU; [fuel] bounds the iterations. *)
Fixpoint free_windows (fuel : nat) (need_to_consume last_cpu : Z) (m : membuf_t)
  : option (Z * membuf_t) :=
  match fuel with
  | O => None
  | S fuel' =>
      let p := MEMBUF_POINTER m (mb_cons m) in
      if negb (mb_load32 m p =? CPU_CHANGE_HEADER) then None
      else
        let freed := CPU_CHANGE_SIZE + mb_load32 m (p + 8) in
        if 0 <? need_to_consume then
          let last_cpu := s32 (mb_load32 m (p + 4)) in
          let m := m <| mb_cons ::= fun c => u64 (c + freed) |> in
          let need_to_consume := need_to_consume - freed in
          if 0 <? need_to_consume then free_windows fuel' need_to_consume last_cpu m
          else Some (last_cpu, m)
        else Some (last_cpu, m)
  end.
Fixpoint skip_to_lower_cpu (fuel : nat) (last_cpu : Z) (m : membuf_t) : option membuf_t :=
  match fuel with
  | O => None
  | S fuel' =>
      let p := MEMBUF_POINTER m (mb_cons m) in
      let cpu := s32 (mb_load32 m (p + 4)) in
      if last_cpu <? cpu then
        let freed := CPU_CHANGE_SIZE + mb_load32 m (p + 8) in
        skip_to_lower_cpu fuel' cpu (m <| mb_cons ::= fun c => u64 (c + freed) |>)
      else Some m
  end.

Definition membuf_reserve_window (fuel : nat) (cpu window_size : Z) : M xt unit :=
  let! m := mb_get in
  if 0 <? pending_size m then exit_
  else
    let need_to_consume := s64 (window_size + CPU_CHANGE_SIZE) in
    if mb_size m <? window_size then exit_
    else
      let free := s64 (mb_size m - (mb_prod m - mb_cons m)) in
      let! m :=
        if need_to_consume <? free then ret m
        else
          let! r := deref (fun _ : xt => free_windows fuel (need_to_consume - free) (-1) m) in
          deref (fun _ : xt => skip_to_lower_cpu fuel r.1 r.2) in
      let m := m <| pending_prod := mb_prod m |> <| pending_size := window_size |> in
      let m := mb_store (MEMBUF_POINTER m (pending_prod m)) (cpu_change_record cpu window_size) m in
      let m := m <| pending_prod ::= fun p => u64 (p + CPU_CHANGE_SIZE) |> in
      mb_upd (fun _ => m).

Definition membuf_write (start : Z -> Z) (size : Z) : M xt unit :=
  let! m := mb_get in
  if u64 (mb_size m - (mb_prod m - mb_cons m)) <? size then exit_
  else if pending_size m <? size then exit_
  else
    let p := MEMBUF_POINTER m (pending_prod m) in
    let m :=
      if mb_size m <? p + size then
        let usize := mb_size m - p in
        mb_store 0 (bytes_at (fun j => start (usize + j)) (size - usize))
          (mb_store p (bytes_at start usize) m)
      else mb_store p (bytes_at start size) m in
    let m := m <| pending_prod ::= fun p => u64 (p + size) |>
               <| pending_size ::= fun s => s - size |> in
    mb_upd (fun _ => m) ;;
    when (pending_size m =? 0) (MEMBUF_PROD_SET (pending_prod m)).

(** write(outfd, p, n): all or exit. *)
Definition write_out (bs : list Z) : M xt unit :=
  let! s := gets (fun s : xt => s) in
  let size := Z.of_nat (length bs) in
  modify (fun s : xt => s <| n_write ::= S |>) ;;
  if negb (sys_write (n_write s) size =? size) then exit_
  else modify (fun s : xt => s <| output ::= fun o => o ++ bs |>).

Definition membuf_dump : M xt unit :=
  let! m := mb_get in
  let cons := mb_cons m mod mb_size m in
  let prod := mb_prod m mod mb_size m in
  let piece a n := bytes_at (fun j => rd (mb_buf m) (a + j)) n in
  (if cons <? prod then write_out (piece cons (prod - cons))
   else
     write_out (piece cons (mb_size m - cons)) ;;
     write_out (piece 0 prod)) ;;
  mb_upd (fun m => m <| mb_cons := 0 |> <| mb_prod := 0 |>).

(** ** write_buffer() *)

Definition check_disk (size total_size : Z) : M xt unit :=
  let! s := gets (fun s : xt => s) in
  when ((memory_buffer (opts s) =? 0) && negb (disk_rsvd (opts s) =? 0))
    (modify (fun s : xt => s <| n_stat ::= S |>) ;;
     let! free := deref (fun _ : xt => statvfs (n_stat s)) in
     let freespace := u64 (free - (if negb (total_size =? 0) then total_size else size)) in
     bug_on (Z.shiftr freespace 20 <=? disk_rsvd (opts s))).

(** The two printf()s and system(): the scanner runs on two bytes.  A read
    outside the mapping is a fault. *)
Definition run_vmi (start : ptr) : M xt unit :=
  bug_on (room start <=? 8) ;;
  modify (fun s : xt => s <| vmi_runs ::= fun l => l ++ [(byte_at start 4, byte_at start 8)] |>).

Definition write_buffer (fuel : nat) (cpu : Z) (start : ptr) (size total_size : Z)
  : M xt unit :=
  check_disk size total_size ;;
  let! s := gets (fun s : xt => s) in
  let in_memory := negb (memory_buffer (opts s) =? 0) in
  when (negb (total_size =? 0))
    (if in_memory then membuf_reserve_window fuel cpu total_size
     else write_out (cpu_change_record cpu total_size)) ;;
  if in_memory then membuf_write (byte_at start) size
  else
    run_vmi start ;;
    write_out (bytes_at (byte_at start) size).

(** ** The hypercalls of libxc (tools/libxc/xc_tbuf.c) *)

Definition tbuf_sysctl (tbc : tbuf_op) : M xt (Z * tbuf_op) :=
  fun s =>
    let '(rc, tbc, st) := tb_control online tbc (hyp s) in
    Some (rc, tbc, s <| hyp := st |>).

Definition tbuf_enable (enable : bool) : M xt Z :=
  let cmd := if enable then XEN_SYSCTL_TBUFOP_enable else XEN_SYSCTL_TBUFOP_disable in
  let! r := tbuf_sysctl (mkTbc cmd (inl 0) 0 0 0) in ret r.1.

Definition xc_tbuf_set_size (size : Z) : M xt Z :=
  let! r := tbuf_sysctl (mkTbc XEN_SYSCTL_TBUFOP_set_size (inl 0) 0 0 (u32 size)) in ret r.1.

(** The result, and the frame and size of t_info. *)
Definition xc_tbuf_enable (pages : Z) : M xt (Z * (Z * Z)) :=
  let! _ := xc_tbuf_set_size pages in
  let! rc := tbuf_enable true in
  if negb (rc =? 0) then ret (-1, (0, 0))
  else
    let! r := tbuf_sysctl (mkTbc XEN_SYSCTL_TBUFOP_get_info (inl 0) 0 0 0) in
    ret (0, (tbc_buffer_mfn r.2, tbc_size r.2)).

Definition xc_tbuf_set_evt_mask (mask : Z) : M xt Z :=
  let! r := tbuf_sysctl (mkTbc XEN_SYSCTL_TBUFOP_set_evt_mask (inl 0) mask 0 0) in ret r.1.

Definition disable_tbufs : M xt unit := let! _ := tbuf_enable false in ret tt.

Definition get_tbufs : M xt (Z * Z) :=
  modify (fun s : xt => s <| opts ::= fun o =>
    if opt_pages o =? 0 then o <| opt_pages := DEFAULT_TBUF_SIZE |> else o |>) ;;
  let! s := gets (fun s : xt => s) in
  let! r := xc_tbuf_enable (opt_pages (opts s)) in
  if negb (r.1 =? 0) then exit_ else ret r.2.

Definition set_evt_mask (mask : Z) : M xt unit :=
  let! rc := xc_tbuf_set_evt_mask mask in
  if negb (rc =? 0) then exit_ else ret tt.

(** ** Mapping and scanning *)

(** map_tbufs(): the mappings are the frames t_info names, so the process
    reads and writes the hypervisor's own words.  The result is
    [t_info->tbuf_size]. *)
Definition map_tbufs : M xt Z :=
  let! ti := deref (fun s : xt => t_info (hyp s)) in
  if tbuf_size ti =? 0 then exit_ else ret (tbuf_size ti).

(** Word [w] and byte [o] of the data area of CPU [i]: the pages of t_info's
    list, one after the other, behind the t_buf header; and the address of
    that header. *)
Definition data_word (st : tstate) (i w : Z) : Z :=
  let page := get_mfn_list st (get_mfn_offset st i + (w + 2) / PAGE_WORDS) in
  rd (mem st) (mfn_to_virt page + (w + 2) mod PAGE_WORDS).
Definition data_byte (st : tstate) (i o : Z) : Z :=
  u8 (Z.shiftr (data_word st i (o / 4)) (8 * (o mod 4))).
Definition data_ptr (st : tstate) (i data_size o : Z) : ptr :=
  mkPtr (fun j => data_byte st i (o + j)) (data_size - o).
Definition meta_word (st : tstate) (i : Z) : Z :=
  mfn_to_virt (get_mfn_list st (get_mfn_offset st i)).
Definition meta_cons (st : tstate) (i : Z) : Z := rd (mem st) (meta_word st i).
Definition meta_prod (st : tstate) (i : Z) : Z := rd (mem st) (meta_word st i + 1).

(** The hypervisor goes on producing while the process copies. *)
Definition hv_runs : M xt unit :=
  modify (fun s : xt => s <| hyp ::= hv_step (n_hv s) |> <| n_hv ::= S |>).

(** The body of the loop over the buffers; [data_size] is the local variable
    of monitor_tbufs(). *)
Definition scan_buffer (fuel : nat) (data_size i : Z) : M xt unit :=
  let! cons_ := gets (fun s : xt => meta_cons (hyp s) i) in
  let! prod_ := gets (fun s : xt => meta_prod (hyp s) i) in
  hv_runs ;;
  if cons_ =? prod_ then ret tt
  else
    bug_on (negb (cons_ <? 2 * data_size)) ;;
    bug_on (negb (prod_ <? 2 * data_size)) ;;
    let window_size := if prod_ <? cons_ then prod_ + 2 * data_size - cons_ else prod_ - cons_ in
    bug_on (negb (0 <? window_size)) ;;
    bug_on (negb (window_size <=? data_size)) ;;
    let start_offset := cons_ mod data_size in
    let end_offset := prod_ mod data_size in
    let! st := gets hyp in
    (if start_offset <? end_offset then
       write_buffer fuel i (data_ptr st i data_size start_offset) window_size window_size
     else
       write_buffer fuel i (data_ptr st i data_size start_offset)
         (data_size - start_offset) window_size ;;
       write_buffer fuel i (data_ptr st i data_size 0) end_offset 0) ;;
    modify (fun s : xt => s <| hyp ::= fun st =>
      st <| mem ::= <[meta_word st i := prod_]> |> |>).

Definition discard_buffer (i : Z) : M xt unit :=
  modify (fun s : xt => s <| hyp ::= fun st =>
    st <| mem ::= <[meta_word st i := meta_prod st i]> |> |>).

(** A pass over all buffers. *)
Definition scan_all (fuel : nat) (num : nat) (data_size : Z) : M xt unit :=
  for_each (iota num) (scan_buffer fuel data_size).

Definition wait_for_event_or_timeout (virq_port : Z) (r : round) : M xt unit :=
  modify (fun s : xt => s <| interrupted ::= orb (signalled r) |> <| hyp ::= hv_run r |>) ;;
  match waited r with
  | PollTimeout | PollEintr => ret tt
  | PollError => exit_
  | PollPort port rc =>
      if port =? -1 then exit_
      else if negb (port =? virq_port) then exit_
      else if rc =? -1 then exit_
      else ret tt
  end.

(** The endless loop, with one round of waiting for each element of [rounds].
    The result is [true] after [break] and [false] when the process still
    waits.  After a signal there is exactly one more pass ([last_read]). *)
Fixpoint monitor_loop (fuel : nat) (num : nat) (data_size virq_port : Z)
    (rounds : list round) : M xt bool :=
  scan_all fuel num data_size ;;
  let! s := gets (fun s : xt => s) in
  if interrupted s then
    when (disable_tracing (opts s)) disable_tbufs ;;
    scan_all fuel num data_size ;;
    ret true
  else
    match rounds with
    | [] => ret false
    | r :: rounds' =>
        wait_for_event_or_timeout virq_port r ;;
        monitor_loop fuel num data_size virq_port rounds'
    end.

(** monitor_tbufs(); [virq_port] is what event_init() binds (-1: failure) and
    [nr_cpus] what xc_physinfo() reports. *)
Definition monitor_tbufs (fuel : nat) (virq_port : Z) (nr_cpus : option nat)
    (rounds : list round) : M xt bool :=
  bug_on (virq_port =? -1) ;;
  let! num := deref (fun _ : xt => nr_cpus) in
  let! _ := get_tbufs in
  let! s := gets (fun s : xt => s) in
  when (start_disabled (opts s)) disable_tbufs ;;
  let! pages := map_tbufs in
  let size := pages * PAGE_SIZE in
  let data_size := size - T_BUF_SIZE in
  when (discard (opts s)) (for_each (iota num) discard_buffer) ;;
  let! finished := monitor_loop fuel num data_size virq_port rounds in
  when (finished && negb (memory_buffer (opts s) =? 0)) membuf_dump ;;
  ret finished.
End Xentrace.
