(* ===== verification/XentraceArgs.v ===== *)
(** * xentrace: the command line (tools/xentrace/xentrace.c)

    The settings main() starts from, the options, the event mask and the CPU
    mask with its three notations, and the start of the program up to
    monitor_tbufs().  Characters are their codes; [None] is a way out through
    usage() or exit().  getopt_long() is represented by what it returns: a
    sequence of option letters with their arguments, then the operands. *)

From Stdlib Require Import Ascii String.
From S2P Require Import Prelude Monad Trace Xentrace.

Definition cstr := list Z.
Fixpoint chars (s : string) : cstr :=
  match s with
  | EmptyString => []
  | String c s' => Z.of_N (N_of_ascii c) :: chars s'
  end.
#[global] Arguments chars s%_string_scope.

(** ** strtol() in base 0, as argtol() and sargtol() call it *)

Definition is_digit (c : Z) : bool := (48 <=? c) && (c <=? 57).
Definition is_space (c : Z) : bool := (c =? 32) || ((9 <=? c) && (c <=? 13)).
(** The value of a digit character in a base up to 16. *)
Definition digit_val (base c : Z) : option Z :=
  let v := if is_digit c then c - 48
           else if (97 <=? c) && (c <=? 102) then c - 87
           else if (65 <=? c) && (c <=? 70) then c - 55 else 16 in
  if v <? base then Some v else None.

Fixpoint strtol_digits (base : Z) (s : cstr) (acc : Z) : Z * cstr :=
  match s with
  | [] => (acc, [])
  | c :: s' =>
      match digit_val base c with
      | Some v => strtol_digits base s' (acc * base + v)
      | None => (acc, s)
      end
  end.
Fixpoint skip_spaces (s : cstr) : cstr :=
  match s with c :: s' => if is_space c then skip_spaces s' else s | [] => [] end.
(** The value and the rest of the string, [None] when there is no digit. *)
Definition strtol_unsigned (s : cstr) : option (Z * cstr) :=
  match s with
  | 48 :: x :: c :: s' =>
      if ((x =? 120) || (x =? 88)) && bool_decide (is_Some (digit_val 16 c))
      then Some (strtol_digits 16 (c :: s') 0)
      else Some (strtol_digits 8 s 0)
  | c :: _ =>
      if is_digit c then Some (strtol_digits (if c =? 48 then 8 else 10) s 0) else None
  | [] => None
  end.
(** The value, the rest of the string, and whether errno is set. *)
Definition strtol (arg : cstr) : option (Z * cstr * bool) :=
  let s := skip_spaces arg in
  let '(neg, s) := match s with
                   | 45 :: s' => (true, s')
                   | 43 :: s' => (false, s')
                   | _ => (false, s)
                   end in
  '(v, rest) ← strtol_unsigned s;
  let v := if neg then - v else v in
  Some (v, rest, (v <? - 2 ^ 63) || (2 ^ 63 <=? v)).

Definition sargtol (arg : cstr) : option Z :=
  '(val, endp, err) ← strtol arg;
  if (err : bool) then None
  else match endp with
       | [] => Some val
       | c :: _ =>
           if c =? 77 then Some (s64 (val * (1024 * 1024)))
           else if (c =? 75) || (c =? 107) then Some (s64 (val * 1024))
           else None
       end.

Definition argtol (arg : cstr) : option Z :=
  '(val, endp, err) ← strtol arg;
  if (err : bool) then None else match endp with [] => Some val | _ => None end.

(** ** The event mask *)

Definition parse_evtmask (arg : cstr) (o : settings) : option settings :=
  let add m := Some (o <| evt_mask ::= fun e => Z.lor e m |>) in
  if decide (arg = chars "gen") then add TRC_GEN
  else if decide (arg = chars "sched") then add TRC_SCHED
  else if decide (arg = chars "dom0op") then add TRC_DOM0OP
  else if decide (arg = chars "hvm") then add TRC_HVM
  else if decide (arg = chars "all") then add TRC_ALL
  else v ← argtol arg; Some (o <| evt_mask := u32 v |>).

(** ** The CPU mask *)

(** xc_cpumap_t: the bytes of an allocation of [cm_size] bytes, and whether
    it was written or read outside. *)
Record cpumap := mkCpumap {
  cm_bytes : gmap Z Z; cm_size : Z; cm_wild_write : bool; cm_wild_read : bool
}.
#[export] Instance eta_cpumap : Eta cpumap := fun x =>
  mkCpumap (cm_bytes x) (cm_size x) (cm_wild_write x) (cm_wild_read x).

Definition cm_set (i v : Z) (m : cpumap) : cpumap :=
  m <| cm_bytes ::= <[i := v]> |> <| cm_wild_write := cm_wild_write m || (cm_size m <=? i) |>.
Definition cm_read (i : Z) (m : cpumap) : cpumap :=
  m <| cm_wild_read := cm_wild_read m || (cm_size m <=? i) |>.

Definition xc_get_cpumap_size (max_cpus : Z) : Z :=
  if max_cpus <? 0 then -1 else (max_cpus + 7) / 8.
Definition xc_cpumap_alloc (calloc_ok : bool) (max_cpus : Z) : option cpumap :=
  let sz := xc_get_cpumap_size max_cpus in
  if (sz <=? 0) || negb calloc_ok then None else Some (mkCpumap ∅ sz false false).
Definition xc_cpumap_setcpu (cpu : Z) (m : cpumap) : cpumap :=
  cm_set (cpu / 8) (Z.lor (rd (cm_bytes m) (cpu / 8)) (Z.shiftl 1 (cpu mod 8))) m.
Definition xc_cpumap_testcpu (cpu : Z) (m : cpumap) : bool :=
  Z.testbit (rd (cm_bytes m) (cpu / 8)) (cpu mod 8).

(** Up to the next terminator: the two ends of the range, whether a dash was
    seen, and the text behind a comma ([None] at the end of the string). *)
Fixpoint scan_range (s : cstr) (a b : Z) (in_range : bool)
  : option (Z * Z * bool * option cstr) :=
  match s with
  | [] => Some (a, b, in_range, None)
  | c :: s' =>
      if c =? 0 then Some (a, b, in_range, None)
      else if c =? 44 then Some (a, b, in_range, Some s')
      else if c =? 45 then if in_range then None else scan_range s' a 0 true
      else if negb (is_digit c) then None
      else
        let b := u32 (b * 10 + (c - 48)) in
        scan_range s' (if in_range then a else b) b in_range
  end.

(** while ( a <= b ) *)
Definition set_cpus (a b : Z) (m : cpumap) : cpumap :=
  fold_left (fun m cpu => xc_cpumap_setcpu cpu m) (seqZ a (b - a + 1)) m.

Fixpoint parse_ranges (fuel : nat) (nmaskbits : Z) (s : cstr) (m : cpumap)
  : option (bool * cpumap) :=
  match fuel with
  | O => None
  | S fuel' =>
      match scan_range s 0 0 false with
      | None => Some (false, m)
      | Some (a, b, in_range, rest) =>
          let b := if (b =? 0) && in_range then u32 (nmaskbits - 1) else b in
          if b <? a then Some (false, m)
          else if nmaskbits <=? b then Some (false, m)
          else
            let m := set_cpus a b m in
            match rest with
            | None => Some (true, m)
            | Some s' => parse_ranges fuel' nmaskbits s' m
            end
      end
  end.

(** parse_cpumask_range(): success, and the map. *)
Definition parse_cpumask_range (nmaskbits : Z) (mask_str : cstr) (m : cpumap) : bool * cpumap :=
  if nmaskbits <=? 0 then (false, m)
  else match parse_ranges (S (List.length mask_str)) nmaskbits mask_str m with
       | Some r => r
       | None => (false, m)
       end.

(** What the hypervisor makes of a bitmap of [bits] bits. *)
Definition cpumask_of (bits : Z) (m : cpumap) : gset Z :=
  list_to_set (filter (fun c => xc_cpumap_testcpu c m = true) (seqZ 0 bits)).

(** print_cpu_mask() reads the bytes from [size] down to 0. *)
Definition print_cpu_mask (m : cpumap) : cpumap :=
  fold_left (fun m i => cm_read i m) (rev (seqZ 0 (cm_size m + 1))) m.

Section Start.
Local Open Scope monad_scope.
Context (sys_write : nat -> Z -> Z) (statvfs : nat -> option Z).
Context (online : list Z) (hv_step : nat -> tstate -> tstate).
Context (max_cpus : Z).               (* xc_get_max_cpus() *)

Definition set_cpu_mask (m : cpumap) : M xt (bool * cpumap) :=
  let! r := tbuf_sysctl online
    (mkTbc XEN_SYSCTL_TBUFOP_set_cpu_mask (inr (cpumask_of max_cpus m)) 0 0 0) in
  if r.1 =? 0 then ret (true, print_cpu_mask m) else ret (false, m).

(** The map built from a mask string: [None] is exit(). *)
Definition cpu_mask_map (str : cstr) (m : cpumap) : option (bool * cpumap) :=
  if decide (take 2 str = chars "0x") then
    v ← argtol str;
    let v := u32 v in
    Some (true, fold_left (fun m i => cm_set i (Z.land (Z.shiftr v (i * 8)) 0xff) m)
                          (seqZ 0 4) m)
  else if decide (str = chars "all") then
    Some (true, fold_left (fun m i => cm_set i 0xff m) (seqZ 0 (xc_get_cpumap_size max_cpus)) m)
  else Some (parse_cpumask_range max_cpus str m).

(** The result is the success and, for inspection, the map. *)
Definition parse_cpu_mask (calloc_ok : bool) (str : cstr) : M xt (bool * option cpumap) :=
  let! r :=
    match xc_cpumap_alloc calloc_ok max_cpus with
    | None => ret (false, None)
    | Some m =>
        if decide (List.length str < 1)%nat then ret (false, Some m)
        else
          let! p := deref (fun _ : xt => cpu_mask_map str m) in
          if p.1 then let! q := set_cpu_mask p.2 in ret (q.1, Some q.2)
          else ret (false, Some p.2)
    end in
  modify (fun s : xt => s <| opts ::= fun o => o <| cpu_mask_str := None |> |>) ;;
  ret r.
End Start.

(** ** Options *)

Definition default_settings : settings :=
  mkSettings POLL_SLEEP_MILLIS 0 None 0 0 0 0 false true false.

Definition parse_option (option_ : Z) (optarg : cstr) (o : settings) : option settings :=
  if option_ =? 115 then v ← argtol optarg; Some (o <| poll_sleep := u64 v |>)
  else if option_ =? 99 then Some (o <| cpu_mask_str := Some optarg |>)
  else if option_ =? 101 then parse_evtmask optarg o
  else if option_ =? 83 then v ← argtol optarg; Some (o <| opt_pages := u64 v |>)
  else if option_ =? 86 then None
  else if option_ =? 68 then Some (o <| discard := true |>)
  else if option_ =? 114 then v ← argtol optarg; Some (o <| disk_rsvd := u64 v |>)
  else if option_ =? 120 then Some (o <| disable_tracing := false |>)
  else if option_ =? 88 then Some (o <| start_disabled := true |>)
  else if option_ =? 84 then v ← argtol optarg; Some (o <| timeout := u64 v |>)
  else if option_ =? 77 then v ← sargtol optarg; Some (o <| memory_buffer := u64 v |>)
  else None.

(** The loop over getopt_long(), then exactly one operand: the output file. *)
Fixpoint parse_args (options : list (Z * cstr)) (operands : list cstr) (o : settings)
  : option (settings * cstr) :=
  match options with
  | [] => match operands with [outfile] => Some (o, outfile) | _ => None end
  | (c, arg) :: options' => o ← parse_option c arg o; parse_args options' operands o
  end.

(** What main() meets outside: whether the control interface and the output
    file open, whether the latter is a terminal, whether memory is there. *)
Record environment := mkEnvironment {
  xc_open_ok : bool; calloc_ok : bool; open_ok : bool; is_tty : bool; malloc_ok : bool;
  bound_port : Z; physinfo_cpus : option nat; rounds : list round
}.

Section Main.
Local Open Scope monad_scope.
Context (sys_write : nat -> Z -> Z) (statvfs : nat -> option Z).
Context (online : list Z) (hv_step : nat -> tstate -> tstate) (max_cpus : Z).

Definition main (fuel : nat) (e : environment) (options : list (Z * cstr))
    (operands : list cstr) : M xt bool :=
  let! r := deref (fun s : xt => parse_args options operands default_settings) in
  modify (fun s : xt => s <| opts := r.1 |>) ;;
  bug_on (negb (xc_open_ok e)) ;;
  let! s := gets (fun s : xt => s) in
  when (negb (evt_mask (opts s) =? 0)) (set_evt_mask online (evt_mask (opts s))) ;;
  match cpu_mask_str (opts s) with
  | Some str =>
      let! q := parse_cpu_mask online max_cpus (calloc_ok e) str in bug_on (negb q.1)
  | None => ret tt
  end ;;
  bug_on (negb (open_ok e)) ;;
  bug_on (is_tty e) ;;
  when (0 <? memory_buffer (opts s)) (membuf_alloc (malloc_ok e) (memory_buffer (opts s))) ;;
  monitor_tbufs sys_write statvfs online hv_step fuel (bound_port e) (physinfo_cpus e) (rounds e).
End Main.
