(* ===== verification/XentraceProofs.v ===== *)
(** * Draining the rings (theorems about Xentrace.v)

    What one visit to a buffer writes to the output file, on which bytes the
    scanner is started, and what is left in the ring when the hypervisor
    appends records meanwhile. *)

From S2P Require Import Prelude Monad Trace TraceProofs Xentrace.

#[local] Opaque cpu_change_record membuf_reserve_window membuf_write.

(** ** Moving the consumer *)

Lemma words_of n : n mod 4 = 0 -> exists k, n = 4 * k.
Proof. exists (n / 4). dlia. Qed.

Section Consume.
Context (st : tstate) (cpu buf : Z) (us ws : list Z).
Context (Hwf : tb_wf st cpu buf) (Hq : unread st cpu buf = us ++ ws).

Let c : Z := (buf_cons st buf + 4 * Z.of_nat (length us)) mod (2 * data_size st).
Let st' : tstate := st <| mem ::= <[buf := c]> |>.

Lemma unread_length : 4 * Z.of_nat (length us + length ws) = used st buf.
Proof.
  pose proof (wf_used_range _ _ _ Hwf) as [Hu Hu4].
  assert (length (unread st cpu buf) = Z.to_nat (used st buf / 4)) as H
    by (unfold unread; by rewrite length_map, length_seqZ).
  rewrite Hq, length_app in H. rewrite H. dlia.
Qed.

Lemma consume_cons : buf_cons st' buf = c.
Proof. unfold buf_cons. simpl. apply rd_insert_eq. Qed.

Lemma consume_prod : buf_prod st' buf = buf_prod st buf.
Proof. unfold buf_prod. simpl. apply rd_insert_ne. lia. Qed.

Lemma consume_used : used st' buf = used st buf - 4 * Z.of_nat (length us).
Proof.
  pose proof (wf_ds_bounds _ _ _ Hwf) as [Hds _].
  pose proof (wf_used_range _ _ _ Hwf) as [Hu _]. pose proof unread_length.
  unfold used. rewrite consume_cons, consume_prod. change (data_size st') with (data_size st).
  unfold c. rewrite Zminus_mod_idemp_r.
  replace (buf_prod st buf - (buf_cons st buf + 4 * Z.of_nat (length us)))
    with (buf_prod st buf - buf_cons st buf - 4 * Z.of_nat (length us)) by lia.
  rewrite <- Zminus_mod_idemp_l. fold (used st buf). apply Z.mod_small. lia.
Qed.

Lemma consume_wf : tb_wf st' cpu buf.
Proof.
  pose proof (wf_ds_bounds _ _ _ Hwf) as [Hds Hds4]. pose proof consume_used as Hu.
  pose proof (wf_used_range _ _ _ Hwf) as [Hur _].
  assert (Hc : c mod 4 = 0).
  { unfold c. rewrite (Z.mod_eq (_ + _)) by lia. pose proof (wf_cons4 _ _ _ Hwf) as H4.
    destruct (words_of _ Hds4) as [k ->]. set (q := _ / _). clearbody q.
    replace (2 * (4 * k) * q) with (4 * (2 * k * q)) by lia.
    set (t := 2 * k * q). clearbody t. clear -H4. dlia. }
  destruct Hwf. split; try done; rewrite ?consume_prod, ?consume_cons; try done.
  - unfold c. change (data_size st') with (data_size st). apply Z.mod_pos_bound. lia.
  - rewrite Hu. change (data_size st') with (data_size st). lia.
Qed.

Lemma consume_ring i : 0 <= i < data_size st / 4 -> ring_word st' cpu i = ring_word st cpu i.
Proof.
  intros Hi. pose proof (wf_addr _ _ _ Hwf) as Ha. pose proof (wf_ds _ _ _ Hwf).
  pose proof (wf_pages _ _ _ Hwf). pose proof (wf_frames _ _ _ Hwf).
  unfold ring_word. simpl. apply rd_insert_ne. rewrite Ha.
  replace (mfn_to_virt (frame st cpu 0)) with (mfn_to_virt (frame st cpu 0) + 0) by lia.
  intros E. eapply (waddr_not_header (frame st cpu) (opt_tbuf_size st)); [lia|done| | |].
  3: { symmetry. exact E. } all: try lia. dlia.
Qed.

Lemma consume_unread : unread st' cpu buf = ws.
Proof.
  pose proof (wf_ds_bounds _ _ _ Hwf) as [Hds Hds4].
  pose proof (wf_used_range _ _ _ Hwf) as [Hu Hu4]. pose proof unread_length as Hl.
  assert (Hdrop : drop (length us) (unread st cpu buf) = ws) by by rewrite Hq, drop_app_length.
  rewrite <- Hdrop. unfold unread. rewrite consume_used, consume_cons.
  change (data_size st') with (data_size st).
  replace (used st buf / 4) with (Z.of_nat (length us) + Z.of_nat (length ws)) by dlia.
  replace ((used st buf - 4 * Z.of_nat (length us)) / 4) with (Z.of_nat (length ws)) by dlia.
  rewrite seqZ_app, map_app by lia. rewrite drop_app_length'
    by (rewrite length_map, length_seqZ; lia).
  apply list_eq. intros k. rewrite !list_lookup_fmap.
  destruct (decide (Z.of_nat k < Z.of_nat (length ws))).
  2: by rewrite !lookup_seqZ_ge by lia.
  rewrite !lookup_seqZ_lt by lia. simpl. f_equal.
  set (N := data_size st / 4). assert (HN : 0 < N) by (unfold N; dlia).
  rewrite consume_ring by (apply Z.mod_pos_bound; lia). f_equal.
  assert (Hcq : exists q, c / 4 = buf_cons st buf / 4 + Z.of_nat (length us) + q * N).
  { unfold c. rewrite (Z.mod_eq (_ + _)) by lia. set (q := _ / (2 * _)). clearbody q. exists (- 2 * q).
    pose proof (wf_cons4 _ _ _ Hwf) as H4.
    assert (data_size st = 4 * N) as -> by (unfold N; dlia).
    replace (2 * (4 * N) * q) with (4 * (2 * N * q)) by lia.
    replace (-2 * q * N) with (- (2 * N * q)) by lia.
    set (t := 2 * N * q). clearbody t. clear -H4. dlia. }
  destruct Hcq as [q ->].
  replace (buf_cons st buf / 4 + Z.of_nat (length us) + q * N + (0 + Z.of_nat k))
    with (buf_cons st buf / 4 + (Z.of_nat (length us) + Z.of_nat k) + q * N) by lia.
  rewrite Z.mod_add by lia. f_equal; lia.
Qed.
End Consume.

(** ** Bytes of the window *)

Definition bytes_of (ws : list Z) : list Z := flat_map le32 ws.

Lemma data_word_ring st i w : data_word st i w = ring_word st i w.
Proof. done. Qed.

Lemma seqZ_1 a : seqZ a 1 = [a].
Proof. unfold seqZ. simpl. by rewrite Z.add_0_l || (f_equal; lia). Qed.

Lemma seqZ_4 a : seqZ a 4 = [a; a + 1; a + 2; a + 3].
Proof. unfold seqZ. simpl. repeat (f_equal; try lia). Qed.

Lemma bytes_at_words st i a (n : nat) :
  0 <= a ->
  bytes_at (fun j => data_byte st i (4 * a + j)) (4 * Z.of_nat n) =
  bytes_of (map (ring_word st i) (seqZ a (Z.of_nat n))).
Proof.
  intros Ha. unfold bytes_at, bytes_of. induction n as [|n IH]; [done|].
  replace (Z.of_nat (S n)) with (Z.of_nat n + 1) by lia.
  replace (4 * (Z.of_nat n + 1)) with (4 * Z.of_nat n + 4) by lia.
  rewrite !seqZ_app, !map_app, flat_map_app, IH by lia. f_equal.
  rewrite seqZ_4, seqZ_1. simpl map. simpl flat_map.
  unfold data_byte, le32. rewrite !data_word_ring.
  repeat match goal with
  | |- context [(4 * a + ?x) / 4] =>
      replace ((4 * a + x) / 4) with (a + Z.of_nat n) by dlia
  end.
  repeat match goal with
  | |- context [8 * ((4 * a + ?x) mod 4)] =>
      first [replace (8 * ((4 * a + x) mod 4)) with 0 by dlia
            |replace (8 * ((4 * a + x) mod 4)) with 8 by dlia
            |replace (8 * ((4 * a + x) mod 4)) with 16 by dlia
            |replace (8 * ((4 * a + x) mod 4)) with 24 by dlia]
  end.
  by rewrite Z.shiftr_0_r.
Qed.

(** The first word of the queue and its first [n] words, as they lie in the
    data area. *)
Definition first_word (st : tstate) (buf : Z) : Z := buf_cons st buf / 4 mod (data_size st / 4).

Lemma take_unread st cpu buf (n : nat) :
  tb_wf st cpu buf -> 4 * Z.of_nat n <= used st buf ->
  let N := data_size st / 4 in let S := first_word st buf in
  take n (unread st cpu buf) =
  if S + Z.of_nat n <? N then map (ring_word st cpu) (seqZ S (Z.of_nat n))
  else map (ring_word st cpu) (seqZ S (N - S)) ++
       map (ring_word st cpu) (seqZ 0 (S + Z.of_nat n - N)).
Proof.
  intros Hwf Hn N S. pose proof (wf_ds_bounds _ _ _ Hwf) as [Hds Hds4].
  pose proof (wf_used_range _ _ _ Hwf) as [Hu Hu4].
  assert (HN : 0 < N) by (unfold N; dlia).
  assert (HS : 0 <= S < N) by (apply Z.mod_pos_bound; lia).
  assert (HnN : Z.of_nat n <= N) by (unfold N; dlia).
  assert (E : take n (unread st cpu buf) =
              map (fun k => ring_word st cpu ((S + k) mod N)) (seqZ 0 (Z.of_nat n))).
  { unfold unread.
    replace (used st buf / 4) with (Z.of_nat n + (used st buf / 4 - Z.of_nat n)) by lia.
    rewrite seqZ_app, map_app by dlia. rewrite take_app_length' by (rewrite length_map, length_seqZ; lia).
    apply map_ext. intros k. unfold S, first_word. by rewrite Zplus_mod_idemp_l. }
  rewrite E. clear E. case_if E; zbool.
  - apply list_eq. intros k. rewrite !list_lookup_fmap.
    destruct (decide (Z.of_nat k < Z.of_nat n)); [|by rewrite !lookup_seqZ_ge by lia].
    rewrite !lookup_seqZ_lt by lia. simpl. rewrite Z.mod_small by lia. done.
  - replace (Z.of_nat n) with ((N - S) + (S + Z.of_nat n - N)) at 1 by lia.
    rewrite seqZ_app, map_app by lia. f_equal; apply list_eq; intros k; rewrite !list_lookup_fmap.
    + destruct (decide (Z.of_nat k < N - S)); [|by rewrite !lookup_seqZ_ge by lia].
      rewrite !lookup_seqZ_lt by lia. simpl. rewrite Z.mod_small by lia. done.
    + destruct (decide (Z.of_nat k < S + Z.of_nat n - N)); [|by rewrite !lookup_seqZ_ge by lia].
      rewrite !lookup_seqZ_lt by lia. simpl.
      replace (S + (0 + (N - S) + Z.of_nat k)) with (Z.of_nat k + 1 * N) by lia.
      rewrite Z.mod_add, Z.mod_small by lia. done.
Qed.

(** ** Writing to a file *)

(** What a write does to the process: the output and the scanner runs grow. *)
Record wrote (s s' : xt) (bytes : list Z) (runs : list (Z * Z)) : Prop := {
  wr_opts : opts s' = opts s;
  wr_membuf : membuf s' = membuf s;
  wr_hyp : hyp s' = hyp s;
  wr_int : interrupted s' = interrupted s;
  wr_hv : n_hv s' = n_hv s;
  wr_out : output s' = output s ++ bytes;
  wr_runs : vmi_runs s' = vmi_runs s ++ runs
}.

Lemma wrote_trans a b c bs1 bs2 r1 r2 :
  wrote a b bs1 r1 -> wrote b c bs2 r2 -> wrote a c (bs1 ++ bs2) (r1 ++ r2).
Proof. intros [] []. split; try congruence; rewrite app_assoc; congruence. Qed.

(** Tracing to a file without a disk reservation. *)
Definition file_mode (s : xt) : Prop :=
  memory_buffer (opts s) = 0 /\ disk_rsvd (opts s) = 0.

Section Drain.
Context (sys_write : nat -> Z -> Z) (statvfs : nat -> option Z).
Context (online : list Z) (hv_step : nat -> tstate -> tstate).
Hypothesis write_ok : forall k n, sys_write k n = n.

Lemma write_out_ok bs s : exists s', write_out sys_write bs s = Some (tt, s') /\ wrote s s' bs [].
Proof.
  unfold write_out, bind, gets, modify. rewrite write_ok, Z.eqb_refl. simpl.
  eexists. split; [reflexivity|]. split; try done. simpl. by rewrite app_nil_r.
Qed.

Lemma write_buffer_ok fuel cpu p size total s :
  file_mode s -> 8 < room p ->
  exists s', write_buffer sys_write statvfs fuel cpu p size total s = Some (tt, s') /\
    wrote s s' ((if total =? 0 then [] else cpu_change_record cpu total) ++
                bytes_at (byte_at p) size) [(byte_at p 4, byte_at p 8)].
Proof.
  intros [Hm Hd] Hr. unfold write_buffer, check_disk, run_vmi.
  unfold bind, gets, bug_on, modify, when, ret. rewrite !Hm, !Hd. cbn [Z.eqb negb andb].
  rewrite (proj2 (Z.leb_gt _ _)) by done.
  set (add_run := fun s : xt => s <| vmi_runs ::= fun l => l ++ [(byte_at p 4, byte_at p 8)] |>).
  assert (R : forall s, wrote s (add_run s) [] [(byte_at p 4, byte_at p 8)])
    by (intros s0; split; try done; simpl; by rewrite app_nil_r).
  assert (B : forall s0, exists s',
    write_out sys_write (bytes_at (byte_at p) size) (add_run s0) = Some (tt, s') /\
    wrote s0 s' (bytes_at (byte_at p) size) [(byte_at p 4, byte_at p 8)]).
  { intros s0. destruct (write_out_ok (bytes_at (byte_at p) size) (add_run s0)) as (s' & E & W).
    exists s'. split; [done|]. apply (wrote_trans _ _ _ [] _ _ [] (R s0) W). }
  destruct (total =? 0); cbn [negb]; rewrite !Hm; cbn [Z.eqb negb]; [apply B|].
  destruct (write_out_ok (cpu_change_record cpu total) s) as (s1 & E1 & W1).
  destruct (B s1) as (s2 & E2 & W2). exists s2. rewrite E1. split; [exact E2|].
  apply (wrote_trans _ _ _ _ _ [] _ W1 W2).
Qed.

Lemma meta_word_wf st i buf : tb_wf st i buf -> meta_word st i = buf.
Proof. intros Hwf. rewrite (wf_addr _ _ _ Hwf). unfold meta_word, frame. by rewrite Z.add_0_r. Qed.

(** The branches of the loop body on a well-formed buffer. *)
Lemma window_cases st i buf :
  tb_wf st i buf -> used st buf <> 0 ->
  let ds := data_size st in let start := buf_cons st buf mod ds in
  start = 4 * first_word st buf /\ 0 <= first_word st buf < ds / 4 /\
  (if buf_prod st buf <? buf_cons st buf then buf_prod st buf + 2 * ds - buf_cons st buf
   else buf_prod st buf - buf_cons st buf) = used st buf /\
  buf_prod st buf mod ds = (if start + used st buf <? ds then start + used st buf
                            else start + used st buf - ds) /\
  (start <? buf_prod st buf mod ds) = (start + used st buf <? ds) /\
  buf_prod st buf = (buf_cons st buf + used st buf) mod (2 * ds).
Proof.
  intros Hwf Hne ds start. pose proof (wf_ds_bounds _ _ _ Hwf) as [Hds Hds4]. fold ds in Hds, Hds4.
  pose proof (wf_used_range _ _ _ Hwf) as [Hu Hu4]. fold ds in Hu.
  pose proof (used_cases _ _ _ Hwf) as Hc. pose proof (wf_cons4 _ _ _ Hwf) as Hc4.
  pose proof (wf_cons _ _ _ Hwf) as Hcr. pose proof (wf_prod _ _ _ Hwf) as Hpr. fold ds in Hc, Hcr, Hpr.
  assert (Hst : 0 <= start < ds) by (apply Z.mod_pos_bound; lia).
  assert (Hp : buf_prod st buf = (buf_cons st buf + used st buf) mod (2 * ds)).
  { destruct Hc as [[-> ?]|[-> ?]].
    - rewrite Z.mod_small; lia.
    - replace (buf_cons st buf + (buf_prod st buf - buf_cons st buf + 2 * ds))
        with (buf_prod st buf + 1 * (2 * ds)) by lia. rewrite Z.mod_add, Z.mod_small; lia. }
  assert (Hend : buf_prod st buf mod ds = if start + used st buf <? ds then start + used st buf
                                          else start + used st buf - ds).
  { assert (buf_prod st buf mod ds = (start + used st buf) mod ds) as ->.
    { unfold start. rewrite Zplus_mod_idemp_l.
      destruct Hc as [[-> ?]|[-> ?]]; [f_equal; lia|].
      replace (buf_cons st buf + (buf_prod st buf - buf_cons st buf + 2 * ds))
        with (buf_prod st buf + 2 * ds) by lia. by rewrite Z.mod_add by lia. }
    case_if E; zbool; [apply Z.mod_small; lia|].
    symmetry. apply (Z.mod_unique _ _ 1); lia. }
  split_and!; try done.
  - unfold start, first_word. fold ds. rewrite <- Zmult_mod_distr_l. f_equal; dlia.
  - apply Z.mod_pos_bound. dlia.
  - apply Z.mod_pos_bound. dlia.
  - destruct Hc as [[-> ?]|[-> ?]]; case_if E; zbool; lia.
  - rewrite Hend. case_if E; zbool; [apply Z.ltb_lt|apply Z.ltb_ge]; lia.
Qed.

(** The bytes the scanner is started on: the low bytes of the second and the
    third word. *)
Definition scanned (ws : list Z) : option (Z * Z) :=
  match ws with _ :: b :: c :: _ => Some (u8 b, u8 c) | _ => None end.

Definition copy_window (fuel : nat) (st : tstate) (i n : Z) (start : Z) : M xt unit :=
  let ds := data_size st in
  if start + n <? ds
  then write_buffer sys_write statvfs fuel i (data_ptr st i ds start) n n
  else bind (write_buffer sys_write statvfs fuel i (data_ptr st i ds start) (ds - start) n)
         (fun _ => write_buffer sys_write statvfs fuel i (data_ptr st i ds 0) (start + n - ds) 0).

Lemma scanned_start st i buf n r :
  tb_wf st i buf -> 4 * first_word st buf + 8 < data_size st -> 4 * Z.of_nat n <= used st buf ->
  scanned (take n (unread st i buf)) = Some r ->
  (data_byte st i (4 * first_word st buf + 4), data_byte st i (4 * first_word st buf + 8)) = r.
Proof.
  intros Hwf Hroom Hn Hr. pose proof (wf_ds_bounds _ _ _ Hwf) as [Hds Hds4].
  set (S := first_word st buf) in *.
  assert (HS : 0 <= S) by (apply Z.mod_pos_bound; dlia).
  assert (H3 : (3 <= n)%nat).
  { assert (L := f_equal length (take_unread st i buf n Hwf Hn)).
    destruct (take n (unread st i buf)) as [|? [|? [|]]] eqn:E; try done.
    assert (H := length_take (unread st i buf) n). rewrite E in H. simpl in H. lia. }
  assert (T : take 3 (unread st i buf) = map (ring_word st i) (seqZ S 3)).
  { rewrite (take_unread st i buf 3 Hwf) by lia. fold S. simpl Z.of_nat.
    case_if E; zbool; [done|]. assert (data_size st / 4 - S = 3) as -> by dlia.
    assert (S + Z.of_nat 3 - data_size st / 4 = 0) as -> by dlia. by rewrite app_nil_r. }
  replace (take n (unread st i buf)) with (take 3 (unread st i buf) ++ drop 3 (take n (unread st i buf))) in Hr.
  2: { rewrite <- (take_drop 3 (take n (unread st i buf))) at 2. f_equal. rewrite take_take. f_equal. lia. }
  rewrite T in Hr. cbn [seqZ map] in Hr. change (seqZ S 3) with [0 + S; 1 + S; 2 + S] in Hr.
  simpl in Hr. injection Hr as <-. unfold data_byte.
  replace ((4 * S + 4) / 4) with (1 + S) by dlia. replace ((4 * S + 8) / 4) with (2 + S) by dlia.
  replace (8 * ((4 * S + 4) mod 4)) with 0 by dlia. replace (8 * ((4 * S + 8) mod 4)) with 0 by dlia.
  by rewrite !Z.shiftr_0_r.
Qed.

Lemma copy_window_ok fuel s i buf (n : nat) :
  let st := hyp s in let start := 4 * first_word st buf in
  tb_wf st i buf -> file_mode s -> (0 < n)%nat -> 4 * Z.of_nat n <= used st buf ->
  start + 8 < data_size st ->
  exists s' runs,
    copy_window fuel st i (4 * Z.of_nat n) start s = Some (tt, s') /\
    wrote s s' (cpu_change_record i (4 * Z.of_nat n) ++ bytes_of (take n (unread st i buf))) runs /\
    length runs = (if start + 4 * Z.of_nat n <? data_size st then 1%nat else 2%nat) /\
    (forall r, scanned (take n (unread st i buf)) = Some r -> hd_error runs = Some r).
Proof.
  intros st start Hwf Hf Hn0 Hn Hroom. pose proof (wf_ds_bounds _ _ _ Hwf) as [Hds Hds4].
  pose proof (wf_used_range _ _ _ Hwf) as [Hu Hu4].
  set (S := first_word st buf) in *. assert (HS : 0 <= S < data_size st / 4) by (apply Z.mod_pos_bound; dlia).
  assert (Hsc := fun r => scanned_start st i buf n r Hwf Hroom Hn). fold S in Hsc.
  rewrite (take_unread st i buf n Hwf Hn) in *. fold S in Hsc |- *.
  unfold copy_window, start in *.
  replace (S + Z.of_nat n <? data_size st / 4) with (4 * S + 4 * Z.of_nat n <? data_size st) in *
    by (apply eq_true_iff_eq; rewrite !Z.ltb_lt; dlia).
  destruct (write_buffer_ok fuel i (data_ptr st i (data_size st) (4 * S))
    (if 4 * S + 4 * Z.of_nat n <? data_size st then 4 * Z.of_nat n else data_size st - 4 * S)
    (4 * Z.of_nat n) s Hf) as (s1 & E1 & W1); [simpl; lia|].
  rewrite (proj2 (Z.eqb_neq (4 * Z.of_nat n) 0)) in W1 by lia.
  case_if E; zbool.
  - exists s1. eexists. split; [exact E1|]. rewrite <- bytes_at_words by lia.
    split_and!; [exact W1|done|]. intros r Hr. simpl. f_equal. by apply Hsc.
  - destruct (write_buffer_ok fuel i (data_ptr st i (data_size st) 0)
      (4 * S + 4 * Z.of_nat n - data_size st) 0 s1) as (s2 & E2 & W2);
      [destruct Hf; split; by rewrite (wr_opts _ _ _ _ W1)|simpl; lia|].
    exists s2. eexists. split; [unfold bind; rewrite E1; exact E2|].
    assert (Hb : forall a m, 0 <= a -> 0 <= m ->
      bytes_at (fun j => data_byte st i (4 * a + j)) (4 * m) = bytes_of (map (ring_word st i) (seqZ a m))).
    { intros a m Ha Hm. rewrite <- (Z2Nat.id m) by done. by apply bytes_at_words. }
    assert (Hw := wrote_trans _ _ _ _ _ _ _ W1 W2). simpl in Hw.
    unfold bytes_of. rewrite flat_map_app. fold (bytes_of (map (ring_word st i) (seqZ S (data_size st / 4 - S)))).
    fold (bytes_of (map (ring_word st i) (seqZ 0 (S + Z.of_nat n - data_size st / 4)))).
    rewrite <- !Hb by dlia.
    replace (4 * (data_size st / 4 - S)) with (data_size st - 4 * S) by dlia.
    replace (4 * (S + Z.of_nat n - data_size st / 4)) with (4 * S + 4 * Z.of_nat n - data_size st) by dlia.
    split_and!; [by rewrite app_assoc|done|]. intros r Hr. simpl. f_equal. by apply Hsc.
Qed.

Lemma scan_buffer_unfold fuel s i buf :
  let st := hyp s in let st1 := hv_step (n_hv s) st in
  let s1 := s <| hyp := st1 |> <| n_hv ::= S |> in
  tb_wf st i buf -> used st buf <> 0 ->
  data_size st1 = data_size st ->
  scan_buffer sys_write statvfs hv_step fuel (data_size st) i s =
  bind (copy_window fuel st1 i (used st buf) (buf_cons st buf mod data_size st))
    (fun _ => modify (fun s : xt => s <| hyp ::= fun st' =>
      st' <| mem ::= <[meta_word st' i := buf_prod st buf]> |> |>)) s1.
Proof.
  intros st st1 s1 Hwf Hne Hd.
  pose proof (wf_used_range _ _ _ Hwf) as [Hu _].
  destruct (window_cases _ _ _ Hwf Hne) as (_ & _ & Hw & He & Hb & _).
  pose proof (wf_prod _ _ _ Hwf) as Hpr. pose proof (wf_cons _ _ _ Hwf) as Hcr.
  pose proof (used_cases _ _ _ Hwf) as Hc.
  assert (Hcons : meta_cons (hyp s) i = buf_cons st buf).
  { unfold meta_cons. fold st. by rewrite (meta_word_wf _ _ _ Hwf). }
  assert (Hprod : meta_prod (hyp s) i = buf_prod st buf).
  { unfold meta_prod. fold st. by rewrite (meta_word_wf _ _ _ Hwf). }
  unfold scan_buffer, hv_runs, bind at 1 2 3, gets, modify at 1. rewrite Hcons, Hprod.
  rewrite (proj2 (Z.eqb_neq _ _)) by lia. unfold bind, bug_on. rewrite Hw.
  rewrite !(proj2 (Z.ltb_lt _ _)), (proj2 (Z.leb_le _ _)) by lia. simpl negb. cbv iota.
  rewrite Hb. unfold copy_window. rewrite Hd.
  change (s <| hyp ::= hv_step (n_hv s) |> <| n_hv ::= S |>) with s1.
  change (hyp s1) with st1. destruct (_ + _ <? _); [done|]. rewrite He. done.
Qed.

Lemma scan_buffer_ok fuel s i buf ws :
  let st := hyp s in
  tb_wf st i buf -> file_mode s -> appended st (hv_step (n_hv s) st) i buf ws ->
  used st buf <> 0 -> buf_cons st buf mod data_size st + 8 < data_size st ->
  exists s' runs,
    scan_buffer sys_write statvfs hv_step fuel (data_size st) i s = Some (tt, s') /\
    output s' = output s ++ cpu_change_record i (used st buf) ++ bytes_of (unread st i buf) /\
    vmi_runs s' = vmi_runs s ++ runs /\
    length runs = (if buf_cons st buf mod data_size st + used st buf <? data_size st
                   then 1%nat else 2%nat) /\
    (forall r, scanned (unread st i buf) = Some r -> hd_error runs = Some r) /\
    tb_wf (hyp s') i buf /\ unread (hyp s') i buf = ws /\
    hyp s' = (hv_step (n_hv s) st) <| mem ::= <[buf := buf_prod st buf]> |> /\
    opts s' = opts s /\ interrupted s' = interrupted s.
Proof.
  intros st Hwf Hf [Hwf1 _ [Hcons Hd] Hun Hus] Hne Hroom.
  set (st1 := hv_step (n_hv s) st) in *.
  destruct (window_cases _ _ _ Hwf Hne) as (Hs & _ & _ & _ & _ & Hp).
  pose proof (wf_used_range _ _ _ Hwf) as [Hu Hu4].
  pose proof (scan_buffer_unfold fuel s i buf Hwf Hne Hd) as Hunf. fold st st1 in Hunf.
  rewrite Hunf. clear Hunf.
  set (n := Z.to_nat (used st buf / 4)). assert (Hn : 4 * Z.of_nat n = used st buf) by (unfold n; dlia).
  assert (Hlen : length (unread st i buf) = n) by (unfold unread; by rewrite length_map, length_seqZ).
  assert (Hfw : first_word st1 buf = first_word st buf) by (unfold first_word; by rewrite Hcons, Hd).
  assert (Ht : take n (unread st1 i buf) = unread st i buf) by (rewrite Hun, <- Hlen; apply take_app_length).
  destruct (copy_window_ok fuel (s <| hyp := st1 |> <| n_hv ::= S |>) i buf n)
    as (s2 & runs & E & W & Hl & Hr); simpl; try done; [lia|lia|rewrite Hfw, <- Hs, Hd; lia|].
  simpl in E, Hl, Hr, W. rewrite Hfw, <- Hs, ?Hn in E, Hl. rewrite Hd in Hl. rewrite Ht in W, Hr. rewrite Hn in W.
  unfold bind. rewrite E.
  assert (Hmw : meta_word st1 i = buf) by by apply meta_word_wf.
  assert (Hc2 : buf_prod st buf = (buf_cons st1 buf + 4 * Z.of_nat (length (unread st i buf)))
                                  mod (2 * data_size st1)) by by rewrite Hcons, Hlen, Hn, Hd.
  eexists _, runs. split; [reflexivity|]. cbn -[unread].
  rewrite (wr_out _ _ _ _ W), (wr_runs _ _ _ _ W), (wr_hyp _ _ _ _ W). cbn -[unread].
  rewrite (wr_opts _ _ _ _ W), (wr_int _ _ _ _ W).
  fold st st1. rewrite Hmw, Hc2. split_and!; try done.
  - by eapply consume_wf.
  - by eapply consume_unread.
Qed.
Lemma scan_buffer_idle fuel s i buf ds :
  tb_wf (hyp s) i buf -> used (hyp s) buf = 0 ->
  scan_buffer sys_write statvfs hv_step fuel ds i s =
  Some (tt, s <| hyp ::= hv_step (n_hv s) |> <| n_hv ::= S |>).
Proof.
  intros Hwf Hu. unfold scan_buffer, hv_runs, bind, gets, modify, meta_cons, meta_prod.
  rewrite (meta_word_wf _ _ _ Hwf).
  change (rd (mem (hyp s)) buf) with (buf_cons (hyp s) buf).
  change (rd (mem (hyp s)) (buf + 1)) with (buf_prod (hyp s) buf).
  rewrite (proj2 (Z.eqb_eq _ _)); [done|].
  pose proof (wf_ds_bounds _ _ _ Hwf). pose proof (wf_cons _ _ _ Hwf). pose proof (wf_prod _ _ _ Hwf).
  destruct (used_cases _ _ _ Hwf) as [[? ?]|[? ?]]; lia.
Qed.
End Drain.

(** ** Several buffers *)

(** Different CPUs have different frames. *)
Definition separate (st : tstate) (num : nat) : Prop :=
  forall i j k l, 0 <= i < Z.of_nat num -> 0 <= j < Z.of_nat num -> i <> j ->
    0 <= k < opt_tbuf_size st -> 0 <= l < opt_tbuf_size st -> frame st i k <> frame st j l.

Section Others.
Context (st : tstate) (i j bi bj v : Z).
Context (Hi : tb_wf st i bi) (Hj : tb_wf st j bj).
Context (Hsep : forall k l, 0 <= k < opt_tbuf_size st -> 0 <= l < opt_tbuf_size st ->
                  frame st i k <> frame st j l).

Let st' : tstate := st <| mem ::= <[bi := v]> |>.

Lemma other_word k o :
  0 <= k < opt_tbuf_size st -> 0 <= o < 1024 ->
  rd (mem st') (mfn_to_virt (frame st j k) + o) = rd (mem st) (mfn_to_virt (frame st j k) + o).
Proof.
  intros Hk Ho. simpl. apply rd_insert_ne. rewrite (wf_addr _ _ _ Hi).
  pose proof (wf_pages _ _ _ Hi). intros E.
  apply (Hsep 0 k); [lia|done|].
  apply (page_addr_inj (frame st i 0) 0 (frame st j k) o); [lia|done|].
  by rewrite Z.add_0_r.
Qed.

Lemma other_header : buf_cons st' bj = buf_cons st bj /\ buf_prod st' bj = buf_prod st bj.
Proof.
  pose proof (wf_pages _ _ _ Hj). unfold buf_cons, buf_prod. rewrite (wf_addr _ _ _ Hj).
  split; [|apply other_word; lia].
  rewrite <- (Z.add_0_r (mfn_to_virt (frame st j 0))). apply other_word; lia.
Qed.

Lemma other_kept :
  tb_wf st' j bj /\ unread st' j bj = unread st j bj /\ used st' bj = used st bj.
Proof.
  pose proof other_header as [Hc Hp]. pose proof (wf_ds_bounds _ _ _ Hj) as [Hds _].
  assert (Hu : used st' bj = used st bj) by (unfold used; by rewrite Hc, Hp).
  split_and!; [|  |done].
  - destruct Hj. split; rewrite ?Hc, ?Hp, ?Hu; done.
  - unfold unread. rewrite Hu, Hc. apply map_ext_in. intros k _.
    unfold ring_word, waddr. change (frame st' j) with (frame st j).
    change (data_size st') with (data_size st).
    pose proof (Z.mod_pos_bound (buf_cons st bj / 4 + k) (data_size st / 4) ltac:(dlia)).
    set (w := _ mod (data_size st / 4)) in *. pose proof (wf_ds _ _ _ Hj).
    apply other_word; [|apply Z.mod_pos_bound; lia]. dlia.
Qed.
End Others.
