(* ===== verification/XentraceArgsProofs.v ===== *)
(** * xentrace: what the masks of the command line mean (theorems about
    XentraceArgs.v) *)

From Stdlib Require Import Ascii String.
From S2P Require Import Prelude Monad Trace TraceProofs Xentrace XentraceArgs.

(** ** The CPU map as a set *)

Lemma testbit_set_one x k j :
  0 <= k -> 0 <= j -> Z.testbit (Z.lor x (Z.shiftl 1 k)) j = Z.testbit x j || (k =? j).
Proof.
  intros Hk Hj. rewrite Z.lor_spec. f_equal. rewrite Z.shiftl_1_l.
  destruct (Z.eqb_spec k j) as [->|]; [by apply Z.pow2_bits_true|by apply Z.pow2_bits_false].
Qed.

Lemma testcpu_setcpu c k m :
  0 <= c -> 0 <= k ->
  xc_cpumap_testcpu k (xc_cpumap_setcpu c m) = xc_cpumap_testcpu k m || (c =? k).
Proof.
  intros Hc Hk. unfold xc_cpumap_testcpu, xc_cpumap_setcpu, cm_set. simpl.
  destruct (Z.eq_dec (c / 8) (k / 8)) as [E|E].
  - rewrite E, rd_insert_eq, testbit_set_one by dlia. f_equal.
    apply eq_true_iff_eq. rewrite !Z.eqb_eq. dlia.
  - rewrite rd_insert_ne by done. replace (c =? k) with false; [by rewrite orb_false_r|].
    symmetry. apply Z.eqb_neq. intros ->. done.
Qed.

(** Writes stay inside the allocation. *)
Definition map_sound (nbits : Z) (m : cpumap) : Prop :=
  cm_size m = xc_get_cpumap_size nbits /\ cm_wild_write m = false.

Lemma setcpu_sound nbits c m :
  0 <= c < nbits -> map_sound nbits m -> map_sound nbits (xc_cpumap_setcpu c m).
Proof.
  intros Hc [Hs Hw]. split; [done|]. simpl. rewrite Hw, Hs. simpl.
  unfold xc_get_cpumap_size. rewrite (proj2 (Z.ltb_ge nbits 0)) by lia.
  apply Z.leb_gt. dlia.
Qed.

Lemma set_cpus_spec nbits a b m :
  0 <= a -> b < nbits -> map_sound nbits m ->
  map_sound nbits (set_cpus a b m) /\
  forall k, 0 <= k -> xc_cpumap_testcpu k (set_cpus a b m) =
                      xc_cpumap_testcpu k m || ((a <=? k) && (k <=? b)).
Proof.
  intros Ha Hb. unfold set_cpus.
  destruct (Z.le_gt_cases (b - a + 1) 0) as [Hn|Hn].
  { rewrite seqZ_nil by done. intros Hm. split; [done|]. intros k Hk. simpl.
    destruct (Z.leb_spec a k), (Z.leb_spec k b); simpl; rewrite ?orb_false_r; try done; lia. }
  rewrite <- (Z2Nat.id (b - a + 1)) by lia. remember (Z.to_nat (b - a + 1)) as n eqn:En.
  revert a Ha m En Hn. induction n as [|n IH]; intros a Ha m En Hn Hm; [lia|].
  replace (Z.of_nat (S n)) with (Z.succ (Z.of_nat n)) by lia.
  rewrite seqZ_cons, Z.pred_succ by lia. simpl.
  assert (Hm' : map_sound nbits (xc_cpumap_setcpu a m)) by (apply setcpu_sound; [lia|done]).
  destruct n as [|n].
  - simpl. split; [done|]. intros k Hk. rewrite testcpu_setcpu by lia. f_equal.
    apply eq_true_iff_eq. rewrite andb_true_iff, !Z.leb_le, Z.eqb_eq. lia.
  - destruct (IH (Z.succ a) ltac:(lia) (xc_cpumap_setcpu a m) ltac:(lia) ltac:(lia) Hm') as [H1 H2].
    split; [done|]. intros k Hk. rewrite H2, testcpu_setcpu by lia.
    rewrite <- orb_assoc. f_equal. apply eq_true_iff_eq.
    rewrite orb_true_iff, !andb_true_iff, !Z.leb_le, Z.eqb_eq. lia.
Qed.

(** ** The notation of CPU ranges *)

(** A number is any string of digits; an item is a number or two numbers with
    a dash; a mask is items with commas. *)
Definition item : Type := cstr * option cstr.
Definition number_from (v : Z) (ds : cstr) : Z :=
  fold_left (fun acc c => acc * 10 + (c - 48)) ds v.
Definition number (ds : cstr) : Z := number_from 0 ds.
Definition item_text (it : item) : cstr :=
  match it.2 with None => it.1 | Some hi => it.1 ++ 45 :: hi end.
Fixpoint mask_text (it : item) (items : list item) : cstr :=
  match items with
  | [] => item_text it
  | it' :: items' => item_text it ++ 44 :: mask_text it' items'
  end.

(** The CPUs an item names; an upper end of 0 means the last CPU. *)
Definition item_low (it : item) : Z := number it.1.
Definition item_high (nbits : Z) (it : item) : Z :=
  match it.2 with
  | None => number it.1
  | Some hi => if number hi =? 0 then nbits - 1 else number hi
  end.
Definition item_has (nbits : Z) (it : item) (k : Z) : bool :=
  (item_low it <=? k) && (k <=? item_high nbits it).

Definition digits (ds : cstr) : Prop := Forall (fun c => is_digit c = true) ds.
Record item_ok (nbits : Z) (it : item) : Prop := {
  io_low : digits it.1;
  io_high : forall hi, it.2 = Some hi -> digits hi;
  io_u32 : number it.1 < 2 ^ 32 /\ forall hi, it.2 = Some hi -> number hi < 2 ^ 32;
  io_order : item_low it <= item_high nbits it < nbits
}.

Lemma number_from_ge ds : forall v, 0 <= v -> digits ds -> v <= number_from v ds.
Proof.
  induction ds as [|c ds IH]; intros v Hv Hd; [done|]. inversion Hd as [|? ? Hc Hd']. subst.
  unfold is_digit in Hc. zbool. change (number_from v (c :: ds)) with (number_from (v * 10 + (c - 48)) ds).
  pose proof (IH (v * 10 + (c - 48)) ltac:(lia) Hd'). lia.
Qed.

Lemma scan_digits ds : forall s a v in_range,
  digits ds -> 0 <= v -> number_from v ds < 2 ^ 32 -> (in_range = false -> a = v) ->
  scan_range (ds ++ s) a v in_range =
  scan_range s (if in_range then a else number_from v ds) (number_from v ds) in_range.
Proof.
  induction ds as [|c ds IH]; intros s a v in_range Hd Hv Hb Ha.
  - simpl. destruct in_range; [done|]. by rewrite Ha.
  - inversion Hd as [|? ? Hc Hd']. subst. simpl. rewrite Hc. unfold is_digit in Hc. zbool.
    rewrite !(proj2 (Z.eqb_neq _ _)) by lia. simpl.
    change (number_from v (c :: ds)) with (number_from (v * 10 + (c - 48)) ds) in *.
    pose proof (number_from_ge ds (v * 10 + (c - 48)) ltac:(lia) Hd').
    rewrite (u32_small (v * 10 + (c - 48))) by lia.
    rewrite IH; try done; [by destruct in_range|lia|intros ->; done].
Qed.

(** What follows an item: the end of the string or a comma. *)
Definition terminated (s : cstr) (rest : option cstr) : Prop :=
  match rest with None => s = [] | Some r => s = 44 :: r end.

Lemma scan_terminated s rest a v in_range :
  terminated s rest -> scan_range s a v in_range = Some (a, v, in_range, rest).
Proof. destruct rest; simpl; by intros ->. Qed.

Lemma scan_item nbits it s rest :
  item_ok nbits it -> 0 < nbits < 2 ^ 31 -> terminated s rest ->
  exists b, scan_range (item_text it ++ s) 0 0 false =
              Some (item_low it, b, bool_decide (is_Some it.2), rest) /\
    (if (b =? 0) && bool_decide (is_Some it.2) then u32 (nbits - 1) else b) = item_high nbits it.
Proof.
  intros [Hl Hh [Hbl Hbh] Ho] Hn Ht. unfold item_text, item_high, item_low in *.
  destruct (it.2) as [hi|].
  - rewrite <- app_assoc, scan_digits by done. simpl.
    rewrite scan_digits; [|by apply Hh|done|by apply Hbh|done]. rewrite scan_terminated with (rest := rest) by done.
    exists (number hi). split; [done|]. rewrite andb_true_r. rewrite u32_small by lia. done.
  - rewrite scan_digits by done. rewrite scan_terminated with (rest := rest) by done.
    exists (number it.1). split; [done|]. by rewrite andb_false_r.
Qed.

Lemma parse_ranges_spec nbits items : forall it m fuel,
  0 < nbits < 2 ^ 31 -> Forall (item_ok nbits) (it :: items) -> map_sound nbits m ->
  (List.length items < fuel)%nat ->
  exists m', parse_ranges fuel nbits (mask_text it items) m = Some (true, m') /\
    map_sound nbits m' /\
    forall k, 0 <= k -> xc_cpumap_testcpu k m' =
                        xc_cpumap_testcpu k m || existsb (fun x => item_has nbits x k) (it :: items).
Proof.
  induction items as [|it' items IH]; intros it m fuel Hn Hok Hm Hf;
    inversion Hok as [|? ? Hit Hrest]; subst; (destruct fuel as [|fuel]; [simpl in *; lia|]);
    pose proof (io_order _ _ Hit) as Hord;
    assert (0 <= item_low it) by (apply number_from_ge; [lia|apply Hit]).
  - destruct (scan_item nbits it [] None Hit Hn eq_refl) as (b & E & Hb).
    rewrite app_nil_r in E. simpl. rewrite E, Hb.
    rewrite (proj2 (Z.ltb_ge _ _)), (proj2 (Z.leb_gt _ _)) by lia.
    destruct (set_cpus_spec nbits (item_low it) (item_high nbits it) m) as [H1 H2]; try done; [lia|].
    eexists. split_and!; [done|done|]. intros k Hk. rewrite H2, orb_false_r by done. done.
  - destruct (scan_item nbits it (44 :: mask_text it' items) (Some (mask_text it' items)) Hit Hn eq_refl)
      as (b & E & Hb).
    change (mask_text it (it' :: items)) with (item_text it ++ 44 :: mask_text it' items).
    simpl parse_ranges. rewrite E, Hb.
    rewrite (proj2 (Z.ltb_ge _ _)), (proj2 (Z.leb_gt _ _)) by lia.
    destruct (set_cpus_spec nbits (item_low it) (item_high nbits it) m) as [H1 H2]; try done; [lia|].
    destruct (IH it' (set_cpus (item_low it) (item_high nbits it) m) fuel Hn Hrest H1) as (m' & E' & Hs & Hk');
      [simpl in Hf; lia|].
    exists m'. split_and!; [done|done|]. intros k Hk. rewrite Hk', H2, <- orb_assoc by done. done.
Qed.

Lemma mask_text_length items : forall it, (List.length items <= List.length (mask_text it items))%nat.
Proof.
  induction items as [|it' items IH]; intros it; simpl; [lia|].
  rewrite length_app. simpl. pose proof (IH it'). lia.
Qed.

(** A CPU mask in the notation of ranges: any comma-separated list of
    numbers and ranges, each within the CPUs of the host, is accepted and adds
    to the map exactly the CPUs it names, an upper end of 0 standing for the
    last CPU; no byte outside the map is written. *)
Theorem cpumask_ranges_accepted nbits it items m :
  0 < nbits < 2 ^ 31 -> Forall (item_ok nbits) (it :: items) -> map_sound nbits m ->
  exists m', parse_cpumask_range nbits (mask_text it items) m = (true, m') /\
    map_sound nbits m' /\
    forall k, 0 <= k -> xc_cpumap_testcpu k m' =
                        xc_cpumap_testcpu k m || existsb (fun x => item_has nbits x k) (it :: items).
Proof.
  intros Hn Hok Hm. pose proof (mask_text_length items it).
  destruct (parse_ranges_spec nbits items it m (S (List.length (mask_text it items))) Hn Hok Hm)
    as (m' & E & H1 & H2); [lia|].
  exists m'. unfold parse_cpumask_range. rewrite (proj2 (Z.leb_gt _ _)), E by lia. done.
Qed.

Lemma cpumask_ranges_accepted_witness :
  exists m', parse_cpumask_range 8 (chars "1,4-6") (mkCpumap ∅ 1 false false) = (true, m') /\
    xc_cpumap_testcpu 5 m' = true.
Proof.
  destruct (cpumask_ranges_accepted 8 (chars "1", None) [(chars "4", Some (chars "6"))]
    (mkCpumap ∅ 1 false false)) as (m' & E & _ & Hk).
  - lia.
  - repeat constructor; simpl; try (intros hi [= <-]); repeat constructor; vm_compute; congruence.
  - split; reflexivity.
  - exists m'. split; [exact E|]. rewrite Hk by lia. reflexivity.
Defined.

(** ** Any string *)

Lemma scan_range_low s : forall a v r a' b' r' rest,
  0 <= a -> scan_range s a v r = Some (a', b', r', rest) -> 0 <= a'.
Proof.
  induction s as [|c s IH]; intros a v r a' b' r' rest Ha; simpl; [by intros [= <- <- <- <-]|].
  destruct (c =? 0); [by intros [= <- <- <- <-]|]. destruct (c =? 44); [by intros [= <- <- <- <-]|].
  destruct (c =? 45); [destruct r; [done|by apply IH]|]. destruct (negb (is_digit c)); [done|].
  apply IH. destruct r; [done|apply u32_range].
Qed.

Lemma parse_ranges_safe nbits fuel : forall s m ok m',
  map_sound nbits m -> parse_ranges fuel nbits s m = Some (ok, m') ->
  map_sound nbits m' /\
  forall k, nbits <= k -> 0 <= k -> xc_cpumap_testcpu k m' = xc_cpumap_testcpu k m.
Proof.
  induction fuel as [|fuel IH]; intros s m ok m' Hm; simpl; [done|].
  destruct (scan_range s 0 0 false) as [[[[a b] r] rest]|] eqn:Es; [|by intros [= <- <-]].
  apply scan_range_low in Es; [|done].
  set (b' := if (b =? 0) && r then _ else _). clearbody b'.
  case_if E1; [by intros [= <- <-]|]. case_if E2; [by intros [= <- <-]|]. zbool.
  destruct (set_cpus_spec nbits a b' m Es ltac:(lia) Hm) as [H1 H2].
  assert (H3 : forall k, nbits <= k -> 0 <= k ->
    xc_cpumap_testcpu k (set_cpus a b' m) = xc_cpumap_testcpu k m).
  { intros k Hk Hk0. rewrite H2 by done. rewrite (proj2 (Z.leb_gt k b')) by lia.
    by rewrite andb_false_r, orb_false_r. }
  destruct rest as [s'|]; [|intros [= <- <-]; done].
  intros H. apply IH in H as [H4 H5]; [|done]. split; [done|].
  intros k Hk Hk0. rewrite H5 by done. by apply H3.
Qed.

(** C38. Whatever the string, the range parser writes no byte outside the CPU
    map and sets no bit at or above the number of CPUs. *)
Theorem cpumask_ranges_bounded nbits s m :
  map_sound nbits m ->
  let m' := (parse_cpumask_range nbits s m).2 in
  map_sound nbits m' /\
  forall k, nbits <= k -> 0 <= k -> xc_cpumap_testcpu k m' = xc_cpumap_testcpu k m.
Proof.
  intros Hm m'. unfold m', parse_cpumask_range. case_if E; [done|].
  destruct (parse_ranges _ _ _ _) as [[ok m1]|] eqn:Ep; [|done]. simpl.
  by eapply parse_ranges_safe.
Qed.

Lemma cpumask_ranges_bounded_witness :
  map_sound 8 (parse_cpumask_range 8 (chars "3,9-1,-") (mkCpumap ∅ 1 false false)).2.
Proof.
  apply (cpumask_ranges_bounded 8 (chars "3,9-1,-") (mkCpumap ∅ 1 false false)).
  split; reflexivity.
Defined.

(** The hexadecimal notation always stores four bytes: on a host with at
    most 24 CPUs the map is smaller and the store goes past its end. *)
Theorem hex_cpumask_overflows nbits str v m :
  0 < nbits <= 24 -> take 2 str = chars "0x" -> argtol str = Some v ->
  cm_size m = xc_get_cpumap_size nbits ->
  exists m', cpu_mask_map nbits str m = Some (true, m') /\ cm_wild_write m' = true.
Proof.
  intros Hn Hs Hv Hm. unfold cpu_mask_map. rewrite decide_True, Hv by done. simpl.
  eexists. split; [reflexivity|]. simpl. rewrite Hm. unfold xc_get_cpumap_size.
  rewrite (proj2 (Z.ltb_ge nbits 0)), (proj2 (Z.leb_le _ 3)) by dlia. apply orb_true_r.
Qed.

Lemma hex_cpumask_overflows_witness :
  exists m', cpu_mask_map 4 (chars "0xf") (mkCpumap ∅ 1 false false) = Some (true, m') /\
    cm_wild_write m' = true.
Proof.
  apply (hex_cpumask_overflows 4 (chars "0xf") 15 (mkCpumap ∅ 1 false false));
    [lia | reflexivity | vm_compute; reflexivity | reflexivity].
Defined.

(** ** Event classes *)

Definition class_names : list cstr :=
  [chars "gen"; chars "sched"; chars "dom0op"; chars "hvm"; chars "all"].

Lemma parse_class_name a o :
  a ∈ class_names -> Z.land (evt_mask o) 0xff = 0 ->
  exists o', parse_evtmask a o = Some o' /\ Z.land (evt_mask o') 0xff = 0.
Proof.
  intros Ha Ho. unfold class_names in Ha. rewrite !elem_of_cons, elem_of_nil in Ha.
  destruct Ha as [->|[->|[->|[->|[->|[]]]]]]; eexists; (split; [reflexivity|]); simpl;
    by rewrite Z.land_lor_distr_l, Ho.
Qed.

(** Selecting event classes by name, in any combination, gives an event
    mask under which no view change is ever traced: the VMFUNC event needs a
    mask with its own low byte. *)
Theorem class_masks_miss_vmfunc names out :
  Forall (fun a => a ∈ class_names) names ->
  exists o, parse_args (map (fun a => (101, a)) names) [out] default_settings = Some (o, out) /\
    event_selected (evt_mask o) TRC_HVM_VMFUNC = false.
Proof.
  intros Hn. assert (H : Z.land (evt_mask default_settings) 0xff = 0) by done.
  revert H. generalize default_settings. induction Hn as [|a names Ha Hn IH]; intros o Ho; simpl.
  - exists o. split; [done|]. unfold event_selected. rewrite Ho.
    change (negb (0 =? Z.land TRC_HVM_VMFUNC 0xff)) with true.
    by repeat (match goal with |- context [if ?b then _ else _] => destruct b end).
  - destruct (parse_class_name a o Ha Ho) as (o' & E & Ho').
    unfold parse_option. simpl. rewrite E. simpl. by apply IH.
Qed.

Lemma class_masks_miss_vmfunc_witness :
  exists o, parse_args [(101, chars "hvm"); (101, chars "all")] [chars "out"] default_settings
            = Some (o, chars "out") /\
    event_selected (evt_mask o) TRC_HVM_VMFUNC = false.
Proof.
  apply (class_masks_miss_vmfunc [chars "hvm"; chars "all"] (chars "out")).
  repeat constructor; unfold class_names; rewrite !elem_of_cons; naive_solver.
Defined.
