(* ===== verification/XentraceClaims.v ===== *)
(** * From the ring to the scanner (theorems about Xentrace.v)

    One visit to a buffer, the way of a view change from the guest's VMFUNC to
    the run of the scanner, the fault at the end of the data area, the last
    passes after a signal, and the memory buffer. *)

From S2P Require Import Prelude Monad Trace TraceProofs P2m P2mProofs Altp2m Altp2mProofs Altp2mClaims.
From S2P Require Import Perception PerceptionProofs Xentrace XentraceProofs.

#[local] Opaque cpu_change_record.

(** Lifting a run of the loop body into the weakest precondition. *)
Lemma wp_intro {S A} (m : M S A) (Q : A -> S -> Prop) s a s' :
  m s = Some (a, s') -> Q a s' -> wp m Q s.
Proof. unfold wp. by intros ->. Qed.

(** What a pass writes for one buffer. *)
Definition window_image (st : tstate) (i buf : Z) : list Z :=
  if used st buf =? 0 then []
  else cpu_change_record i (used st buf) ++ bytes_of (unread st i buf).

(** The two bytes the scanner gets lie inside the mapping. *)
Definition readable (st : tstate) (buf : Z) : Prop :=
  used st buf = 0 \/ buf_cons st buf mod data_size st + 8 < data_size st.

Section Passes.
Context (sys_write : nat -> Z -> Z) (statvfs : nat -> option Z) (online : list Z).
Hypothesis write_ok : forall k n, sys_write k n = n.
Context (num : nat) (bufs : Z -> Z).

Let idle : nat -> tstate -> tstate := fun _ st => st.

(** All buffers are well formed, and no two share a frame. *)
Record buffers_ok (st : tstate) : Prop := {
  bo_wf : forall i, 0 <= i < Z.of_nat num -> tb_wf st i (bufs i);
  bo_read : forall i, 0 <= i < Z.of_nat num -> readable st (bufs i);
  bo_sep : separate st num
}.

(** After [n] buffers of a pass that started in [s]. *)
Record pass_inv (s : xt) (n : nat) (s' : xt) : Prop := {
  pi_opts : opts s' = opts s;
  pi_int : interrupted s' = interrupted s;
  pi_mem : exists m, hyp s' = (hyp s) <| mem := m |>;
  pi_out : output s' = output s ++
    flat_map (fun i => window_image (hyp s) i (bufs i)) (take n (iota num));
  pi_done : forall i, 0 <= i < Z.of_nat n -> tb_wf (hyp s') i (bufs i) /\ unread (hyp s') i (bufs i) = []
                      /\ used (hyp s') (bufs i) = 0;
  pi_todo : forall i, Z.of_nat n <= i < Z.of_nat num ->
    tb_wf (hyp s') i (bufs i) /\ unread (hyp s') i (bufs i) = unread (hyp s) i (bufs i) /\
    used (hyp s') (bufs i) = used (hyp s) (bufs i) /\
    buf_cons (hyp s') (bufs i) = buf_cons (hyp s) (bufs i)
}.

Lemma unread_empty st i buf : tb_wf st i buf -> used st buf = 0 -> unread st i buf = [].
Proof. intros Hwf Hu. unfold unread. by rewrite Hu. Qed.

Lemma used_empty st i buf : tb_wf st i buf -> unread st i buf = [] -> used st buf = 0.
Proof.
  intros Hwf Hu. rewrite <- (unread_length st i buf [] []); [done|done|]. by rewrite Hu.
Qed.

Lemma pass_step fuel s n s' :
  (n < num)%nat -> buffers_ok (hyp s) -> file_mode s -> pass_inv s n s' ->
  wp (scan_buffer sys_write statvfs idle fuel (data_size (hyp s)) (Z.of_nat n))
     (fun _ s'' => pass_inv s (S n) s'') s'.
Proof.
  intros Hn [Hwf Hrd Hsep] Hf [Po Pi [m Pm] Pout Pdone Ptodo].
  set (i := Z.of_nat n) in *.
  destruct (Ptodo i ltac:(lia)) as (Hwi & Hui & Hus & Hci).
  assert (Hds : data_size (hyp s') = data_size (hyp s)) by by rewrite Pm.
  assert (Hit : take (S n) (iota num) = take n (iota num) ++ [i]).
  { apply take_S_r. apply iota_lookup. lia. }
  destruct (decide (used (hyp s') (bufs i) = 0)) as [Hz|Hz].
  - eapply wp_intro; [by apply (scan_buffer_idle _ _ _ _ _ _ (bufs i))|].
    split; simpl; try done; [by exists m| | |].
    + rewrite Pout, Hit, flat_map_app. simpl. unfold window_image at 3. rewrite <- Hus, Hz. simpl.
      by rewrite !app_nil_r.
    + intros j Hj. destruct (decide (j = i)) as [->|]; [|apply Pdone; lia].
      split_and!; [done|by eapply unread_empty|done].
    + intros j Hj. apply Ptodo. lia.
  - destruct (scan_buffer_ok sys_write statvfs idle write_ok fuel s' i (bufs i) [])
      as (s2 & runs & E & Ho & _ & _ & _ & Hw2 & Hu2 & Hh2 & Ho2 & Hi2); try done.
    + destruct Hf. split; by rewrite Po.
    + by apply appended_refl.
    + destruct (Hrd i ltac:(lia)) as [H|H]; [congruence|]. by rewrite Hci, Hds.
    + rewrite Hds in E. eapply wp_intro; [exact E|]. simpl in Hh2.
      assert (Hoth : forall j, 0 <= j < Z.of_nat num -> j <> i -> tb_wf (hyp s') j (bufs j) ->
        tb_wf (hyp s2) j (bufs j) /\ unread (hyp s2) j (bufs j) = unread (hyp s') j (bufs j) /\
        used (hyp s2) (bufs j) = used (hyp s') (bufs j) /\
        buf_cons (hyp s2) (bufs j) = buf_cons (hyp s') (bufs j)).
      { intros j Hj Hne Hwj. rewrite Hh2.
        assert (Hs : forall k l, 0 <= k < opt_tbuf_size (hyp s') -> 0 <= l < opt_tbuf_size (hyp s') ->
          frame (hyp s') i k <> frame (hyp s') j l).
        { intros k l. rewrite Pm. intros Hk Hl. apply (Hsep i j k l); try done; lia. }
        destruct (other_kept (hyp s') i j (bufs i) (bufs j) (buf_prod (hyp s') (bufs i)) Hwi Hwj Hs)
          as (H1 & H2 & H3).
        destruct (other_header (hyp s') i j (bufs i) (bufs j) (buf_prod (hyp s') (bufs i)) Hwi Hwj Hs)
          as [H4 _]. done. }
      split; try congruence.
      * rewrite Hh2, Pm. by eexists.
      * rewrite Ho, Pout, Hit, flat_map_app, <- app_assoc. do 2 f_equal. simpl. rewrite app_nil_r.
        unfold window_image. rewrite <- Hus, Hui, (proj2 (Z.eqb_neq _ _)) by done. done.
      * intros j Hj. destruct (decide (j = i)) as [->|]; [split_and!; [done|done|by eapply used_empty]|].
        destruct (Pdone j ltac:(lia)) as (H1 & H2 & H3).
        destruct (Hoth j ltac:(lia) ltac:(done) H1) as (H4 & H5 & H6 & _).
        split_and!; congruence.
      * intros j Hj. destruct (Ptodo j ltac:(lia)) as (H1 & H2 & H3 & H4).
        destruct (Hoth j ltac:(lia) ltac:(lia) H1) as (H5 & H6 & H7 & H8).
        split_and!; congruence.
Qed.

Lemma scan_all_ok fuel s :
  buffers_ok (hyp s) -> file_mode s ->
  wp (scan_all sys_write statvfs idle fuel num (data_size (hyp s))) (fun _ s' => pass_inv s num s') s.
Proof.
  intros Hb Hf. apply (wp_for_each _ _ (fun n s' => pass_inv s n s')).
  - split; try done; [exists (mem (hyp s)); by destruct (hyp s)|simpl; by rewrite app_nil_r|lia|].
    intros i Hi. split_and!; try done. apply (bo_wf _ Hb). lia.
  - intros n i s' Hl Hp. apply iota_lookup_Some in Hl as [-> Hn]. by apply pass_step.
  - intros s' Hp. by rewrite iota_length in Hp.
Qed.

(** After a pass there is nothing to read. *)
Lemma pass_quiescent s s' :
  buffers_ok (hyp s) -> pass_inv s num s' -> buffers_ok (hyp s').
Proof.
  intros [_ _ Hsep] [_ _ [m Pm] _ Pdone _]. split.
  - intros i Hi. by apply Pdone.
  - intros i Hi. left. by apply Pdone.
  - by rewrite Pm.
Qed.

Lemma wp_disable_tbufs s Q :
  Q tt (s <| hyp := fold_left (fun st i => st <| lost_records ::= <[i := 0]> |>) online
                     ((hyp s) <| tb_init_done := false |>) |>) ->
  wp (disable_tbufs online) Q s.
Proof. done. Qed.

Lemma fold_lost_kept l : forall st,
  exists lr, fold_left (fun st i => st <| lost_records ::= <[i := 0]> |>) l st = st <| lost_records := lr |>.
Proof.
  induction l as [|i l IH]; intros st; simpl; [exists (lost_records st); by destruct st|].
  destruct (IH (st <| lost_records ::= <[i := 0]> |>)) as [lr ->]. by exists lr.
Qed.

Lemma buffers_ok_control st lr b :
  buffers_ok st -> buffers_ok (st <| tb_init_done := b |> <| lost_records := lr |>).
Proof. intros [Hw Hr Hs]. split; [|done|done]. intros i Hi. destruct (Hw i Hi). by split. Qed.

(** The second pass, with the buffers empty. *)
Lemma second_pass fuel s s1 lr b :
  buffers_ok (hyp s) -> pass_inv s num s1 -> file_mode s1 ->
  wp (scan_all sys_write statvfs idle fuel num (data_size (hyp s1)))
     (fun _ s3 => output s3 = output s1 /\
        (exists m, hyp s3 = (hyp s1) <| tb_init_done := b |> <| lost_records := lr |> <| mem := m |>) /\
        forall i, 0 <= i < Z.of_nat num -> tb_wf (hyp s3) i (bufs i) /\ unread (hyp s3) i (bufs i) = [])
     (s1 <| hyp := (hyp s1) <| tb_init_done := b |> <| lost_records := lr |> |>).
Proof.
  intros Hb P1 Hf1. set (s2 := s1 <| hyp := _ |>).
  assert (Hb2 : buffers_ok (hyp s2)) by (by eapply buffers_ok_control, pass_quiescent).
  change (data_size (hyp s1)) with (data_size (hyp s2)).
  eapply wp_mono; [by apply scan_all_ok|]. intros [] s3 [_ _ Hm Ho Hd _].
  split_and!; [|done|intros i Hi; by destruct (Hd i Hi) as (? & ? & _)].
  rewrite Ho. change (output s2) with (output s1).
  rewrite <- (app_nil_r (output s1)) at 2. f_equal.
  assert (Hz : forall i, 0 <= i < Z.of_nat num -> used (hyp s2) (bufs i) = 0)
    by (intros i Hi; by apply (pi_done _ _ _ P1)).
  rewrite <- (iota_length num) at 1. rewrite firstn_all.
  assert (Hi : forall i, i ∈ iota num -> window_image (hyp s2) i (bufs i) = []).
  { intros i Hi. apply list_elem_of_lookup in Hi as [k Hk]. apply iota_lookup_Some in Hk as [-> Hk].
    unfold window_image. by rewrite Hz by lia. }
  revert Hi. generalize (iota num) as l. induction l as [|i l IH]; intros Hi; [done|].
  cbn [flat_map]. rewrite (Hi i) by (by left). rewrite (IH (fun j Hj => Hi j ltac:(by right))). done.
Qed.

Lemma pass_output s s1 :
  pass_inv s num s1 ->
  output s1 = output s ++ flat_map (fun i => window_image (hyp s) i (bufs i)) (iota num).
Proof.
  intros P. rewrite (pi_out _ _ _ P). do 2 f_equal. rewrite <- (iota_length num) at 1. apply firstn_all.
Qed.

(** One turn of the endless loop. *)
Lemma monitor_loop_eq fuel ds port rounds :
  monitor_loop sys_write statvfs online idle fuel num ds port rounds =
  bind (scan_all sys_write statvfs idle fuel num ds) (fun _ =>
  bind (gets (fun s : xt => s)) (fun s =>
  if interrupted s then
    bind (when (disable_tracing (opts s)) (disable_tbufs online)) (fun _ =>
    bind (scan_all sys_write statvfs idle fuel num ds) (fun _ => ret true))
  else match rounds with
       | [] => ret false
       | r :: rounds' =>
           bind (wait_for_event_or_timeout port r) (fun _ =>
           monitor_loop sys_write statvfs online idle fuel num ds port rounds')
       end)).
Proof. by destruct rounds. Qed.
End Passes.

Lemma run_of_wp {S A} (m : M S A) (Q : S -> Prop) a s :
  wp m (fun r s' => r = a /\ Q s') s -> exists s', m s = Some (a, s') /\ Q s'.
Proof. intros H. apply wp_run in H as (r & s' & E & -> & HQ). by exists s'. Qed.

Section Claims.
Context (sys_write : nat -> Z -> Z) (statvfs : nat -> option Z) (online : list Z).
Hypothesis write_ok : forall k n, sys_write k n = n.

(** C5. One visit to a buffer with unread data, tracing to a file, while the
    hypervisor appends more: no assertion fails, the file grows by the
    cpu-change record and exactly the bytes of the records that were unread
    when the visit began, in order and across the end of the data area; the
    records appended meanwhile stay unread, and the buffer stays well formed.
    The scanner is started once, or twice when the window reaches the end of
    the data area, however many records there are; the first time on the low
    bytes of the two words behind the first record's header. *)
Theorem scan_buffer_drains hv_step fuel s i buf ws :
  let st := hyp s in
  tb_wf st i buf -> file_mode s -> appended st (hv_step (n_hv s) st) i buf ws ->
  used st buf <> 0 -> buf_cons st buf mod data_size st + 8 < data_size st ->
  exists s' runs,
    scan_buffer sys_write statvfs hv_step fuel (data_size st) i s = Some (tt, s') /\
    output s' = output s ++ cpu_change_record i (used st buf) ++ bytes_of (unread st i buf) /\
    tb_wf (hyp s') i buf /\ unread (hyp s') i buf = ws /\
    vmi_runs s' = vmi_runs s ++ runs /\
    length runs = (if buf_cons st buf mod data_size st + used st buf <? data_size st
                   then 1%nat else 2%nat) /\
    (forall r, scanned (unread st i buf) = Some r -> hd_error runs = Some r).
Proof.
  intros st Hwf Hf Ha Hne Hr.
  destruct (scan_buffer_ok sys_write statvfs hv_step write_ok fuel s i buf ws Hwf Hf Ha Hne Hr)
    as (s' & runs & E & Ho & Hv & Hl & Hh & Hw & Hu & _).
  by exists s', runs.
Qed.

(** When the unread data starts in the last eight bytes of the data area
    (a wrap record can), one of the scanner's two bytes is read outside the
    mapping, an access for which the model has no outcome but a fault. *)
Theorem scan_faults_near_end hv_step fuel s i buf :
  let st := hyp s in
  tb_wf st i buf -> file_mode s -> data_size (hv_step (n_hv s) st) = data_size st ->
  used st buf <> 0 -> data_size st <= buf_cons st buf mod data_size st + 8 ->
  scan_buffer sys_write statvfs hv_step fuel (data_size st) i s = None.
Proof.
  intros st Hwf [Hm Hd] Hds Hne Hr.
  pose proof (scan_buffer_unfold sys_write statvfs hv_step fuel s i buf Hwf Hne Hds) as Hu.
  fold st in Hu. rewrite Hu. clear Hu. set (s1 := s <| hyp := _ |> <| n_hv ::= S |>).
  assert (Hf : forall p n t, room p <= 8 -> write_buffer sys_write statvfs fuel i p n t s1 = None).
  { intros p n t Hp. unfold write_buffer, check_disk, run_vmi, bind, gets, bug_on, modify, when, ret.
    change (opts s1) with (opts s). rewrite !Hm, !Hd. cbn [Z.eqb negb andb].
    rewrite (proj2 (Z.leb_le _ _)) by done.
    destruct (t =? 0); cbn [negb]; change (opts s1) with (opts s); rewrite ?Hm; cbn [Z.eqb negb]; [done|].
    destruct (write_out_ok sys_write write_ok (cpu_change_record i t) s1) as (s2 & -> & W). done. }
  unfold copy_window, bind. rewrite Hds.
  destruct (_ + used st buf <? _); rewrite Hf; try done; simpl; lia.
Qed.

(** C36. After a signal the loop makes its two passes and ends: everything
    that was unread in any buffer is in the file, one window per buffer in
    the order of the CPUs, all buffers are empty, and tracing is off unless
    it was to be left on. *)
Theorem signal_drains_all num bufs fuel port rounds s :
  buffers_ok num bufs (hyp s) -> file_mode s -> interrupted s = true ->
  exists s',
    monitor_loop sys_write statvfs online (fun _ st => st) fuel num (data_size (hyp s)) port rounds s
      = Some (true, s') /\
    output s' = output s ++ flat_map (fun i => window_image (hyp s) i (bufs i)) (iota num) /\
    (forall i, 0 <= i < Z.of_nat num ->
       tb_wf (hyp s') i (bufs i) /\ unread (hyp s') i (bufs i) = []) /\
    (disable_tracing (opts s) = true -> tb_init_done (hyp s') = false).
Proof.
  intros Hb Hf Hint. apply (run_of_wp _ (fun s' => output s' = _ /\ _ /\ _)).
  rewrite monitor_loop_eq. apply wp_bind.
  eapply wp_mono; [by apply scan_all_ok|]. intros [] s1 P1.
  apply wp_bind, wp_gets. rewrite (pi_int _ _ _ _ _ P1), Hint, (pi_opts _ _ _ _ _ P1).
  assert (Hf1 : file_mode s1) by (destruct Hf; split; by rewrite (pi_opts _ _ _ _ _ P1)).
  assert (Hd1 : data_size (hyp s1) = data_size (hyp s))
    by (destruct (pi_mem _ _ _ _ _ P1) as [m ->]; done).
  rewrite <- Hd1, <- (pass_output _ _ _ _ P1).
  apply wp_bind, wp_when; intros Hdt.
  - apply wp_disable_tbufs. destruct (fold_lost_kept online ((hyp s1) <| tb_init_done := false |>)) as [lr ->].
    apply wp_bind. eapply wp_mono; [by apply (second_pass sys_write statvfs write_ok num bufs fuel s
      s1 lr false)|]. intros [] s3 (Ho & [m Hm] & Hu). apply wp_ret. split; [done|].
    split_and!; try done. by rewrite Hm.
  - pose proof (second_pass sys_write statvfs write_ok num bufs fuel s s1
      (lost_records (hyp s1)) (tb_init_done (hyp s1)) Hb P1 Hf1) as W2.
    assert (s1 <| hyp := (hyp s1) <| tb_init_done := tb_init_done (hyp s1) |>
              <| lost_records := lost_records (hyp s1) |> |> = s1) as Es
      by (destruct s1 as [? ? ? ? [] ]; done).
    rewrite Es in W2. apply wp_bind. eapply wp_mono; [exact W2|].
    intros [] s3 (Ho & [m Hm] & Hu). apply wp_ret. split; [done|]. split_and!; try done. congruence.
Qed.
End Claims.

(** ** From VMFUNC to the scanner *)

Section EndToEnd.
Context {T : Type} (plat : platform).
Context (debug : bool) (get_cycles : nat -> Z) (uninit : nat -> Z).
Context (sys_write : nat -> Z -> Z) (statvfs : nat -> option Z).
Hypothesis write_ok : forall k n, sys_write k n = n.

Lemma u8_u32 x : u8 (u32 x) = u8 x.
Proof. unfold u8, u32. change (2 ^ 32) with (2 ^ 8 * 2 ^ 24). rewrite Z.rem_mul_r by lia. dlia. Qed.

Lemma scanned_vmfunc dom idx : scanned (vmfunc_record dom idx) = Some (u8 dom, u8 idx).
Proof. unfold scanned, vmfunc_record. by rewrite !u8_u32. Qed.

End EndToEnd.

(** ** The memory buffer *)

Lemma mb_store_kept bs : forall a m,
  mb_prod (mb_store a bs m) = mb_prod m /\ mb_cons (mb_store a bs m) = mb_cons m /\
  mb_size (mb_store a bs m) = mb_size m /\ pending_size (mb_store a bs m) = pending_size m /\
  pending_prod (mb_store a bs m) = pending_prod m.
Proof.
  induction bs as [|b bs IH]; intros a m; [done|]. simpl.
  by edestruct (IH (a + 1)) as (-> & -> & -> & -> & ->).
Qed.

Lemma mb_store_bytes bs : forall a m, mb_buf (mb_store a bs m) = mem_write a bs (mb_buf m).
Proof. induction bs as [|b bs IH]; intros a m; [done|]. simpl. by rewrite IH. Qed.

Lemma mb_store_inside bs : forall a m,
  a + Z.of_nat (length bs) <= mb_size m -> mb_oob (mb_store a bs m) = mb_oob m.
Proof.
  induction bs as [|b bs IH]; intros a m H; [done|]. simpl length in H. simpl.
  rewrite IH by (simpl; lia). simpl. rewrite (proj2 (Z.ltb_lt _ _)) by lia. apply orb_false_r.
Qed.

Lemma mb_store_flag bs : forall a m, mb_oob m = true -> mb_oob (mb_store a bs m) = true.
Proof. induction bs as [|b bs IH]; intros a m H; [done|]. simpl. apply IH. simpl. by rewrite H. Qed.

Lemma mb_store_past bs : forall a m,
  (0 < length bs)%nat -> mb_size m < a + Z.of_nat (length bs) -> mb_oob (mb_store a bs m) = true.
Proof.
  induction bs as [|b bs IH]; intros a m Hl H; [simpl in Hl; lia|]. simpl length in H. simpl.
  destruct bs as [|b' bs].
  - simpl. rewrite (proj2 (Z.ltb_ge _ _)) by (simpl in H; lia). apply orb_true_r.
  - apply IH; [simpl; lia|simpl in *; lia].
Qed.

(** The buffer holds [img], from its start, with no window pending. *)
Record mb_holds (m : membuf_t) (img : list Z) : Prop := {
  mh_cons : mb_cons m = 0;
  mh_prod : mb_prod m = Z.of_nat (length img);
  mh_pending : pending_size m = 0;
  mh_size : Z.of_nat (length img) < mb_size m <= MEMBUF_INDEX_RESET_THRESHOLD;
  mh_oob : mb_oob m = false;
  mh_bytes : forall k, 0 <= k < Z.of_nat (length img) -> rd (mb_buf m) k = nth (Z.to_nat k) img 0
}.

Lemma s64_small z : - 2 ^ 63 <= z < 2 ^ 63 -> s64 z = z.
Proof. intros. unfold s64. rewrite Z.mod_small; lia. Qed.

Lemma cpu_change_length cpu w : length (cpu_change_record cpu w) = 12%nat.
Proof. done. Qed.

Lemma length_bytes_at p n : length (bytes_at p n) = Z.to_nat n.
Proof. unfold bytes_at. by rewrite length_map, length_seqZ. Qed.

(** Reserving a window that needs no eviction. *)
Lemma reserve_free fuel cpu w s :
  let m := membuf s in
  pending_size m = 0 -> 0 <= w <= mb_size m -> 0 <= mb_size m <= MEMBUF_INDEX_RESET_THRESHOLD ->
  0 <= mb_prod m - mb_cons m -> w + CPU_CHANGE_SIZE < mb_size m - (mb_prod m - mb_cons m) ->
  membuf_reserve_window fuel cpu w s =
  Some (tt, s <| membuf := (mb_store (MEMBUF_POINTER m (mb_prod m)) (cpu_change_record cpu w)
         (m <| pending_prod := mb_prod m |> <| pending_size := w |>))
         <| pending_prod ::= fun p => u64 (p + CPU_CHANGE_SIZE) |> |>).
Proof.
  intros m Hp Hw Hs Hd Hfree. unfold MEMBUF_INDEX_RESET_THRESHOLD, CPU_CHANGE_SIZE in *.
  unfold membuf_reserve_window, mb_get, bind, gets. fold m. rewrite Hp. cbn [Z.ltb Z.compare].
  rewrite (proj2 (Z.ltb_ge (mb_size m) w)) by lia. unfold CPU_CHANGE_SIZE.
  rewrite !s64_small by lia. rewrite (proj2 (Z.ltb_lt _ _)) by lia. reflexivity.
Qed.

Lemma membuf_write_ok start w s :
  let m := membuf s in
  pending_size m = w -> 0 < w -> 0 <= mb_prod m - mb_cons m ->
  w <= mb_size m - (mb_prod m - mb_cons m) -> mb_size m <= MEMBUF_INDEX_RESET_THRESHOLD ->
  0 <= pending_prod m -> pending_prod m + w <= mb_size m -> mb_prod m <= pending_prod m + w ->
  membuf_write start w s =
  Some (tt, s <| membuf := (mb_store (pending_prod m) (bytes_at start w) m)
         <| pending_prod := pending_prod m + w |> <| pending_size := 0 |>
         <| mb_prod := pending_prod m + w |> |>).
Proof.
  intros m Hp Hw Hd Hfree Hs Hpp Hpw Hprod. unfold MEMBUF_INDEX_RESET_THRESHOLD in *.
  unfold membuf_write, mb_get, bind at 1, gets. fold m.
  rewrite u64_small by lia. rewrite (proj2 (Z.ltb_ge _ w)), Hp, (proj2 (Z.ltb_ge w w)) by lia.
  unfold MEMBUF_POINTER. rewrite Z.mod_small by lia. rewrite (proj2 (Z.ltb_ge (mb_size m) _)) by lia.
  cbn zeta. set (m1 := mb_store (pending_prod m) (bytes_at start w) m).
  destruct (mb_store_kept (bytes_at start w) (pending_prod m) m) as (K1 & K2 & K3 & K4 & K5).
  fold m1 in K1, K2, K3, K4, K5.
  unfold bind, mb_upd, modify, when. cbn. rewrite K4, K5, Hp, Z.sub_diag, u64_small by lia. cbn [Z.eqb].
  unfold MEMBUF_PROD_SET, mb_get, bind, gets, mb_upd, modify, when. cbn.
  rewrite K1, (proj2 (Z.ltb_ge _ _)) by lia.
  unfold MEMBUF_INDEX_RESET_THRESHOLD. rewrite (proj2 (Z.ltb_ge (2 ^ 29) _)) by lia. cbn.
  unfold ret, set. cbn. by rewrite K4, K5, Hp, Z.sub_diag, u64_small by lia.
Qed.

Section Memory.
Context (sys_write : nat -> Z -> Z) (statvfs : nat -> option Z).
Hypothesis write_ok : forall k n, sys_write k n = n.

(** A window to be copied: its CPU, where it lies, its size. *)
Definition window : Type := Z * ptr * Z.
Definition memory_image (x : window) : list Z :=
  cpu_change_record x.1.1 x.2 ++ bytes_at (byte_at x.1.2) x.2.

Lemma memory_image_length x : 0 <= x.2 -> Z.of_nat (length (memory_image x)) = CPU_CHANGE_SIZE + x.2.
Proof.
  intros. unfold memory_image. rewrite length_app, cpu_change_length, length_bytes_at.
  unfold CPU_CHANGE_SIZE. lia.
Qed.

Lemma write_buffer_memory fuel cpu p w s :
  memory_buffer (opts s) <> 0 -> w <> 0 ->
  write_buffer sys_write statvfs fuel cpu p w w s =
  bind (membuf_reserve_window fuel cpu w) (fun _ => membuf_write (byte_at p) w) s.
Proof.
  intros Hm Hw. apply Z.eqb_neq in Hm, Hw.
  unfold write_buffer, check_disk, when. rewrite Hw. unfold bind, gets, ret.
  rewrite !Hm. cbn [negb andb]. rewrite Hm. done.
Qed.

(** What is known of the buffer between the two calls, and after them. *)
Lemma reserve_spec fuel cpu w s img :
  mb_holds (membuf s) img -> 0 < w ->
  Z.of_nat (length img) + 12 + w < mb_size (membuf s) ->
  exists X, membuf_reserve_window fuel cpu w s = Some (tt, s <| membuf := X |>) /\
    mb_prod X = Z.of_nat (length img) /\ mb_cons X = 0 /\ mb_size X = mb_size (membuf s) /\
    pending_size X = w /\ pending_prod X = Z.of_nat (length img) + 12 /\ mb_oob X = false /\
    mb_buf X = mem_write (Z.of_nat (length img)) (cpu_change_record cpu w) (mb_buf (membuf s)).
Proof.
  intros [Hc Hp Hpe Hs Hoob Hb] Hw Hfit. unfold MEMBUF_INDEX_RESET_THRESHOLD in Hs.
  eexists. split.
  { apply reserve_free; [exact Hpe| | | |]; unfold CPU_CHANGE_SIZE, MEMBUF_INDEX_RESET_THRESHOLD; lia. }
  unfold MEMBUF_POINTER. rewrite Hp, Z.mod_small by lia.
  destruct (mb_store_kept (cpu_change_record cpu w) (Z.of_nat (length img))
    (set pending_size (fun _ => w) (set pending_prod (fun _ => Z.of_nat (length img)) (membuf s))))
    as (K1 & K2 & K3 & K4 & K5).
  pose proof (mb_store_bytes (cpu_change_record cpu w) (Z.of_nat (length img))
    (set pending_size (fun _ => w) (set pending_prod (fun _ => Z.of_nat (length img)) (membuf s)))) as K6.
  pose proof (mb_store_inside (cpu_change_record cpu w) (Z.of_nat (length img))
    (set pending_size (fun _ => w) (set pending_prod (fun _ => Z.of_nat (length img)) (membuf s)))) as K7.
  rewrite cpu_change_length in K7. specialize (K7 ltac:(simpl; lia)).
  revert K1 K2 K3 K4 K5 K6 K7. generalize (mb_store (Z.of_nat (length img)) (cpu_change_record cpu w)
    (set pending_size (fun _ => w) (set pending_prod (fun _ => Z.of_nat (length img)) (membuf s)))).
  intros X. simpl. intros -> -> -> -> -> -> ->. rewrite u64_small; unfold CPU_CHANGE_SIZE; [|lia].
  split_and!; trivial.
Qed.

Lemma pending_write_spec start w s n :
  let X := membuf s in
  mb_prod X = n -> mb_cons X = 0 -> pending_size X = w -> pending_prod X = n + 12 ->
  mb_oob X = false -> 0 <= n -> 0 < w -> n + 12 + w < mb_size X <= MEMBUF_INDEX_RESET_THRESHOLD ->
  exists Y, membuf_write start w s = Some (tt, s <| membuf := Y |>) /\
    mb_prod Y = n + 12 + w /\ mb_cons Y = 0 /\ mb_size Y = mb_size X /\ pending_size Y = 0 /\
    mb_oob Y = false /\ mb_buf Y = mem_write (n + 12) (bytes_at start w) (mb_buf X).
Proof.
  intros X Hp Hc Hps Hpp Hoob Hn Hw Hs.
  eexists. split; [apply membuf_write_ok; fold X; try lia; exact Hps|]. fold X. rewrite Hpp.
  destruct (mb_store_kept (bytes_at start w) (n + 12) X) as (_ & K2 & K3 & _ & _).
  pose proof (mb_store_bytes (bytes_at start w) (n + 12) X) as K6.
  pose proof (mb_store_inside (bytes_at start w) (n + 12) X) as K7.
  rewrite length_bytes_at in K7. specialize (K7 ltac:(lia)).
  revert K2 K3 K6 K7. generalize (mb_store (n + 12) (bytes_at start w) X).
  intros Y. simpl. intros -> -> -> ->. split_and!; trivial.
Qed.

Lemma memory_window fuel x s img :
  memory_buffer (opts s) <> 0 -> mb_holds (membuf s) img -> 0 < x.2 ->
  Z.of_nat (length img) + CPU_CHANGE_SIZE + x.2 < mb_size (membuf s) ->
  wp (write_buffer sys_write statvfs fuel x.1.1 x.1.2 x.2 x.2)
     (fun _ s' => opts s' = opts s /\ output s' = output s /\ vmi_runs s' = vmi_runs s /\
        mb_size (membuf s') = mb_size (membuf s) /\ mb_holds (membuf s') (img ++ memory_image x)) s.
Proof.
  intros Hmem Hh Hw Hfit. destruct x as [[cpu p] w]. cbn [fst snd] in *.
  unfold CPU_CHANGE_SIZE in *. pose proof (mh_size _ _ Hh) as Hs.
  destruct (reserve_spec fuel cpu w s img Hh Hw Hfit) as (X & R & X1 & X2 & X3 & X4 & X5 & X6 & X7).
  destruct (pending_write_spec (byte_at p) w (s <| membuf := X |>) (Z.of_nat (length img)))
    as (Y & W & Y1 & Y2 & Y3 & Y4 & Y5 & Y6);
    try (cbn [membuf set]; assumption); try lia.
  { change (membuf (s <| membuf := X |>)) with X. rewrite X3. lia. }
  eapply wp_intro.
  { rewrite write_buffer_memory; [|exact Hmem|lia]. unfold bind. rewrite R. exact W. }
  pose proof (memory_image_length (cpu, p, w) ltac:(simpl; lia)) as Hil.
  unfold CPU_CHANGE_SIZE in Hil. cbn [snd] in Hil. simpl in Y3, Y6.
  simpl. split_and!; trivial; [congruence|]. split; rewrite ?length_app; try congruence; try lia.
  intros k Hk. rewrite Y6, X7.
  change 12 with (Z.of_nat 12). rewrite <- (cpu_change_length cpu w), <- mem_write_app.
  change (cpu_change_record cpu w ++ bytes_at (byte_at p) w) with (memory_image (cpu, p, w)).
  destruct (decide (k < Z.of_nat (length img))).
  - rewrite rd_mem_write_out by lia. rewrite (mh_bytes _ _ Hh) by lia. by rewrite app_nth1 by lia.
  - rewrite rd_mem_write_in by lia. rewrite app_nth2 by lia. f_equal. lia.
Qed.

Lemma memory_windows fuel ws : forall s img,
  memory_buffer (opts s) <> 0 -> mb_holds (membuf s) img -> Forall (fun x : window => 0 < x.2) ws ->
  Z.of_nat (length (img ++ flat_map memory_image ws)) < mb_size (membuf s) ->
  wp (for_each ws (fun x => write_buffer sys_write statvfs fuel x.1.1 x.1.2 x.2 x.2))
     (fun _ s' => output s' = output s /\ vmi_runs s' = vmi_runs s /\
        mb_holds (membuf s') (img ++ flat_map memory_image ws)) s.
Proof.
  induction ws as [|x ws IH]; intros s img Hm Hh Hw Hfit; simpl.
  - apply wp_ret. by rewrite app_nil_r.
  - inversion Hw as [|? ? Hx Hws]; subst. simpl in Hfit.
    rewrite app_assoc in Hfit |- *. apply wp_bind. eapply wp_mono.
    { apply (memory_window fuel x s img); [done|done|done|].
      rewrite !length_app in Hfit. pose proof (memory_image_length x ltac:(lia)). lia. }
    intros [] s1 (Ho & Hout & Hv & Hs & Hh1). eapply wp_mono.
    { apply (IH s1 (img ++ memory_image x)); [congruence|done|done|congruence]. }
    intros [] s2 (Hout2 & Hv2 & Hh2). split_and!; [congruence|congruence|done].
Qed.

Lemma dump_spec s img :
  img <> [] -> mb_holds (membuf s) img ->
  wp (membuf_dump sys_write) (fun _ s' => output s' = output s ++ img /\ vmi_runs s' = vmi_runs s) s.
Proof.
  intros Hne [Hc Hp _ Hs _ Hb]. assert (Hl : 0 < Z.of_nat (length img)) by (destruct img; [done|simpl; lia]).
  unfold membuf_dump. apply wp_bind, wp_gets. rewrite Hc, Hp, !Z.mod_small by lia.
  rewrite (proj2 (Z.ltb_lt _ _)) by lia. apply wp_bind.
  destruct (write_out_ok sys_write write_ok
    (bytes_at (fun j => rd (mb_buf (membuf s)) (0 + j)) (Z.of_nat (length img) - 0)) s) as (s1 & E & W).
  eapply wp_intro; [exact E|]. apply wp_modify. simpl.
  rewrite (wr_out _ _ _ _ W), (wr_runs _ _ _ _ W), app_nil_r. split; [|done]. f_equal.
  rewrite Z.sub_0_r. unfold bytes_at. rewrite <- (map_nth_seqZ img 0 _ eq_refl) at 2.
  apply map_ext_in. intros k Hk. apply list_elem_of_In, elem_of_seqZ in Hk.
  rewrite Z.add_0_l, Hb by lia. by rewrite Z.sub_0_r.
Qed.

(** C37. Tracing to the circular memory buffer: windows copied into a fresh
    buffer that has room for all of them, and then dumped, give the file
    exactly their images in order: for each a cpu-change record and its bytes.
    In this mode the scanner is never started. *)
Theorem memory_buffer_dumps fuel ws s size :
  memory_buffer (opts s) <> 0 -> membuf s = mkMembuf ∅ 0 0 size 0 0 false ->
  size <= MEMBUF_INDEX_RESET_THRESHOLD -> ws <> [] -> Forall (fun x : window => 0 < x.2) ws ->
  Z.of_nat (length (flat_map memory_image ws)) < size ->
  exists s',
    bind (for_each ws (fun x => write_buffer sys_write statvfs fuel x.1.1 x.1.2 x.2 x.2))
         (fun _ => membuf_dump sys_write) s = Some (tt, s') /\
    output s' = output s ++ flat_map memory_image ws /\ vmi_runs s' = vmi_runs s.
Proof.
  intros Hm Hf Hs Hne Hw Hfit. apply (run_of_wp _ (fun s' => output s' = _ /\ vmi_runs s' = _)).
  apply wp_bind. eapply wp_mono.
  { apply (memory_windows fuel ws s []); [done| |done|by rewrite Hf].
    rewrite Hf. split; simpl; try done; lia. }
  intros [] s1 (Ho & Hv & Hh). simpl in Hh. eapply wp_mono.
  { apply (dump_spec s1 (flat_map memory_image ws)); [|exact Hh].
    destruct ws as [|x ws]; [done|]. cbn [flat_map]. intros E. apply (f_equal length) in E.
    inversion Hw; subst. pose proof (memory_image_length x ltac:(lia)).
    rewrite length_app in E. simpl in E. unfold CPU_CHANGE_SIZE in *. lia. }
  intros [] s2 [Ho2 Hv2]. split; [done|]. split; congruence.
Qed.
End Memory.

Lemma pending_oob s f (X : membuf_t) :
  mb_oob X = true -> mb_oob (membuf (s <| membuf := X <| pending_prod ::= f |> |>)) = true.
Proof. intros H. exact H. Qed.

(** The cpu-change record of a window is stored as one piece at the
    producer: when that is within eleven bytes of the end of the memory
    buffer, the store runs past the allocation. *)
Theorem membuf_header_overruns fuel cpu w s :
  let m := membuf s in
  pending_size m = 0 -> 0 <= w -> 0 < mb_size m <= MEMBUF_INDEX_RESET_THRESHOLD ->
  0 <= mb_prod m - mb_cons m -> w + CPU_CHANGE_SIZE < mb_size m - (mb_prod m - mb_cons m) ->
  mb_size m - CPU_CHANGE_SIZE < mb_prod m mod mb_size m ->
  exists s', membuf_reserve_window fuel cpu w s = Some (tt, s') /\ mb_oob (membuf s') = true.
Proof.
  intros m Hp Hw Hs Hd Hfree Hend. unfold m in *. eexists. split.
  - apply reserve_free; [exact Hp|unfold CPU_CHANGE_SIZE in *; lia|lia|exact Hd|exact Hfree].
  - apply pending_oob, mb_store_past; rewrite cpu_change_length; [lia|].
    change (mb_size (membuf s) < mb_prod (membuf s) mod mb_size (membuf s) + 12).
    unfold CPU_CHANGE_SIZE in *. lia.
Qed.

(** ** Concrete runs *)

Definition demo_settings (mem : Z) : settings := mkSettings 100 0 None 32 0 0 mem false true false.
Definition demo_xt (mem : Z) (st : tstate) (int : bool) : xt :=
  mkXt (demo_settings mem) (mkMembuf ∅ 0 0 4096 0 0 false) [] [] st int 0 0 0.
Definition full_write : nat -> Z -> Z := fun _ n => n.

(** A buffer whose unread data is a 4-byte wrap record and 12 bytes more. *)
Definition demo_wrapped : tstate := (demo_state 4100 0) <| mem ::= <[5 * 1024 := 4084]> |>.

Lemma demo_wrapped_wf : tb_wf demo_wrapped 0 (5 * 1024).
Proof.
  split; try (vm_compute; reflexivity); try (vm_compute; split; discriminate || reflexivity).
  - simpl. intros j k Hj Hk _. lia.
  - vm_compute. discriminate.
Qed.

Lemma scan_buffer_drains_witness :
  exists s', scan_buffer full_write (fun _ => None) (fun _ st => st) 0 4088 0
               (demo_xt 0 (demo_state 12 0) false) = Some (tt, s') /\
    output s' = cpu_change_record 0 12 ++ bytes_of [0; 0; 0] /\ unread (hyp s') 0 (5 * 1024) = [].
Proof.
  destruct (scan_buffer_drains full_write (fun _ => None) (fun _ _ => eq_refl) (fun _ st => st) 0
    (demo_xt 0 (demo_state 12 0) false) 0 (5 * 1024) []) as (s' & runs & E & Ho & _ & Hu & _).
  - apply demo_wf; [lia | reflexivity].
  - split; reflexivity.
  - apply appended_refl, demo_wf; [lia | reflexivity].
  - vm_compute. discriminate.
  - vm_compute. reflexivity.
  - exists s'. split; [exact E | split; [exact Ho | exact Hu]].
Defined.

Lemma scan_faults_near_end_witness :
  scan_buffer full_write (fun _ => None) (fun _ st => st) 0 4088 0
    (demo_xt 0 demo_wrapped false) = None.
Proof.
  apply (scan_faults_near_end full_write (fun _ => None) (fun _ _ => eq_refl) (fun _ st => st) 0
    (demo_xt 0 demo_wrapped false) 0 (5 * 1024)).
  - exact demo_wrapped_wf.
  - split; reflexivity.
  - reflexivity.
  - vm_compute. discriminate.
  - vm_compute. discriminate.
Defined.

Lemma signal_drains_all_witness :
  exists s', monitor_loop full_write (fun _ => None) [0] (fun _ st => st) 0 1 4088 7 []
               (demo_xt 0 (demo_state 12 0) true) = Some (true, s') /\
    output s' = window_image (demo_state 12 0) 0 (5 * 1024) ++ [] /\ tb_init_done (hyp s') = false.
Proof.
  destruct (signal_drains_all full_write (fun _ => None) [0] (fun _ _ => eq_refl) 1 (fun _ => 5 * 1024) 0 7 []
    (demo_xt 0 (demo_state 12 0) true)) as (s' & E & Ho & _ & Ht).
  - split.
    + intros i Hi. assert (i = 0) as -> by lia. apply demo_wf; [lia | reflexivity].
    + intros i Hi. right. vm_compute. reflexivity.
    + intros i j k l Hi Hj Hne. exfalso. apply Hne. lia.
  - split; reflexivity.
  - reflexivity.
  - exists s'. split; [exact E | split; [exact Ho | apply Ht; reflexivity]].
Defined.


Lemma memory_buffer_dumps_witness :
  exists s', bind (for_each [(0, mkPtr (fun _ => 7) 8, 8)]
      (fun x => write_buffer full_write (fun _ => None) 0 x.1.1 x.1.2 x.2 x.2))
      (fun _ => membuf_dump full_write) (demo_xt 4096 (demo_state 0 0) false) = Some (tt, s') /\
    output s' = memory_image (0, mkPtr (fun _ => 7) 8, 8) ++ [] /\ vmi_runs s' = [].
Proof.
  apply (memory_buffer_dumps full_write (fun _ => None) (fun _ _ => eq_refl) 0
    [(0, mkPtr (fun _ => 7) 8, 8)] (demo_xt 4096 (demo_state 0 0) false) 4096);
    [discriminate | reflexivity | discriminate | discriminate | repeat constructor | reflexivity].
Defined.

Lemma membuf_header_overruns_witness :
  exists s', membuf_reserve_window 0 1 40
      ((demo_xt 4096 (demo_state 0 0) false) <| membuf := mkMembuf ∅ 4090 4000 4096 0 0 false |>)
      = Some (tt, s') /\ mb_oob (membuf s') = true.
Proof.
  apply (membuf_header_overruns 0 1 40
    ((demo_xt 4096 (demo_state 0 0) false) <| membuf := mkMembuf ∅ 4090 4000 4096 0 0 false |>));
    simpl; unfold CPU_CHANGE_SIZE, MEMBUF_INDEX_RESET_THRESHOLD; try lia; vm_compute; reflexivity.
Defined.
